(* ===== verification/_CoqProject ===== *)
-Q . S2P
Prelude.v
GoStrings.v
GoFloat.v
Go.v
OS.v
Models.v
Languages.v
FilePath.v
Json.v
JsonString.v
JsonNumber.v
JsonTime.v
Codec.v
JsonIndent.v
Affinity.v
Watchdog.v
Sandbox.v
NativeSandbox.v
DockerSandbox.v
DevSandbox.v
Select.v
Engine.v
Chan.v
Queue.v
Events.v
Store.v
Wire.v
Cli.v
Redis.v
RedisBus.v
Api.v
WebSocket.v
Routes.v
Standalone.v
Services.v
Metrics.v
Security.v
Worker.v
Pool.v
Processing.v
Mains.v
