(* ===== verification/Prelude.v ===== *)
(** * SpeedCode remote runtime engine: a verification library

    SpeedCode takes source code with test cases, runs it in a sandbox and
    reports a verdict.  An API process puts a submission on a queue and its
    state in a store; workers take submissions off the queue, compile and run
    them, save states and publish events that a WebSocket hands to the client.
    The command line engine runs one request directly.  This library models
    the Go packages under pkg/ and the commands under cmd/ as Rocq definitions
    one can run, and proves what makes them correct.

    ** How the model is made

    Go code without effects is a function.  Code that talks to its host or to
    a service is a program, a finite tree of effects and their answers (Go.v):
    panics, [defer], [recover] and error values are part of it.  A property of
    a program is a [wp] statement over its trace: it holds whatever the host
    answers, including failures of every call; [run] executes a program against
    an environment that is itself a model of the components behind the calls.
    Code that several goroutines run on shared state (the queue, the event bus,
    the store, the pool, a Redis subscription) is a step relation whose labels
    are the atomic sections of the code; properties are invariants of its
    reachable states, under every interleaving.  Machine integers are Z with
    int64 wrap-around written out where the code computes with them; floats are
    IEEE binary64.

    Loops over data are structural recursions and programs are finite trees, so
    a [wp] statement is a total correctness statement.  Fuel occurs in four
    places.  The JSON reader recurses on [fuel_for], twice the length of its
    input and two, which [parse_fuel] proves enough: more never changes the
    answer.  Loops over the runes of a string take its length, since each turn
    consumes a byte.  The search for the shortest decimal of a float tries up to
    seventeen digits, which always identify a binary64.  The select loop of a WebSocket session, which a client can
    keep up for ever, takes the number of selects the session sees; theorems
    about sessions hold for every number, and [standalone_stream_complete]
    says how many are enough for a stream to end by itself.

    ** Files

    - Prelude, GoStrings, GoFloat, Go, OS, FilePath, Chan: what the code uses of
      the language and its standard library: int64, strings, strconv,
      bufio.Scanner, float64, errors, programs with their [wp] calculus, the
      effects of the host, path/filepath, buffered channels.
    - Json, JsonString, JsonNumber, JsonTime, Codec, JsonIndent: encoding/json:
      the text of a value and its reader, string escapes and UTF-8, integers
      and shortest floats, RFC 3339 times, structs with tags and omitempty as
      codecs with the laws [codec_laws] (what is written reads back) and
      [codec_typed] (what is read is of its type), and MarshalIndent.
    - Models (pkg/models): requests, results, verdicts and [Normalize].
    - Languages (pkg/languages): the handlers and their registry.
    - Affinity, Watchdog, Sandbox (pkg/sandbox: affinity*.go, watchdog.go,
      sandbox.go): the core counter and the affinity mask, the bounded output
      buffer, and the interface of a backend with its contract [SandboxSpec].
    - NativeSandbox, DockerSandbox, DevSandbox (native_linux.go and
      native_fallback.go, docker.go, dev_process.go): the three backends, each
      with an instance of [SandboxSpec].
    - Select (SelectSandbox of sandbox.go) and Engine (pkg/engine): the choice
      of a backend and the pipeline of one request.  Engine is proved against
      [SandboxSpec] only.
    - Queue, Events, Store (pkg/queue, pkg/events, pkg/store): the records that
      travel between the processes and the in-memory implementations of the
      three interfaces; the store's laws are [StateStoreLaws].
    - Wire: the struct tags of those records, as codecs.
    - Redis, RedisBus (redis_queue.go, redis_store.go, redis_bus.go): the Redis
      implementations, the store as a second instance of [StateStoreLaws].
    - Api, WebSocket, Routes (pkg/api): the handlers of server.go, the session
      of websocket.go, and the handler of the server with its routes, redirects
      and CORS headers.
    - Standalone: those handlers run on the in-memory queue, bus and store, with
      other goroutines taking turns on the bus.
    - Services, Metrics, Security (pkg/metrics, pkg/security): what a worker
      asks of the services, the collectors and recording functions, the audit
      record, the seccomp profile and the file it is written to.
    - Worker (worker.go) and Pool (pool.go) of pkg/worker: the processing of a
      submission, against [SandboxSpec] and any services, and the life cycle of
      the pool of workers.
    - Processing: [ProcessJob] run on the in-memory store and bus, and what the
      clients of Standalone see of it.
    - Cli (cmd/engine/main.go) and Mains (cmd/api/main.go, cmd/worker/main.go):
      the three commands from their parsed flags on.

    ** What is proved

    - Verdicts.  The if-chain of each backend is the first applicable rule over
      the raw output of the program ([native_verdict_rules] and its two
      siblings, [backends_agree]); an ACCEPTED run of the engine or of a
      submission wrote the submitted code to a workspace, compiled it there
      without an error where the language asks for it, ran the program of that
      workspace on the given inputs, in this order, in time and with the expected
      outputs, and removed the workspace afterwards ([Run_accepted_sound],
      [ProcessJob_accepted_sound], which say it of the parts of the trace with
      the predicates [compiler_ran] and [program_ran] of Sandbox.v); the loop over test cases is the reference
      judgement ([judge_spec], [ProcessJob_summary]); the command prints the
      result of what it was asked to run ([engine_main_reports]).
    - Robustness.  Whatever fails, the engine returns a result and the worker
      survives, every submission gets one terminal event that agrees with its
      last saved state, and temporary workspaces are removed ([Run_total],
      [Run_cleans_up], [ProcessJob_total], [ProcessJob_terminal],
      [ProcessJob_protocol]), and no process is started once anything was
      removed; the calls of the metrics library keep its rules
      ([metrics_well_formed]).  Where the code does leave something behind,
      loses something or panics, that is a theorem too ([native_Prepare_leaks],
      [cleanup_after_Close_panics], [queue_panic_is_close_race],
      [pool_stop_is_final], [redis_unsubscribe_race], [daemons_shut_down]; and
      the example [final_event_missed]).
    - Confinement.  Limits are within bounds and computed without overflow
      ([Normalize_bounds], [limits_do_not_overflow]), written before a program
      starts ([native_Prepare_enforces_limits]), the process of a program under
      the cgroup backend is supervised and unprivileged
      ([native_Execute_supervises]), a container is isolated and removed
      ([docker_Execute_one_container]), the buffers are bounded
      ([WriteAll_captures_prefix]), and the seccomp profile denies by default, as
      a container runtime reads it from its file ([WriteProfileToFile_denies]).
    - Gateway.  A request is rejected, refused, lost or accepted with a known
      account of state, job and event ([submit_accounts]); what is decoded is
      well typed ([decoded_well_typed]); URLs lead to their submission
      ([submission_urls]), redirects end ([redirected_once]); a session sends
      the right events and releases everything ([HandleWebSocket_session]).
    - Concurrency.  Both queues are FIFO and lose nothing ([queue_fifo],
      [queue_close_drains], [redis_queue_fifo]), a subscriber of either bus
      sees its events in order ([subscriber_stream], [cleanup_detaches],
      [redis_subscriber_stream]), the pool's counters are right, a stop is
      graceful and comes to an end ([pool_graceful_stop],
      [pool_stop_terminates]).
    - Composition.  In the standalone process a submission can be read back
      after it is accepted and its job is queued ([standalone_submit_then_get]),
      a client is streamed to the end as long as its 64 waiting places hold what
      is published ([standalone_stream_complete]), and
      processing a job brings its state, its events and its clients to the same
      end ([submission_served]).
    - Data.  Both stores return the last write, messages and responses survive
      their encoding ([messages_round_trip], [client_round_trip]), resolution
      and normalization of language names, path confinement of plain IDs, the
      round-robin of cores, comparison of outputs.

    ** Parameters and assumptions

    [UnicodeLower] is the case table for letters outside ASCII, [Platform] the
    operating system the binary is built for, [LocalZone] the time zone table of
    the host, [JsonErrors] the texts of encoding/json's errors, [RedisClient] the
    client library with the documented behaviour of its commands [RedisLaws];
    Redis.v has an instance that keeps them.  Otherwise no property assumes
    anything of the answers of the host or the services beyond their types,
    except where its statement says so.  A completed command tells the
    chunks its output was copied in; the cancellation of the caller's context
    is seen as the end of the command's own timeout.  A method that runs under
    a mutex from start to end is one step, and so is [Publish] of the in-memory
    bus, which holds a read lock (Events.v says why that is enough for one
    subscriber).  The counters of the pool are
    unbounded, and the time a goroutine sleeps is not modelled.  A path of a
    request has no escapes and no query.  In Standalone a connection takes
    every write, and only the bus changes under a session's feet.

    ** Not modelled

    The insides of libraries: the HTTP server's connections and timeouts, the
    upgrade to a WebSocket, the flag parser, Prometheus's registry and metrics
    page, the Redis protocol and the reconnections of its client.  The lines
    written to the process log.  Tests, scripts, images and manifests of the
    deployment. *)

From stdpp Require Export prelude strings list list_numbers gmap.
From Stdlib Require Export ZArith Lia.

#[export] Set Default Goal Selector "!".

(** ** Hint databases and tactics *)

Create HintDb go discriminated.
Create HintDb codec discriminated.
Create Rewrite HintDb go.

Ltac invc H := inversion H; clear H; simplify_eq.

(** Case analysis on every test the goal is stuck on. *)
Ltac case_all :=
  repeat (case_match || case_decide || case_bool_decide); simplify_eq.

Ltac split_all := repeat match goal with |- _ /\ _ => split end.

(** ** 64-bit two's complement integers

    Go's [int64] (and [int] on the 64-bit hosts the engine targets) is
    a [Z] brought back into [[-2^63, 2^63)] by every arithmetic operation. *)

Definition int64_min : Z := - 2 ^ 63.
Definition int64_max : Z := 2 ^ 63 - 1.
Definition int64 (z : Z) : Z := (z + 2 ^ 63) `mod` 2 ^ 64 - 2 ^ 63.
Definition in_int64 (z : Z) : Prop := (int64_min <= z <= int64_max)%Z.

Lemma int64_id z : in_int64 z -> int64 z = z.
Proof.
  unfold in_int64, int64, int64_min, int64_max. intros H.
  rewrite Z.mod_small; lia.
Qed.

Lemma int64_range z : in_int64 (int64 z).
Proof.
  unfold in_int64, int64, int64_min, int64_max.
  pose proof (Z.mod_pos_bound (z + 2 ^ 63) (2 ^ 64) ltac:(lia)). lia.
Qed.

Lemma int64_add_l a b : int64 (int64 a + b) = int64 (a + b).
Proof.
  unfold int64. f_equal.
  replace ((a + 2 ^ 63) `mod` 2 ^ 64 - 2 ^ 63 + b + 2 ^ 63)%Z
    with ((a + 2 ^ 63) `mod` 2 ^ 64 + b)%Z by lia.
  rewrite Zplus_mod_idemp_l. f_equal. lia.
Qed.

#[export] Hint Resolve int64_range : go.
#[export] Hint Rewrite int64_add_l : go.

(** ** Bytes *)

Abbreviation bytes := (list Ascii.ascii).

Definition to_bytes (s : string) : bytes := String.list_ascii_of_string s.
Definition of_bytes (b : bytes) : string := String.string_of_list_ascii b.

Lemma of_to_bytes s : of_bytes (to_bytes s) = s.
Proof. apply String.string_of_list_ascii_of_string. Qed.

Lemma to_of_bytes b : to_bytes (of_bytes b) = b.
Proof. apply String.list_ascii_of_string_of_list_ascii. Qed.

#[export] Hint Rewrite of_to_bytes to_of_bytes : go.

Lemma to_bytes_inj s1 s2 : to_bytes s1 = to_bytes s2 -> s1 = s2.
Proof. intros H. by rewrite <- (of_to_bytes s1), H, of_to_bytes. Qed.

(** The length of a byte sequence, as Go's [len] gives it. *)
Definition len {A} (l : list A) : Z := Z.of_nat (length l).

Lemma len_nonneg {A} (l : list A) : (0 <= len l)%Z.
Proof. unfold len. lia. Qed.

Lemma len_app {A} (l k : list A) : len (l ++ k) = (len l + len k)%Z.
Proof. unfold len. rewrite length_app. lia. Qed.

(** Induction on the length of a list. *)
Lemma length_ind {A} (P : list A -> Prop) :
  (forall l, (forall l', length l' < length l -> P l') -> P l) -> forall l, P l.
Proof. intros H l. by induction (Nat.lt_wf_0_projected (@length A) l) as [l _ IH]; apply H. Qed.

Lemma len_take {A} n (l : list A) :
  len (take (Z.to_nat n) l) = Z.min (Z.max 0 n) (len l).
Proof. unfold len. rewrite length_take. lia. Qed.

#[export] Hint Resolve len_nonneg : go.

(** ** Lists *)

Lemma filter_keeps_all {A} (P : A -> Prop) `{forall x, Decision (P x)} (l : list A) :
  Forall P l -> filter P l = l.
Proof.
  induction 1 as [|x l Hx _ IH]; [done|]. rewrite filter_cons_True by done. by rewrite IH.
Qed.
