(* ===== verification/GoStrings.v ===== *)
(** * Go strings

    A Go string is a byte sequence; it is a [string] here, and the functions
    below work on its list of bytes.  This file models what the engine uses of
    the standard packages [strings], [strconv] and [bufio]: trimming,
    lower-casing, prefixes and suffixes, splitting, decimal integers and line
    scanning.  Unicode white space is recognised exactly (it has a closed list
    of UTF-8 encodings); the case table of the [unicode] package for letters
    outside ASCII is a parameter, [UnicodeLower]. *)

From stdpp Require Export pretty.
From Stdlib Require Export Ascii.
From S2P Require Import Prelude.


Definition byte (n : N) : ascii := ascii_of_N n.
Definition code (c : ascii) : N := N_of_ascii c.

(** ** Trimming by a set of ASCII bytes: [strings.TrimRight], [strings.Trim] *)

Fixpoint drop_while {A} (p : A -> bool) (l : list A) : list A :=
  match l with
  | [] => []
  | x :: l' => if p x then drop_while p l' else l
  end.

Definition drop_while_end {A} (p : A -> bool) (l : list A) : list A :=
  reverse (drop_while p (reverse l)).

Definition in_cutset (cut : string) (c : ascii) : bool :=
  bool_decide (c ∈ to_bytes cut).

Definition TrimRight (s cut : string) : string :=
  of_bytes (drop_while_end (in_cutset cut) (to_bytes s)).

Definition Trim (s cut : string) : string :=
  of_bytes (drop_while_end (in_cutset cut) (drop_while (in_cutset cut) (to_bytes s))).

Lemma drop_while_spec {A} (p : A -> bool) l :
  exists pre, l = pre ++ drop_while p l /\ Forall (fun x => p x = true) pre.
Proof.
  induction l as [|x l (pre & Hl & Hp)]; cbn; [by exists []|].
  destruct (p x) eqn:Hx; [|by exists []].
  exists (x :: pre). split; [cbn; by f_equal|by constructor].
Qed.

Lemma drop_while_head {A} (p : A -> bool) l x l' :
  drop_while p l = x :: l' -> p x = false.
Proof.
  induction l as [|y l IH]; cbn; [done|]. destruct (p y) eqn:Hy; [done|congruence].
Qed.

Lemma drop_while_idemp {A} (p : A -> bool) l :
  drop_while p (drop_while p l) = drop_while p l.
Proof.
  destruct (drop_while p l) as [|x l'] eqn:H; [done|].
  cbn. by rewrite (drop_while_head p l x l' H).
Qed.

Lemma drop_while_app_all {A} (p : A -> bool) pre l :
  Forall (fun x => p x = true) pre -> drop_while p (pre ++ l) = drop_while p l.
Proof. induction 1 as [|x pre Hx _ IH]; cbn; [done|]. by rewrite Hx. Qed.

Lemma drop_while_end_spec {A} (p : A -> bool) l :
  exists suf, l = drop_while_end p l ++ suf /\ Forall (fun x => p x = true) suf.
Proof.
  destruct (drop_while_spec p (reverse l)) as (pre & Hl & Hp).
  exists (reverse pre). unfold drop_while_end. split.
  - by rewrite <- reverse_app, <- Hl, reverse_involutive.
  - by apply Forall_reverse.
Qed.

Lemma drop_while_end_app_all {A} (p : A -> bool) l suf :
  Forall (fun x => p x = true) suf -> drop_while_end p (l ++ suf) = drop_while_end p l.
Proof.
  intros H. unfold drop_while_end.
  by rewrite reverse_app, drop_while_app_all by (by apply Forall_reverse).
Qed.

Lemma drop_while_end_idemp {A} (p : A -> bool) l :
  drop_while_end p (drop_while_end p l) = drop_while_end p l.
Proof. unfold drop_while_end. by rewrite reverse_involutive, drop_while_idemp. Qed.

Lemma TrimRight_idemp s cut : TrimRight (TrimRight s cut) cut = TrimRight s cut.
Proof. unfold TrimRight. by rewrite to_of_bytes, drop_while_end_idemp. Qed.

(** Two strings have the same right-trimmed form exactly when they are a common
    string followed by bytes of the cut set. *)
Lemma TrimRight_eq_iff s1 s2 cut :
  TrimRight s1 cut = TrimRight s2 cut <->
  exists c t1 t2, to_bytes s1 = c ++ t1 /\ to_bytes s2 = c ++ t2 /\
    Forall (fun x => in_cutset cut x = true) t1 /\
    Forall (fun x => in_cutset cut x = true) t2.
Proof.
  unfold TrimRight. split.
  - intros H. apply (f_equal to_bytes) in H. rewrite !to_of_bytes in H.
    destruct (drop_while_end_spec (in_cutset cut) (to_bytes s1)) as (t1 & H1 & F1).
    destruct (drop_while_end_spec (in_cutset cut) (to_bytes s2)) as (t2 & H2 & F2).
    rewrite <- H in H2. eauto 10.
  - intros (c & t1 & t2 & -> & -> & F1 & F2).
    by rewrite !drop_while_end_app_all.
Qed.

(** ** Prefixes, suffixes, splitting *)

Fixpoint strip_prefix (p l : bytes) : option bytes :=
  match p, l with
  | [], _ => Some l
  | x :: p', y :: l' => if ascii_dec x y then strip_prefix p' l' else None
  | _ :: _, [] => None
  end.

Definition HasPrefix (s p : string) : bool :=
  match strip_prefix (to_bytes p) (to_bytes s) with Some _ => true | None => false end.

Definition HasSuffix (s p : string) : bool :=
  match strip_prefix (reverse (to_bytes p)) (reverse (to_bytes s)) with
  | Some _ => true | None => false end.

Definition TrimPrefix (s p : string) : string :=
  match strip_prefix (to_bytes p) (to_bytes s) with
  | Some l => of_bytes l
  | None => s
  end.

(** [strings.Split s sep] for a one-byte separator. *)
Fixpoint split_on (sep : ascii) (cur l : bytes) : list bytes :=
  match l with
  | [] => [reverse cur]
  | c :: l' => if ascii_dec c sep then reverse cur :: split_on sep [] l'
               else split_on sep (c :: cur) l'
  end.

Definition Split (s : string) (sep : ascii) : list string :=
  of_bytes <$> split_on sep [] (to_bytes s).

Lemma strip_prefix_spec p l r : strip_prefix p l = Some r <-> l = p ++ r.
Proof.
  revert l. induction p as [|x p IH]; intros l; cbn.
  - split; congruence.
  - destruct l as [|y l]; [split; discriminate|].
    destruct (ascii_dec x y) as [->|Hne]; [rewrite IH; split; congruence|].
    split; [discriminate|congruence].
Qed.

Lemma HasPrefix_spec s p : HasPrefix s p = true <-> exists r, to_bytes s = to_bytes p ++ r.
Proof.
  unfold HasPrefix. destruct (strip_prefix _ _) as [r|] eqn:H.
  - apply strip_prefix_spec in H. split; eauto.
  - split; [done|]. intros [r Hr]. apply strip_prefix_spec in Hr. congruence.
Qed.

Lemma HasSuffix_spec s p : HasSuffix s p = true <-> exists r, to_bytes s = r ++ to_bytes p.
Proof.
  unfold HasSuffix. destruct (strip_prefix _ _) as [r|] eqn:H.
  - split; [|done]. intros _. exists (reverse r). apply strip_prefix_spec in H.
    by rewrite <- (reverse_involutive (to_bytes s)), H, reverse_app, reverse_involutive.
  - split; [done|]. intros [r Hr]. rewrite Hr, reverse_app in H.
    by rewrite (proj2 (strip_prefix_spec _ _ (reverse r)) eq_refl) in H.
Qed.

Lemma TrimPrefix_app p s :
  TrimPrefix (of_bytes (to_bytes p ++ to_bytes s)) p = s.
Proof.
  unfold TrimPrefix. rewrite to_of_bytes.
  rewrite (proj2 (strip_prefix_spec _ _ (to_bytes s)) eq_refl). apply of_to_bytes.
Qed.

(** ** White space: [unicode.IsSpace], [strings.TrimSpace], [strings.Fields]

    The runes with the White_Space property are U+0009 to U+000D, U+0020,
    U+0085, U+00A0, U+1680, U+2000 to U+200A, U+2028, U+2029, U+202F, U+205F and
    U+3000.  [space_width l] is the number of bytes of the white-space rune [l]
    starts with, or 0. *)

Definition is_ascii_space (c : ascii) : bool :=
  bool_decide (code c = 32%N) || (bool_decide (9 <= code c)%N && bool_decide (code c <= 13)%N).

Definition is_space2 (a b : ascii) : bool :=
  bool_decide (code a = 194%N) && (bool_decide (code b = 133%N) || bool_decide (code b = 160%N)).

Definition is_space3 (a b c : ascii) : bool :=
  match code a, code b with
  | 225%N, 154%N => bool_decide (code c = 128%N)
  | 226%N, 128%N =>
      (bool_decide (128 <= code c)%N && bool_decide (code c <= 138)%N)
      || bool_decide (code c = 168%N) || bool_decide (code c = 169%N)
      || bool_decide (code c = 175%N)
  | 226%N, 129%N => bool_decide (code c = 159%N)
  | 227%N, 128%N => bool_decide (code c = 128%N)
  | _, _ => false
  end.

Definition space_width (l : bytes) : nat :=
  match l with
  | a :: l' =>
      if is_ascii_space a then 1
      else match l' with
      | b :: l'' =>
          if is_space2 a b then 2
          else match l'' with
          | c :: _ => if is_space3 a b c then 3 else 0
          | [] => 0
          end
      | [] => 0
      end
  | [] => 0
  end.

(** The same at the end of a string, given in reverse. *)
Definition space_width_rev (l : bytes) : nat :=
  match l with
  | a :: l' =>
      if is_ascii_space a then 1
      else match l' with
      | b :: l'' =>
          if is_space2 b a then 2
          else match l'' with
          | c :: _ => if is_space3 c b a then 3 else 0
          | [] => 0
          end
      | [] => 0
      end
  | [] => 0
  end.

(** Drop elements from the front as long as [width] is not 0; the fuel
    [length l] is enough as every round drops at least one. *)
Fixpoint trim_by (width : bytes -> nat) (fuel : nat) (l : bytes) : bytes :=
  match fuel with
  | 0 => l
  | S fuel =>
      match width l with
      | 0 => l
      | n => trim_by width fuel (drop n l)
      end
  end.

Definition trim_left_space (l : bytes) : bytes := trim_by space_width (length l) l.
Definition trim_right_space (l : bytes) : bytes :=
  reverse (trim_by space_width_rev (length l) (reverse l)).

Definition TrimSpace (s : string) : string :=
  of_bytes (trim_right_space (trim_left_space (to_bytes s))).

(** [strings.Fields]: the maximal runs of non-space runes. *)
Fixpoint fields_go (fuel : nat) (cur l : bytes) : list bytes :=
  let flush := match cur with [] => [] | _ => [reverse cur] end in
  match fuel, l with
  | S fuel, c :: l' =>
      match space_width l with
      | 0 => fields_go fuel (c :: cur) l'
      | n => flush ++ fields_go fuel [] (drop n l)
      end
  | _, _ => flush
  end.

Definition Fields (s : string) : list string :=
  of_bytes <$> fields_go (String.length s) [] (to_bytes s).

Example Fields_ex : Fields "  oom_kill  3 " = ["oom_kill"; "3"].
Proof. reflexivity. Qed.

Lemma trim_by_done width :
  width [] = 0 -> forall fuel l, length l <= fuel -> width (trim_by width fuel l) = 0.
Proof.
  intros H0 fuel. induction fuel as [|fuel IH]; intros l Hl; cbn.
  - by destruct l; [|cbn in Hl; lia].
  - destruct (width l) as [|n] eqn:Hw; [done|]. apply IH. rewrite length_drop.
    destruct l; cbn in *; [congruence|lia].
Qed.

Lemma trim_by_noop width fuel l : width l = 0 -> trim_by width fuel l = l.
Proof. destruct fuel; cbn; [done|]. by intros ->. Qed.

Lemma trim_by_suffix width fuel l : exists k, trim_by width fuel l = drop k l.
Proof.
  revert l. induction fuel as [|fuel IH]; intros l; cbn; [by exists 0|].
  destruct (width l) as [|n]; [by exists 0|].
  destruct (IH (drop (S n) l)) as [k Hk]. exists (S n + k). by rewrite Hk, drop_drop.
Qed.

Lemma trim_left_space_head l : space_width (trim_left_space l) = 0.
Proof. by apply trim_by_done. Qed.

Lemma trim_right_space_prefix l : exists k, trim_right_space l = take k l.
Proof.
  unfold trim_right_space.
  destruct (trim_by_suffix space_width_rev (length l) (reverse l)) as [k ->].
  exists (length l - k). by rewrite reverse_drop, reverse_involutive, length_reverse.
Qed.

(** A prefix of a string that starts with no space starts with no space. *)
Lemma space_width_take k l : space_width l = 0 -> space_width (take k l) = 0.
Proof.
  destruct k as [|[|[|k]]], l as [|a [|b [|c l]]]; cbn; try done;
    repeat case_match; try done.
Qed.

Lemma TrimSpace_idemp s : TrimSpace (TrimSpace s) = TrimSpace s.
Proof.
  unfold TrimSpace. rewrite to_of_bytes. f_equal.
  set (l := trim_left_space (to_bytes s)).
  assert (Hl : space_width l = 0) by apply trim_left_space_head.
  destruct (trim_right_space_prefix l) as [k Hk].
  assert (Hw : space_width (trim_right_space l) = 0)
    by (rewrite Hk; by apply space_width_take).
  unfold trim_left_space at 1. rewrite trim_by_noop by done.
  unfold trim_right_space. rewrite reverse_involutive.
  rewrite (trim_by_noop _ (length (reverse _))); [done|].
  apply trim_by_done; [done|]. by rewrite length_reverse.
Qed.

(** ** UTF-8 and case: [strings.ToLower] *)

(** The lower-case mapping of the [unicode] package for runes above U+007F. *)
Class UnicodeLower := unicode_lower : N -> N.

Definition is_cont (c : ascii) : bool :=
  bool_decide (128 <= code c)%N && bool_decide (code c <= 191)%N.

Definition rune_error : N := 65533.

Definition between (lo : N) (c : ascii) (hi : N) : bool :=
  bool_decide (lo <= code c)%N && bool_decide (code c <= hi)%N.

Definition cont_bits (c : ascii) : N := (code c `mod` 64)%N.

(** [utf8.DecodeRuneInString]: the rune and its width; an invalid byte decodes
    as U+FFFD with width 1. *)
Definition decode_rune (l : bytes) : N * nat :=
  match l with
  | [] => (rune_error, 0)
  | a :: l' =>
      let n := code a in
      if bool_decide (n < 128)%N then (n, 1)
      else if between 194 a 223 then
        match l' with
        | b :: _ => if is_cont b then (((n - 192) * 64 + cont_bits b)%N, 2) else (rune_error, 1)
        | _ => (rune_error, 1)
        end
      else if between 224 a 239 then
        match l' with
        | b :: c :: _ =>
            let lo := if bool_decide (n = 224)%N then 160%N else 128%N in
            let hi := if bool_decide (n = 237)%N then 159%N else 191%N in
            if between lo b hi && is_cont c
            then (((n - 224) * 4096 + cont_bits b * 64 + cont_bits c)%N, 3)
            else (rune_error, 1)
        | _ => (rune_error, 1)
        end
      else if between 240 a 244 then
        match l' with
        | b :: c :: d :: _ =>
            let lo := if bool_decide (n = 240)%N then 144%N else 128%N in
            let hi := if bool_decide (n = 244)%N then 143%N else 191%N in
            if between lo b hi && is_cont c && is_cont d
            then (((n - 240) * 262144 + cont_bits b * 4096 + cont_bits c * 64 + cont_bits d)%N, 4)
            else (rune_error, 1)
        | _ => (rune_error, 1)
        end
      else (rune_error, 1)
  end.

(** [utf8.AppendRune] *)
Definition encode_rune (r : N) : bytes :=
  let enc r :=
    if bool_decide (r < 128)%N then [byte r]
    else if bool_decide (r < 2048)%N then [byte (192 + r / 64); byte (128 + r `mod` 64)]
    else if bool_decide (r < 65536)%N then
      [byte (224 + r / 4096); byte (128 + (r / 64) `mod` 64); byte (128 + r `mod` 64)]
    else
      [byte (240 + r / 262144); byte (128 + (r / 4096) `mod` 64);
       byte (128 + (r / 64) `mod` 64); byte (128 + r `mod` 64)]
  in
  if (bool_decide (55296 <= r)%N && bool_decide (r <= 57343)%N)
     || bool_decide (1114111 < r)%N
  then enc rune_error else enc r.

(** [strings.Map]: every rune decoded, mapped and encoded again. *)
Fixpoint map_runes (f : N -> N) (fuel : nat) (l : bytes) : bytes :=
  match fuel, l with
  | S fuel, _ :: _ =>
      let (r, w) := decode_rune l in
      encode_rune (f r) ++ map_runes f fuel (drop w l)
  | _, _ => []
  end.

Definition lower_ascii (c : ascii) : ascii :=
  if between 65 c 90 then byte (code c + 32) else c.

Definition is_ascii_byte (c : ascii) : bool := bool_decide (code c < 128)%N.
Definition is_ascii (s : string) : bool := forallb is_ascii_byte (to_bytes s).

(** [unicode.ToLower] *)
Definition rune_lower `{UnicodeLower} (r : N) : N :=
  if bool_decide (r < 128)%N then
    if bool_decide (65 <= r)%N && bool_decide (r <= 90)%N then (r + 32)%N else r
  else unicode_lower r.

Definition ToLower `{UnicodeLower} (s : string) : string :=
  if is_ascii s then of_bytes (lower_ascii <$> to_bytes s)
  else of_bytes (map_runes rune_lower (String.length s) (to_bytes s)).

Lemma of_N_code c : byte (code c) = c.
Proof. apply ascii_N_embedding. Qed.

Lemma code_byte n : (n < 256)%N -> code (byte n) = n.
Proof. apply N_ascii_embedding. Qed.

Lemma code_bound c : (code c < 256)%N.
Proof. apply N_ascii_bounded. Qed.

Lemma code_lower_ascii c :
  code (lower_ascii c) = if between 65 c 90 then (code c + 32)%N else code c.
Proof.
  unfold lower_ascii, between. case_match eqn:H; [|done].
  apply andb_true_iff in H as [_ H%bool_decide_eq_true]. apply code_byte. lia.
Qed.

Lemma lower_ascii_idemp c : lower_ascii (lower_ascii c) = lower_ascii c.
Proof.
  unfold lower_ascii at 1, between. rewrite code_lower_ascii. unfold between.
  repeat case_bool_decide; cbn in *; try done; lia.
Qed.

Lemma lower_ascii_space c : is_ascii_space (lower_ascii c) = is_ascii_space c.
Proof.
  unfold is_ascii_space. rewrite code_lower_ascii. unfold between.
  repeat case_bool_decide; cbn in *; try done; lia.
Qed.

Lemma is_ascii_lower l :
  forallb is_ascii_byte (lower_ascii <$> l) = forallb is_ascii_byte l.
Proof.
  induction l as [|c l IH]; cbn; [done|]. rewrite IH. f_equal.
  unfold is_ascii_byte. rewrite code_lower_ascii. unfold between.
  repeat case_bool_decide; cbn in *; try done; lia.
Qed.

Lemma ToLower_ascii `{UnicodeLower} s :
  is_ascii s = true -> ToLower s = of_bytes (lower_ascii <$> to_bytes s).
Proof. unfold ToLower. by intros ->. Qed.

Lemma is_ascii_ToLower `{UnicodeLower} s : is_ascii s = true -> is_ascii (ToLower s) = true.
Proof.
  intros Hs. rewrite ToLower_ascii by done. unfold is_ascii in *.
  by rewrite to_of_bytes, is_ascii_lower.
Qed.

Lemma ToLower_idemp `{UnicodeLower} s :
  is_ascii s = true -> ToLower (ToLower s) = ToLower s.
Proof.
  intros Hs. rewrite (ToLower_ascii (ToLower s)) by (by apply is_ascii_ToLower).
  rewrite ToLower_ascii by done. rewrite to_of_bytes, <- list_fmap_compose.
  f_equal. apply list_fmap_ext. intros _ c _. apply lower_ascii_idemp.
Qed.

(** On ASCII bytes white space is one byte wide and lower-casing keeps it. *)
Definition ascii_list (l : bytes) : Prop := Forall (fun c => is_ascii_byte c = true) l.

Lemma is_ascii_spec s : is_ascii s = true <-> ascii_list (to_bytes s).
Proof.
  unfold is_ascii, ascii_list. rewrite forallb_forall, Forall_forall.
  setoid_rewrite list_elem_of_In. done.
Qed.

Lemma space_width_ascii a l :
  is_ascii_byte a = true -> space_width (a :: l) = if is_ascii_space a then 1 else 0.
Proof.
  unfold is_ascii_byte. intros Ha%bool_decide_eq_true. cbn. case_match; [done|].
  destruct l as [|b l]; [done|].
  assert (Hb : is_space2 a b = false).
  { unfold is_space2. case_bool_decide; [lia|done]. }
  rewrite Hb. destruct l as [|c l]; [done|].
  unfold is_space3. repeat case_match; try done; lia.
Qed.

Lemma space_width_lower l :
  ascii_list l -> space_width (lower_ascii <$> l) = space_width l.
Proof.
  intros Hl. destruct l as [|a l]; [done|]. inversion_clear Hl as [|? ? Ha ?].
  rewrite fmap_cons, !space_width_ascii; [by rewrite lower_ascii_space|done|].
  unfold is_ascii_byte in *. rewrite code_lower_ascii. unfold between.
  repeat case_bool_decide; cbn in *; try done; lia.
Qed.

Lemma space_width_rev_ascii a l :
  is_ascii_byte a = true -> space_width_rev (a :: l) = if is_ascii_space a then 1 else 0.
Proof.
  unfold is_ascii_byte. intros Ha%bool_decide_eq_true. cbn. case_match; [done|].
  destruct l as [|b l]; [done|].
  assert (Hb : is_space2 b a = false).
  { unfold is_space2. repeat case_bool_decide; try done; lia. }
  rewrite Hb. destruct l as [|c l]; [done|].
  unfold is_space3. repeat case_match; try done;
    repeat case_bool_decide; try done; lia.
Qed.

Lemma space_width_rev_lower l :
  ascii_list l -> space_width_rev (lower_ascii <$> l) = space_width_rev l.
Proof.
  intros Hl. destruct l as [|a l]; [done|]. inversion_clear Hl as [|? ? Ha ?].
  rewrite fmap_cons, !space_width_rev_ascii; [by rewrite lower_ascii_space|done|].
  unfold is_ascii_byte in *. rewrite code_lower_ascii. unfold between.
  repeat case_bool_decide; cbn in *; try done; lia.
Qed.

Lemma trim_by_lower width fuel l :
  (forall l, ascii_list l -> width (lower_ascii <$> l) = width l) ->
  ascii_list l ->
  trim_by width fuel (lower_ascii <$> l) = lower_ascii <$> trim_by width fuel l.
Proof.
  intros Hw. revert l. induction fuel as [|fuel IH]; intros l Hl; cbn; [done|].
  rewrite Hw by done. destruct (width l); [done|].
  rewrite <- fmap_drop. apply IH. by apply Forall_drop.
Qed.

Lemma trim_by_ascii width fuel l : ascii_list l -> ascii_list (trim_by width fuel l).
Proof. intros Hl. destruct (trim_by_suffix width fuel l) as [k ->]. by apply Forall_drop. Qed.

Lemma is_ascii_TrimSpace s : is_ascii s = true -> is_ascii (TrimSpace s) = true.
Proof.
  rewrite !is_ascii_spec. intros H. unfold TrimSpace. rewrite to_of_bytes.
  unfold trim_right_space. apply Forall_reverse, trim_by_ascii, Forall_reverse.
  by apply trim_by_ascii.
Qed.

Lemma TrimSpace_ToLower `{UnicodeLower} s :
  is_ascii s = true -> TrimSpace (ToLower s) = ToLower (TrimSpace s).
Proof.
  intros Hs. rewrite !ToLower_ascii by auto using is_ascii_TrimSpace.
  apply is_ascii_spec in Hs. unfold TrimSpace. rewrite !to_of_bytes. f_equal.
  unfold trim_right_space, trim_left_space. rewrite !length_fmap.
  rewrite trim_by_lower by auto using space_width_lower.
  rewrite <- fmap_reverse, trim_by_lower, fmap_reverse, length_fmap; [done| |].
  - auto using space_width_rev_lower.
  - by apply Forall_reverse, trim_by_ascii.
Qed.

(** ** Decimal integers: [strconv.Itoa], [strconv.ParseInt(s, 10, 64)] *)

Definition Itoa (z : Z) : string := pretty z.

Definition is_digit (c : ascii) : bool := between 48 c 57.
Definition digit (c : ascii) : Z := Z.of_N (code c - 48).

Definition digits_value (l : bytes) : Z :=
  fold_left (fun n c => (10 * n + digit c)%Z) l 0%Z.

(** The value [ParseInt] returns, error or not: 0 on a syntax error, the
    nearest bound when the number does not fit. *)
Definition ParseInt (s : string) : Z :=
  let body (neg : bool) l :=
    match l with
    | [] => 0%Z
    | _ => if forallb is_digit l then
             let n := digits_value l in
             if neg then Z.max int64_min (- n) else Z.min int64_max n
           else 0%Z
    end in
  match to_bytes s with
  | c :: l => if bool_decide (code c = 45%N) then body true l
              else if bool_decide (code c = 43%N) then body false l
              else body false (c :: l)
  | [] => 0%Z
  end.

Example ParseInt_ex1 : ParseInt "-4096" = (-4096)%Z. Proof. reflexivity. Qed.
Example ParseInt_ex2 : ParseInt "max" = 0%Z. Proof. reflexivity. Qed.
Example ParseInt_ex3 : ParseInt "9223372036854775808" = int64_max.
Proof. reflexivity. Qed.

Lemma ParseInt_range s : in_int64 (ParseInt s).
Proof.
  assert (Hd : forall l, (0 <= digits_value l)%Z).
  { intros l. unfold digits_value.
    assert (H : forall n, (0 <= n)%Z -> (0 <= fold_left (fun n c => 10 * n + digit c)%Z l n)%Z).
    { induction l as [|c l IH]; intros n Hn; cbn; [done|]. apply IH. unfold digit. lia. }
    by apply H. }
  unfold ParseInt, in_int64, int64_min, int64_max.
  repeat case_match; try lia; match goal with
  | |- context [digits_value ?l] => pose proof (Hd l) end; lia.
Qed.

(** ** [bufio.Scanner] with its default buffer: the lines of a file

    A line ends at a newline or at the end of the input; a trailing carriage
    return is dropped, and the scan stops before a line of 64 KiB or more. *)
Definition newline : ascii := byte 10.
Definition carriage_return : ascii := byte 13.

Definition drop_cr (l : bytes) : bytes :=
  match reverse l with
  | c :: l' => if ascii_dec c carriage_return then reverse l' else l
  | [] => l
  end.

Fixpoint take_tokens (ls : list bytes) : list bytes :=
  match ls with
  | [] => []
  | l :: ls => if bool_decide (len l <= 65535)%Z then l :: take_tokens ls else []
  end.

Definition ScanLines (s : string) : list string :=
  let ls := split_on newline [] (to_bytes s) in
  let ls := match reverse ls with
            | [] :: r => reverse r
            | _ => ls
            end in
  (fun l => of_bytes (drop_cr l)) <$> take_tokens ls.

(** ["\r\n"] *)
Definition crlf : string := of_bytes [carriage_return; newline].
Definition nl : string := of_bytes [newline].
