(* ===== verification/GoFloat.v ===== *)
(** * Go's float64

    IEEE-754 binary64 as the Standard Library's [SpecFloat] specifies it (one
    NaN, round to nearest even), so that the engine's time, quota and memory
    figures are computed here as the code computes them, rounding included. *)

From Stdlib Require Import SpecFloat.
From S2P Require Import Prelude GoStrings.

Abbreviation float64 := spec_float.

#[export] Instance float64_eq_dec : EqDecision float64.
Proof. solve_decision. Defined.

#[export] Instance float64_inhabited : Inhabited float64 := populate (S754_zero false).

Declare Scope float_scope.
Delimit Scope float_scope with float.

Definition fadd : float64 -> float64 -> float64 := SFadd 53 1024.
Definition fmul : float64 -> float64 -> float64 := SFmul 53 1024.
Definition fdiv : float64 -> float64 -> float64 := SFdiv 53 1024.
Definition flt (x y : float64) : bool := SFltb x y.
Definition fle (x y : float64) : bool := SFleb x y.
Definition feq (x y : float64) : bool := SFeqb x y.

Infix "+" := fadd : float_scope.
Infix "*" := fmul : float_scope.
Infix "/" := fdiv : float_scope.

(** [float64(z)] of an integer, and the constant [a / b]. *)
Definition of_Z (z : Z) : float64 := binary_normalize 53 1024 z 0 false.
Definition fconst (a b : Z) : float64 := fdiv (of_Z a) (of_Z b).

Definition f0 : float64 := S754_zero false.

(** [int64(x)]: truncation toward zero; a value that does not fit gives the
    "indefinite integer" of the x86-64 conversion instruction. *)
Definition int64_of_float (x : float64) : Z :=
  match x with
  | S754_zero _ => 0
  | S754_nan | S754_infinity _ => int64_min
  | S754_finite s m e =>
      let a := if bool_decide (0 <= e)%Z then (Zpos m * 2 ^ e)%Z else (Zpos m / 2 ^ (- e))%Z in
      let z := if s then (- a)%Z else a in
      if bool_decide (in_int64 z) then z else int64_min
  end.

(** [fmt.Sprintf("%.2f", x)]: the exact value rounded to hundredths, ties to
    even. *)
Definition hundredths (m : positive) (e : Z) : Z :=
  if bool_decide (0 <= e)%Z then (Zpos m * 2 ^ e * 100)%Z
  else
    let d := (2 ^ (- e))%Z in
    let q := (Zpos m * 100 / d)%Z in
    let r := (Zpos m * 100 - q * d)%Z in
    match Z.compare (2 * r) d with
    | Lt => q
    | Gt => (q + 1)%Z
    | Eq => if Z.even q then q else (q + 1)%Z
    end.

Definition two_digits (z : Z) : string :=
  (if bool_decide (z < 10)%Z then "0" else "") +:+ Itoa z.

Definition show_hundredths (h : Z) : string :=
  Itoa (h / 100) +:+ "." +:+ two_digits (h `mod` 100).

Definition Sprintf_2f (x : float64) : string :=
  match x with
  | S754_nan => "NaN"
  | S754_infinity s => if s then "-Inf" else "+Inf"
  | S754_zero s => if s then "-0.00" else "0.00"
  | S754_finite s m e => (if s then "-" else "") +:+ show_hundredths (hundredths m e)
  end.

Example Sprintf_ex1 : Sprintf_2f (fconst 3 2) = "1.50". Proof. reflexivity. Qed.
Example Sprintf_ex2 : Sprintf_2f (of_Z 128) = "128.00". Proof. reflexivity. Qed.
Example int64_of_float_ex : int64_of_float (fmul (fconst 3 2) (of_Z 100000)) = 150000%Z.
Proof. reflexivity. Qed.
Example int64_of_float_big : int64_of_float (fmul (of_Z (10 ^ 18)) (of_Z 100000)) = int64_min.
Proof. reflexivity. Qed.

(** ** The order

    [flt] compares a key lexicographically, so it is a strict order on the
    values that are not NaN. *)

Definition fkey (x : float64) : option (Z * Z * Z) :=
  match x with
  | S754_nan => None
  | S754_infinity s => Some (if s then (-2, 0, 0) else (2, 0, 0))%Z
  | S754_zero _ => Some (0, 0, 0)%Z
  | S754_finite s m e => Some (if s then (-1, - e, Zneg m) else (1, e, Zpos m))%Z
  end.

Definition lex_lt (a b : Z * Z * Z) : Prop :=
  let '(a1, a2, a3) := a in
  let '(b1, b2, b3) := b in
  (a1 < b1 \/ a1 = b1 /\ (a2 < b2 \/ a2 = b2 /\ a3 < b3))%Z.

Lemma flt_key x y :
  flt x y = true <->
  exists a b, fkey x = Some a /\ fkey y = Some b /\ lex_lt a b.
Proof.
  unfold flt, SFltb. split.
  - intros H.
    destruct x as [s|s| |s m e], y as [s'|s'| |s' m' e'];
      try destruct s; try destruct s'; cbn in *; try discriminate;
      eexists _, _; split_and!; try done; unfold lex_lt; try lia;
      change (Pos.compare_cont Eq m m') with (Pos.compare m m') in H;
      destruct (Z.compare_spec e e'), (Pos.compare_spec m m'); cbn in H;
      try discriminate; lia.
  - intros (a & b & Ha & Hb & H).
    destruct x as [s|s| |s m e], y as [s'|s'| |s' m' e'];
      try destruct s; try destruct s'; cbn in *; simplify_eq;
      unfold lex_lt in H; try lia; try done;
      change (Pos.compare_cont Eq m m') with (Pos.compare m m');
      destruct (Z.compare_spec e e'), (Pos.compare_spec m m'); cbn; try done; lia.
Qed.

Lemma lex_lt_trans a b c : lex_lt a b -> lex_lt b c -> lex_lt a c.
Proof. destruct a as [[??]?], b as [[??]?], c as [[??]?]. unfold lex_lt. lia. Qed.

Lemma lex_lt_irrefl a : ~ lex_lt a a.
Proof. destruct a as [[??]?]. unfold lex_lt. lia. Qed.

(** Negative transitivity, the form a running maximum needs. *)
Lemma lex_nlt_trans a b c : ~ lex_lt a b -> ~ lex_lt b c -> ~ lex_lt a c.
Proof. destruct a as [[??]?], b as [[??]?], c as [[??]?]. unfold lex_lt. lia. Qed.

Lemma flt_irrefl x : flt x x = false.
Proof.
  apply not_true_is_false. intros (a & b & Ha & Hb & H)%flt_key.
  simplify_eq. by eapply lex_lt_irrefl.
Qed.

Lemma flt_trans x y z : flt x y = true -> flt y z = true -> flt x z = true.
Proof.
  rewrite !flt_key. intros (a & b & Ha & Hb & Hab) (b' & c & Hb' & Hc & Hbc).
  simplify_eq. exists a, c. eauto using lex_lt_trans.
Qed.

Lemma flt_asym x y : flt x y = true -> flt y x = false.
Proof.
  intros Hxy. apply not_true_is_false. intros Hyx.
  pose proof (flt_trans x y x Hxy Hyx) as H. by rewrite flt_irrefl in H.
Qed.

Lemma flt_nan_l y : flt S754_nan y = false.
Proof. by destruct y. Qed.

Lemma flt_nan_r x : flt x S754_nan = false.
Proof. by destruct x as [[]|[]| |[]]. Qed.

(** [a <= b] in the sense of "not greater". *)
Definition fnot_above (x m : float64) : Prop := flt m x = false.

Lemma fnot_above_step x m v :
  fkey m <> None -> fnot_above x m -> flt m v = true -> fnot_above x v.
Proof.
  intros Hm Hx Hv. apply flt_key in Hv as (a & b & Ha & Hb & Hab).
  apply not_true_is_false. intros (b' & c & Hb' & Hc & Hbc)%flt_key. simplify_eq.
  assert (Hfl : flt m x = true).
  { apply flt_key. exists a, c. eauto using lex_lt_trans. }
  unfold fnot_above in Hx. congruence.
Qed.

(** The running maximum [if v > m { m = v }]. *)
Definition fmax_step (m v : float64) : float64 := if flt m v then v else m.

Lemma fmax_step_key m v : fkey m <> None -> fkey (fmax_step m v) <> None.
Proof.
  unfold fmax_step. destruct (flt m v) eqn:H; [|done].
  apply flt_key in H as (a & b & _ & Hb & _). congruence.
Qed.

Lemma fmax_fold_key l : forall m, fkey m <> None -> fkey (fold_left fmax_step l m) <> None.
Proof. induction l; intros m Hm; cbn; [done|]. by apply IHl, fmax_step_key. Qed.

Lemma fmax_fold_mono l : forall m x,
  fkey m <> None -> fnot_above x m -> fnot_above x (fold_left fmax_step l m).
Proof.
  induction l as [|v l IH]; intros m x Hm Hx; cbn; [done|].
  apply IH; [by apply fmax_step_key|]. unfold fmax_step.
  destruct (flt m v) eqn:Hv; [by eapply fnot_above_step|done].
Qed.

Lemma fmax_fold_bound l m x :
  fkey m <> None -> x ∈ l -> fnot_above x (fold_left fmax_step l m).
Proof.
  revert m. induction l as [|v l IH]; intros m Hm Hx; [by apply elem_of_nil in Hx|].
  apply elem_of_cons in Hx as [->|Hx]; cbn.
  - apply fmax_fold_mono; [by apply fmax_step_key|]. unfold fnot_above, fmax_step.
    destruct (flt m v) eqn:Hv; [apply flt_irrefl|done].
  - apply IH; [by apply fmax_step_key|done].
Qed.

Lemma fmax_fold_in l m : fold_left fmax_step l m = m \/ fold_left fmax_step l m ∈ l.
Proof.
  revert m. induction l as [|v l IH]; intros m; cbn; [by left|].
  destruct (IH (fmax_step m v)) as [->|H]; [|right; by apply list_elem_of_further].
  unfold fmax_step. destruct (flt m v); [right; apply list_elem_of_here|by left].
Qed.
