(* ===== verification/Go.v ===== *)
(** * Go programs with effects

    A Go function that talks to its environment (the kernel, a clock, a
    service behind an interface) is a finite tree: it returns, it panics, or it
    performs an effect and goes on with the answer.  An effect is a value of a
    type [E] whose answers have type [resp e].  [wp p Q tr] says that whatever
    the environment answers, [p] started after the events [tr] ends with a
    trace and an outcome in [Q]; [run] executes a program against a concrete
    environment, and [run_wp] says that [wp] speaks of every run.  As trees are
    inductive every program here ends in every environment. *)

From S2P Require Import Prelude.

(** ** Errors

    The sentinel values are compared by identity, [Errorf] is [fmt.Errorf] or
    [errors.New] (the formatted text), [Wrapf] an [Errorf] with an error behind
    a [%w], [ExitError] is
    [*exec.ExitError] with its exit code, [OtherError] any other error a
    system call or a library gives. *)

Inductive sentinel :=
| ErrQueueEmpty | ErrQueueClosed | ErrBackpressureExceeded | ErrNotFound
| ErrCanceled | ErrDeadlineExceeded | RedisNil | ErrServerClosed.

#[export] Instance sentinel_eq_dec : EqDecision sentinel.
Proof. solve_decision. Defined.

Inductive error :=
| Sentinel (s : sentinel)
| Errorf (msg : string)
| Wrapf (msg : string) (wrapped : error)
| ExitError (code : Z) (msg : string)
| OtherError (msg : string).

Definition sentinel_text (s : sentinel) : string :=
  match s with
  | ErrQueueEmpty => "queue is empty"
  | ErrQueueClosed => "queue is closed"
  | ErrBackpressureExceeded => "queue capacity exceeded; backpressure active"
  | ErrNotFound => "submission not found"
  | ErrCanceled => "context canceled"
  | ErrDeadlineExceeded => "context deadline exceeded"
  | RedisNil => "redis: nil"
  | ErrServerClosed => "http: Server closed"
  end.

(** The [Error] method. *)
Definition error_text (e : error) : string :=
  match e with
  | Sentinel s => sentinel_text s
  | Errorf msg | Wrapf msg _ | ExitError _ msg | OtherError msg => msg
  end.

(** [errors.Is] for a sentinel target. *)
Fixpoint errors_Is (e : error) (target : sentinel) : bool :=
  match e with
  | Sentinel s => bool_decide (s = target)
  | Wrapf _ e' => errors_Is e' target
  | _ => false
  end.

Definition errors_New (msg : string) : error := Errorf msg.
Definition wrapf (prefix : string) (e : error) : error :=
  Wrapf (prefix +:+ error_text e) e.

(** ** Programs *)

Class Effect (E : Type) := resp : E -> Type.

Inductive prog (E : Type) `{Effect E} (A : Type) : Type :=
| Ret (a : A)
| Panic (msg : string)
| Vis (e : E) (k : resp e -> prog E A).

Arguments Ret {E _ A} a.
Arguments Panic {E _ A} msg.
Arguments Vis {E _ A} e k.

Inductive outcome (A : Type) := Returned (a : A) | Panicked (msg : string).
Arguments Returned {A} a.
Arguments Panicked {A} msg.

Record event (E : Type) `{Effect E} := Ev { ev_call : E; ev_resp : resp ev_call }.
Arguments Ev {E _} ev_call ev_resp.
Arguments ev_call {E _} e.
Arguments ev_resp {E _} e.

Definition nil_deref : string :=
  "runtime error: invalid memory address or nil pointer dereference".

Section Programs.
Context {E : Type} `{Effect E}.

Fixpoint bind {A B} (k : A -> prog E B) (p : prog E A) : prog E B :=
  match p with
  | Ret a => k a
  | Panic m => Panic m
  | Vis e c => Vis e (fun r => bind k (c r))
  end.

#[export] Instance prog_ret : MRet (prog E) := fun A a => Ret a.
#[export] Instance prog_bind : MBind (prog E) := fun A B k p => bind k p.

Definition call (e : E) : prog E (resp e) := Vis e Ret.

(** The call of a method that may itself panic. *)
Definition outcome_prog {A} (o : outcome A) : prog E A :=
  match o with Returned a => Ret a | Panicked m => Panic m end.

(** Dereference of a pointer that may be nil. *)
Definition deref {A} (p : option A) : prog E A :=
  match p with Some a => Ret a | None => Panic nil_deref end.

(** [defer fin()]: run [fin] when the rest of the function ends, normally or
    not. *)
Fixpoint defer {A} (fin : prog E unit) (p : prog E A) : prog E A :=
  match p with
  | Ret a => bind (fun _ => Ret a) fin
  | Panic m => bind (fun _ => Panic m) fin
  | Vis e k => Vis e (fun r => defer fin (k r))
  end.

(** [defer func() { if r := recover(); r != nil { h } }()] *)
Fixpoint recover {A} (h : string -> prog E A) (p : prog E A) : prog E A :=
  match p with
  | Ret a => Ret a
  | Panic m => h m
  | Vis e k => Vis e (fun r => recover h (k r))
  end.

(** [for _, x := range l { s = f(s, x) }] *)
Fixpoint foldM {S A} (f : S -> A -> prog E S) (s : S) (l : list A) : prog E S :=
  match l with
  | [] => Ret s
  | x :: l' => bind (fun s' => foldM f s' l') (f s x)
  end.

(** ** Weakest preconditions over traces *)

Fixpoint wp {A} (p : prog E A) (Q : list (event E) -> outcome A -> Prop)
    (tr : list (event E)) : Prop :=
  match p with
  | Ret a => Q tr (Returned a)
  | Panic m => Q tr (Panicked m)
  | Vis e k => forall r, wp (k r) Q (tr ++ [Ev e r])
  end.

Lemma wp_mono {A} (p : prog E A) Q Q' tr :
  wp p Q tr -> (forall tr' o, Q tr' o -> Q' tr' o) -> wp p Q' tr.
Proof. revert tr. induction p as [a|m|e k IH]; cbn; eauto. Qed.

Lemma wp_conj {A} (p : prog E A) Q1 Q2 tr :
  wp p Q1 tr -> wp p Q2 tr -> wp p (fun tr' o => Q1 tr' o /\ Q2 tr' o) tr.
Proof. revert tr. induction p as [a|m|e k IH]; cbn; auto. Qed.

(** A specification stated from the empty trace holds after any events. *)
Lemma wp_frame {A} (p : prog E A) Q tr :
  wp p Q [] -> wp p (fun tr' o => exists s, tr' = tr ++ s /\ Q s o) tr.
Proof.
  enough (Hg : forall s, wp p Q s ->
    wp p (fun tr' o => exists s', tr' = tr ++ s' /\ Q s' o) (tr ++ s)).
  { intros H0. specialize (Hg [] H0). by rewrite app_nil_r in Hg. }
  induction p as [a|m|e k IH]; cbn; intros s Hp; [by exists s..|].
  intros r. rewrite <- app_assoc. by apply IH.
Qed.

Lemma wp_use {A} (p : prog E A) Q Q' tr :
  wp p Q [] -> (forall s o, Q s o -> Q' (tr ++ s) o) -> wp p Q' tr.
Proof.
  intros Hp HQ. eapply wp_mono; [by apply wp_frame|].
  intros tr' o (s & -> & Hs). by apply HQ.
Qed.

(** What a continuation owes after the outcome of its first part. *)
Definition after {A B} (k : A -> prog E B) (Q : list (event E) -> outcome B -> Prop)
    (tr : list (event E)) (o : outcome A) : Prop :=
  match o with
  | Returned a => wp (k a) Q tr
  | Panicked m => Q tr (Panicked m)
  end.

Lemma wp_bind {A B} (k : A -> prog E B) (p : prog E A) Q tr :
  wp p (after k Q) tr -> wp (p ≫= k) Q tr.
Proof. revert tr. induction p as [a|m|e c IH]; cbn; intros tr Hp; try done; auto. Qed.

Lemma wp_ret {A} (a : A) (Q : list (event E) -> outcome A -> Prop) tr :
  Q tr (Returned a) -> wp (mret a : prog E A) Q tr.
Proof. done. Qed.

Lemma wp_call e (Q : list (event E) -> outcome (resp e) -> Prop) tr :
  (forall r, Q (tr ++ [Ev e r]) (Returned r)) -> wp (call e) Q tr.
Proof. done. Qed.

Lemma wp_outcome_prog {A} (o : outcome A) Q tr :
  Q tr o -> wp (outcome_prog o) Q tr.
Proof. by destruct o. Qed.

Lemma wp_deref {A} (p : option A) Q tr :
  (forall a, p = Some a -> Q tr (Returned a)) ->
  (p = None -> Q tr (Panicked nil_deref)) ->
  wp (deref p) Q tr.
Proof. destruct p; cbn; auto. Qed.

Lemma wp_defer {A} (fin : prog E unit) (p : prog E A) Q tr :
  wp p (fun tr' o => wp fin (after (fun _ => outcome_prog o) Q) tr') tr ->
  wp (defer fin p) Q tr.
Proof.
  revert tr. induction p as [a|m|e k IH]; cbn; intros tr Hp; auto.
  - by apply (wp_bind (fun _ => Ret a) fin).
  - by apply (wp_bind (fun _ => Panic m) fin).
Qed.

Lemma wp_recover {A} (h : string -> prog E A) (p : prog E A) Q tr :
  wp p (fun tr' o => match o with
                     | Returned a => Q tr' (Returned a)
                     | Panicked m => wp (h m) Q tr'
                     end) tr ->
  wp (recover h p) Q tr.
Proof. revert tr. induction p as [a|m|e k IH]; cbn; intros tr Hp; auto. Qed.

(** The loop rule: an invariant over the elements done so far, and what holds
    when an iteration panics. *)
Lemma wp_foldM {S A} (f : S -> A -> prog E S)
    (I : list A -> S -> list (event E) -> Prop)
    (P : list (event E) -> string -> Prop) l s tr :
  I [] s tr ->
  (forall done x rest s tr, l = done ++ x :: rest -> I done s tr ->
     wp (f s x) (fun tr' o => match o with
                              | Returned s' => I (done ++ [x]) s' tr'
                              | Panicked m => P tr' m
                              end) tr) ->
  wp (foldM f s l) (fun tr' o => match o with
                                 | Returned s' => I l s' tr'
                                 | Panicked m => P tr' m
                                 end) tr.
Proof.
  intros HI Hstep.
  enough (Hgen : forall rest done s tr, l = done ++ rest -> I done s tr ->
    wp (foldM f s rest) (fun tr' o => match o with
                                      | Returned s' => I l s' tr'
                                      | Panicked m => P tr' m end) tr)
    by (by apply (Hgen l [])).
  induction rest as [|x rest IH]; intros dn s' tr' Hl Hi; cbn.
  - rewrite app_nil_r in Hl. by subst.
  - apply (wp_bind (fun s' => foldM f s' rest) (f s' x)).
    eapply wp_mono; [by eapply Hstep|]. intros tr'' [s''|m] Hs; cbn; [|done].
    apply (IH (dn ++ [x])); [by rewrite <- app_assoc|done].
Qed.

(** ** What every call of a program satisfies *)

Fixpoint every {A} (P : E -> Prop) (p : prog E A) : Prop :=
  match p with
  | Ret _ | Panic _ => True
  | Vis e k => P e /\ forall r, every P (k r)
  end.

Lemma every_bind {A B} P (k : A -> prog E B) (p : prog E A) :
  every P p -> (forall a, every P (k a)) -> every P (p ≫= k).
Proof. intros Hp Hk. induction p as [a|m|e c IH]; cbn in *; [auto..|]. destruct Hp. split; auto. Qed.

Lemma every_call (P : E -> Prop) e : P e -> every P (call e).
Proof. by split. Qed.

Lemma every_ret {A} P (a : A) : every P (mret a : prog E A).
Proof. done. Qed.

Lemma every_outcome {A} P (o : outcome A) : every P (outcome_prog o).
Proof. by destruct o. Qed.

Lemma every_deref {A} P (p : option A) : every P (deref p).
Proof. by destruct p. Qed.

Lemma every_defer {A} P (fin : prog E unit) (p : prog E A) :
  every P fin -> every P p -> every P (defer fin p).
Proof.
  intros Hf Hp. induction p as [a|m|e k IH]; cbn in *.
  1, 2: by apply (every_bind P _ fin). destruct Hp. split; auto.
Qed.

Lemma every_recover {A} P (h : string -> prog E A) (p : prog E A) :
  (forall m, every P (h m)) -> every P p -> every P (recover h p).
Proof. intros Hh Hp. induction p as [a|m|e k IH]; cbn in *; [auto..|]. destruct Hp. split; auto. Qed.

Lemma every_foldM {S A} P (f : S -> A -> prog E S) l : (forall s x, every P (f s x)) ->
  forall s, every P (foldM f s l).
Proof.
  intros Hf. induction l as [|x l IH]; intros s; [done|]. by apply (every_bind P (fun s' => foldM f s' l)).
Qed.

(** Every event of a trace is a call with this property. *)
Definition calls_only (P : E -> Prop) (tr : list (event E)) : Prop :=
  Forall (fun ev => P (ev_call ev)) tr.

Lemma calls_only_app P tr1 tr2 :
  calls_only P (tr1 ++ tr2) <-> calls_only P tr1 /\ calls_only P tr2.
Proof. apply Forall_app. Qed.

Lemma every_wp {A} P (p : prog E A) : every P p -> wp p (fun tr _ => calls_only P tr) [].
Proof.
  enough (Hg : forall tr, every P p -> calls_only P tr -> wp p (fun tr _ => calls_only P tr) tr)
    by (intros Hp; by apply Hg; [|constructor]).
  induction p as [a|m|e k IH]; intros tr Hp Htr; [done..|]. destruct Hp as [He Hk]. intros r.
  apply IH; [done|]. apply calls_only_app. split; [done|by repeat constructor].
Qed.

(** ** The order of events

    [in_order ps tr]: events with these properties occur in the trace in this
    order, with anything before, between and after them. *)
Fixpoint in_order (ps : list (event E -> Prop)) (tr : list (event E)) : Prop :=
  match tr with
  | [] => ps = []
  | ev :: tr =>
      match ps with
      | [] => True
      | p :: ps' => p ev /\ in_order ps' tr \/ in_order ps tr
      end
  end.

Lemma in_order_nil tr : in_order [] tr.
Proof. by destruct tr. Qed.

Lemma in_order_app_r ps tr1 tr2 : in_order ps tr2 -> in_order ps (tr1 ++ tr2).
Proof.
  intros Ho. induction tr1 as [|ev tr1 IH]; [done|]. destruct ps as [|p ps]; [done|]. by right.
Qed.

Lemma in_order_app ps1 ps2 tr1 tr2 :
  in_order ps1 tr1 -> in_order ps2 tr2 -> in_order (ps1 ++ ps2) (tr1 ++ tr2).
Proof.
  intros H1 H2. revert ps1 H1. induction tr1 as [|ev tr1 IH]; intros [|p ps1] H1; try done.
  { by apply (in_order_app_r ps2 (ev :: tr1)). }
  destruct H1 as [[Hp H1]|H1]; [left; auto|right; by apply (IH (p :: ps1))].
Qed.

Lemma in_order_app_l ps tr1 tr2 : in_order ps tr1 -> in_order ps (tr1 ++ tr2).
Proof. intros Ho. rewrite <- (app_nil_r ps). apply in_order_app; [done|apply in_order_nil]. Qed.

(** ** Execution against an environment *)

Record env (St : Type) := { answer : forall e : E, St -> resp e * St }.
Arguments answer {St} _ _ _.

Fixpoint run {St A} (h : env St) (p : prog E A) (s : St) : list (event E) * outcome A * St :=
  match p with
  | Ret a => ([], Returned a, s)
  | Panic m => ([], Panicked m, s)
  | Vis e k =>
      let '(r, s') := answer h e s in
      let '(tr, o, s'') := run h (k r) s' in
      (Ev e r :: tr, o, s'')
  end.

Lemma run_wp {St A} (h : env St) (p : prog E A) Q : forall tr s,
  wp p Q tr -> Q (tr ++ (run h p s).1.1) (run h p s).1.2.
Proof.
  induction p as [a|m|e k IH]; intros tr s Hp; cbn in *; [by rewrite app_nil_r..|].
  destruct (answer h e s) as [r s'].
  specialize (IH r (tr ++ [Ev e r]) s' (Hp r)).
  destruct (run h (k r) s') as [[tr' o] s'']. cbn in *. by rewrite <- app_assoc in IH.
Qed.

Lemma run_bind {St A B} (h : env St) (k : A -> prog E B) (p : prog E A) : forall s,
  run h (p ≫= k) s =
  let '(tr, o, s') := run h p s in
  match o with
  | Returned a => let '(tr', o', s'') := run h (k a) s' in (tr ++ tr', o', s'')
  | Panicked m => (tr, Panicked m, s')
  end.
Proof.
  induction p as [a|m|e c IH]; intros s; cbn.
  - by destruct (run h (k a) s) as [[??]?].
  - done.
  - destruct (answer h e s) as [r s']. unfold mbind, prog_bind in IH. rewrite IH.
    destruct (run h (c r) s') as [[tr [a|m]] s'']; [|done].
    by destruct (run h (k a) s'') as [[??]?].
Qed.

Lemma run_call {St} (h : env St) (e : E) s :
  run h (call e) s = ([Ev e (answer h e s).1], Returned (answer h e s).1, (answer h e s).2).
Proof. cbn. by destruct (answer h e s). Qed.

Lemma run_outcome_prog {St A} (h : env St) (o : outcome A) s : run h (outcome_prog o) s = ([], o, s).
Proof. by destruct o. Qed.

Lemma run_ret {St A} (h : env St) (a : A) s : run h (mret a : prog E A) s = ([], Returned a, s).
Proof. done. Qed.

Lemma run_defer {St A} (h : env St) (fin : prog E unit) (p : prog E A) : forall s,
  run h (defer fin p) s =
  let '(tr, o, s') := run h p s in
  let '(tr', o', s'') := run h fin s' in
  (tr ++ tr', match o' with Returned _ => o | Panicked m => Panicked m end, s'').
Proof.
  induction p as [a|m|e c IH]; intros s; cbn.
  - pose proof (run_bind h (fun _ => Ret a) fin s) as H0.
    unfold mbind, prog_bind in H0. rewrite H0.
    cbn. destruct (run h fin s) as [[tr [u|m]] s']; [by rewrite app_nil_r|done].
  - pose proof (run_bind h (fun _ => Panic (A := A) m) fin s) as H0.
    unfold mbind, prog_bind in H0. rewrite H0.
    cbn. destruct (run h fin s) as [[tr [u|m']] s']; [by rewrite app_nil_r|done].
  - destruct (answer h e s) as [r s']. rewrite IH. destruct (run h (c r) s') as [[tr o] s''].
    by destruct (run h fin s'') as [[tr' o'] s3].
Qed.

End Programs.

Arguments answer {E _ St} _ _ _.
Arguments env E {_} St.

(** ** Two effect types side by side *)

#[export] Instance sum_effect E1 E2 `{Effect E1} `{Effect E2} : Effect (E1 + E2) :=
  fun e => match e with inl e1 => resp e1 | inr e2 => resp e2 end.

Section Lift.
Context {E1 E2 : Type} `{Effect E1} `{Effect E2}.

Fixpoint lift {A} (p : prog E1 A) : prog (E1 + E2) A :=
  match p with
  | Ret a => Ret a
  | Panic m => Panic m
  | Vis e k => Vis (inl e : E1 + E2) (fun r => lift (k r))
  end.

Definition lift_event (ev : event E1) : event (E1 + E2) :=
  Ev (inl (ev_call ev) : E1 + E2) (ev_resp ev).

(** A lifted program performs only left effects. *)
Lemma wp_lift {A} (p : prog E1 A) Q : forall tr0 tr,
  wp p (fun tr' o => Q (tr0 ++ (lift_event <$> tr')) o) tr ->
  wp (lift p) Q (tr0 ++ (lift_event <$> tr)).
Proof.
  induction p as [a|m|e k IH]; intros tr0 tr Hp; cbn in *; [done..|].
  intros r. specialize (IH r tr0 (tr ++ [Ev e r]) (Hp r)).
  by rewrite fmap_app, app_assoc in IH.
Qed.

Lemma wp_lift_nil {A} (p : prog E1 A) Q tr :
  wp p (fun tr' o => Q (tr ++ (lift_event <$> tr')) o) [] -> wp (lift p) Q tr.
Proof. intros Hp. apply (wp_lift p Q tr []) in Hp. by rewrite app_nil_r in Hp. Qed.

(** Whatever it does, nothing else happens. *)
Lemma wp_lift_any {A} (p : prog E1 A) (Q : list (event (E1 + E2)) -> outcome A -> Prop) tr :
  (forall tr' o, Q (tr ++ (lift_event <$> tr')) o) -> wp (lift p) Q tr.
Proof.
  intros HQ. apply wp_lift_nil.
  enough (Hg : forall tr', wp p (fun tr'' o => Q (tr ++ (lift_event <$> tr'')) o) tr') by done.
  induction p; cbn; auto.
Qed.

Lemma every_lift {A} (P : E1 + E2 -> Prop) (p : prog E1 A) :
  (forall e, P (inl e)) -> every P (lift p).
Proof. intros HP. induction p as [a|m|e k IH]; cbn; auto. Qed.

End Lift.

(** Sequencing, read as in the code: [x ← p; k] is "x := p(); k". *)
Declare Scope go_scope.
Notation "x ← y ; z" := (mbind (M := prog _) (fun x => z) y)
  (at level 20, y at level 100, z at level 200) : go_scope.
Notation "' x ← y ; z" := (mbind (M := prog _) (fun x => z) y)
  (at level 20, x pattern, y at level 100, z at level 200) : go_scope.
#[export] Hint Mode Effect ! : typeclass_instances.
Open Scope go_scope.

(** One step of a program under [wp], chosen by the head of the program. *)
Ltac wp_step :=
  lazymatch goal with
  | |- wp (mret ?a) ?Q ?tr => refine (wp_ret a Q tr _)
  | |- wp (Ret ?a) ?Q ?tr => refine (wp_ret a Q tr _)
  | |- wp (call ?e) ?Q ?tr => refine (wp_call e Q tr _); intros ?
  | |- wp (outcome_prog ?o) ?Q ?tr => refine (wp_outcome_prog o Q tr _)
  | |- wp (mbind ?k ?p) ?Q ?tr => refine (wp_bind k p Q tr _)
  | |- wp (defer ?f ?p) ?Q ?tr => refine (wp_defer f p Q tr _)
  | |- wp (recover ?h ?p) ?Q ?tr => refine (wp_recover h p Q tr _)
  | |- wp (deref ?p) ?Q ?tr => refine (wp_deref p Q tr _ _); [intros ? ?|intros ?]
  | |- after ?k ?Q ?tr (Returned ?a) => change (wp (k a) Q tr); cbv beta zeta iota
  | |- after ?k ?Q ?tr (Panicked ?m) => change (Q tr (Panicked m)); cbv beta
  end.

(** The calls of a program, by its shape; what is left are the calls themselves. *)
Ltac every_run :=
  repeat first
    [ exact I
    | lazymatch goal with
      | |- every _ (call ?e) => refine (every_call _ e _)
      | |- every _ (outcome_prog _) => apply every_outcome
      | |- every _ (deref _) => apply every_deref
      | |- every _ (lift _) => apply every_lift; intros ?
      | |- every _ (mbind ?k ?p) => refine (every_bind _ k p _ _); [|intros ?]
      | |- every _ (defer ?f ?p) => refine (every_defer _ f p _ _)
      | |- every _ (match ?x with _ => _ end) => destruct x
      end
    | progress cbn beta iota ].

(** Find the events of [in_order] in a written-out trace. *)
Ltac in_order :=
  cbn [app];
  repeat first [apply in_order_nil | left; split; [solve [repeat split; eauto]|] | right].

(** Symbolic execution of straight-line code: run the steps, splitting on each
    answer the code inspects. *)
Ltac wp_run :=
  repeat first
    [ wp_step
    | progress cbn beta iota
    | match goal with
      | |- wp (match ?x with _ => _ end) _ _ => destruct x
      end ].
