(* ===== verification/OS.v ===== *)
(** * What the engine asks of its host

    The effects the sandbox layer performs: the clock, randomness, the file
    system, processes, and the one process-wide variable of the package (the
    core counter of affinity.go, which Affinity.v models and which a program
    reads and bumps in one locked step).  The answers are the kernel's: nothing
    is assumed of them here. *)

From S2P Require Import Prelude GoStrings GoFloat Go.

(** [time.Time] is a number of nanoseconds since the Unix epoch; the zero
    [Time] is the year 1. *)
Abbreviation time := Z (only parsing).
Definition zero_time : time := (- 62135596800 * 10 ^ 9)%Z.
Definition time_IsZero (t : time) : bool := bool_decide (t = zero_time).

(** [time.Duration]: nanoseconds in an int64. *)
Definition Nanosecond : Z := 1.
Definition Millisecond : Z := 1000000.
Definition Second : Z := 1000000000.

(** [t1.Sub(t0)] saturates. *)
Definition time_Sub (t1 t0 : time) : Z := Z.max int64_min (Z.min int64_max (t1 - t0)).

(** [d.Seconds()] *)
Definition Seconds (d : Z) : float64 :=
  (of_Z (Z.quot d Second) + of_Z (Z.rem d Second) / of_Z Second)%float.

(** The figure the engine reports: [time.Since(start).Seconds() * 1000.0] *)
Definition elapsed_ms (start now : time) : float64 :=
  (Seconds (time_Sub now start) * of_Z 1000)%float.

(** [syscall.SysProcAttr], the fields native_linux.go sets. *)
Record SysProcAttr := {
  Setpgid : bool;
  Uid : Z;
  Gid : Z;
  Pdeathsig : Z;
  Cloneflags : Z;
}.

(** [exec.Cmd] together with the timeout of the context it runs under. *)
Record command := {
  cmd_Path : string;
  cmd_Args : list string;
  cmd_Dir : string;
  cmd_Stdin : option string;
  cmd_Timeout : option Z;
  cmd_SysProcAttr : option SysProcAttr;
}.

Record rusage := {
  Utime_Sec : Z; Utime_Usec : Z; Stime_Sec : Z; Stime_Usec : Z;
}.

(** The end of a command: the error of [Run] or [Wait], the chunks [os/exec]
    copied to the two writers, the resource usage of the process state, and
    whether the context's deadline had passed. *)
Record completion := {
  c_err : option error;
  c_stdout : list bytes;
  c_stderr : list bytes;
  c_rusage : option rusage;
  c_deadline : bool;
}.

Inductive osE :=
| TimeNow
| NowFormat (layout : string)
| RandRead (n : nat)
| Getenv (key : string)
| NumCPU
| Geteuid
| Statfs (path : string)
| Stat (path : string)
| MkdirAll (path : string) (perm : Z)
| MkdirTemp (dir pattern : string)
| WriteFile (path data : string) (perm : Z)
| ReadFile (path : string)
| OpenScan (path : string)
| Chown (path : string) (uid gid : Z)
| Chmod (path : string) (perm : Z)
| Remove (path : string)
| RemoveAll (path : string)
| RunCmd (c : command)
| StartCmd (c : command)
| WaitOrTimeout (pid : Z) (timeout : Z)
| WaitCmd (pid : Z)
| KillProcess (pid : Z)
| KillGroup (pid : Z)
| SchedSetaffinity (pid : Z) (mask : list Z)
| AllocCore.

#[export] Instance osE_effect : Effect osE := fun e =>
  match e with
  | TimeNow => time
  | NowFormat _ => string
  | RandRead _ => option bytes
  | Getenv _ => string
  | NumCPU => Z
  | Geteuid => Z
  | Statfs _ => (error + Z)%type
  | Stat _ => option error
  | MkdirAll _ _ => option error
  | MkdirTemp _ _ => (error + string)%type
  | WriteFile _ _ _ => option error
  | ReadFile _ => (error + string)%type
  | OpenScan _ => (error + string)%type
  | Chown _ _ _ => option error
  | Chmod _ _ => option error
  | Remove _ => option error
  | RemoveAll _ => option error
  | RunCmd _ => completion
  | StartCmd _ => (error + Z)%type
  | WaitOrTimeout _ _ => option completion
  | WaitCmd _ => completion
  | KillProcess _ => unit
  | KillGroup _ => unit
  | SchedSetaffinity _ _ => Z
  | AllocCore => Z
  end.

(** The exit code the backends compute from the error of a command. *)
Definition exit_code (err : option error) : Z :=
  match err with
  | None => 0
  | Some (ExitError code _) => code
  | Some _ => -1
  end.

(** ** Observations on a trace *)

(** A write of exactly these contents succeeded. *)
Definition wrote (path data : string) (tr : list (event osE)) : Prop :=
  Exists (fun ev => match ev with
                    | Ev (WriteFile p d _) r => p = path /\ d = data /\ r = None
                    | _ => False
                    end) tr.

Definition made_dir (dir : string) (tr : list (event osE)) : Prop :=
  Exists (fun ev => match ev with
                    | Ev (MkdirAll d _) r => d = dir /\ r = None
                    | _ => False
                    end) tr.

Definition made_temp (dir : string) (tr : list (event osE)) : Prop :=
  Exists (fun ev => match ev with
                    | Ev (MkdirTemp _ _) r => r = inr dir
                    | _ => False
                    end) tr.

(** The tree below [dir] was removed (the call was made). *)
Definition removes (dir : string) (tr : list (event osE)) : Prop :=
  Exists (fun ev => match ev with
                    | Ev (RemoveAll d) _ => d = dir
                    | _ => False
                    end) tr.

(** Processes: started (with these credentials), reaped, timed out, killed. *)
Definition started (pid : Z) (attr : option SysProcAttr) (tr : list (event osE)) : Prop :=
  Exists (fun ev => match ev with
                    | Ev (StartCmd c) r => r = inr pid /\ cmd_SysProcAttr c = attr
                    | _ => False
                    end) tr.

Definition reaped (pid : Z) (tr : list (event osE)) : Prop :=
  Exists (fun ev => match ev with
                    | Ev (WaitCmd p) _ => p = pid
                    | Ev (WaitOrTimeout p _) (Some _) => p = pid
                    | _ => False
                    end) tr.

Definition timed_out (pid timeout : Z) (tr : list (event osE)) : Prop :=
  Exists (fun ev => match ev with
                    | Ev (WaitOrTimeout p t) None => p = pid /\ t = timeout
                    | _ => False
                    end) tr.

Definition killed (pid : Z) (tr : list (event osE)) : Prop :=
  Exists (fun ev => match ev with
                    | Ev (KillProcess p) _ => p = pid
                    | _ => False
                    end) tr.

Definition group_killed (pid : Z) (tr : list (event osE)) : Prop :=
  Exists (fun ev => match ev with
                    | Ev (KillGroup p) _ => p = pid
                    | _ => False
                    end) tr.

(** The same as properties of one event, for [in_order]. *)
Definition starts (pid : Z) (attr : option SysProcAttr) (ev : event osE) : Prop :=
  match ev with Ev (StartCmd c) r => r = inr pid /\ cmd_SysProcAttr c = attr | _ => False end.

Definition writes (path data : string) (ev : event osE) : Prop :=
  match ev with Ev (WriteFile p d _) r => p = path /\ d = data /\ r = None | _ => False end.

Definition times_out (pid timeout : Z) (ev : event osE) : Prop :=
  match ev with Ev (WaitOrTimeout p t) r => p = pid /\ t = timeout /\ r = None | _ => False end.

Definition kills (pid : Z) (ev : event osE) : Prop :=
  match ev with Ev (KillProcess p) _ => p = pid | _ => False end.

Definition kills_group (pid : Z) (ev : event osE) : Prop :=
  match ev with Ev (KillGroup p) _ => p = pid | _ => False end.

Definition reaps (pid : Z) (ev : event osE) : Prop :=
  match ev with
  | Ev (WaitCmd p) _ => p = pid
  | Ev (WaitOrTimeout p _) r => p = pid /\ r <> None
  | _ => False
  end.

(** A command with this property ran to the end of its process: in one call, or
    started and later waited for. *)
Definition runs_to_end (p : command -> Prop) (c : completion) (tr : list (event osE)) : Prop :=
  in_order [fun ev => match ev with Ev (RunCmd cmd) r => p cmd /\ r = c | _ => False end] tr \/
  exists pid, in_order
    [(fun ev => match ev with Ev (StartCmd cmd) r => p cmd /\ r = inr pid | _ => False end);
     (fun ev => match ev with
                | Ev (WaitOrTimeout q _) r => q = pid /\ r = Some c
                | Ev (WaitCmd q) r => q = pid /\ r = c
                | _ => False
                end)] tr.

Lemma runs_to_end_app_l p c tr1 tr2 : runs_to_end p c tr1 -> runs_to_end p c (tr1 ++ tr2).
Proof. intros [H|[pid H]]; [left|right; exists pid]; by apply in_order_app_l. Qed.

Lemma runs_to_end_app_r p c tr1 tr2 : runs_to_end p c tr2 -> runs_to_end p c (tr1 ++ tr2).
Proof. intros [H|[pid H]]; [left|right; exists pid]; by apply in_order_app_r. Qed.

(** Nothing was removed; no process was started. *)
Definition removes_nothing (e : osE) : Prop :=
  match e with Remove _ | RemoveAll _ => False | _ => True end.

Definition starts_nothing (e : osE) : Prop :=
  match e with RunCmd _ | StartCmd _ => False | _ => True end.

Definition no_remove : list (event osE) -> Prop := calls_only removes_nothing.
Definition idle : list (event osE) -> Prop := calls_only starts_nothing.

Lemma no_remove_app tr1 tr2 : no_remove (tr1 ++ tr2) <-> no_remove tr1 /\ no_remove tr2.
Proof. apply calls_only_app. Qed.

Lemma idle_app tr1 tr2 : idle (tr1 ++ tr2) <-> idle tr1 /\ idle tr2.
Proof. apply calls_only_app. Qed.

(** [no_remove] and [idle] of a written-out trace. *)
Ltac harmless := unfold no_remove, idle, calls_only; cbn [app]; repeat constructor.

(** No temporary directory was asked for. *)
Definition no_temp (tr : list (event osE)) : Prop :=
  Forall (fun ev => match ev_call ev with MkdirTemp _ _ => False | _ => True end) tr.

(** Find the event an observation asks for, from the end of a trace written
    out as appends and conses. *)
Ltac find_event :=
  lazymatch goal with
  | |- Exists _ (_ ++ _) => apply Exists_app; first [right; find_event | left; find_event]
  | |- Exists _ (_ :: _) => apply Exists_cons; first [left; find_event | right; find_event]
  | |- Exists _ [] => fail
  | |- _ => solve [repeat split]
  end.

Ltac observe :=
  unfold wrote, made_dir, made_temp, removes, started, reaped, timed_out, killed, group_killed;
  find_event.

(** Split a hypothesis that observes a written-out trace into its cases and
    drop those no event satisfies. *)
Ltac observe_in H :=
  unfold wrote, made_dir, made_temp, removes, started, reaped, timed_out, killed,
    group_killed in H;
  repeat match type of H with
  | Exists _ (_ ++ _) => apply Exists_app in H as [H|H]
  | Exists _ (_ :: _) => apply Exists_cons in H as [H|H]
  | Exists _ [] => by apply Exists_nil in H
  end;
  try (exfalso; exact H).

Lemma removes_app_l dir tr1 tr2 : removes dir tr1 -> removes dir (tr1 ++ tr2).
Proof. intros H. apply Exists_app. by left. Qed.

Lemma removes_app_r dir tr1 tr2 : removes dir tr2 -> removes dir (tr1 ++ tr2).
Proof. intros H. apply Exists_app. by right. Qed.

#[export] Hint Resolve removes_app_l removes_app_r : go.

Lemma made_temp_app dir tr1 tr2 :
  made_temp dir (tr1 ++ tr2) <-> made_temp dir tr1 \/ made_temp dir tr2.
Proof. apply Exists_app. Qed.

Lemma removes_app dir tr1 tr2 :
  removes dir (tr1 ++ tr2) <-> removes dir tr1 \/ removes dir tr2.
Proof. apply Exists_app. Qed.

Lemma no_temp_made dir tr : no_temp tr -> ~ made_temp dir tr.
Proof.
  intros Hn Hm. apply Exists_exists in Hm as ([e r] & Hin & Hm).
  unfold no_temp in Hn. rewrite Forall_forall in Hn. specialize (Hn _ Hin). by destruct e.
Qed.

Lemma no_temp_app tr1 tr2 : no_temp tr1 -> no_temp tr2 -> no_temp (tr1 ++ tr2).
Proof. intros ??. by apply Forall_app. Qed.

#[export] Hint Resolve no_temp_made no_temp_app : go.

(** [no_temp] of a written-out trace. *)
Ltac no_temp := unfold no_temp; cbn [app]; repeat constructor.
