(* ===== verification/Models.v ===== *)
(** * Requests, results and verdicts (pkg/models)

    [ExecutionRequest] with its [Normalize], the two result records and the
    verdict strings.  [Normalize] reads randomness when the request has no ID,
    so it is a program; [normalize_with] is what it does to the fields. *)

From S2P Require Import Prelude GoStrings GoFloat Go OS.

(** ** Verdicts (verdicts.go) *)

Abbreviation Verdict := string (only parsing).

Definition VerdictAccepted : Verdict := "ACCEPTED".
Definition VerdictWrongAnswer : Verdict := "WRONG_ANSWER".
Definition VerdictTimeLimitExceeded : Verdict := "TIME_LIMIT_EXCEEDED".
Definition VerdictMemoryLimitExceeded : Verdict := "MEMORY_LIMIT_EXCEEDED".
Definition VerdictCompilationError : Verdict := "COMPILATION_ERROR".
Definition VerdictRuntimeError : Verdict := "RUNTIME_ERROR".
Definition VerdictOutputLimitExceeded : Verdict := "OUTPUT_LIMIT_EXCEEDED".
Definition VerdictSystemError : Verdict := "SYSTEM_ERROR".

(** ** Results (result.go) *)

Record CompilationResult := {
  comp_Success : bool;
  comp_ExitCode : Z;
  comp_Stdout : string;
  comp_Stderr : string;
  comp_TimeMs : float64;
}.

#[export] Instance CompilationResult_eq_dec : EqDecision CompilationResult.
Proof. solve_decision. Defined.

Record ExecutionResult := {
  res_ID : string;
  res_Verdict : Verdict;
  res_ExitCode : Z;
  res_Stdout : string;
  res_Stderr : string;
  res_WallTimeMs : float64;
  res_CpuTimeMs : float64;
  res_PeakMemoryKB : Z;
  res_PeakMemoryMB : float64;
  res_OOMKilled : bool;
  res_Compilation : option CompilationResult;
  res_ErrorDetails : string;
  res_SandboxBackend : string;
  res_ExecutedAt : time;
}.

(** ** Requests (request.go) *)

Definition DefaultTimeLimitMs : Z := 2000.
Definition DefaultMemoryLimitMB : Z := 128.
Definition DefaultCpuQuota : float64 := of_Z 1.
Definition DefaultPidsLimit : Z := 32.
Definition DefaultMaxOutputBytes : Z := 1048576.
Definition MaxAllowedTimeLimitMs : Z := 10000.
Definition MaxAllowedMemoryMB : Z := 1024.

Record ExecutionRequest := {
  ID : string;
  Language : string;
  Code : string;
  Stdin : string;
  ExpectedOutput : string;
  TimeLimitMs : Z;
  MemoryLimitMB : Z;
  CpuQuota : float64;
  PidsLimit : Z;
  MaxOutputBytes : Z;
  SandboxType : string;
}.

Definition hex_digit (n : N) : Ascii.ascii :=
  if bool_decide (n < 10)%N then byte (48 + n) else byte (87 + n).

(** [hex.EncodeToString] *)
Definition EncodeToString (b : bytes) : string :=
  of_bytes (b ≫= fun c => [hex_digit (code c / 16); hex_digit (code c `mod` 16)]).

Definition generateExecutionID : prog osE string :=
  r ← call (RandRead 8);
  match (r : option bytes) with
  | None =>
      now ← call (NowFormat "20060102150405");
      mret ("exec-" +:+ now)
  | Some b => mret ("exec-" +:+ EncodeToString b)
  end.

(** The language aliases of [Normalize]. *)
Definition canonical_language `{UnicodeLower} (lang : string) : string :=
  let l := ToLower (TrimSpace lang) in
  let l := if bool_decide (l = "py") || bool_decide (l = "python") then "python3" else l in
  if bool_decide (l = "c++") || bool_decide (l = "g++") then "cpp" else l.

Definition clamp_limit (default max v : Z) : Z :=
  if bool_decide (v <= 0)%Z then default
  else if bool_decide (max < v)%Z then max else v.

Definition default_limit (default v : Z) : Z :=
  if bool_decide (v <= 0)%Z then default else v.

Definition normalize_with `{UnicodeLower} (id : string) (r : ExecutionRequest) : ExecutionRequest :=
  {| ID := id;
     Language := canonical_language (Language r);
     Code := Code r;
     Stdin := Stdin r;
     ExpectedOutput := ExpectedOutput r;
     TimeLimitMs := clamp_limit DefaultTimeLimitMs MaxAllowedTimeLimitMs (TimeLimitMs r);
     MemoryLimitMB := clamp_limit DefaultMemoryLimitMB MaxAllowedMemoryMB (MemoryLimitMB r);
     CpuQuota := if fle (CpuQuota r) f0 then DefaultCpuQuota else CpuQuota r;
     PidsLimit := default_limit DefaultPidsLimit (PidsLimit r);
     MaxOutputBytes := default_limit DefaultMaxOutputBytes (MaxOutputBytes r);
     SandboxType := if bool_decide (SandboxType r = "") then "auto" else SandboxType r |}.

Definition Normalize `{UnicodeLower} (r : ExecutionRequest) : prog osE ExecutionRequest :=
  id ← (if bool_decide (ID r = "") then generateExecutionID else mret (ID r));
  mret (normalize_with id r).

(** [time.Duration(r.TimeLimitMs) * time.Millisecond], in int64 arithmetic. *)
Definition TimeoutDuration (r : ExecutionRequest) : Z :=
  int64 (TimeLimitMs r * Millisecond).

(** ** What a normalized request satisfies *)

Record normalized (r : ExecutionRequest) : Prop := {
  norm_id : ID r <> "";
  norm_time : (1 <= TimeLimitMs r <= MaxAllowedTimeLimitMs)%Z;
  norm_mem : (1 <= MemoryLimitMB r <= MaxAllowedMemoryMB)%Z;
  norm_cpu : fle (CpuQuota r) f0 = false;
  norm_pids : (1 <= PidsLimit r)%Z;
  norm_out : (1 <= MaxOutputBytes r)%Z;
  norm_sandbox : SandboxType r <> "";
}.

Lemma clamp_limit_range d m v :
  (1 <= d <= m)%Z -> (1 <= clamp_limit d m v <= m)%Z.
Proof. unfold clamp_limit. intros. repeat case_bool_decide; lia. Qed.

Lemma clamp_limit_id d m v : (1 <= v <= m)%Z -> clamp_limit d m v = v.
Proof. unfold clamp_limit. intros. repeat case_bool_decide; lia. Qed.

Lemma default_limit_range d v : (1 <= d)%Z -> (1 <= default_limit d v)%Z.
Proof. unfold default_limit. intros. case_bool_decide; lia. Qed.

Lemma default_limit_id d v : (1 <= v)%Z -> default_limit d v = v.
Proof. unfold default_limit. intros. case_bool_decide; lia. Qed.

#[export] Hint Resolve clamp_limit_range default_limit_range : go.
#[export] Hint Rewrite clamp_limit_id default_limit_id using lia : go.

Lemma normalize_with_normalized `{UnicodeLower} id r :
  id <> "" -> normalized (normalize_with id r).
Proof.
  intros Hid. split; cbn; try done.
  - apply clamp_limit_range. done.
  - apply clamp_limit_range. done.
  - by destruct (fle (CpuQuota r) f0) eqn:Hq.
  - by apply default_limit_range.
  - by apply default_limit_range.
  - by case_bool_decide.
Qed.

(** A normalized request is a fixed point, up to its language. *)
Lemma normalize_with_fixed `{UnicodeLower} r :
  normalized r -> canonical_language (Language r) = Language r ->
  normalize_with (ID r) r = r.
Proof.
  intros [? ? ? Hcpu ? ? Hsb] Hl. destruct r; unfold normalize_with; cbn in *.
  autorewrite with go. rewrite Hl, Hcpu. by rewrite bool_decide_eq_false_2 by done.
Qed.

Lemma is_ascii_python3 : is_ascii "python3" = true. Proof. done. Qed.

Lemma canonical_language_cases `{UnicodeLower} lang :
  canonical_language lang = "python3" \/ canonical_language lang = "cpp" \/
  (canonical_language lang = ToLower (TrimSpace lang) /\
   ToLower (TrimSpace lang) <> "py" /\ ToLower (TrimSpace lang) <> "python" /\
   ToLower (TrimSpace lang) <> "c++" /\ ToLower (TrimSpace lang) <> "g++").
Proof.
  unfold canonical_language. cbv zeta.
  repeat case_bool_decide; cbn in *; try congruence; auto.
  right; right. auto.
Qed.

Lemma canonical_language_idemp `{UnicodeLower} lang :
  is_ascii lang = true ->
  canonical_language (canonical_language lang) = canonical_language lang.
Proof.
  intros Ha. destruct (canonical_language_cases lang) as [->|[->|(-> & H1 & H2 & H3 & H4)]];
    [reflexivity..|].
  assert (Hfix : ToLower (TrimSpace (ToLower (TrimSpace lang))) = ToLower (TrimSpace lang)).
  { rewrite TrimSpace_ToLower, TrimSpace_idemp by (by apply is_ascii_TrimSpace).
    apply ToLower_idemp. by apply is_ascii_TrimSpace. }
  unfold canonical_language. cbv zeta. rewrite Hfix.
  set (l := ToLower (TrimSpace lang)) in *.
  rewrite (bool_decide_eq_false_2 (l = "py")), (bool_decide_eq_false_2 (l = "python")) by done.
  cbn. by rewrite (bool_decide_eq_false_2 (l = "c++")), (bool_decide_eq_false_2 (l = "g++")).
Qed.

(** ** Properties *)

(** C35: [Normalize] always returns a request inside the engine's bounds (an ID, a
    time limit of 1..10000 ms, a memory limit of 1..1024 MB, positive quota,
    process and output limits, a sandbox preference), whatever the caller sent
    and whatever the random source answers; it leaves code, input and expected
    output alone, and a request that has an ID is normalized without any
    effect. *)
Theorem Normalize_bounds `{UnicodeLower} (r : ExecutionRequest) :
  wp (Normalize r) (fun tr o => exists r', o = Returned r' /\ normalized r' /\
    (Code r', Stdin r', ExpectedOutput r') = (Code r, Stdin r, ExpectedOutput r) /\
    (ID r <> "" -> ID r' = ID r /\ tr = [])) [].
Proof.
  unfold Normalize. wp_step. case_bool_decide as Hid.
  - unfold generateExecutionID. repeat wp_step. destruct r0 as [b|]; repeat wp_step;
      eexists; split_all; try done; by apply normalize_with_normalized.
  - repeat wp_step. eexists; split_all; try done. by apply normalize_with_normalized.
Qed.

(** Normalizing twice is normalizing once, for a request with an ID whose
    language name is ASCII: the second call performs no effect and changes no
    field. *)
Theorem Normalize_idempotent `{UnicodeLower} (r : ExecutionRequest)
    (Hid : ID r <> "") (Hascii : is_ascii (Language r) = true) :
  (Normalize r ≫= Normalize) = Normalize r.
Proof.
  assert (Hfix : normalize_with (ID r) (normalize_with (ID r) r) = normalize_with (ID r) r).
  { apply (normalize_with_fixed (normalize_with (ID r) r)).
    - by apply normalize_with_normalized.
    - by apply canonical_language_idemp. }
  unfold Normalize. rewrite (bool_decide_eq_false_2 (ID r = "")) by done. cbn.
  rewrite (bool_decide_eq_false_2 (ID r = "")) by done. cbn. unfold mret, prog_ret.
  by rewrite Hfix.
Qed.

(** A request of the tests, and the case table they need. *)
Definition ascii_only : UnicodeLower := fun r => r.

Definition sample_request : ExecutionRequest :=
  {| ID := "sub-1"; Language := " PY "; Code := "print(1)"; Stdin := ""; ExpectedOutput := "1";
     TimeLimitMs := 60000; MemoryLimitMB := 0; CpuQuota := f0; PidsLimit := -1;
     MaxOutputBytes := 0; SandboxType := "" |}.

Lemma Normalize_idempotent_witness :
  (@Normalize ascii_only sample_request ≫= @Normalize ascii_only)
  = @Normalize ascii_only sample_request.
Proof.
  apply (@Normalize_idempotent ascii_only sample_request); [discriminate|reflexivity].
Defined.

Example Normalize_sample :
  @Normalize ascii_only sample_request =
  mret {| ID := "sub-1"; Language := "python3"; Code := "print(1)"; Stdin := "";
     ExpectedOutput := "1"; TimeLimitMs := 10000; MemoryLimitMB := 128; CpuQuota := of_Z 1;
     PidsLimit := 32; MaxOutputBytes := 1048576; SandboxType := "auto" |}.
Proof. vm_compute. reflexivity. Qed.

(** For a normalized request the int64 arithmetic on its limits is exact: the
    timeout is the limit in nanoseconds, at most ten seconds, and the memory
    limit in bytes is at most 1 GiB, neither wraps. *)
Theorem limits_do_not_overflow (r : ExecutionRequest) (Hn : normalized r) :
  TimeoutDuration r = (TimeLimitMs r * Millisecond)%Z /\
  (0 < TimeoutDuration r <= 10 * Second)%Z /\
  int64 (int64 (MemoryLimitMB r * 1024) * 1024) = (MemoryLimitMB r * 2 ^ 20)%Z /\
  (0 < MemoryLimitMB r * 2 ^ 20 <= 2 ^ 30)%Z.
Proof.
  destruct Hn as [_ Ht Hm _ _ _ _].
  unfold TimeoutDuration, Millisecond, Second, MaxAllowedTimeLimitMs, MaxAllowedMemoryMB in *.
  rewrite !int64_id by (unfold in_int64, int64_min, int64_max; try rewrite int64_id;
    unfold in_int64, int64_min, int64_max; lia).
  lia.
Qed.

Lemma limits_do_not_overflow_witness :
  TimeoutDuration (@normalize_with ascii_only "x" sample_request) = (10 * Second)%Z.
Proof.
  refine (proj1 (limits_do_not_overflow (@normalize_with ascii_only "x" sample_request) _)).
  apply (@normalize_with_normalized ascii_only). discriminate.
Defined.

(** Without the clamp the product wraps: a limit of about 107 days becomes a
    negative timeout. *)
Example timeout_wraps :
  TimeoutDuration {| ID := "x"; Language := "cpp"; Code := ""; Stdin := ""; ExpectedOutput := "";
    TimeLimitMs := 9223372036855; MemoryLimitMB := 1; CpuQuota := f0; PidsLimit := 1;
    MaxOutputBytes := 1; SandboxType := "" |} = (-9223372036854551616)%Z.
Proof. reflexivity. Qed.
