(* ===== verification/Languages.v ===== *)
(** * Language handlers and their registry (pkg/languages)

    [LanguageHandler] is the Go interface as a record of its methods.  The
    registry is the package's map; the locks around it make each operation one
    step.  [init_registry] is the map after the package's [init]. *)

From S2P Require Import Prelude GoStrings Go Models.

Record LanguageHandler := {
  Name : string;
  SourceFilename : string;
  BinaryFilename : string;
  NeedsCompilation : bool;
  CompileCommand : string -> string -> string * list string;
  RunCommand : string -> string * list string;
}.

Definition CppHandler : LanguageHandler :=
  {| Name := "cpp";
     SourceFilename := "solution.cpp";
     BinaryFilename := "solution";
     NeedsCompilation := true;
     CompileCommand := fun sourcePath binaryPath =>
       ("g++", ["-O3"; "-std=c++17"; "-Wall"; "-Wextra"; "-DONLINE_JUDGE"; "-pipe";
                sourcePath; "-o"; binaryPath]);
     RunCommand := fun targetPath => (targetPath, []) |}.

Definition PythonHandler : LanguageHandler :=
  {| Name := "python3";
     SourceFilename := "solution.py";
     BinaryFilename := "";
     NeedsCompilation := false;
     CompileCommand := fun _ _ => ("", []);
     RunCommand := fun targetPath => ("python3", ["-u"; "-B"; targetPath]) |}.

Abbreviation Registry := (gmap string LanguageHandler).

Section Registry.
Context `{UnicodeLower}.

Definition Register (registry : Registry) (handler : LanguageHandler) : Registry :=
  <[ToLower (Name handler) := handler]> registry.

Definition init_registry : Registry :=
  Register (Register ∅ CppHandler) PythonHandler.

(** The aliases of [Get], in its order. *)
Definition normalize_name (lang : string) : string :=
  let normalized := ToLower (TrimSpace lang) in
  let normalized :=
    if bool_decide (normalized = "python") || bool_decide (normalized = "py")
    then "python3" else normalized in
  if bool_decide (normalized = "c++") || bool_decide (normalized = "g++")
  then "cpp" else normalized.

Definition unsupported_language (lang : string) : error :=
  Errorf ("unsupported language: '" +:+ lang +:+ "' (supported: cpp, python3)").

Definition Get (registry : Registry) (lang : string) : error + LanguageHandler :=
  match registry !! normalize_name lang with
  | Some handler => inr handler
  | None => inl (unsupported_language lang)
  end.

(** The order of a Go map's keys is not specified; the model gives one. *)
Definition SupportedLanguages (registry : Registry) : list string :=
  elements (dom registry).

(** ** Lemmas *)

Lemma normalize_name_canonical lang : normalize_name lang = canonical_language lang.
Proof. unfold normalize_name, canonical_language. by rewrite (orb_comm (bool_decide (_ = "python"))). Qed.

Lemma init_registry_eq : init_registry = <["python3" := PythonHandler]> (<["cpp" := CppHandler]> ∅).
Proof. reflexivity. Qed.

Lemma init_registry_lookup k :
  init_registry !! k =
  if decide (k = "python3") then Some PythonHandler
  else if decide (k = "cpp") then Some CppHandler else None.
Proof.
  rewrite init_registry_eq, !lookup_insert, lookup_empty.
  repeat case_decide; congruence.
Qed.

Lemma Get_cases lang :
  (canonical_language lang = "cpp" /\ Get init_registry lang = inr CppHandler) \/
  (canonical_language lang = "python3" /\ Get init_registry lang = inr PythonHandler) \/
  (canonical_language lang <> "cpp" /\ canonical_language lang <> "python3" /\
   Get init_registry lang = inl (unsupported_language lang)).
Proof.
  unfold Get. rewrite init_registry_lookup, normalize_name_canonical.
  repeat case_decide; auto.
Qed.

(** ** Properties *)

(** Resolving a language is decided by its canonical name, the same that
    [Normalize] stores in the request: exactly the names whose canonical form
    is cpp or python3 resolve, to the handler of that name, and everything
    else is the "unsupported language" error quoting the caller's text; so a
    normalized request resolves as the original did. *)
Theorem Get_resolves (lang : string) :
  match Get init_registry lang with
  | inr h => Name h = canonical_language lang /\
             (h = CppHandler \/ h = PythonHandler)
  | inl e => canonical_language lang ∉ ["cpp"; "python3"] /\
             e = unsupported_language lang
  end.
Proof.
  destruct (Get_cases lang) as [(-> & ->)|[(-> & ->)|(H1 & H2 & ->)]]; cbn; auto.
  split; [set_solver|done].
Qed.

(** Registering a handler makes its name resolve to it and leaves every other
    name as it was, so a later registration under the same name wins and two
    registrations under different names commute. *)
Theorem Register_lookup (reg : Registry) (h h' : LanguageHandler)
    (Hne : ToLower (Name h) <> ToLower (Name h')) :
  Register reg h !! ToLower (Name h) = Some h /\
  Register (Register reg h') h !! ToLower (Name h') = Some h' /\
  Register (Register reg h) h' = Register (Register reg h') h.
Proof.
  unfold Register. split_all.
  - apply lookup_insert_eq.
  - rewrite lookup_insert_ne by done. apply lookup_insert_eq.
  - by apply insert_insert_ne.
Qed.

End Registry.

Lemma Register_lookup_witness :
  @Register ascii_only (@Register ascii_only ∅ CppHandler) PythonHandler !! "python3"
  = Some PythonHandler.
Proof.
  refine (proj1 (@Register_lookup ascii_only (@Register ascii_only ∅ CppHandler)
    PythonHandler CppHandler _)).
  vm_compute. discriminate.
Defined.

Example SupportedLanguages_init :
  SupportedLanguages (@init_registry ascii_only) ≡ₚ ["cpp"; "python3"].
Proof. apply (bool_decide_unpack _). vm_compute. exact I. Qed.

(** The table of language_test.go. *)
Example Get_aliases :
  (fun l => match @Get ascii_only (@init_registry ascii_only) l with
            | inr h => Name h | inl e => error_text e end)
    <$> ["cpp"; "C++"; " g++ "; "python"; "py"; "Python3"; "brainfuck"]
  = ["cpp"; "cpp"; "cpp"; "python3"; "python3"; "python3";
     "unsupported language: 'brainfuck' (supported: cpp, python3)"].
Proof. vm_compute. reflexivity. Qed.
