(* ===== verification/FilePath.v ===== *)
(** * Slash-separated paths: [path/filepath] on Unix

    [Clean] works on the components of a path: empty ones and "." disappear,
    ".." removes the component before it (nothing above the root of a rooted
    path), and the result is "/" or "." when nothing is left.  [Join] and
    [Ext] are the other two functions the engine calls. *)

From S2P Require Import Prelude GoStrings.

Definition slash : Ascii.ascii := byte 47.
Definition dot : Ascii.ascii := byte 46.

(** One component against the (reversed) components kept so far. *)
Definition clean_step (rooted : bool) (out : list string) (c : string) : list string :=
  if bool_decide (c = "") || bool_decide (c = ".") then out
  else if bool_decide (c = "..") then
    match out with
    | d :: out' => if bool_decide (d = "..") then c :: out else out'
    | [] => if rooted then [] else [c]
    end
  else c :: out.

Definition Clean (path : string) : string :=
  if bool_decide (path = "") then "."
  else
    let rooted := HasPrefix path "/" in
    let out := reverse (fold_left (clean_step rooted) (Split path slash) []) in
    let body := String.concat "/" out in
    if rooted then "/" +:+ body
    else if bool_decide (body = "") then "." else body.

Fixpoint Join (elem : list string) : string :=
  match elem with
  | [] => ""
  | e :: elem' => if bool_decide (e = "") then Join elem'
                  else Clean (String.concat "/" elem)
  end.

(** The suffix from the last dot of the last component. *)
Fixpoint ext_rev (l acc : bytes) : bytes :=
  match l with
  | [] => []
  | c :: l' => if ascii_dec c slash then []
               else if ascii_dec c dot then c :: acc
               else ext_rev l' (c :: acc)
  end.

Definition Ext (path : string) : string := of_bytes (ext_rev (reverse (to_bytes path)) []).

Example Clean_ex1 : Clean "/tmp//a/./b/../c/" = "/tmp/a/c". Proof. reflexivity. Qed.
Example Clean_ex2 : Clean "a/../../b" = "../b". Proof. reflexivity. Qed.
Example Clean_ex3 : Clean "/.." = "/". Proof. reflexivity. Qed.
Example Clean_ex4 : Clean "." = ".". Proof. reflexivity. Qed.
Example Join_ex : Join ["/workspace"; "solution.py"] = "/workspace/solution.py".
Proof. reflexivity. Qed.
Example Ext_ex : (Ext "/a.b/sol.cpp", Ext "/a.b/sol", Ext ".py") = (".cpp", "", ".py").
Proof. reflexivity. Qed.

(** ** A name that is one plain component *)

Definition plain_name (s : string) : Prop :=
  s <> "" /\ s <> "." /\ s <> ".." /\ slash ∉ to_bytes s.

#[export] Instance plain_name_dec s : Decision (plain_name s).
Proof. unfold plain_name. apply _. Defined.

Lemma split_on_none sep l : forall cur, sep ∉ l -> split_on sep cur l = [reverse cur ++ l].
Proof.
  induction l as [|c l IH]; intros cur Hl; cbn; [by rewrite app_nil_r|].
  apply not_elem_of_cons in Hl as [Hc Hl]. destruct (ascii_dec c sep); [congruence|].
  rewrite IH by done. by rewrite reverse_cons, <- app_assoc.
Qed.

Lemma split_on_app sep l1 l2 : forall cur,
  split_on sep cur (l1 ++ sep :: l2) = split_on sep cur l1 ++ split_on sep [] l2.
Proof.
  induction l1 as [|c l1 IH]; intros cur; cbn.
  - by destruct (ascii_dec sep sep).
  - destruct (ascii_dec c sep); cbn; by rewrite IH.
Qed.

Lemma to_bytes_app a b : to_bytes (a +:+ b) = to_bytes a ++ to_bytes b.
Proof.
  induction a as [|c a IH]; [done|].
  change (c :: to_bytes (a +:+ b) = c :: to_bytes a ++ to_bytes b). by rewrite IH.
Qed.

Lemma Split_snoc base name :
  slash ∉ to_bytes name ->
  Split (base +:+ "/" +:+ name) slash = Split base slash ++ [name].
Proof.
  intros Hn. unfold Split. rewrite !to_bytes_app.
  change (to_bytes "/") with [slash]. cbn [app].
  rewrite split_on_app, fmap_app, (split_on_none _ (to_bytes name)) by done.
  cbn. by rewrite of_to_bytes.
Qed.

Lemma clean_step_plain rooted out c : plain_name c -> clean_step rooted out c = c :: out.
Proof. intros (H1 & H2 & H3 & _). unfold clean_step. by repeat case_bool_decide. Qed.

Lemma HasPrefix_app_l s t p : HasPrefix s p = true -> HasPrefix (s +:+ t) p = true.
Proof.
  rewrite !HasPrefix_spec, to_bytes_app. intros [r ->]. exists (r ++ to_bytes t).
  by rewrite app_assoc.
Qed.

Lemma string_app_nonempty_l s t : s <> "" -> s +:+ t <> "".
Proof. by destruct s. Qed.

Lemma string_app_assoc (a b c : string) : (a +:+ b) +:+ c = a +:+ b +:+ c.
Proof.
  apply to_bytes_inj. by rewrite !to_bytes_app, <- app_assoc.
Qed.

Lemma concat_snoc sep l x :
  l <> [] -> String.concat sep (l ++ [x]) = String.concat sep l +:+ sep +:+ x.
Proof.
  induction l as [|a [|b l] IH]; intros Hl; [done|done|].
  change (String.concat sep ((a :: b :: l) ++ [x]))
    with (a +:+ sep +:+ String.concat sep ((b :: l) ++ [x])).
  rewrite IH by done.
  change (String.concat sep (a :: b :: l)) with (a +:+ sep +:+ String.concat sep (b :: l)).
  by rewrite !string_app_assoc.
Qed.

(** Joining a plain name to a rooted base keeps it directly inside the base. *)
Lemma Join_plain base name :
  HasPrefix base "/" = true -> Clean base <> "/" -> plain_name name ->
  Join [base; name] = Clean base +:+ "/" +:+ name.
Proof.
  intros Hr Hroot Hn.
  assert (Hb : base <> "") by (intros ->; done).
  assert (Hs : slash ∉ to_bytes name) by apply Hn.
  cbn. rewrite bool_decide_eq_false_2 by done.
  unfold Clean in *. rewrite bool_decide_eq_false_2 in * by done.
  rewrite bool_decide_eq_false_2 by (by apply string_app_nonempty_l).
  rewrite Hr in *. rewrite (HasPrefix_app_l _ _ _ Hr).
  rewrite Split_snoc, fold_left_app by done. cbn [fold_left].
  rewrite clean_step_plain, reverse_cons by done.
  set (out := fold_left _ _ _) in *.
  rewrite concat_snoc; [by rewrite bool_decide_eq_false_2|].
  intros Hnil. rewrite Hnil in Hroot. done.
Qed.

(** A rooted path of plain names is clean, and splits into its names. *)
Definition path_of (ns : list string) : string := "/" +:+ String.concat "/" ns.

Lemma Split_concat ns :
  ns <> [] -> Forall (fun n => slash ∉ to_bytes n) ns -> Split (String.concat "/" ns) slash = ns.
Proof.
  induction ns as [|n ns IH] using rev_ind; [done|]. intros _ [Hns Hn]%Forall_app.
  apply Forall_cons in Hn as [Hn _]. destruct (decide (ns = [])) as [->|Hne].
  - cbn [app String.concat]. unfold Split. rewrite split_on_none by done. cbn [fmap list_fmap].
    rewrite app_nil_l. by rewrite of_to_bytes.
  - rewrite concat_snoc, Split_snoc by done. by rewrite IH.
Qed.

Lemma plain_names_split ns : Forall plain_name ns -> Forall (fun n => slash ∉ to_bytes n) ns.
Proof. intros H. eapply Forall_impl; [exact H|]. by intros n (_ & _ & _ & ?). Qed.

Lemma fold_clean_plain rooted ns : forall out,
  Forall plain_name ns -> fold_left (clean_step rooted) ns out = reverse ns ++ out.
Proof.
  induction ns as [|n ns IH]; intros out; [done|]. intros [Hn Hns]%Forall_cons. cbn [fold_left].
  rewrite clean_step_plain, IH by done. by rewrite reverse_cons, <- app_assoc.
Qed.

Lemma Clean_path_of ns : ns <> [] -> Forall plain_name ns -> Clean (path_of ns) = path_of ns.
Proof.
  intros Hne Hns. unfold Clean, path_of. rewrite bool_decide_eq_false_2 by done.
  assert (Hr : HasPrefix ("/" +:+ String.concat "/" ns) "/" = true)
    by (apply HasPrefix_spec; rewrite to_bytes_app; eauto).
  rewrite Hr.
  replace ("/" +:+ String.concat "/" ns) with ("" +:+ "/" +:+ String.concat "/" ns) at 1 by done.
  assert (Hs : Split ("" +:+ "/" +:+ String.concat "/" ns) slash = "" :: ns).
  { unfold Split. rewrite !to_bytes_app. change (to_bytes "/") with [slash]. cbn [app].
    change (to_bytes "" ++ slash :: ?l) with (slash :: l). cbn [split_on].
    destruct (ascii_dec slash slash); [|done]. cbn [fmap list_fmap]. f_equal.
    apply Split_concat; [done|by apply plain_names_split]. }
  rewrite Hs. cbn [fold_left]. change (clean_step true [] "") with (@nil string).
  by rewrite fold_clean_plain, app_nil_r, reverse_involutive.
Qed.

(** Such a path begins with a slash and ends with none. *)
Lemma path_of_bytes ns :
  ns <> [] -> Forall plain_name ns ->
  exists (a : ascii) (l : bytes) (b : ascii), to_bytes (String.concat "/" ns) = a :: l /\ a <> slash /\
    last (to_bytes (String.concat "/" ns)) = Some b /\ b <> slash.
Proof.
  assert (Hp : forall n, plain_name n -> exists (a : ascii) (l : bytes) (b : ascii), to_bytes n = a :: l /\ a <> slash /\
    last (to_bytes n) = Some b /\ b <> slash).
  { intros n (Hn & _ & _ & Hs). destruct (to_bytes n) as [|a l] eqn:Hb.
    { apply (f_equal of_bytes) in Hb. rewrite of_to_bytes in Hb. done. }
    destruct (last_is_Some (a :: l)) as [_ [b Hl]]; [done|]. exists a, l, b. split_and!; [done| |done|].
    - set_solver.
    - apply last_Some_elem_of in Hl. set_solver. }
  induction ns as [|n ns IH] using rev_ind; [done|]. intros _ [Hns Hn]%Forall_app.
  apply Forall_cons in Hn as [Hn _]. destruct (Hp n Hn) as (a & l & b & Ha & Hna & Hb & Hnb).
  destruct (decide (ns = [])) as [->|Hne]; [exists a, l, b; cbn; by split_and!|].
  destruct (IH Hne Hns) as (a' & l' & _ & Ha' & Hna' & _).
  rewrite concat_snoc, !to_bytes_app by done.
  exists a', (l' ++ to_bytes "/" ++ to_bytes n), b. rewrite Ha'. split_and!; [done|done| |done].
  by rewrite !last_app, Hb.
Qed.

(** What a rooted path cleans to: "/" or such a path. *)
Lemma split_on_free sep l : forall cur, sep ∉ cur -> Forall (fun p => sep ∉ p) (split_on sep cur l).
Proof.
  induction l as [|c l IH]; intros cur Hc; cbn.
  - apply Forall_cons. split; [set_solver|constructor].
  - destruct (ascii_dec c sep); [apply Forall_cons; split; [set_solver|]|]; apply IH; set_solver.
Qed.

Lemma Split_free s : Forall (fun n => slash ∉ to_bytes n) (Split s slash).
Proof.
  unfold Split. apply Forall_fmap. eapply Forall_impl; [apply (split_on_free slash _ []); set_solver|].
  intros p. cbn. by rewrite to_of_bytes.
Qed.

Lemma fold_clean_names l : forall out,
  Forall (fun n => slash ∉ to_bytes n) l -> Forall plain_name out ->
  Forall plain_name (fold_left (clean_step true) l out).
Proof.
  induction l as [|c l IH]; intros out Hl Ho; [done|]. apply Forall_cons in Hl as [Hc Hl].
  apply IH; [done|]. unfold clean_step. repeat case_bool_decide; cbn [orb]; try done.
  - destruct out as [|d out]; [done|]. apply Forall_cons in Ho as [(_ & _ & Hd & _) Ho].
    by case_bool_decide.
  - by constructor.
Qed.

Lemma Clean_rooted p :
  HasPrefix p "/" = true ->
  Clean p = "/" \/ exists ns, ns <> [] /\ Forall plain_name ns /\ Clean p = path_of ns.
Proof.
  intros Hp. unfold Clean. rewrite bool_decide_eq_false_2 by (by intros ->). rewrite Hp.
  pose proof (fold_clean_names (Split p slash) [] (Split_free p) ltac:(constructor)) as Hns.
  set (out := fold_left _ _ _) in *. destruct (decide (out = [])) as [->|Hne]; [by left|]. right.
  exists (reverse out). split_and!; [|by apply Forall_reverse|done].
  intros H. apply Hne. by rewrite <- (reverse_involutive out), H.
Qed.

Lemma Clean_trailing ns : ns <> [] -> Forall plain_name ns -> Clean (path_of ns +:+ "/") = path_of ns.
Proof.
  intros Hne Hns. rewrite <- (Clean_path_of ns) at 2 by done. unfold Clean.
  assert (Hr : HasPrefix (path_of ns) "/" = true)
    by (unfold path_of; apply HasPrefix_spec; rewrite to_bytes_app; eauto).
  rewrite !bool_decide_eq_false_2 by done. rewrite (HasPrefix_app_l _ "/" _ Hr), Hr.
  change (path_of ns +:+ "/") with (path_of ns +:+ "/" +:+ "").
  by rewrite Split_snoc, fold_left_app by (cbn; set_solver).
Qed.
