(* ===== verification/Json.v ===== *)
(** * JSON text: the syntax of [encoding/json]

    A [json] is a syntax tree whose numbers and strings keep their text, as the
    Go decoder works on it: [parse] checks the syntax first, and what a literal
    means is decided when it is stored into a Go value (Codec.v).
    [print] is the compact form [json.Marshal] writes.  The theorem of this file
    is that [parse] reads back what [print] wrote. *)

From S2P Require Import Prelude GoStrings.

Inductive json :=
| JNull
| JBool (b : bool)
| JNum (lit : bytes)
| JStr (raw : bytes)                 (* what stands between the quotes *)
| JArr (l : list json)
| JObj (fs : list (bytes * json)).

Definition dquote : ascii := byte 34.
Definition backslash : ascii := byte 92.

(** ** The scanner *)

Definition is_ws (c : ascii) : bool :=
  bool_decide (c ∈ ([byte 32; byte 9; byte 10; byte 13] : list ascii)).

Definition skip_ws (l : bytes) : bytes := drop_while is_ws l.

Definition is_hex (c : ascii) : bool := between 48 c 57 || between 97 c 102 || between 65 c 70.

(** The letters after a backslash, [u] apart. *)
Definition is_escape (c : ascii) : bool := bool_decide (c ∈ to_bytes "bfnrt\/" ++ [dquote]).

Definition cons_all {A} (x : bytes) (r : option (bytes * A)) : option (bytes * A) :=
  match r with Some (y, a) => Some (x ++ y, a) | None => None end.

(** The rest of a string after its opening quote. *)
Fixpoint scan_string (l : bytes) : option (bytes * bytes) :=
  match l with
  | [] => None
  | c :: l =>
      if decide (c = dquote) then Some ([], l)
      else if decide (c = backslash) then
        match l with
        | [] => None
        | e :: l =>
            if is_escape e then cons_all [c; e] (scan_string l)
            else if decide (e = "u"%char) then
              match l with
              | h1 :: h2 :: h3 :: h4 :: l =>
                  if forallb is_hex [h1; h2; h3; h4]
                  then cons_all [c; e; h1; h2; h3; h4] (scan_string l) else None
              | _ => None
              end
            else None
        end
      else if bool_decide (code c < 32)%N then None
      else cons_all [c] (scan_string l)
  end.

Fixpoint scan_digits (l : bytes) : bytes * bytes :=
  match l with
  | c :: l' => if is_digit c then let (ds, r) := scan_digits l' in (c :: ds, r) else ([], l)
  | [] => ([], [])
  end.

(** A digit and more digits. *)
Definition scan_digits1 (l : bytes) : option (bytes * bytes) :=
  match scan_digits l with
  | ([], _) => None
  | (ds, r) => Some (ds, r)
  end.

Definition scan_int (l : bytes) : option (bytes * bytes) :=
  match l with
  | c :: l' => if decide (c = byte 48) then Some ([c], l') else scan_digits1 l
  | [] => None
  end.

Definition scan_frac (l : bytes) : option (bytes * bytes) :=
  match l with
  | c :: l' => if decide (c = byte 46) then cons_all [c] (scan_digits1 l') else Some ([], l)
  | [] => Some ([], [])
  end.

Definition scan_exp (l : bytes) : option (bytes * bytes) :=
  match l with
  | c :: l' =>
      if bool_decide (c = "e"%char) || bool_decide (c = "E"%char) then
        match l' with
        | s :: l'' => if bool_decide (s = byte 43) || bool_decide (s = byte 45)
                      then cons_all [c; s] (scan_digits1 l'')
                      else cons_all [c] (scan_digits1 l')
        | [] => None
        end
      else Some ([], l)
  | [] => Some ([], [])
  end.

(** One part of a literal after another. *)
Definition scan_seq (f g : bytes -> option (bytes * bytes)) (l : bytes) : option (bytes * bytes) :=
  match f l with Some (x, r) => cons_all x (g r) | None => None end.

Definition scan_sign (l : bytes) : option (bytes * bytes) :=
  match l with
  | c :: l' => if decide (c = byte 45) then Some ([c], l') else Some ([], l)
  | [] => Some ([], [])
  end.

Definition scan_unsigned : bytes -> option (bytes * bytes) :=
  scan_seq scan_int (scan_seq scan_frac scan_exp).

Definition scan_number : bytes -> option (bytes * bytes) := scan_seq scan_sign scan_unsigned.

(** ** The parser

    [depth] is what is left of the decoder's limit of 10000 nested arrays and
    objects. *)

Definition maxNestingDepth : N := 10000.

Definition scan_literal (word : string) (j : json) (l : bytes) : option (json * bytes) :=
  match strip_prefix (to_bytes word) l with Some r => Some (j, r) | None => None end.

(** A value that is neither an array nor an object. *)
Definition scan_scalar (l : bytes) : option (json * bytes) :=
  match l with
  | [] => None
  | c :: l' =>
      if decide (c = dquote) then
        match scan_string l' with Some (raw, r) => Some (JStr raw, r) | None => None end
      else if decide (c = "n"%char) then scan_literal "null" JNull l
      else if decide (c = "t"%char) then scan_literal "true" (JBool true) l
      else if decide (c = "f"%char) then scan_literal "false" (JBool false) l
      else match scan_number l with Some (lit, r) => Some (JNum lit, r) | None => None end
  end.

(** The key of a member with its colon. *)
Definition scan_key (l : bytes) : option (bytes * bytes) :=
  match skip_ws l with
  | c :: l' =>
      if decide (c = dquote) then
        match scan_string l' with
        | Some (k, r) => match skip_ws r with
                         | c' :: r' => if decide (c' = ":"%char) then Some (k, r') else None
                         | [] => None
                         end
        | None => None
        end
      else None
  | [] => None
  end.

(** What follows an element: a comma ([true]) or the closing bracket. *)
Definition scan_next (closing : ascii) (l : bytes) : option (bool * bytes) :=
  match skip_ws l with
  | c :: r => if decide (c = ","%char) then Some (true, r)
              else if decide (c = closing) then Some (false, r) else None
  | [] => None
  end.

(** The body of an array or object that is empty. *)
Definition scan_empty (closing : ascii) (l : bytes) : option bytes :=
  match skip_ws l with
  | c :: r => if decide (c = closing) then Some r else None
  | [] => None
  end.

Fixpoint parse_value (fuel : nat) (depth : N) (l : bytes) : option (json * bytes) :=
  match fuel with
  | O => None
  | S fuel =>
      match skip_ws l with
      | [] => None
      | c :: l' =>
          if decide (c = "["%char) then
            if decide (depth = 0%N) then None
            else match scan_empty "]" l' with
            | Some r => Some (JArr [], r)
            | None => match parse_elems fuel (N.pred depth) l' with
                      | Some (es, r) => Some (JArr es, r)
                      | None => None
                      end
            end
          else if decide (c = "{"%char) then
            if decide (depth = 0%N) then None
            else match scan_empty "}" l' with
            | Some r => Some (JObj [], r)
            | None => match parse_members fuel (N.pred depth) l' with
                      | Some (ms, r) => Some (JObj ms, r)
                      | None => None
                      end
            end
          else scan_scalar (c :: l')
      end
  end
with parse_elems (fuel : nat) (depth : N) (l : bytes) : option (list json * bytes) :=
  match fuel with
  | O => None
  | S fuel =>
      match parse_value fuel depth l with
      | None => None
      | Some (e, r) =>
          match scan_next "]" r with
          | Some (true, r) => match parse_elems fuel depth r with
                              | Some (es, r) => Some (e :: es, r)
                              | None => None
                              end
          | Some (false, r) => Some ([e], r)
          | None => None
          end
      end
  end
with parse_members (fuel : nat) (depth : N) (l : bytes) : option (list (bytes * json) * bytes) :=
  match fuel with
  | O => None
  | S fuel =>
      match scan_key l with
      | None => None
      | Some (k, r) =>
          match parse_value fuel depth r with
          | None => None
          | Some (e, r) =>
              match scan_next "}" r with
              | Some (true, r) => match parse_members fuel depth r with
                                  | Some (ms, r) => Some ((k, e) :: ms, r)
                                  | None => None
                                  end
              | Some (false, r) => Some ([(k, e)], r)
              | None => None
              end
          end
      end
  end.

(** Two calls read at least one byte, so this is enough: [parse_fuel] below. *)
Definition fuel_for (l : bytes) : nat := 2 * length l + 2.

(** The first value of a stream, as [Decoder.Decode] reads it. *)
Definition parse_prefix (l : bytes) : option (json * bytes) :=
  parse_value (fuel_for l) maxNestingDepth l.

(** The whole text, as [Unmarshal] wants it. *)
Definition parse (l : bytes) : option json :=
  match parse_prefix l with
  | Some (j, r) => match skip_ws r with [] => Some j | _ => None end
  | None => None
  end.

(** ** The printer *)

Fixpoint sep_by (l : list bytes) : bytes :=
  match l with
  | [] => []
  | [x] => x
  | x :: l => x ++ ","%char :: sep_by l
  end.

Definition quoted (raw : bytes) : bytes := dquote :: raw ++ [dquote].

Fixpoint print (j : json) : bytes :=
  match j with
  | JNull => to_bytes "null"
  | JBool true => to_bytes "true"
  | JBool false => to_bytes "false"
  | JNum lit => lit
  | JStr raw => quoted raw
  | JArr l => "["%char :: sep_by (List.map print l) ++ ["]"%char]
  | JObj fs =>
      "{"%char :: sep_by (List.map (fun '(k, v) => quoted k ++ ":"%char :: print v) fs) ++ ["}"%char]
  end.

Example parse_ex1 : parse (to_bytes " [1, -2.50e+3 ,true,[]]") =
  Some (JArr [JNum (to_bytes "1"); JNum (to_bytes "-2.50e+3"); JBool true; JArr []]).
Proof. vm_compute. reflexivity. Qed.
Example parse_ex2 : parse (to_bytes "[1,]") = None. Proof. vm_compute. reflexivity. Qed.
Example parse_ex3 : parse (to_bytes "01") = None. Proof. vm_compute. reflexivity. Qed.
Example parse_ex4 :
  parse (print (JObj [(to_bytes "a", JStr (to_bytes "x\n")); (to_bytes "b", JNull)])) =
  Some (JObj [(to_bytes "a", JStr (to_bytes "x\n")); (to_bytes "b", JNull)]).
Proof. vm_compute. reflexivity. Qed.

(** ** Enough fuel *)

Lemma drop_while_length {A} (p : A -> bool) l : length (drop_while p l) <= length l.
Proof. induction l as [|x l IH]; cbn; [lia|]. case_match; cbn; lia. Qed.

Lemma skip_ws_length l : length (skip_ws l) <= length l.
Proof. apply drop_while_length. Qed.

(** A scanner that does not give back more than it got, or less if [n = 1]. *)
Definition consumes {A} (n : nat) (f : bytes -> option (A * bytes)) : Prop :=
  forall l x r, f l = Some (x, r) -> n + length r <= length l.

Lemma cons_all_Some {A} x (o : option (bytes * A)) y a :
  cons_all x o = Some (y, a) -> exists y', o = Some (y', a) /\ y = x ++ y'.
Proof. destruct o as [[y' a']|]; cbn; [|done]. intros [= <- <-]. by exists y'. Qed.

Lemma scan_string_consumes : consumes 1 scan_string.
Proof.
  intros l. induction l as [l IH] using length_ind. intros x r H.
  destruct l as [|c l]; [done|]. cbn [scan_string] in H.
  assert (Hsub : forall k (l' : bytes) p, cons_all p (scan_string l') = Some (x, r) ->
    length l' <= k -> k < length (c :: l) -> 1 + length r <= length (c :: l)).
  { intros k l' p (y & Hy & _)%cons_all_Some Hk Hl.
    enough (1 + length r <= length l') by lia. by eapply IH; [lia|]. }
  repeat case_match; simplify_eq; cbn in *; try lia;
    match goal with H : cons_all _ (scan_string ?l') = _ |- _ =>
      by eapply (Hsub (length l')); [exact H|cbn; lia..] end.
Qed.

Lemma scan_digits_length l ds r : scan_digits l = (ds, r) -> length ds + length r = length l.
Proof.
  revert ds r. induction l as [|c l IH]; intros ds r H; cbn in H; [by simplify_eq|].
  case_match; [|by simplify_eq]. destruct (scan_digits l) as [ds' r'].
  simplify_eq. cbn. by rewrite <- (IH _ _ eq_refl).
Qed.

Lemma scan_digits1_consumes : consumes 1 scan_digits1.
Proof.
  intros l x r. unfold scan_digits1. destruct (scan_digits l) as [[|d ds] r'] eqn:H; [done|].
  intros [= <- <-]. apply scan_digits_length in H. cbn in H. lia.
Qed.

Lemma scan_seq_consumes n m f g : consumes n f -> consumes m g -> consumes (n + m) (scan_seq f g).
Proof.
  intros Hf Hg l x r. unfold scan_seq. destruct (f l) as [[y r1]|] eqn:H1; [|done].
  intros (z & H2 & _)%cons_all_Some. apply Hf in H1. apply Hg in H2. lia.
Qed.

Lemma scan_exp_consumes : consumes 0 scan_exp.
Proof.
  intros [|c l] x r; cbn [scan_exp]; [by intros [= <- <-]|].
  repeat case_match; try done; try (intros [= <- <-]; cbn; lia);
    intros (y & Hy%scan_digits1_consumes & _)%cons_all_Some; cbn in *; lia.
Qed.

Lemma scan_frac_consumes : consumes 0 scan_frac.
Proof.
  intros [|c l] x r; cbn; [by intros [= <- <-]|]. case_match; [|intros [= <- <-]; cbn; lia].
  intros (y & Hy%scan_digits1_consumes & _)%cons_all_Some. lia.
Qed.

Lemma scan_number_consumes : consumes 1 scan_number.
Proof.
  apply (scan_seq_consumes 0 1); [|apply (scan_seq_consumes 1 0); [|apply (scan_seq_consumes 0 0)]].
  - intros [|c l] x r; cbn; [by intros [= <- <-]|]. case_match; intros [= <- <-]; cbn; lia.
  - intros [|c l] x r; [done|]. unfold scan_int. case_match; [intros [= <- <-]; cbn; lia|].
    apply scan_digits1_consumes.
  - apply scan_frac_consumes.
  - apply scan_exp_consumes.
Qed.

Lemma scan_literal_consumes w j : w <> "" -> consumes 1 (scan_literal w j).
Proof.
  intros Hw l x r. unfold scan_literal. destruct (strip_prefix _ l) eqn:H; [|done].
  intros [= <- <-]. apply strip_prefix_spec in H as ->. rewrite length_app.
  destruct w as [|c w]; [done|]. cbn. lia.
Qed.

Lemma scan_scalar_consumes : consumes 1 scan_scalar.
Proof.
  intros [|c l] x r; cbn [scan_scalar]; [done|]. repeat case_match; try done.
  - intros [= <- <-]. match goal with H : scan_string _ = _ |- _ => apply scan_string_consumes in H end.
    cbn. lia.
  - by apply scan_literal_consumes.
  - by apply scan_literal_consumes.
  - by apply scan_literal_consumes.
  - intros [= <- <-]. by eapply scan_number_consumes.
Qed.

Lemma scan_key_consumes : consumes 1 scan_key.
Proof.
  intros l x r. unfold scan_key. pose proof (skip_ws_length l) as Hl.
  destruct (skip_ws l) as [|c l']; [done|]. case_decide; [|done].
  destruct (scan_string l') as [[k r1]|] eqn:H1; [|done]. apply scan_string_consumes in H1.
  pose proof (skip_ws_length r1). destruct (skip_ws r1) as [|c' r2]; [done|].
  case_decide; [|done]. intros [= <- <-]. cbn in *. lia.
Qed.

Lemma scan_next_consumes c : consumes 1 (scan_next c).
Proof.
  intros l x r. unfold scan_next. pose proof (skip_ws_length l) as Hl.
  destruct (skip_ws l); [done|]. repeat case_match; intros [= <- <-]; cbn in *; lia.
Qed.

Lemma scan_empty_length c l r : scan_empty c l = Some r -> length r < length l.
Proof.
  unfold scan_empty. pose proof (skip_ws_length l) as Hl. destruct (skip_ws l); [done|].
  case_match; intros [= <-]. cbn in *. lia.
Qed.

Lemma parse_consumes fuel : forall d,
  consumes 1 (parse_value fuel d) /\ consumes 1 (parse_elems fuel d) /\
  consumes 1 (parse_members fuel d).
Proof.
  induction fuel as [|fuel IH]; intros d; [by split_and!|]. split_and!; intros l x r H; cbn [parse_value parse_elems parse_members] in H.
  - pose proof (skip_ws_length l) as Hl. destruct (skip_ws l) as [|c l']; [done|].
    destruct (IH (N.pred d)) as (_ & He & Hm). cbn in Hl.
    repeat case_match; simplify_eq;
      try match goal with H : scan_empty _ _ = Some _ |- _ => apply scan_empty_length in H end;
      try match goal with H : parse_elems _ _ _ = Some _ |- _ => apply He in H end;
      try match goal with H : parse_members _ _ _ = Some _ |- _ => apply Hm in H end;
      try match goal with H : scan_scalar _ = Some _ |- _ => apply scan_scalar_consumes in H end;
      cbn in *; lia.
  - destruct (IH d) as (Hv & He & _). destruct (parse_value fuel d l) as [[e r1]|] eqn:H1; [|done].
    apply Hv in H1. destruct (scan_next "]" r1) as [[b r2]|] eqn:H2; [|done].
    apply scan_next_consumes in H2. destruct b; [|simplify_eq; lia].
    destruct (parse_elems fuel d r2) as [[es r3]|] eqn:H3; [|done]. apply He in H3.
    simplify_eq. lia.
  - destruct (IH d) as (Hv & _ & Hm). destruct (scan_key l) as [[k r0]|] eqn:H0; [|done].
    apply scan_key_consumes in H0.
    destruct (parse_value fuel d r0) as [[e r1]|] eqn:H1; [|done].
    apply Hv in H1. destruct (scan_next "}" r1) as [[b r2]|] eqn:H2; [|done].
    apply scan_next_consumes in H2. destruct b; [|simplify_eq; lia].
    destruct (parse_members fuel d r2) as [[es r3]|] eqn:H3; [|done]. apply Hm in H3.
    simplify_eq. lia.
Qed.

Lemma parse_value_consumes fuel d : consumes 1 (parse_value fuel d).
Proof. apply parse_consumes. Qed.

(** Two amounts of fuel that are enough for the text give the same result. *)
Lemma parse_two_fuels f : forall f' d l,
  (2 * length l + 2 <= f -> 2 * length l + 2 <= f' ->
     parse_value f d l = parse_value f' d l) /\
  (2 * length l + 3 <= f -> 2 * length l + 3 <= f' ->
     parse_elems f d l = parse_elems f' d l) /\
  (2 * length l + 3 <= f -> 2 * length l + 3 <= f' ->
     parse_members f d l = parse_members f' d l).
Proof.
  induction f as [|f IH]; intros [|f'] d l; [split_and!; lia..|].
  split_and!; intros Hf Hf'; cbn [parse_value parse_elems parse_members].
  - pose proof (skip_ws_length l) as Hl. destruct (skip_ws l) as [|c l']; [done|]. cbn in Hl.
    destruct (IH f' (N.pred d) l') as (_ & He & Hm). by rewrite He, Hm by lia.
  - destruct (IH f' d l) as (Hv & _ & _). rewrite Hv by lia.
    destruct (parse_value f' d l) as [[e r]|] eqn:H1; [|done].
    apply parse_value_consumes in H1.
    destruct (scan_next "]" r) as [[[] r2]|] eqn:H2; [|done..]. apply scan_next_consumes in H2.
    destruct (IH f' d r2) as (_ & He & _). by rewrite He by lia.
  - destruct (scan_key l) as [[k r0]|] eqn:H0; [|done].
    apply scan_key_consumes in H0. destruct (IH f' d r0) as (Hv & _ & _). rewrite Hv by lia.
    destruct (parse_value f' d r0) as [[e r]|] eqn:H1; [|done].
    apply parse_value_consumes in H1.
    destruct (scan_next "}" r) as [[[] r2]|] eqn:H2; [|done..]. apply scan_next_consumes in H2.
    destruct (IH f' d r2) as (_ & _ & Hm). by rewrite Hm by lia.
Qed.

(** So the parser never fails for lack of fuel. *)
Lemma parse_fuel fuel d l :
  fuel_for l <= fuel -> parse_value fuel d l = parse_value (fuel_for l) d l.
Proof. intros H. by apply parse_two_fuels. Qed.

(** ** Reading a literal that is followed by something else *)

Lemma scan_string_app l raw r rest :
  scan_string l = Some (raw, r) -> scan_string (l ++ rest) = Some (raw, r ++ rest).
Proof.
  revert raw r. induction l as [l IH] using length_ind. intros raw r H.
  destruct l as [|c l]; [done|]. cbn [scan_string app] in *.
  assert (Hsub : forall (l' : bytes) p, cons_all p (scan_string l') = Some (raw, r) ->
    length l' < length (c :: l) ->
    cons_all p (scan_string (l' ++ rest)) = Some (raw, r ++ rest)).
  { intros l' p (y & Hy & ->)%cons_all_Some Hl. by rewrite (IH l' Hl _ _ Hy). }
  case_decide; [by simplify_eq|]. case_decide.
  - destruct l as [|e l]; [done|]. cbn [app]. case_match; [apply Hsub; [done|cbn; lia]|].
    case_decide; [|done]. destruct l as [|h1 [|h2 [|h3 [|h4 l]]]]; try done. cbn [app].
    case_match; [|done]. apply Hsub; [done|cbn; lia].
  - case_match; [done|]. apply Hsub; [done|cbn; lia].
Qed.

(** What may follow a number: nothing that would lengthen it. *)
Definition number_ends (rest : bytes) : Prop :=
  match rest with
  | c :: _ => is_digit c = false /\ c ∉ [byte 46; "e"%char; "E"%char]
  | [] => True
  end.

Definition extends (f : bytes -> option (bytes * bytes)) : Prop :=
  forall l x r rest, f l = Some (x, r) -> (r = [] -> number_ends rest) ->
    f (l ++ rest) = Some (x, r ++ rest).

Lemma scan_seq_extends f g : consumes 0 g -> extends f -> extends g -> extends (scan_seq f g).
Proof.
  intros Hc Hf Hg l x r rest. unfold scan_seq. destruct (f l) as [[y r1]|] eqn:H1; [|done].
  intros (z & H2 & ->)%cons_all_Some Hend. rewrite (Hf l y r1 rest H1).
  - by rewrite (Hg r1 z r rest H2 Hend).
  - intros ->. apply Hend. apply Hc in H2. destruct r; [done|]. cbn in H2. lia.
Qed.

Lemma scan_digits_extends l ds r rest :
  scan_digits l = (ds, r) -> (r = [] -> number_ends rest) ->
  scan_digits (l ++ rest) = (ds, r ++ rest).
Proof.
  revert ds r. induction l as [|c l IH]; intros ds r H Hend; cbn in H.
  - simplify_eq. destruct rest as [|c rest]; [done|]. cbn. by destruct (Hend eq_refl) as [-> _].
  - cbn. case_match; [|by simplify_eq]. destruct (scan_digits l) as [ds' r']. simplify_eq.
    by rewrite (IH _ _ eq_refl Hend).
Qed.

Lemma scan_digits1_extends : extends scan_digits1.
Proof.
  intros l x r rest. unfold scan_digits1. destruct (scan_digits l) as [[|d ds] r'] eqn:H; [done|].
  intros [= <- <-] Hend. by rewrite (scan_digits_extends _ _ _ _ H Hend).
Qed.

Lemma scan_sign_extends l x r rest :
  scan_sign l = Some (x, r) -> l <> [] -> scan_sign (l ++ rest) = Some (x, r ++ rest).
Proof. destruct l as [|c l]; [done|]. cbn. case_decide; by intros [= <- <-]. Qed.

Lemma scan_int_extends : extends scan_int.
Proof.
  intros [|c l] x r rest; [done|]. unfold scan_int. cbn [app].
  case_decide; [by intros [= <- <-]|]. apply (scan_digits1_extends (c :: l)).
Qed.

Lemma scan_frac_extends : extends scan_frac.
Proof.
  intros [|c l] x r rest; cbn [scan_frac app].
  - intros [= <- <-] Hend. destruct rest as [|c rest]; [done|]. cbn.
    destruct (Hend eq_refl) as [_ Hc]. rewrite decide_False by set_solver. done.
  - case_decide; [|by intros [= <- <-]].
    intros (y & Hy & ->)%cons_all_Some Hend. by rewrite (scan_digits1_extends _ _ _ rest Hy Hend).
Qed.

Lemma scan_exp_extends : extends scan_exp.
Proof.
  intros [|c l] x r rest; cbn [scan_exp app].
  - intros [= <- <-] Hend. destruct rest as [|c rest]; [done|].
    destruct (Hend eq_refl) as [_ Hc]. unfold scan_exp.
    rewrite !bool_decide_eq_false_2 by set_solver. done.
  - case_match; [|by intros [= <- <-]]. destruct l as [|s l]; [done|]. cbn [app].
    case_match; intros (y & Hy & ->)%cons_all_Some Hend.
    + by rewrite (scan_digits1_extends _ _ _ rest Hy Hend).
    + pose proof (scan_digits1_extends (s :: l) _ _ rest Hy Hend) as Ha. cbn [app] in Ha.
      by rewrite Ha.
Qed.

Lemma scan_unsigned_extends : extends scan_unsigned.
Proof.
  apply scan_seq_extends.
  - by apply (scan_seq_consumes 0 0); [apply scan_frac_consumes|apply scan_exp_consumes].
  - apply scan_int_extends.
  - apply scan_seq_extends;
      [apply scan_exp_consumes|apply scan_frac_extends|apply scan_exp_extends].
Qed.

Lemma scan_number_extends : extends scan_number.
Proof.
  intros l x r rest H Hend. assert (Hl : l <> []) by (by intros ->). revert H.
  unfold scan_number, scan_seq.
  destruct (scan_sign l) as [[y r1]|] eqn:H1; [|done].
  intros (z & H2 & ->)%cons_all_Some. rewrite (scan_sign_extends l y r1 rest H1 Hl).
  by rewrite (scan_unsigned_extends r1 z r rest H2 Hend).
Qed.

(** ** Reading back what was printed *)

Definition string_ok (raw : bytes) : Prop := scan_string (raw ++ [dquote]) = Some (raw, []).
Definition number_ok (lit : bytes) : Prop := scan_number lit = Some (lit, []).

(** A tree whose literals are well formed, nested at most [d] deep. *)
Fixpoint wf (d : nat) (j : json) {struct j} : Prop :=
  match j with
  | JNull | JBool _ => True
  | JNum lit => number_ok lit
  | JStr raw => string_ok raw
  | JArr l => match d with
              | O => False
              | S d => foldr (fun j P => wf d j /\ P) True l
              end
  | JObj fs => match d with
               | O => False
               | S d => foldr (fun '(k, j) P => (string_ok k /\ wf d j) /\ P) True fs
               end
  end.

Lemma scan_string_quoted raw rest :
  string_ok raw -> scan_string (raw ++ dquote :: rest) = Some (raw, rest).
Proof.
  intros H. change (dquote :: rest) with ([dquote] ++ rest). rewrite app_assoc.
  by rewrite (scan_string_app _ _ _ rest H).
Qed.

(** The first byte of a number. *)
Lemma number_ok_head lit :
  number_ok lit -> exists c l, lit = c :: l /\ (is_digit c = true \/ c = byte 45).
Proof.
  unfold number_ok, scan_number, scan_seq. destruct lit as [|c l]; [done|].
  intros H. exists c, l. split; [done|]. cbn [scan_sign] in H.
  case_decide; [by right|]. left. unfold scan_unsigned, scan_seq in H.
  destruct (scan_int (c :: l)) as [[y r]|] eqn:Hi; [|done]. unfold scan_int in Hi.
  case_decide; [by subst|]. unfold scan_digits1 in Hi. cbn in Hi.
  by destruct (is_digit c).
Qed.

(** What may follow a value inside an array or an object. *)
Definition value_ends (rest : bytes) : Prop :=
  match rest with
  | c :: _ => c ∈ [","%char; "]"%char; "}"%char; newline]
  | [] => True
  end.

Lemma value_ends_number rest : value_ends rest -> number_ends rest.
Proof.
  destruct rest as [|c rest]; [done|]. cbn. intros Hc.
  repeat (apply elem_of_cons in Hc as [->|Hc]); [split; [done|set_solver]..|set_solver].
Qed.

Lemma json_nested_ind (P : json -> Prop) :
  P JNull -> (forall b, P (JBool b)) -> (forall lit, P (JNum lit)) -> (forall raw, P (JStr raw)) ->
  (forall l, Forall P l -> P (JArr l)) ->
  (forall fs, Forall (fun kv => P kv.2) fs -> P (JObj fs)) -> forall j, P j.
Proof.
  intros H1 H2 H3 H4 H5 H6. fix IH 1.
  intros [|b|lit|raw|l|fs]; [exact H1|apply H2|apply H3|apply H4| |].
  - apply H5. induction l as [|j l IHl]; constructor; [apply IH|exact IHl].
  - apply H6. induction fs as [|[k j] fs IHfs]; constructor; [apply IH|exact IHfs].
Qed.

Lemma skip_ws_head c l : is_ws c = false -> skip_ws (c :: l) = c :: l.
Proof. unfold skip_ws. cbn. by intros ->. Qed.

(** The first byte of a value is no white space and closes nothing. *)
Lemma print_head d j :
  wf d j -> exists c l, print j = c :: l /\ is_ws c = false /\ c ∉ ["]"%char; "}"%char].
Proof.
  destruct j as [|[]|lit|raw|l|fs]; cbn [print]; intros Hw;
    try (by eexists _, _; split_and!; [reflexivity|reflexivity|set_solver]).
  destruct (number_ok_head lit Hw) as (c & l & -> & Hc). exists c, l. split; [done|].
  destruct Hc as [Hc| ->]; [|split; [done|set_solver]].
  unfold is_digit, between in Hc. apply andb_true_iff in Hc as [Ha Hb].
  apply bool_decide_eq_true in Ha. apply bool_decide_eq_true in Hb. split.
  - unfold is_ws. apply bool_decide_eq_false. intros Hin.
    repeat (apply elem_of_cons in Hin as [->|Hin]); try (vm_compute in Ha; done). set_solver.
  - intros Hin. repeat (apply elem_of_cons in Hin as [->|Hin]); try (vm_compute in Hb; done).
    set_solver.
Qed.

Lemma scan_empty_print c d j rest :
  c ∈ ["]"%char; "}"%char] -> wf d j -> scan_empty c (print j ++ rest) = None.
Proof.
  intros Hc Hw. destruct (print_head d j Hw) as (c' & l & -> & Hs & Hn).
  unfold scan_empty. cbn [app]. rewrite skip_ws_head by done. rewrite decide_False; [done|].
  intros ->. done.
Qed.

Lemma scan_next_comma c rest : scan_next c (","%char :: rest) = Some (true, rest).
Proof. unfold scan_next. by rewrite skip_ws_head. Qed.

Lemma scan_next_close c rest :
  c ∈ ["]"%char; "}"%char] -> scan_next c (c :: rest) = Some (false, rest).
Proof.
  intros Hc. unfold scan_next.
  repeat (apply elem_of_cons in Hc as [->|Hc]); [by rewrite skip_ws_head..|set_solver].
Qed.

Lemma scan_key_quoted k rest :
  string_ok k -> scan_key (quoted k ++ ":"%char :: rest) = Some (k, rest).
Proof.
  intros Hk. unfold scan_key, quoted. rewrite <- app_comm_cons, skip_ws_head by done.
  rewrite decide_True by done. rewrite <- app_assoc. cbn [app].
  rewrite scan_string_quoted by done. by rewrite skip_ws_head.
Qed.

Lemma scan_scalar_number lit rest :
  number_ok lit -> number_ends rest -> scan_scalar (lit ++ rest) = Some (JNum lit, rest).
Proof.
  intros Hn Hend. pose proof (scan_number_extends lit lit [] rest Hn (fun _ => Hend)) as Hs.
  destruct (number_ok_head lit Hn) as (c & l & -> & Hc). cbn [app] in *. unfold scan_scalar.
  rewrite !decide_False; [by rewrite Hs|..];
    destruct Hc as [Hc| ->]; try done; intros ->; vm_compute in Hc; done.
Qed.

Definition reads_back (j : json) : Prop := forall d depth fuel rest,
  wf d j -> (N.of_nat d <= depth)%N -> 2 * length (print j ++ rest) + 2 <= fuel ->
  value_ends rest -> parse_value fuel depth (print j ++ rest) = Some (j, rest).

Lemma parse_elems_print d depth rest l : forall e fuel,
  Forall reads_back (e :: l) -> Forall (wf d) (e :: l) -> (N.of_nat d <= depth)%N ->
  2 * length (sep_by (List.map print (e :: l)) ++ "]"%char :: rest) + 3 <= fuel ->
  parse_elems fuel depth (sep_by (List.map print (e :: l)) ++ "]"%char :: rest) =
    Some (e :: l, rest).
Proof.
  induction l as [|e' l IH]; intros e [|fuel] [He Hr]%Forall_cons [Hw Hws]%Forall_cons Hd Hf;
    try lia.
  - cbn [List.map sep_by] in *. cbn [parse_elems].
    rewrite (He d) by (try done; try lia; cbn; set_solver). by rewrite scan_next_close by set_solver.
  - cbn [List.map] in *. change (sep_by (print e :: ?x :: ?y)) with
      (print e ++ ","%char :: sep_by (x :: y)) in *. rewrite <- app_assoc in *. cbn [app] in *.
    cbn [parse_elems]. rewrite length_app in Hf. cbn [length] in Hf.
    rewrite (He d); [|done|done|rewrite length_app; cbn [length]; lia|cbn; set_solver].
    rewrite scan_next_comma. rewrite IH by (try done; lia). done.
Qed.

Definition print_member (kv : bytes * json) : bytes :=
  let '(k, v) := kv in quoted k ++ ":"%char :: print v.

Lemma sep_by_cons (x y : bytes) l : sep_by (x :: y :: l) = x ++ ","%char :: sep_by (y :: l).
Proof. done. Qed.

Lemma parse_members_print d depth rest l : forall k e fuel,
  Forall (fun kv => reads_back kv.2) ((k, e) :: l) ->
  Forall (fun kv => string_ok kv.1 /\ wf d kv.2) ((k, e) :: l) -> (N.of_nat d <= depth)%N ->
  2 * length (sep_by (List.map print_member ((k, e) :: l)) ++ "}"%char :: rest) + 3 <= fuel ->
  parse_members fuel depth (sep_by (List.map print_member ((k, e) :: l)) ++ "}"%char :: rest) =
    Some ((k, e) :: l, rest).
Proof.
  induction l as [|[k' e'] l IH];
    intros k e [|fuel] [He Hr]%Forall_cons [[Hk Hw] Hws]%Forall_cons Hd Hf; try lia;
    cbn [List.map fst snd] in *;
    change (print_member (k, e)) with (quoted k ++ ":"%char :: print e) in *.
  - cbn [sep_by parse_members] in *. rewrite <- app_assoc in *. rewrite <- app_comm_cons in *.
    rewrite length_app in Hf. cbn [length] in Hf.
    rewrite scan_key_quoted by done. rewrite (He d); [|done|done|lia|cbn; set_solver].
    by rewrite scan_next_close by set_solver.
  - rewrite sep_by_cons in *. rewrite <- !app_assoc in *. rewrite <- !app_comm_cons in *.
    rewrite !length_app in Hf. cbn [length] in Hf. rewrite length_app in Hf. cbn [length] in Hf.
    cbn [parse_members]. rewrite scan_key_quoted by done. rewrite <- ?app_assoc. cbn [app].
    rewrite (He d); [|done|done|rewrite length_app; cbn [length]; lia|cbn; set_solver].
    rewrite scan_next_comma.
    rewrite (IH k' e') by (try done; lia). done.
Qed.

Lemma wf_list d l : foldr (fun j P => wf d j /\ P) True l <-> Forall (wf d) l.
Proof. induction l as [|j l IH]; cbn; [by split|]. by rewrite Forall_cons, IH. Qed.

Lemma wf_members d fs :
  foldr (fun '(k, j) P => (string_ok k /\ wf d j) /\ P) True fs <->
  Forall (fun kv => string_ok kv.1 /\ wf d kv.2) fs.
Proof. induction fs as [|[k j] fs IH]; cbn; [by split|]. by rewrite Forall_cons, IH. Qed.

Lemma parse_value_print j : reads_back j.
Proof.
  induction j as [|b|lit|raw|l IH|fs IH] using json_nested_ind; intros d depth [|fuel] rest Hw Hd Hf Hend;
    try lia; cbn [parse_value].
  - done.
  - by destruct b.
  - cbn [print] in *. pose proof (scan_scalar_number lit rest Hw (value_ends_number _ Hend)) as Hs.
    destruct (print_head d (JNum lit) Hw) as (c & l & Hp & Hc & Hn).
    cbn [print] in Hp. subst lit. cbn [app] in *. rewrite skip_ws_head by done.
    destruct (number_ok_head (c :: l) Hw) as (c' & l' & [= <- <-] & Hc').
    rewrite !decide_False; [done|..]; intros ->; destruct Hc' as [Hc'|Hc']; vm_compute in Hc'; done.
  - cbn [print] in *. unfold quoted. rewrite <- app_comm_cons, skip_ws_head by done.
    cbn [decide]. change (scan_scalar (dquote :: ?l)) with
      (match scan_string l with Some (raw, r) => Some (JStr raw, r) | None => None end).
    rewrite <- app_assoc. cbn [app]. by rewrite scan_string_quoted.
  - destruct d as [|d]; [done|]. apply wf_list in Hw. cbn [print] in *.
    rewrite <- app_comm_cons, <- app_assoc in *. cbn [app length] in *.
    rewrite skip_ws_head by done. rewrite decide_True, decide_False by (done || lia).
    destruct l as [|e l]; [done|].
    assert (He : scan_empty "]" (sep_by (List.map print (e :: l)) ++ "]"%char :: rest) = None).
    { apply Forall_cons in Hw as [Hw _]. destruct l as [|e' l]; cbn [List.map].
      - apply (scan_empty_print _ d); [set_solver|done].
      - rewrite sep_by_cons, <- app_assoc. apply (scan_empty_print _ d); [set_solver|done]. }
    rewrite He. rewrite (parse_elems_print d); [done|done|done|lia|lia].
  - destruct d as [|d]; [done|]. apply wf_members in Hw. cbn [print] in *.
    change (fun '(k, v) => quoted k ++ ":"%char :: print v) with print_member in *.
    rewrite <- app_comm_cons, <- app_assoc in *. cbn [app length] in *.
    rewrite skip_ws_head by done. rewrite decide_False, decide_True, decide_False by (done || lia).
    destruct fs as [|[k e] fs]; [done|].
    assert (He : exists t, sep_by (List.map print_member ((k, e) :: fs)) = dquote :: t).
    { destruct fs as [|[k' e'] fs]; [by eexists|]. cbn [List.map]. rewrite sep_by_cons. by eexists. }
    destruct He as (t & He). 
    assert (He' : scan_empty "}" (sep_by (List.map print_member ((k, e) :: fs)) ++ "}"%char :: rest) = None)
      by (rewrite He; done).
    rewrite He'. rewrite (parse_members_print d); [done|done|done|lia|lia].
Qed.

(** What is printed is read back, from a stream that goes on or as a whole text. *)
Lemma parse_prefix_print d j rest :
  wf d j -> d <= 1000 -> value_ends rest -> parse_prefix (print j ++ rest) = Some (j, rest).
Proof.
  intros Hw Hd Hend. apply (parse_value_print j d); [done| |done|done].
  unfold maxNestingDepth. lia.
Qed.

Lemma parse_print d j : wf d j -> d <= 1000 -> parse (print j) = Some j.
Proof.
  intros Hw Hd. unfold parse. rewrite <- (app_nil_r (print j)).
  by rewrite (parse_prefix_print d).
Qed.
