(* ===== verification/JsonString.v ===== *)
(** * JSON strings: quoting and unquoting in [encoding/json]

    [quote] is what [Marshal] writes between the quotes of a string,
    [unquote] what [Unmarshal] makes of it.  Marshal replaces what is not valid
    UTF-8, so a string comes back as [sanitize] of it, and as itself when it is
    valid UTF-8. *)

From S2P Require Import Prelude GoStrings Models Json.

(** ** Runes *)

(** [l] begins with the encoding of [r] in [chunk]. *)
Record rune_at (l : bytes) (r : N) (chunk tl : bytes) : Prop := {
  ra_split : l = chunk ++ tl;
  ra_high : Forall (fun c => is_ascii_byte c = false) chunk;
  ra_encode : encode_rune r = chunk;
  ra_decode : forall rest, decode_rune (chunk ++ rest) = (r, length chunk);
}.

Lemma N_div_add p k q : (q < k)%N -> ((p * k + q) / k = p)%N.
Proof. intros H. rewrite N.div_add_l by lia. rewrite N.div_small by done. lia. Qed.

Lemma N_mod_add p k q : (q < k)%N -> ((p * k + q) `mod` k = q)%N.
Proof. intros H. rewrite N.add_comm, N.Div0.mod_add. by apply N.mod_small. Qed.

Lemma cont_byte b lo hi :
  (128 <= lo)%N -> (hi <= 191)%N -> between lo b hi = true ->
  (cont_bits b < 64)%N /\ byte (128 + cont_bits b) = b /\ is_ascii_byte b = false /\
  (lo <= 128 + cont_bits b <= hi)%N.
Proof.
  unfold between, cont_bits, is_ascii_byte. intros Hlo Hhi [H1 H2]%andb_true_iff.
  apply bool_decide_eq_true in H1. apply bool_decide_eq_true in H2.
  assert (Hm : (code b `mod` 64 = code b - 128)%N).
  { replace (code b) with (2 * 64 + (code b - 128))%N at 1 by lia. apply N_mod_add. lia. }
  rewrite Hm. split_and!; try lia.
  - replace (128 + (code b - 128))%N with (code b) by lia. apply of_N_code.
  - apply bool_decide_eq_false. lia.
Qed.

Lemma is_cont_between b : is_cont b = between 128 b 191.
Proof. done. Qed.

Ltac rune_cases :=
  repeat match goal with
  | |- context [bool_decide ?P] =>
      first [rewrite (bool_decide_eq_true_2 P) by lia|rewrite (bool_decide_eq_false_2 P) by lia]
  end; cbn [andb orb].

Lemma encode_rune2 p x :
  (2 <= p < 32)%N -> (x < 64)%N ->
  encode_rune (p * 64 + x) = [byte (192 + p); byte (128 + x)].
Proof.
  intros Hp Hx. unfold encode_rune. rune_cases. rewrite N_div_add, N_mod_add by done. done.
Qed.

Lemma encode_rune3 p x y :
  (p < 16)%N -> (x < 64)%N -> (y < 64)%N -> (p = 0 -> 32 <= x)%N -> (p = 13 -> x < 32)%N ->
  encode_rune (p * 4096 + x * 64 + y) = [byte (224 + p); byte (128 + x); byte (128 + y)].
Proof.
  intros Hp Hx Hy H1 H2. unfold encode_rune.
  assert (H3 : (2048 <= p * 4096 + x * 64 + y)%N) by (destruct (decide (p = 0)%N); lia).
  assert (H4 : (p * 4096 + x * 64 + y < 55296 \/ 57343 < p * 4096 + x * 64 + y)%N)
    by (destruct (decide (p = 13)%N); lia).
  assert (Hd : ((p * 4096 + x * 64 + y) / 64 = p * 64 + x)%N).
  { replace (p * 4096 + x * 64 + y)%N with ((p * 64 + x) * 64 + y)%N by lia. by apply N_div_add. }
  assert (Hm : ((p * 4096 + x * 64 + y) `mod` 64 = y)%N).
  { replace (p * 4096 + x * 64 + y)%N with ((p * 64 + x) * 64 + y)%N by lia. by apply N_mod_add. }
  assert (Hq : ((p * 4096 + x * 64 + y) / 4096 = p)%N).
  { rewrite <- N.add_assoc. apply N_div_add. lia. }
  rewrite Hd, Hm, Hq, N_mod_add by done.
  destruct H4; rune_cases; done.
Qed.

Lemma encode_rune4 p x y z :
  (p < 5)%N -> (x < 64)%N -> (y < 64)%N -> (z < 64)%N -> (p = 0 -> 16 <= x)%N ->
  (p = 4 -> x < 16)%N ->
  encode_rune (p * 262144 + x * 4096 + y * 64 + z) =
    [byte (240 + p); byte (128 + x); byte (128 + y); byte (128 + z)].
Proof.
  intros Hp Hx Hy Hz H1 H2. unfold encode_rune.
  assert (H3 : (65536 <= p * 262144 + x * 4096 + y * 64 + z)%N) by (destruct (decide (p = 0)%N); lia).
  assert (H4 : (p * 262144 + x * 4096 + y * 64 + z <= 1114111)%N)
    by (destruct (decide (p = 4)%N); lia).
  assert (Hd : ((p * 262144 + x * 4096 + y * 64 + z) / 64 = (p * 64 + x) * 64 + y)%N).
  { replace (p * 262144 + x * 4096 + y * 64 + z)%N with (((p * 64 + x) * 64 + y) * 64 + z)%N by lia.
    by apply N_div_add. }
  assert (Hm : ((p * 262144 + x * 4096 + y * 64 + z) `mod` 64 = z)%N).
  { replace (p * 262144 + x * 4096 + y * 64 + z)%N with (((p * 64 + x) * 64 + y) * 64 + z)%N by lia.
    by apply N_mod_add. }
  assert (Hq : ((p * 262144 + x * 4096 + y * 64 + z) / 4096 = p * 64 + x)%N).
  { replace (p * 262144 + x * 4096 + y * 64 + z)%N with ((p * 64 + x) * 4096 + (y * 64 + z))%N by lia.
    apply N_div_add. lia. }
  assert (Hr : ((p * 262144 + x * 4096 + y * 64 + z) / 262144 = p)%N).
  { rewrite <- !N.add_assoc. apply N_div_add. lia. }
  rewrite Hd, Hm, Hq, Hr, !N_mod_add by done. rune_cases. done.
Qed.

Lemma lead_byte c lo hi :
  between lo c hi = true ->
  (lo <= code c <= hi)%N /\ byte (code c) = c.
Proof.
  unfold between. intros [H1 H2]%andb_true_iff.
  apply bool_decide_eq_true in H1. apply bool_decide_eq_true in H2. split; [lia|apply of_N_code].
Qed.

(** The bytes [chunk] are the encoding of a rune, whatever follows. *)
Definition encodes (chunk : bytes) : Prop :=
  exists r, (128 <= r)%N /\ forall tl, rune_at (chunk ++ tl) r chunk tl.

Lemma encodes2 c b : between 194 c 223 = true -> is_cont b = true -> encodes [c; b].
Proof.
  intros H2 Hb. pose proof Hb as Hb'. rewrite is_cont_between in Hb'.
  pose proof (lead_byte _ _ _ H2) as [Hr Hcc].
  apply cont_byte in Hb' as (Hx & Hbb & Hba & _); [|lia..].
  exists ((code c - 192) * 64 + cont_bits b)%N. split; [lia|]. intros tl.
  assert (Hca : is_ascii_byte c = false) by (apply bool_decide_eq_false; lia). split.
  - done.
  - by repeat constructor.
  - rewrite encode_rune2 by lia. rewrite Hbb. replace (192 + (code c - 192))%N with (code c) by lia.
    by rewrite Hcc.
  - intros rest. cbn. unfold is_ascii_byte in Hca. by rewrite Hca, H2, Hb.
Qed.

Lemma encodes3 c b d :
  between 224 c 239 = true ->
  between (if bool_decide (code c = 224)%N then 160%N else 128%N) b
          (if bool_decide (code c = 237)%N then 159%N else 191%N) && is_cont d = true ->
  encodes [c; b; d].
Proof.
  intros H3 Hbd. set (lo := if bool_decide (code c = 224)%N then _ else _) in *.
  set (hi := if bool_decide (code c = 237)%N then _ else _) in *.
  pose proof (lead_byte _ _ _ H3) as [Hr Hcc].
  pose proof Hbd as [Hb Hd]%andb_true_iff. rewrite is_cont_between in Hd.
  assert (Hlo : (128 <= lo)%N) by (unfold lo; case_match; lia).
  assert (Hhi : (hi <= 191)%N) by (unfold hi; case_match; lia).
  apply cont_byte in Hb as (Hx & Hbb & Hba & Hbr); [|lia..].
  apply cont_byte in Hd as (Hy & Hdd & Hda & _); [|lia..].
  assert (H1 : (code c - 224 = 0 -> 32 <= cont_bits b)%N).
  { intros H. unfold lo in Hbr. rewrite bool_decide_eq_true_2 in Hbr by lia. lia. }
  assert (Hs : (code c - 224 = 13 -> cont_bits b < 32)%N).
  { intros H. unfold hi in Hbr. rewrite (bool_decide_eq_true_2 (code c = 237%N)) in Hbr by lia. lia. }
  exists ((code c - 224) * 4096 + cont_bits b * 64 + cont_bits d)%N.
  split; [destruct (decide (code c - 224 = 0)%N); lia|]. intros tl.
  assert (Hca : is_ascii_byte c = false) by (apply bool_decide_eq_false; lia).
  assert (H2 : between 194 c 223 = false) by (unfold between; rune_cases; done). split.
  - done.
  - by repeat constructor.
  - rewrite encode_rune3 by (done || lia). rewrite Hbb, Hdd.
    replace (224 + (code c - 224))%N with (code c) by lia. by rewrite Hcc.
  - intros rest. cbn. unfold is_ascii_byte in Hca. rewrite Hca, H2, H3. fold lo hi. by rewrite Hbd.
Qed.

Lemma encodes4 c b d e :
  between 240 c 244 = true ->
  between (if bool_decide (code c = 240)%N then 144%N else 128%N) b
          (if bool_decide (code c = 244)%N then 143%N else 191%N) && is_cont d && is_cont e = true ->
  encodes [c; b; d; e].
Proof.
  intros H4 Hbd. set (lo := if bool_decide (code c = 240)%N then _ else _) in *.
  set (hi := if bool_decide (code c = 244)%N then _ else _) in *.
  pose proof (lead_byte _ _ _ H4) as [Hr Hcc].
  pose proof Hbd as [[Hb Hd]%andb_true_iff He]%andb_true_iff. rewrite is_cont_between in Hd, He.
  assert (Hlo : (128 <= lo)%N) by (unfold lo; case_match; lia).
  assert (Hhi : (hi <= 191)%N) by (unfold hi; case_match; lia).
  apply cont_byte in Hb as (Hx & Hbb & Hba & Hbr); [|lia..].
  apply cont_byte in Hd as (Hy & Hdd & Hda & _); [|lia..].
  apply cont_byte in He as (Hz & Hee & Hea & _); [|lia..].
  assert (H1 : (code c - 240 = 0 -> 16 <= cont_bits b)%N).
  { intros H. unfold lo in Hbr. rewrite bool_decide_eq_true_2 in Hbr by lia. lia. }
  assert (Hs : (code c - 240 = 4 -> cont_bits b < 16)%N).
  { intros H. unfold hi in Hbr. rewrite (bool_decide_eq_true_2 (code c = 244%N)) in Hbr by lia. lia. }
  exists ((code c - 240) * 262144 + cont_bits b * 4096 + cont_bits d * 64 + cont_bits e)%N.
  split; [destruct (decide (code c - 240 = 0)%N); lia|]. intros tl.
  assert (Hca : is_ascii_byte c = false) by (apply bool_decide_eq_false; lia).
  assert (H2 : between 194 c 223 = false) by (unfold between; rune_cases; done).
  assert (H3 : between 224 c 239 = false) by (unfold between; rune_cases; done). split.
  - done.
  - by repeat constructor.
  - rewrite encode_rune4 by (done || lia). rewrite Hbb, Hdd, Hee.
    replace (240 + (code c - 240))%N with (code c) by lia. by rewrite Hcc.
  - intros rest. cbn. unfold is_ascii_byte in Hca. rewrite Hca, H2, H3, H4. fold lo hi. by rewrite Hbd.
Qed.

(** A byte above ASCII is invalid or starts the encoding of a rune. *)
Lemma decode_rune_cases c l :
  is_ascii_byte c = false ->
  decode_rune (c :: l) = (rune_error, 1) \/
  exists chunk tl, l = chunk ++ tl /\ encodes (c :: chunk).
Proof.
  intros Hc. unfold is_ascii_byte in Hc. unfold decode_rune. rewrite Hc.
  destruct (between 194 c 223) eqn:H2.
  { destruct l as [|b tl]; [by left|]. destruct (is_cont b) eqn:Hb; [right|by left].
    exists [b], tl. split; [done|]. by apply encodes2. }
  destruct (between 224 c 239) eqn:H3.
  { destruct l as [|b [|d tl]]; try by left. cbv zeta.
    destruct (between _ b _ && is_cont d) eqn:Hbd; [right|by left].
    exists [b; d], tl. split; [done|]. by apply encodes3. }
  destruct (between 240 c 244) eqn:H4; [|by left].
  destruct l as [|b [|d [|e tl]]]; try by left. cbv zeta.
  destruct (between _ b _ && is_cont d && is_cont e) eqn:Hbd; [right|by left].
  exists [b; d; e], tl. split; [done|]. by apply encodes4.
Qed.

(** ** Quoting *)

(** [htmlSafeSet] *)
Definition html_safe (c : ascii) : bool :=
  bool_decide (32 <= code c)%N && bool_decide (c ∉ [dquote; backslash; "<"%char; ">"%char; "&"%char]).

Definition escape_byte (c : ascii) : bytes :=
  if bool_decide (c ∈ [dquote; backslash]) then [backslash; c]
  else if bool_decide (code c = 8)%N then [backslash; "b"%char]
  else if bool_decide (code c = 12)%N then [backslash; "f"%char]
  else if bool_decide (code c = 10)%N then [backslash; "n"%char]
  else if bool_decide (code c = 13)%N then [backslash; "r"%char]
  else if bool_decide (code c = 9)%N then [backslash; "t"%char]
  else [backslash; "u"%char; "0"%char; "0"%char; hex_digit (code c / 16); hex_digit (code c `mod` 16)].

(** The text of a rune that is not ASCII: [w] bytes of [l]. *)
Definition quote_rune (r : N) (w : nat) (l : bytes) : bytes :=
  if bool_decide (r = rune_error) && bool_decide (w = 1) then to_bytes "\ufffd"
  else if bool_decide (r = 8232)%N || bool_decide (r = 8233)%N
  then to_bytes "\u202" ++ [hex_digit (r `mod` 16)]
  else take w l.

(** Each round consumes a byte, so the length of the text is enough fuel. *)
Fixpoint quote_go (fuel : nat) (l : bytes) : bytes :=
  match fuel, l with
  | S fuel, c :: l' =>
      if is_ascii_byte c then (if html_safe c then [c] else escape_byte c) ++ quote_go fuel l'
      else let (r, w) := decode_rune l in quote_rune r w l ++ quote_go fuel (drop w l)
  | _, _ => []
  end.

Definition quote (s : string) : bytes := quote_go (String.length s) (to_bytes s).

(** ** Unquoting *)

Definition hex_value (c : ascii) : N :=
  if between 48 c 57 then code c - 48
  else if between 97 c 102 then code c - 87 else code c - 55.

(** [getu4]: a backslash, a [u] and four hexadecimal digits. *)
Definition getu4 (l : bytes) : option (N * bytes) :=
  match l with
  | b :: u :: h1 :: h2 :: h3 :: h4 :: l =>
      if bool_decide (b = backslash) && bool_decide (u = "u"%char) && forallb is_hex [h1; h2; h3; h4]
      then Some (foldl (fun n c => 16 * n + hex_value c)%N 0%N [h1; h2; h3; h4], l)
      else None
  | _ => None
  end.

Definition is_surrogate (r : N) : bool :=
  bool_decide (55296 <= r)%N && bool_decide (r <= 57343)%N.

(** [utf16.DecodeRune] *)
Definition utf16_decode (r1 r2 : N) : N :=
  if (bool_decide (55296 <= r1)%N && bool_decide (r1 < 56320)%N)
     && (bool_decide (56320 <= r2)%N && bool_decide (r2 <= 57343)%N)
  then ((r1 - 55296) * 1024 + (r2 - 56320) + 65536)%N else rune_error.

Definition unescape (c : ascii) : option ascii :=
  if bool_decide (c ∈ [dquote; backslash; "/"%char]) then Some c
  else if bool_decide (c = "b"%char) then Some (byte 8)
  else if bool_decide (c = "f"%char) then Some (byte 12)
  else if bool_decide (c = "n"%char) then Some (byte 10)
  else if bool_decide (c = "r"%char) then Some (byte 13)
  else if bool_decide (c = "t"%char) then Some (byte 9)
  else None.

(** A [\u] escape with a possible second half. *)
Definition unquote_u4 (l : bytes) : option (bytes * bytes) :=
  match getu4 l with
  | None => None
  | Some (rr, r) =>
      if is_surrogate rr then
        match getu4 r with
        | Some (rr1, r1) =>
            if bool_decide (utf16_decode rr rr1 = rune_error) then Some (encode_rune rune_error, r)
            else Some (encode_rune (utf16_decode rr rr1), r1)
        | None => Some (encode_rune rune_error, r)
        end
      else Some (encode_rune rr, r)
  end.

Fixpoint unquote_go (fuel : nat) (l : bytes) : option bytes :=
  match fuel, l with
  | _, [] => Some []
  | O, _ => None
  | S fuel, c :: l' =>
      if bool_decide (c = backslash) then
        match l' with
        | [] => None
        | e :: l'' =>
            if bool_decide (e = "u"%char) then
              match unquote_u4 l with
              | Some (x, r) => (x ++.) <$> unquote_go fuel r
              | None => None
              end
            else match unescape e with
                 | Some x => (x ::.) <$> unquote_go fuel l''
                 | None => None
                 end
        end
      else if bool_decide (code c < 32)%N || bool_decide (c = dquote) then None
      else if is_ascii_byte c then (c ::.) <$> unquote_go fuel l'
      else let (r, w) := decode_rune l in (encode_rune r ++.) <$> unquote_go fuel (drop w l)
  end.

Definition unquote (raw : bytes) : option string := of_bytes <$> unquote_go (length raw) raw.

(** What comes back: invalid bytes become U+FFFD. *)
Definition sanitize (s : string) : string :=
  of_bytes (map_runes (fun r => r) (String.length s) (to_bytes s)).

Definition utf8_valid (s : string) : Prop := sanitize s = s.

Example quote_ex : quote ("a<" +:+ of_bytes [dquote; newline; byte 255; byte 195; byte 169]) =
  to_bytes "a\u003c\" ++ [dquote] ++ to_bytes "\n\ufffd" ++ [byte 195; byte 169].
Proof. reflexivity. Qed.
Example unquote_ex : unquote (to_bytes "\ud83d\ude00\ud83dx") =
  Some (of_bytes [byte 240; byte 159; byte 152; byte 128; byte 239; byte 191; byte 189] +:+ "x").
Proof. vm_compute. reflexivity. Qed.

(** ** A string comes back from its quoted form

    The quoted text is a sequence of pieces; each is scanned on its own and
    unquoted in one round. *)
Record piece (p x : bytes) : Prop := {
  pc_nonempty : p <> [];
  pc_scan rest : scan_string (p ++ rest) = cons_all p (scan_string rest);
  pc_unquote fuel rest : unquote_go (S fuel) (p ++ rest) = (x ++.) <$> unquote_go fuel rest;
}.

Lemma cons_all_app {A} p q (o : option (bytes * A)) :
  cons_all p (cons_all q o) = cons_all (p ++ q) o.
Proof. destruct o as [[y a]|]; cbn; [|done]. by rewrite app_assoc. Qed.

Lemma scan_string_plain c l :
  (32 <= code c)%N -> c <> dquote -> c <> backslash ->
  scan_string (c :: l) = cons_all [c] (scan_string l).
Proof.
  intros H1 H2 H3. cbn [scan_string]. rewrite !decide_False by done.
  by rewrite bool_decide_eq_false_2 by lia.
Qed.

Lemma unquote_go_plain fuel c l :
  (32 <= code c)%N -> c <> dquote -> c <> backslash ->
  unquote_go (S fuel) (c :: l) =
    if is_ascii_byte c then (c ::.) <$> unquote_go fuel l
    else let (r, w) := decode_rune (c :: l) in (encode_rune r ++.) <$> unquote_go fuel (drop w (c :: l)).
Proof.
  intros H1 H2 H3. cbn [unquote_go]. rewrite (bool_decide_eq_false_2 (c = backslash)) by done.
  rewrite (bool_decide_eq_false_2 (code c < 32)%N) by lia.
  by rewrite (bool_decide_eq_false_2 (c = dquote)) by done.
Qed.

Lemma piece_safe c : is_ascii_byte c = true -> html_safe c = true -> piece [c] [c].
Proof.
  intros Ha [H1 H2]%andb_true_iff. apply bool_decide_eq_true in H1. apply bool_decide_eq_true in H2.
  assert (c <> dquote /\ c <> backslash) as [Hq Hb] by (split; intros ->; set_solver).
  split; [done|intros; by apply scan_string_plain|].
  intros fuel rest. cbn [app]. by rewrite unquote_go_plain, Ha.
Qed.

Lemma piece_escape c : is_ascii_byte c = true -> html_safe c = false -> piece (escape_byte c) [c].
Proof. destruct c as [[] [] [] [] [] [] [] []]; try done; split; done. Qed.

Lemma encodes_high chunk : encodes chunk -> Forall (fun c => is_ascii_byte c = false) chunk.
Proof. intros (r & _ & H). apply (ra_high _ _ _ _ (H [])). Qed.

Lemma high_plain c : is_ascii_byte c = false -> (32 <= code c)%N /\ c <> dquote /\ c <> backslash.
Proof.
  unfold is_ascii_byte. intros H%bool_decide_eq_false.
  split_and!; [lia|intros ->; vm_compute in H; done..].
Qed.

Lemma piece_raw c chunk : encodes (c :: chunk) -> piece (c :: chunk) (c :: chunk).
Proof.
  intros He. pose proof (encodes_high _ He) as Hh. destruct He as (r & Hr & He). split; [done| |].
  - intros rest. remember (c :: chunk) as l eqn:Hl. clear Hl He.
    induction Hh as [|x l Hx _ IH]; [cbn [app]; by destruct (scan_string rest) as [[??]|]|].
    destruct (high_plain x Hx) as (? & ? & ?). cbn [app]. rewrite scan_string_plain by done.
    by rewrite IH, cons_all_app.
  - intros fuel rest. apply Forall_cons in Hh as [Hc _]. destruct (high_plain c Hc) as (? & ? & ?).
    rewrite <- app_comm_cons, unquote_go_plain, Hc by done.
    rewrite app_comm_cons, (ra_decode _ _ _ _ (He rest)), (ra_encode _ _ _ _ (He rest)).
    by rewrite drop_app_length.
Qed.

Lemma piece_rune c chunk tl r w :
  encodes (c :: chunk) -> decode_rune (c :: chunk ++ tl) = (r, w) ->
  w = length (c :: chunk) /\ encode_rune r = c :: chunk /\
  piece (quote_rune r w (c :: chunk ++ tl)) (c :: chunk).
Proof.
  intros He Hd. pose proof (piece_raw _ _ He) as Hraw. destruct He as (r' & Hr & He).
  rewrite app_comm_cons, (ra_decode _ _ _ _ (He tl)) in Hd. injection Hd as <- <-.
  pose proof (ra_encode _ _ _ _ (He tl)) as Henc. split_and!; [done|done|].
  unfold quote_rune. assert (Hw : length (c :: chunk) <> 1 \/ r' <> rune_error).
  { destruct chunk; [|by left]. right. intros ->. done. }
  rewrite (proj2 (andb_false_iff _ _)) by
    (destruct Hw; [right|left]; by apply bool_decide_eq_false).
  destruct (bool_decide (r' = 8232)%N || bool_decide (r' = 8233)%N) eqn:Hls.
  - rewrite <- Henc.
    apply orb_true_iff in Hls as [->%bool_decide_eq_true| ->%bool_decide_eq_true]; by split.
  - change (piece (take (length (c :: chunk)) ((c :: chunk) ++ tl)) (c :: chunk)).
    by rewrite take_app_length.
Qed.

Lemma piece_invalid l : piece (quote_rune rune_error 1 l) (encode_rune rune_error).
Proof. by split. Qed.

Lemma encode_ascii c : is_ascii_byte c = true -> encode_rune (code c) = [c].
Proof.
  unfold is_ascii_byte, encode_rune. intros H. pose proof H as H'%bool_decide_eq_true.
  rewrite H. rune_cases. by rewrite of_N_code.
Qed.

(** One round of the quoting. *)
Lemma quote_round n c l :
  exists p x l', quote_go (S n) (c :: l) = p ++ quote_go n l' /\ piece p x /\
    map_runes (fun r => r) (S n) (c :: l) = x ++ map_runes (fun r => r) n l' /\
    length l' <= length l.
Proof.
  cbn [quote_go map_runes]. destruct (is_ascii_byte c) eqn:Hc.
  - assert (Hd : decode_rune (c :: l) = (code c, 1)).
    { unfold decode_rune. unfold is_ascii_byte in Hc. by rewrite Hc. }
    rewrite Hd, encode_ascii by done.
    exists (if html_safe c then [c] else escape_byte c), [c], l. split_and!; [done| |done|lia].
    destruct (html_safe c) eqn:Hh; [by apply piece_safe|by apply piece_escape].
  - destruct (decode_rune_cases c l Hc) as [Hd|(chunk & tl & -> & He)].
    + rewrite Hd. eexists _, _, l. split_and!; [done|apply piece_invalid|done|lia].
    + destruct (decode_rune (c :: chunk ++ tl)) as [r w] eqn:Hd.
      destruct (piece_rune c chunk tl r w He Hd) as (-> & Henc & Hp).
      rewrite Henc, app_comm_cons, drop_app_length.
      eexists _, _, tl. split_and!; [done|done|done|]. rewrite length_app. lia.
Qed.

Lemma quote_go_scans n l : string_ok (quote_go n l).
Proof.
  unfold string_ok. revert l. induction n as [|n IH]; intros [|c l]; try done.
  destruct (quote_round n c l) as (p & x & l' & -> & Hp & _).
  rewrite <- app_assoc, (pc_scan _ _ Hp), IH. cbn. done.
Qed.

Lemma unquote_quote_go n : forall l fuel, length l <= n -> length (quote_go n l) <= fuel ->
  unquote_go fuel (quote_go n l) = Some (map_runes (fun r => r) n l).
Proof.
  induction n as [|n IH]; intros [|c l] fuel Hl Hf;
    [by destruct fuel|by inversion Hl|by destruct fuel|].
  destruct (quote_round n c l) as (p & x & l' & Hq & Hp & Hm & Hlen). rewrite Hm, Hq in *.
  rewrite length_app in Hf. cbn [length] in Hl. pose proof (pc_nonempty _ _ Hp).
  destruct p as [|p0 p]; [done|]. cbn [length] in Hf. destruct fuel as [|fuel]; [lia|].
  rewrite (pc_unquote _ _ Hp), IH by lia. done.
Qed.

Lemma quote_scans s : string_ok (quote s).
Proof. apply quote_go_scans. Qed.

Lemma length_to_bytes s : length (to_bytes s) = String.length s.
Proof. induction s as [|c s IH]; [done|]. cbn. by rewrite <- IH. Qed.

Lemma unquote_quote s : unquote (quote s) = Some (sanitize s).
Proof.
  unfold unquote, quote, sanitize.
  by rewrite unquote_quote_go by (rewrite ?length_to_bytes; done).
Qed.

(** ** What was unquoted is valid UTF-8 *)

Inductive valid8 : bytes -> Prop :=
| valid8_nil : valid8 []
| valid8_ascii c l : is_ascii_byte c = true -> valid8 l -> valid8 (c :: l)
| valid8_rune c chunk l : encodes (c :: chunk) -> valid8 l -> valid8 (c :: chunk ++ l).

Lemma valid8_app l1 l2 : valid8 l1 -> valid8 l2 -> valid8 (l1 ++ l2).
Proof.
  intros H1 H2. induction H1 as [|c l Hc _ IH|c chunk l Hc _ IH]; [done|by constructor|].
  rewrite <- app_comm_cons, <- app_assoc. by constructor.
Qed.

Lemma valid8_runes l : valid8 l -> forall n, length l <= n -> map_runes (fun r => r) n l = l.
Proof.
  induction 1 as [|c l Hc _ IH|c chunk l He _ IH]; intros [|n] Hn; cbn [length] in Hn; try lia; try done.
  - assert (Hd : decode_rune (c :: l) = (code c, 1)).
    { unfold decode_rune. unfold is_ascii_byte in Hc. by rewrite Hc. }
    cbn [map_runes]. rewrite Hd, encode_ascii by done. cbn [drop app]. by rewrite drop_0, IH by lia.
  - destruct He as (r & _ & He). cbn [map_runes]. rewrite app_comm_cons.
    rewrite (ra_decode _ _ _ _ (He l)), (ra_encode _ _ _ _ (He l)), drop_app_length.
    rewrite length_app in Hn. by rewrite IH by lia.
Qed.

Lemma between_byte lo n hi : (lo <= n <= hi)%N -> (hi < 256)%N -> between lo (byte n) hi = true.
Proof. intros H Hh. unfold between. rewrite code_byte by lia. rune_cases. done. Qed.

Lemma N_div_bounds r k q : (0 < k)%N -> (r / k = q)%N -> (q * k <= r < (q + 1) * k)%N.
Proof.
  intros Hk <-. pose proof (N.Div0.mul_div_le r k). pose proof (N.mul_succ_div_gt r k ltac:(lia)).
  rewrite N.add_1_r, !(N.mul_comm _ k). done.
Qed.

(** [lia] forgets that quotients and remainders of N are not negative. *)
Ltac n_parts :=
  repeat match goal with
  | |- context [(?a / ?b)%N] => lazymatch goal with H : (0 <= a / b)%N |- _ => fail | _ => pose proof (N.le_0_l (a / b)) end
  | |- context [(?a `mod` ?b)%N] =>
      lazymatch goal with H : (0 <= a `mod` b)%N |- _ => fail | _ => pose proof (N.le_0_l (a `mod` b)) end
  end; lia.

Lemma encode3_encodes r :
  (2048 <= r < 65536)%N -> (r < 55296 \/ 57343 < r)%N ->
  encodes [byte (224 + r / 4096); byte (128 + (r / 64) `mod` 64); byte (128 + r `mod` 64)].
Proof.
  intros Hr Hs. pose proof (N_div_bounds r 4096 _ ltac:(lia) eq_refl) as H1.
  pose proof (N_div_bounds r 64 _ ltac:(lia) eq_refl) as H2.
  pose proof (N_div_bounds (r / 64) 64 _ ltac:(lia) eq_refl) as H3.
  rewrite N.Div0.div_div in H3. change (64 * 64)%N with 4096%N in H3.
  pose proof (N.Div0.div_mod (r / 64) 64) as H4. rewrite N.Div0.div_div in H4.
  change (64 * 64)%N with 4096%N in H4.
  pose proof (N.mod_lt (r / 64) 64 ltac:(lia)). pose proof (N.mod_lt r 64 ltac:(lia)).
  apply encodes3; [apply between_byte; n_parts|]. rewrite !code_byte by n_parts.
  apply andb_true_iff. split; [|rewrite is_cont_between; apply between_byte; n_parts].
  apply between_byte; repeat case_bool_decide; n_parts.
Qed.

Lemma encode4_encodes r :
  (65536 <= r <= 1114111)%N ->
  encodes [byte (240 + r / 262144); byte (128 + (r / 4096) `mod` 64);
           byte (128 + (r / 64) `mod` 64); byte (128 + r `mod` 64)].
Proof.
  intros Hr. pose proof (N_div_bounds r 262144 _ ltac:(lia) eq_refl) as H1.
  pose proof (N_div_bounds r 4096 _ ltac:(lia) eq_refl) as H2.
  pose proof (N.Div0.div_mod (r / 4096) 64) as H4. rewrite N.Div0.div_div in H4.
  change (4096 * 64)%N with 262144%N in H4.
  pose proof (N.mod_lt (r / 4096) 64 ltac:(lia)). pose proof (N.mod_lt (r / 64) 64 ltac:(lia)).
  pose proof (N.mod_lt r 64 ltac:(lia)).
  apply encodes4; [apply between_byte; n_parts|]. rewrite !code_byte by n_parts.
  rewrite !andb_true_iff. split_and!; [|rewrite is_cont_between; apply between_byte; n_parts..].
  apply between_byte; repeat case_bool_decide; n_parts.
Qed.

Lemma valid8_chunk c chunk : encodes (c :: chunk) -> valid8 (c :: chunk).
Proof. intros H. rewrite <- (app_nil_r chunk). by apply valid8_rune; [|constructor]. Qed.

Lemma encode_rune_valid r : valid8 (encode_rune r).
Proof.
  unfold encode_rune.
  destruct ((bool_decide (55296 <= r)%N && bool_decide (r <= 57343)%N) || bool_decide (1114111 < r)%N) eqn:H.
  { by apply (valid8_chunk _ [_; _]), encodes3. }
  apply orb_false_iff in H as [Hs Hm]. apply bool_decide_eq_false in Hm.
  assert (Hs' : (r < 55296 \/ 57343 < r)%N).
  { apply andb_false_iff in Hs as [Hs|Hs]; apply bool_decide_eq_false in Hs; lia. }
  clear Hs. case_bool_decide as H1.
  { apply valid8_ascii; [|constructor]. unfold is_ascii_byte. rewrite code_byte by lia. by apply bool_decide_eq_true. }
  case_bool_decide as H2.
  { apply (valid8_chunk _ [_]). pose proof (N_div_bounds r 64 _ ltac:(lia) eq_refl).
    pose proof (N.mod_lt r 64 ltac:(lia)).
    apply encodes2; [|rewrite is_cont_between]; apply between_byte; n_parts. }
  case_bool_decide as H3.
  - apply (valid8_chunk _ [_; _]), encode3_encodes; lia.
  - apply (valid8_chunk _ [_; _; _]), encode4_encodes; lia.
Qed.

Lemma unescape_ascii e y : unescape e = Some y -> is_ascii_byte y = true.
Proof. by destruct e as [[] [] [] [] [] [] [] []]; intros [= <-]. Qed.

Lemma unquote_go_valid fuel : forall l x, unquote_go fuel l = Some x -> valid8 x.
Proof.
  induction fuel as [|fuel IH]; intros [|c l] x H; try (injection H as <-; constructor); [done|].
  assert (Hsub : forall y l', valid8 y -> (y ++.) <$> unquote_go fuel l' = Some x -> valid8 x).
  { intros y l' Hy Hx. destruct (unquote_go fuel l') as [z|] eqn:Hz; [|done].
    injection Hx as <-. apply valid8_app; [done|by eapply IH]. }
  cbn [unquote_go] in H. case_match.
  - destruct l as [|e l]; [done|]. case_match.
    + destruct (unquote_u4 (c :: e :: l)) as [[y r]|] eqn:Hu; [|done]. apply (Hsub y r); [|done].
      unfold unquote_u4 in Hu. repeat case_match; simplify_eq; apply encode_rune_valid.
    + destruct (unescape e) as [y|] eqn:Hy; [|done]. apply (Hsub [y] l); [|done].
      apply valid8_ascii; [by eapply unescape_ascii|constructor].
  - case_match; [done|]. case_match.
    + by apply (Hsub [c] l); [apply valid8_ascii; [|constructor]|].
    + destruct (decode_rune (c :: l)) as [r w]. apply (Hsub _ _ (encode_rune_valid r) H).
Qed.

Lemma unquote_valid raw s : unquote raw = Some s -> utf8_valid s.
Proof.
  unfold unquote. destruct (unquote_go _ _) as [x|] eqn:Hx; [|done]. intros [= <-].
  apply unquote_go_valid in Hx. unfold utf8_valid, sanitize. f_equal.
  rewrite to_of_bytes, <- length_to_bytes, to_of_bytes. by apply valid8_runes.
Qed.
