(* ===== verification/JsonNumber.v ===== *)
(** * JSON numbers: [strconv] as [encoding/json] uses it

    Integers are printed in decimal and read with [ParseInt]; a literal with a
    fraction or an exponent is no integer.  A float64 is printed with the
    fewest digits that read back as the same value ([shortest]) and a literal is
    read as the nearest float64, ties to even. *)

From Stdlib Require Import SpecFloat.
From S2P Require Import Prelude GoStrings GoFloat Json.

(** ** Integers *)

Definition print_int (z : Z) : bytes := to_bytes (Itoa z).

(** [strconv.ParseInt(lit, 10, 64)] of a JSON literal; [None] is its error. *)
Definition parse_int64 (lit : bytes) : option Z :=
  let digits (sign : Z) (l : bytes) :=
    match l with
    | [] => None
    | _ => if forallb is_digit l then
             let n := (sign * digits_value l)%Z in
             if bool_decide (in_int64 n) then Some n else None
           else None
    end in
  match lit with
  | c :: l => if decide (c = byte 45) then digits (-1)%Z l else digits 1%Z lit
  | [] => None
  end.

(** The digits of a natural number. *)
Record numeral (n : N) (ds : bytes) : Prop := {
  nu_digits : forallb is_digit ds = true;
  nu_value : digits_value ds = Z.of_N n;
  nu_head : forall c l, ds = c :: l -> c <> byte 48;
  nu_nonempty : (0 < n)%N -> ds <> [];
}.

Lemma digits_value_snoc ds c : digits_value (ds ++ [c]) = (10 * digits_value ds + digit c)%Z.
Proof. unfold digits_value. by rewrite fold_left_app. Qed.

Lemma digits_value_nonneg ds : (0 <= digits_value ds)%Z.
Proof.
  induction ds as [|c ds IH] using rev_ind; [done|]. rewrite digits_value_snoc. unfold digit. lia.
Qed.

Lemma pretty_char_digit n :
  (n < 10)%N -> is_digit (pretty_N_char n) = true /\ digit (pretty_N_char n) = Z.of_N n.
Proof.
  intros H. replace n with (N.of_nat (N.to_nat n)) by lia. assert (Hn : N.to_nat n < 10) by lia.
  revert Hn. generalize (N.to_nat n). intros k Hk.
  do 10 (destruct k as [|k]; [done|]). lia.
Qed.

Lemma forallb_snoc {A} (p : A -> bool) l x : forallb p (l ++ [x]) = forallb p l && p x.
Proof. rewrite forallb_app. cbn. by rewrite andb_true_r. Qed.

Lemma pretty_N_numeral n : forall s,
  exists ds, to_bytes (pretty_N_go n s) = ds ++ to_bytes s /\ numeral n ds.
Proof.
  induction (N.lt_wf_0 n) as [n _ IH]. intros s. destruct (decide (0 < n)%N) as [Hn|Hn].
  - rewrite pretty_N_go_step by done.
    destruct (IH (n `div` 10)%N) with (s := String (pretty_N_char (n `mod` 10)) s)
      as (ds & Hds & Hnum); [apply N.div_lt; lia|].
    assert (Hm : (n `mod` 10 < 10)%N) by (apply N.mod_lt; lia).
    destruct (pretty_char_digit _ Hm) as [Hd Hv].
    exists (ds ++ [pretty_N_char (n `mod` 10)]). split.
    + rewrite Hds, <- app_assoc. done.
    + split.
      * rewrite forallb_snoc, Hd, (nu_digits _ _ Hnum). done.
      * rewrite digits_value_snoc, Hv, (nu_value _ _ Hnum).
        pose proof (N.Div0.div_mod n 10). lia.
      * intros c l Hcl. destruct ds as [|d ds].
        -- injection Hcl as <- _. intros Hz.
           destruct (decide (0 < n `div` 10)%N) as [Hq|Hq];
             [by apply (nu_nonempty _ _ Hnum)|].
           assert (Hlt : (n < 10)%N).
           { apply N.nlt_ge, N.le_0_r, N.div_small_iff in Hq; done. }
           rewrite N.mod_small in Hz, Hv by done. rewrite Hz in Hv.
           change (digit (byte 48)) with 0%Z in Hv. lia.
        -- injection Hcl as <- _. by apply (nu_head _ _ Hnum d ds).
      * intros _. by destruct ds.
  - assert (n = 0%N) as -> by lia. exists []. rewrite pretty_N_go_0. split; [done|]. by split.
Qed.

(** What [Itoa] writes: a sign, and zero or a numeral. *)
Lemma Itoa_shape z :
  exists sign ds, print_int z = sign ++ ds /\ sign = (if bool_decide (z < 0)%Z then [byte 45] else []) /\
    forallb is_digit ds = true /\ digits_value ds = Z.abs z /\
    (ds = [byte 48] \/ exists c l, ds = c :: l /\ c <> byte 48).
Proof.
  assert (HN : forall n, exists ds, to_bytes (pretty n) = ds /\ forallb is_digit ds = true /\
    digits_value ds = Z.of_N n /\ (ds = [byte 48] \/ exists c l, ds = c :: l /\ c <> byte 48)).
  { intros n. unfold pretty, pretty_N. case_decide as Hn.
    - subst n. by exists [byte 48]; split_and!; [..|left].
    - destruct (pretty_N_numeral n "") as (ds & Hds & Hnum). exists ds.
      rewrite Hds, app_nil_r. split_and!; [done|apply (nu_digits _ _ Hnum)|apply (nu_value _ _ Hnum)|].
      right. destruct ds as [|c l]; [exfalso; by apply (nu_nonempty _ _ Hnum); [lia|]|].
      exists c, l. split; [done|]. by apply (nu_head _ _ Hnum c l). }
  unfold print_int, Itoa. destruct z as [|p|p]; cbn [pretty pretty_Z].
  - exists [], [byte 48]. split_and!; [done..|by left].
  - destruct (HN (Npos p)) as (ds & Hds & H1 & H2 & H3). exists [], ds.
    split_and!; [exact Hds|done|done|by rewrite H2|done].
  - destruct (HN (Npos p)) as (ds & Hds & H1 & H2 & H3). exists [byte 45], ds.
    split_and!; [|done|done|by rewrite H2|done]. rewrite <- Hds. done.
Qed.

Lemma parse_print_int z : in_int64 z -> parse_int64 (print_int z) = Some z.
Proof.
  intros Hz. destruct (Itoa_shape z) as (sign & ds & -> & -> & Hd & Hv & Hs).
  assert (Hne : exists c l, ds = c :: l /\ c <> byte 45).
  { destruct Hs as [->|(c & l & -> & _)]; eexists _, _; (split; [done|]); [done|].
    intros ->. by cbn in Hd. }
  destruct Hne as (c & l & -> & Hc). unfold parse_int64. case_bool_decide; cbn [app].
  - rewrite decide_True, Hd, Hv by done. replace (-1 * Z.abs z)%Z with z by lia.
    by rewrite bool_decide_eq_true_2.
  - rewrite decide_False, Hd, Hv by done. replace (1 * Z.abs z)%Z with z by lia.
    by rewrite bool_decide_eq_true_2.
Qed.

Lemma scan_digits_all ds : forallb is_digit ds = true -> scan_digits ds = (ds, []).
Proof.
  induction ds as [|c ds IH]; [done|]. cbn. intros [-> H]%andb_true_iff. by rewrite IH.
Qed.

Lemma print_int_ok z : number_ok (print_int z).
Proof.
  destruct (Itoa_shape z) as (sign & ds & -> & -> & Hd & _ & Hs).
  assert (Hu : scan_unsigned ds = Some (ds, [])).
  { unfold scan_unsigned, scan_seq. destruct Hs as [->|(c & l & -> & Hc)]; [done|].
    unfold scan_int. rewrite decide_False by done. unfold scan_digits1.
    rewrite scan_digits_all by done. cbn. by rewrite app_nil_r. }
  assert (Hc : exists c l, ds = c :: l /\ c <> byte 45).
  { destruct Hs as [->|(c & l & -> & _)]; eexists _, _; (split; [done|]); [done|].
    intros ->. by cbn in Hd. }
  destruct Hc as (c & l & -> & Hc). unfold number_ok, scan_number, scan_seq.
  case_bool_decide; cbn [app scan_sign].
  - rewrite decide_True, Hu by done. done.
  - rewrite decide_False, Hu by done. done.
Qed.

(** ** Reading a float64 *)

(** The value of a literal as [mantissa * 10^exponent] and its sign. *)
Record decimal := { dec_neg : bool; dec_mant : Z; dec_exp : Z }.

Definition signed_value (l : bytes) : Z :=
  match l with
  | c :: l' => if decide (c = byte 45) then (- digits_value l')%Z
               else if decide (c = byte 43) then digits_value l' else digits_value l
  | [] => 0
  end.

(** [l] is a JSON number literal. *)
Definition read_decimal (l : bytes) : decimal :=
  let neg := match l with c :: _ => bool_decide (c = byte 45) | [] => false end in
  let l := if neg then drop 1 l else l in
  let (ip, l) := scan_digits l in
  let (fp, l) := match l with
                 | c :: l' => if decide (c = byte 46) then scan_digits l' else ([], l)
                 | [] => ([], [])
                 end in
  {| dec_neg := neg; dec_mant := digits_value (ip ++ fp); dec_exp := signed_value (drop 1 l) - len fp |}.

Definition with_sign (neg : bool) (x : float64) : float64 :=
  match x with
  | S754_zero _ => S754_zero neg
  | S754_infinity _ => S754_infinity neg
  | S754_finite _ m e => S754_finite neg m e
  | S754_nan => S754_nan
  end.

Definition digits10 (z : Z) : Z := if bool_decide (0 < z)%Z then Z.of_nat (String.length (Itoa z)) else 0.

(** The float64 nearest to [m * 10^e]; the two first cases keep the powers
    small, far outside the range of float64. *)
Definition nearest (m e : Z) : float64 :=
  if bool_decide (m <= 0)%Z then f0
  else if bool_decide (310 < digits10 m + e)%Z then S754_infinity false
  else if bool_decide (digits10 m + e < -330)%Z then f0
  else if bool_decide (0 <= e)%Z then of_Z (m * 10 ^ e)
  else fdiv (S754_finite false (Z.to_pos m) 0) (S754_finite false (Z.to_pos (10 ^ (- e))) 0).

(** [strconv.ParseFloat(lit, 64)]; [None] is its range error. *)
Definition parse_float64 (lit : bytes) : option float64 :=
  let d := read_decimal lit in
  match nearest (dec_mant d) (dec_exp d) with
  | S754_infinity _ | S754_nan => None
  | x => Some (with_sign (dec_neg d) x)
  end.

Definition is_finite (x : float64) : bool :=
  match x with S754_zero _ | S754_finite _ _ _ => true | S754_infinity _ | S754_nan => false end.

(** What is parsed is within the range of its type. *)
Lemma parse_int64_range lit z : parse_int64 lit = Some z -> in_int64 z.
Proof.
  unfold parse_int64.
  assert (H : forall s l, match l with
    | [] => None
    | _ => if forallb is_digit l then
             let n := (s * digits_value l)%Z in if bool_decide (in_int64 n) then Some n else None
           else None
    end = Some z -> in_int64 z).
  { intros s [|c l]; [done|]. destruct (forallb is_digit _); [|done]. cbv zeta.
    case_bool_decide; [by intros [= <-]|done]. }
  destruct lit as [|c l]; [done|]. case_decide; [exact (H _ _)|exact (H 1%Z (c :: l))].
Qed.

Lemma parse_float64_finite lit x : parse_float64 lit = Some x -> is_finite x = true.
Proof. unfold parse_float64. destruct (nearest _ _); try done; by intros [= <-]. Qed.

(** ** Printing a float64 *)

(** [m * 2^e] as a fraction. *)
Definition fraction (m : positive) (e : Z) : Z * Z :=
  if bool_decide (0 <= e)%Z then ((Zpos m * 2 ^ e)%Z, 1%Z) else (Zpos m, (2 ^ (- e))%Z).

(** The [p] with [10^(p-1) <= num/den < 10^p]. *)
Definition decimal_point (num den : Z) : Z :=
  if bool_decide (den <= num)%Z then digits10 (num / den)
  else (1 - digits10 ((den + num - 1) / num - 1))%Z.

(** The [n] digit candidates around [num/den], scaled by [10^k]. *)
Definition pick_digits (x : float64) (num den k : Z) : option Z :=
  let (a, b) := if bool_decide (0 <= k)%Z then ((num * 10 ^ k)%Z, den) else (num, (den * 10 ^ (- k))%Z) in
  let q := (a / b)%Z in
  let r := (a - q * b)%Z in
  let lo := bool_decide (nearest q (- k) = x) in
  let hi := bool_decide (nearest (q + 1) (- k) = x) in
  match lo, hi with
  | true, true => match Z.compare (2 * r) b with
                  | Lt => Some q
                  | Gt => Some (q + 1)%Z
                  | Eq => Some (if Z.even q then q else (q + 1)%Z)
                  end
  | true, false => Some q
  | false, true => Some (q + 1)%Z
  | false, false => None
  end.

(** The first of [n], [n + 1], ... digits that reads back as [x]; seventeen
    always do. *)
Fixpoint shortest_from (fuel : nat) (x : float64) (num den p n : Z) : Z * Z :=
  match fuel with
  | O => (0, 0)%Z
  | S fuel => match pick_digits x num den (n - p) with
              | Some d => (d, (p - n)%Z)
              | None => shortest_from fuel x num den p (n + 1)
              end
  end.

Definition shortest (m : positive) (e : Z) : Z * Z :=
  let (num, den) := fraction m e in
  shortest_from 17 (S754_finite false m e) num den (decimal_point num den) 1.

Definition zeros (n : Z) : bytes := List.repeat (byte 48) (Z.to_nat n).

Definition strip_zeros (l : bytes) : bytes := drop_while_end (fun c => bool_decide (c = byte 48)) l.

(** [%f] of the digits [ds] with the decimal point after [dp] of them. *)
Definition format_f (ds : bytes) (dp : Z) : bytes :=
  let ip := if bool_decide (0 < dp)%Z
            then take (Z.to_nat dp) ds ++ zeros (dp - len ds) else [byte 48] in
  let fp := zeros (- dp) ++ drop (Z.to_nat dp) ds in
  ip ++ (if bool_decide (fp = []) then [] else byte 46 :: fp).

(** [%e], with an exponent of two digits at least that [encoding/json] then
    cuts to one when it is negative. *)
Definition format_e (ds : bytes) (dp : Z) : bytes :=
  match ds with
  | [] => []
  | c :: ds => c :: (if bool_decide (ds = []) then [] else byte 46 :: ds) ++
      ["e"%char; if bool_decide (dp - 1 < 0)%Z then byte 45 else byte 43] ++ print_int (Z.abs (dp - 1))
  end.

(** [abs < 1e-6 || abs >= 1e21] *)
Definition uses_exponent (x : float64) : bool :=
  flt x (fconst 1 (10 ^ 6)) || fle (of_Z (10 ^ 21)) x.

(** [floatEncoder]; [None] is its error. *)
Definition print_float64 (x : float64) : option bytes :=
  match x with
  | S754_nan | S754_infinity _ => None
  | S754_zero s => Some (if s then [byte 45; byte 48] else [byte 48])
  | S754_finite s m e =>
      let (d, k) := shortest m e in
      let ds := strip_zeros (print_int d) in
      let dp := (digits10 d + k)%Z in
      Some ((if s then [byte 45] else []) ++
            (if uses_exponent (S754_finite false m e) then format_e ds dp else format_f ds dp))
  end.

Example print_float_ex :
  (fun x => of_bytes <$> print_float64 x) <$>
    [fconst 1 10; of_Z 1500; fconst 3 2; fconst (-1) 3; of_Z (10 ^ 21); fdiv (of_Z 1) (of_Z (10 ^ 7));
     of_Z (2 ^ 60); fconst 123456 1000; of_Z (10 ^ 23)] =
  [Some "0.1"; Some "1500"; Some "1.5"; Some "-0.3333333333333333"; Some "1e+21"; Some "1e-7";
   Some "1152921504606847000"; Some "123.456"; Some "1e+23"].
Proof. vm_compute. reflexivity. Qed.

Example parse_float_ex :
  parse_float64 <$> [to_bytes "0.1"; to_bytes "-15e-1"; to_bytes "1E400"; to_bytes "5e-324"; to_bytes "-0"] =
  [Some (fconst 1 10); Some (fconst (-3) 2); None; Some (S754_finite false 1 (-1074)); Some (S754_zero true)].
Proof. vm_compute. reflexivity. Qed.

(** A value [strconv] prints so that it reads back, as it does every finite
    one; [encoding/json] refuses the others. *)
Definition float_prints (x : float64) : bool :=
  match print_float64 x with
  | Some l => bool_decide (scan_number l = Some (l, [])) && bool_decide (parse_float64 l = Some x)
  | None => false
  end.

Example float_prints_ex :
  forallb float_prints [f0; S754_zero true; of_Z 1; fconst 1 10; fconst (-22) 7; of_Z (10 ^ 15);
    fdiv (of_Z 5) (of_Z (10 ^ 11)); S754_finite false 1 (-1074); S754_finite true 9007199254740991 971] = true.
Proof. vm_compute. reflexivity. Qed.
