(* ===== verification/JsonTime.v ===== *)
(** * Times in JSON: [time.Time] as RFC 3339

    A time is printed as its civil date and clock in its zone with up to nine
    digits of a second and the offset of the zone, and read back as an instant.
    The zone of a host is a table of the machine, the parameter [LocalZone]: the
    offset in seconds at an instant; the zero time is in UTC.  The civil calendar
    is the proleptic Gregorian one, and a time outside the years 0 to 9999 has
    no JSON form. *)

From S2P Require Import Prelude GoStrings GoFloat Go OS Json JsonNumber.

#[local] Open Scope Z_scope.

Class LocalZone := local_offset : time -> Z.

(** The zone of a time after [t.UTC()]. *)
Definition utc : LocalZone := fun _ => 0%Z.

(** ** Civil dates

    Days are counted from 1970-01-01.  An era is 400 years from a first of
    March, [146097] days. *)

Definition days_before_era : Z := 719468.

Record date := { d_year : Z; d_month : Z; d_day : Z }.

#[export] Instance date_eq_dec : EqDecision date.
Proof. solve_decision. Defined.

(** Year of the era, day of that year (from March), month from March. *)
Definition year_of_era (doe : Z) : Z := (doe - doe / 1460 + doe / 36524 - doe / 146096) / 365.
Definition first_day (yoe : Z) : Z := 365 * yoe + yoe / 4 - yoe / 100.
Definition month_of (doy : Z) : Z := (5 * doy + 2) / 153.
Definition month_start (mp : Z) : Z := (153 * mp + 2) / 5.

Definition civil_of_days (days : Z) : date :=
  let z := days + days_before_era in
  let era := z / 146097 in
  let doe := z `mod` 146097 in
  let yoe := year_of_era doe in
  let doy := doe - first_day yoe in
  let mp := month_of doy in
  let m := if bool_decide (mp < 10) then mp + 3 else mp - 9 in
  {| d_year := yoe + era * 400 + (if bool_decide (m <= 2) then 1 else 0);
     d_month := m; d_day := doy - month_start mp + 1 |}.

Definition days_of_civil (d : date) : Z :=
  let y := if bool_decide (d_month d <= 2) then d_year d - 1 else d_year d in
  let era := y / 400 in
  let yoe := y `mod` 400 in
  let mp := if bool_decide (2 < d_month d) then d_month d - 3 else d_month d + 9 in
  era * 146097 + first_day yoe + month_start mp + d_day d - 1 - days_before_era.

Definition is_leap (y : Z) : bool :=
  bool_decide (y `mod` 4 = 0) && (negb (bool_decide (y `mod` 100 = 0)) || bool_decide (y `mod` 400 = 0)).

Definition days_in (m y : Z) : Z :=
  if bool_decide (m = 2) then (if is_leap y then 29 else 28)
  else if bool_decide (m ∈ [4; 6; 9; 11]) then 30 else 31.

Example civil_ex : civil_of_days 0 = {| d_year := 1970; d_month := 1; d_day := 1 |} /\
  civil_of_days 20695 = {| d_year := 2026; d_month := 8; d_day := 30 |} /\
  civil_of_days (-719162) = {| d_year := 1; d_month := 1; d_day := 1 |} /\
  days_of_civil {| d_year := 2024; d_month := 2; d_day := 29 |} = 19782.
Proof. vm_compute. done. Qed.

(** The calendar's arithmetic is checked year by year and day by day. *)

Definition forall_below (n : nat) (p : Z -> bool) : bool :=
  forallb p (Z.of_nat <$> seq 0 n).

Lemma forall_below_spec n p z :
  forall_below n p = true -> 0 <= z < Z.of_nat n -> p z = true.
Proof.
  unfold forall_below. rewrite forallb_forall. intros H Hz. apply H.
  apply list_elem_of_In, list_elem_of_fmap. exists (Z.to_nat z). split; [lia|].
  apply elem_of_seq. lia.
Qed.

(** The first day after the year [yoe] of an era. *)
Definition next_year (yoe : Z) : Z := if bool_decide (yoe = 399) then 146097 else first_day (yoe + 1).

Definition year_ok (yoe : Z) : bool :=
  bool_decide (year_of_era (first_day yoe) = yoe) &&
  bool_decide (year_of_era (next_year yoe - 1) = yoe) &&
  bool_decide (next_year yoe - first_day yoe = if is_leap (yoe + 1) then 366 else 365).

Definition day_ok (doy : Z) : bool :=
  let mp := month_of doy in
  let m := if bool_decide (mp < 10) then mp + 3 else mp - 9 in
  let d := doy - month_start mp + 1 in
  bool_decide (0 <= mp < 12) &&
  bool_decide (1 <= d <= days_in m (if bool_decide (doy = 365) then 4 else 1)).

Lemma years_ok : forall_below 400 year_ok = true.
Proof. vm_compute. reflexivity. Qed.

Lemma days_ok : forall_below 366 day_ok = true.
Proof. vm_compute. reflexivity. Qed.

Lemma year_of_era_step a : 0 <= a -> year_of_era a <= year_of_era (a + 1).
Proof.
  intros Ha. unfold year_of_era. apply Z.div_le_mono; [lia|].
  change 146096 with (36524 * 4). rewrite <- !Z.div_div by lia.
  pose proof (Z.div_le_mono a (a + 1) 36524 ltac:(lia) ltac:(lia)).
  assert ((a + 1) / 1460 <= a / 1460 + 1).
  { replace (a / 1460 + 1) with ((a + 1 * 1460) / 1460) by (rewrite Z.div_add; lia).
    apply Z.div_le_mono; lia. }
  generalize dependent (a / 36524). generalize dependent ((a + 1) / 36524).
  intros z z0 Hz. assert (z0 - z0 / 4 <= z - z / 4) by (clear -Hz; Z.to_euclidean_division_equations; lia). lia.
Qed.

Lemma year_of_era_mono a b : 0 <= a <= b -> year_of_era a <= year_of_era b.
Proof.
  intros [Ha Hb]. replace b with (a + Z.of_nat (Z.to_nat (b - a))) by lia.
  induction (Z.to_nat (b - a)) as [|n IH]; [by rewrite Z.add_0_r|].
  pose proof (year_of_era_step (a + Z.of_nat n) ltac:(lia)).
  replace (a + Z.of_nat (S n)) with (a + Z.of_nat n + 1) by lia. lia.
Qed.

(** The parts of a day number. *)
Lemma era_split doe :
  0 <= doe < 146097 ->
  exists yoe doy, 0 <= yoe < 400 /\ 0 <= doy < 366 /\ year_of_era doe = yoe /\
    doe = first_day yoe + doy /\ (doy = 365 -> is_leap (yoe + 1) = true).
Proof.
  intros Hd. pose proof (year_of_era_mono 0 doe ltac:(lia)) as H0.
  pose proof (year_of_era_mono doe 146096 ltac:(lia)) as H1.
  change (year_of_era 0) with 0 in H0. change (year_of_era 146096) with 399 in H1.
  pose proof (forall_below_spec 400 year_ok (year_of_era doe) years_ok ltac:(lia)) as Hy.
  unfold year_ok in Hy. apply andb_true_iff in Hy as [[Ha Hb]%andb_true_iff Hc].
  apply bool_decide_eq_true in Ha. apply bool_decide_eq_true in Hb. apply bool_decide_eq_true in Hc.
  set (yoe := year_of_era doe) in *.
  assert (Hlo : first_day yoe <= doe).
  { destruct (decide (first_day yoe <= doe)) as [|Hn]; [done|]. exfalso.
    destruct (decide (yoe = 0)) as [Hz|Hz]; [rewrite Hz in Hn; change (first_day 0) with 0 in Hn; lia|].
    pose proof (forall_below_spec 400 year_ok (yoe - 1) years_ok ltac:(lia)) as Hp.
    unfold year_ok in Hp. apply andb_true_iff in Hp as [[_ Hp]%andb_true_iff _].
    apply bool_decide_eq_true in Hp. unfold next_year in Hp.
    rewrite bool_decide_eq_false_2 in Hp by lia. replace (yoe - 1 + 1) with yoe in Hp by lia.
    pose proof (year_of_era_mono doe (first_day yoe - 1) ltac:(lia)) as Hm. fold yoe in Hm. lia. }
  assert (Hhi : doe < next_year yoe).
  { destruct (decide (doe < next_year yoe)) as [|Hn]; [done|]. exfalso.
    unfold next_year in Hn. case_bool_decide; [lia|].
    pose proof (forall_below_spec 400 year_ok (yoe + 1) years_ok ltac:(lia)) as Hp.
    unfold year_ok in Hp. apply andb_true_iff in Hp as [[Hp _]%andb_true_iff _].
    apply bool_decide_eq_true in Hp.
    assert (0 <= first_day (yoe + 1))
      by (unfold first_day; Z.to_euclidean_division_equations; lia).
    pose proof (year_of_era_mono (first_day (yoe + 1)) doe ltac:(lia)) as Hm. fold yoe in Hm. lia. }
  exists yoe, (doe - first_day yoe). split_and!; try lia.
  - destruct (is_leap (yoe + 1)); lia.
  - intros He. destruct (is_leap (yoe + 1)); [done|lia].
Qed.

Lemma is_leap_era y era : is_leap (y + era * 400) = is_leap y.
Proof.
  assert (Hm : forall k n, k * n = 400 -> 0 < n -> (y + era * 400) `mod` n = y `mod` n).
  { intros k n Hk Hn. rewrite <- Hk, Z.mul_assoc. apply Z.mod_add. lia. }
  unfold is_leap. by rewrite (Hm 100 4), (Hm 4 100), (Hm 1 400) by lia.
Qed.

Lemma days_in_leap m y : days_in m 1 <= days_in m y.
Proof.
  unfold days_in. case_bool_decide; [|done]. change (is_leap 1) with false.
  destruct (is_leap y); lia.
Qed.

Definition date_valid (d : date) : Prop :=
  1 <= d_month d <= 12 /\ 1 <= d_day d <= days_in (d_month d) (d_year d).

Lemma civil_round_trip days :
  days_of_civil (civil_of_days days) = days /\ date_valid (civil_of_days days).
Proof.
  set (z := days + days_before_era). set (era := z / 146097).
  pose proof (Z.mod_pos_bound z 146097 ltac:(lia)) as Hb.
  destruct (era_split (z `mod` 146097) Hb) as (yoe & doy & Hy & Hd & Hye & Hdoe & Hleap).
  pose proof (forall_below_spec 366 day_ok doy days_ok ltac:(lia)) as Hok.
  unfold day_ok in Hok. apply andb_true_iff in Hok as [Hmp Hday].
  apply bool_decide_eq_true in Hmp. apply bool_decide_eq_true in Hday.
  unfold civil_of_days. fold z. fold era. rewrite Hye.
  replace (z `mod` 146097 - first_day yoe) with doy by lia.
  set (mp := month_of doy) in *. set (m := if bool_decide (mp < 10) then mp + 3 else mp - 9) in *.
  set (y := yoe + era * 400 + (if bool_decide (m <= 2) then 1 else 0)).
  assert (Hm : mp < 10 /\ m = mp + 3 \/ 10 <= mp /\ m = mp - 9)
    by (clear Hday; unfold m; case_bool_decide; lia).
  assert (Hz : z = era * 146097 + z `mod` 146097).
  { unfold era. pose proof (Z.div_mod z 146097). lia. }
  split.
  - unfold days_of_civil. cbn [d_year d_month d_day].
    assert (Hy' : (if bool_decide (m <= 2) then y - 1 else y) = yoe + era * 400)
      by (clear Hday; unfold y; case_bool_decide; lia).
    assert (Hmp' : (if bool_decide (2 < m) then m - 3 else m + 9) = mp).
    { clear Hday Hy'. clearbody m. case_bool_decide; lia. }
    rewrite Hy', Hmp'. rewrite Z.div_add, Z.mod_add, Z.div_small, Z.mod_small by lia.
    assert (Hzd : z = days + days_before_era) by done. lia.
  - split; cbn [d_year d_month d_day]; [lia|]. split; [lia|].
    destruct Hday as [_ Hday]. case_bool_decide as Hdoy; [|pose proof (days_in_leap m y); lia].
    assert (Hm2 : m = 2) by (unfold m, mp; by rewrite Hdoy).
    unfold y. rewrite Hm2 in *. rewrite bool_decide_eq_true_2 by lia.
    replace (yoe + era * 400 + 1) with (yoe + 1 + era * 400) by lia.
    unfold days_in. rewrite is_leap_era, Hleap by done. exact Hday.
Qed.

(** ** Fixed-width decimals *)

Definition digit_char (z : Z) : ascii := byte (48 + Z.to_N z).

(** The last [n] decimal digits of [z]. *)
Fixpoint pad (n : nat) (z : Z) : bytes :=
  match n with
  | O => []
  | S n => pad n (z / 10) ++ [digit_char (z `mod` 10)]
  end.

Lemma digit_char_spec z :
  0 <= z < 10 -> is_digit (digit_char z) = true /\ digit (digit_char z) = z.
Proof.
  intros H. unfold digit_char, is_digit, digit, between. rewrite code_byte by lia.
  rewrite !bool_decide_eq_true_2 by lia. split; [done|lia].
Qed.

Lemma pad_digits n : forall z, forallb is_digit (pad n z) = true.
Proof.
  induction n as [|n IH]; intros z; [done|]. cbn [pad]. rewrite forallb_snoc, IH.
  apply digit_char_spec. apply Z.mod_pos_bound. lia.
Qed.

Lemma pad_length n : forall z, length (pad n z) = n.
Proof. induction n as [|n IH]; intros z; [done|]. cbn [pad]. rewrite length_app, IH. cbn. lia. Qed.

Lemma pad_value n : forall z, 0 <= z < 10 ^ Z.of_nat n -> digits_value (pad n z) = z.
Proof.
  induction n as [|n IH]; intros z Hz; [cbn in Hz; unfold digits_value; cbn; lia|].
  cbn [pad]. rewrite digits_value_snoc.
  pose proof (Z.mod_pos_bound z 10 ltac:(lia)) as Hm. destruct (digit_char_spec _ Hm) as [_ ->].
  pose proof (Z.div_mod z 10 ltac:(lia)). rewrite Nat2Z.inj_succ, Z.pow_succ_r in Hz by lia.
  rewrite IH; [lia|]. split; [apply Z.div_pos; lia|]. apply Z.div_lt_upper_bound; lia.
Qed.

(** [parseUint]: a number of exactly these digits within bounds. *)
Definition parse_uint (l : bytes) (lo hi : Z) : option Z :=
  if forallb is_digit l then
    let n := digits_value l in if bool_decide (lo <= n <= hi) then Some n else None
  else None.

Lemma parse_uint_pad n z lo hi :
  lo <= z <= hi -> 0 <= z < 10 ^ Z.of_nat n -> parse_uint (pad n z) lo hi = Some z.
Proof.
  intros Hb Hz. unfold parse_uint. rewrite pad_digits, pad_value by done.
  by rewrite bool_decide_eq_true_2.
Qed.

(** ** RFC 3339 *)

(** [time.RFC3339Nano] of an instant with the given offset, as
    [appendStrictRFC3339]; [None] is its error. *)
Definition format_time (off : Z) (t : time) : option bytes :=
  let local := t / Second + off in
  let c := civil_of_days (local / 86400) in
  let s := local `mod` 86400 in
  let ns := t `mod` Second in
  let zone := Z.quot off 60 in
  if bool_decide (0 <= d_year c <= 9999) && bool_decide (Z.abs zone / 60 <= 23) then
    Some (pad 4 (d_year c) ++ byte 45 :: pad 2 (d_month c) ++ byte 45 :: pad 2 (d_day c) ++
          "T"%char :: pad 2 (s / 3600) ++ ":"%char :: pad 2 ((s / 60) `mod` 60) ++ ":"%char ::
          pad 2 (s `mod` 60) ++
          (if bool_decide (ns = 0) then [] else byte 46 :: strip_zeros (pad 9 ns)) ++
          (if bool_decide (off = 0) then ["Z"%char]
           else (if bool_decide (zone < 0) then byte 45 else byte 43) ::
                pad 2 (Z.abs zone / 60) ++ ":"%char :: pad 2 (Z.abs zone `mod` 60)))
  else None.

(** [parseNanoseconds] of the digits after the point. *)
Definition nanoseconds (ds : bytes) : Z :=
  let ds := take 9 ds in digits_value ds * 10 ^ (9 - len ds).

Definition parse_fraction (l : bytes) : Z * bytes :=
  match l with
  | c :: l' => if decide (c = byte 46) then
                 match scan_digits l' with
                 | ([], _) => (0, l)
                 | (ds, r) => (nanoseconds ds, r)
                 end
               else (0, l)
  | [] => (0, [])
  end.

(** The offset of the zone in seconds. *)
Definition parse_zone (l : bytes) : option Z :=
  match l with
  | [c] => if decide (c = "Z"%char) then Some 0 else None
  | [s; h1; h2; c; m1; m2] =>
      match parse_uint [h1; h2] 0 23, parse_uint [m1; m2] 0 59 with
      | Some hr, Some mm =>
          if bool_decide (c = ":"%char) then
            if decide (s = byte 45) then Some (- ((hr * 60 + mm) * 60))
            else if decide (s = byte 43) then Some ((hr * 60 + mm) * 60) else None
          else None
      | _, _ => None
      end
  | _ => None
  end.

(** [parseStrictRFC3339] *)
Definition parse_time (l : bytes) : option time :=
  match l with
  | y1 :: y2 :: y3 :: y4 :: c1 :: m1 :: m2 :: c2 :: d1 :: d2 :: c3 :: h1 :: h2 :: c4 ::
    n1 :: n2 :: c5 :: s1 :: s2 :: l =>
      if bool_decide ([c1; c2; c3; c4; c5] = [byte 45; byte 45; "T"%char; ":"%char; ":"%char]) then
        parse_uint [y1; y2; y3; y4] 0 9999 ≫= fun year =>
        parse_uint [m1; m2] 1 12 ≫= fun month =>
        parse_uint [d1; d2] 1 (days_in month year) ≫= fun day =>
        parse_uint [h1; h2] 0 23 ≫= fun hour =>
        parse_uint [n1; n2] 0 59 ≫= fun min =>
        parse_uint [s1; s2] 0 59 ≫= fun sec =>
        let (nsec, l) := parse_fraction l in
        parse_zone l ≫= fun off =>
        Some ((days_of_civil {| d_year := year; d_month := month; d_day := day |} * 86400 +
               hour * 3600 + min * 60 + sec - off) * Second + nsec)
      else None
  | _ => None
  end.

Example format_time_ex :
  (fun t => of_bytes <$> format_time 0 t) <$> [1788086700000000000; zero_time; 1500000000] =
  [Some "2026-08-30T10:45:00Z"; Some "0001-01-01T00:00:00Z"; Some "1970-01-01T00:00:01.5Z"].
Proof. vm_compute. reflexivity. Qed.
Example parse_time_ex :
  parse_time <$> [to_bytes "1970-01-01T02:00:01.25+02:00"; to_bytes "2023-02-29T00:00:00Z";
                  to_bytes "1970-01-01T00:00:00"] = [Some 1250000000; None; None].
Proof. vm_compute. reflexivity. Qed.

(** ** A time comes back as the same instant *)

(** An offset that RFC 3339 can express: whole minutes, less than a day. *)
Definition zone_ok (off : Z) : Prop := off `mod` 60 = 0 /\ Z.abs off < 86400.

Lemma digits_value_zeros k : forall ds, digits_value (ds ++ List.repeat (byte 48) k) = digits_value ds * 10 ^ Z.of_nat k.
Proof.
  induction k as [|k IH]; intros ds; [by rewrite app_nil_r, Z.mul_1_r|].
  cbn [List.repeat]. change (byte 48 :: ?x) with ([byte 48] ++ x). rewrite app_assoc, IH.
  rewrite digits_value_snoc. change (digit (byte 48)) with 0.
  rewrite Nat2Z.inj_succ, Z.pow_succ_r by lia. lia.
Qed.

Lemma strip_zeros_spec l : exists k, l = strip_zeros l ++ List.repeat (byte 48) k.
Proof.
  unfold strip_zeros. destruct (drop_while_end_spec (fun c => bool_decide (c = byte 48)) l) as (suf & Hl & Hs).
  exists (length suf). rewrite Hl at 1. f_equal. clear Hl.
  induction Hs as [|c suf Hc _ IH]; [done|]. apply bool_decide_eq_true in Hc as ->.
  cbn [length List.repeat]. by f_equal.
Qed.

(** What may follow the digits of a fraction. *)
Definition zone_text (l : bytes) : Prop :=
  match l with c :: _ => c ∈ ["Z"%char; byte 43; byte 45] | [] => False end.

Lemma zone_text_ends l : zone_text l -> number_ends l /\ l <> [].
Proof.
  destruct l as [|c l]; [done|]. cbn. intros Hc. split; [|done].
  repeat (apply elem_of_cons in Hc as [->|Hc]); [split; [done|set_solver]..|set_solver].
Qed.

Lemma parse_fraction_format ns zone :
  0 <= ns < Second -> zone_text zone ->
  parse_fraction ((if bool_decide (ns = 0) then [] else byte 46 :: strip_zeros (pad 9 ns)) ++ zone) = (ns, zone).
Proof.
  intros Hns Hz. case_bool_decide as H0.
  - subst ns. destruct zone as [|c zone]; [done|]. apply zone_text_ends in Hz as [[_ Hc] _]. cbn.
    rewrite decide_False by set_solver. done.
  - rewrite <- app_comm_cons. cbn [parse_fraction]. rewrite decide_True by done.
    destruct (strip_zeros_spec (pad 9 ns)) as (k & Hk). set (ds := strip_zeros (pad 9 ns)) in *.
    pose proof (pad_digits 9 ns) as Hd. pose proof (pad_length 9 ns) as Hl.
    pose proof (pad_value 9 ns ltac:(done)) as Hv. rewrite Hk in Hd, Hl, Hv.
    rewrite forallb_app in Hd. apply andb_true_iff in Hd as [Hd _].
    rewrite length_app, List.repeat_length in Hl. rewrite digits_value_zeros in Hv.
    assert (Hs : scan_digits (ds ++ zone) = (ds, zone)).
    { apply (scan_digits_extends ds ds [] zone); [by apply scan_digits_all|]. intros _.
      by apply zone_text_ends. }
    rewrite Hs. clearbody ds. destruct (decide (ds = [])) as [->|Hne]; [cbn in Hv; lia|].
    destruct ds as [|d ds']; [done|]. set (ds := d :: ds') in *.
    unfold nanoseconds. rewrite take_ge by lia. unfold len.
    replace (9 - Z.of_nat (length ds)) with (Z.of_nat k) by lia. by rewrite Hv.
Qed.

Lemma pad2_shape z : exists a b, pad 2 z = [a; b].
Proof. by eexists _, _. Qed.

Lemma pad4_shape z : exists a b c d, pad 4 z = [a; b; c; d].
Proof. by eexists _, _, _, _. Qed.

(** The zone part of a formatted time. *)
Definition format_zone (off : Z) : bytes :=
  let zone := Z.quot off 60 in
  if bool_decide (off = 0) then ["Z"%char]
  else (if bool_decide (zone < 0) then byte 45 else byte 43) ::
       pad 2 (Z.abs zone / 60) ++ ":"%char :: pad 2 (Z.abs zone `mod` 60).

Lemma format_zone_text off : zone_text (format_zone off).
Proof. unfold format_zone. repeat case_bool_decide; cbn; set_solver. Qed.

Lemma parse_format_zone off : zone_ok off -> parse_zone (format_zone off) = Some off.
Proof.
  intros [Hm Ha]. unfold format_zone. case_bool_decide as H0; [by subst|].
  assert (Hq : off = 60 * Z.quot off 60).
  { apply Z.rem_mod_eq_0 in Hm; [|done]. pose proof (Z.quot_rem off 60). lia. }
  set (q := Z.quot off 60) in *.
  assert (H1 : parse_uint (pad 2 (Z.abs q / 60)) 0 23 = Some (Z.abs q / 60)).
  { apply parse_uint_pad; Z.to_euclidean_division_equations; lia. }
  assert (H2 : parse_uint (pad 2 (Z.abs q `mod` 60)) 0 59 = Some (Z.abs q `mod` 60)).
  { apply parse_uint_pad; Z.to_euclidean_division_equations; lia. }
  destruct (pad2_shape (Z.abs q / 60)) as (a & b & Hab).
  destruct (pad2_shape (Z.abs q `mod` 60)) as (c & d & Hcd). rewrite Hab, Hcd in *.
  cbn [app parse_zone]. rewrite H1, H2. rewrite bool_decide_eq_true_2 by done.
  pose proof (Z.div_mod (Z.abs q) 60 ltac:(done)).
  case_bool_decide.
  - rewrite decide_True by done. f_equal. lia.
  - rewrite decide_False, decide_True by done. f_equal. lia.
Qed.

Lemma parse_format_time off t b :
  zone_ok off -> format_time off t = Some b -> parse_time b = Some t.
Proof.
  intros Hoff. unfold format_time.
  set (local := t / Second + off). set (s := local `mod` 86400). set (ns := t `mod` Second).
  destruct (civil_round_trip (local / 86400)) as [Hciv [Hmon Hday]].
  set (c := civil_of_days (local / 86400)) in *.
  destruct (bool_decide (0 <= d_year c <= 9999) && _) eqn:Hok; [|done].
  apply andb_true_iff in Hok as [Hy _]. apply bool_decide_eq_true in Hy. intros Hb.
  apply (inj Some) in Hb as <-.
  fold (format_zone off).
  assert (Hs : 0 <= s < 86400) by (apply Z.mod_pos_bound; lia).
  assert (Hns : 0 <= ns < Second) by (apply Z.mod_pos_bound; done).
  assert (Hdi : days_in (d_month c) (d_year c) <= 31)
    by (clear; unfold days_in; repeat case_match; lia).
  pose proof (parse_uint_pad 4 (d_year c) 0 9999 Hy ltac:(change (10 ^ Z.of_nat 4) with 10000; lia)) as P1.
  pose proof (parse_uint_pad 2 (d_month c) 1 12 Hmon ltac:(change (10 ^ Z.of_nat 2) with 100; lia)) as P2.
  pose proof (parse_uint_pad 2 (d_day c) _ _ Hday ltac:(change (10 ^ Z.of_nat 2) with 100; lia)) as P3.
  pose proof (parse_uint_pad 2 (s / 3600) 0 23 ltac:(Z.to_euclidean_division_equations; lia)
    ltac:(change (10 ^ Z.of_nat 2) with 100; Z.to_euclidean_division_equations; lia)) as P4.
  pose proof (parse_uint_pad 2 ((s / 60) `mod` 60) 0 59 ltac:(Z.to_euclidean_division_equations; lia)
    ltac:(change (10 ^ Z.of_nat 2) with 100; Z.to_euclidean_division_equations; lia)) as P5.
  pose proof (parse_uint_pad 2 (s `mod` 60) 0 59 ltac:(Z.to_euclidean_division_equations; lia)
    ltac:(change (10 ^ Z.of_nat 2) with 100; Z.to_euclidean_division_equations; lia)) as P6.
  destruct (pad4_shape (d_year c)) as (? & ? & ? & ? & E1).
  destruct (pad2_shape (d_month c)) as (? & ? & E2). destruct (pad2_shape (d_day c)) as (? & ? & E3).
  destruct (pad2_shape (s / 3600)) as (? & ? & E4).
  destruct (pad2_shape ((s / 60) `mod` 60)) as (? & ? & E5). destruct (pad2_shape (s `mod` 60)) as (? & ? & E6).
  rewrite E1, E2, E3, E4, E5, E6 in *. cbn [app]. unfold parse_time.
  rewrite bool_decide_eq_true_2 by done. rewrite P1. cbn [mbind option_bind]. rewrite P2.
  cbn [mbind option_bind]. rewrite P3. cbn [mbind option_bind]. rewrite P4, P5, P6.
  cbn [mbind option_bind].
  rewrite (parse_fraction_format ns (format_zone off) Hns (format_zone_text off)).
  rewrite parse_format_zone by done. cbn [mbind option_bind]. f_equal.
  destruct c as [y m d]. cbn [d_year d_month d_day] in *. rewrite Hciv.
  pose proof (Z.div_mod t Second ltac:(done)). pose proof (Z.div_mod local 86400 ltac:(done)).
  assert (Hclock : s = s / 3600 * 3600 + (s / 60) `mod` 60 * 60 + s `mod` 60).
  { clear. Z.to_euclidean_division_equations. lia. }
  unfold local, Second in *. fold s. nia.
Qed.
