(* ===== verification/Codec.v ===== *)
(** * Go values as JSON: [json.Marshal] and [json.Unmarshal]

    A [codec A] is what [encoding/json] does with a Go type: [enc] is [None] where
    Marshal fails, and [dec] decodes into a value that is already there, as
    Unmarshal does (a null leaves it, a missing member leaves its field).  A
    [struct] lists the fields of a Go struct with their tags; members are matched
    by name, exactly first and then without regard to case, unknown ones are
    skipped, and any mismatch of types fails the call.  A nil slice and an empty
    one are one value here, written as null.  [codec_laws] says that what was
    encoded decodes to the same value. *)

From S2P Require Import Prelude GoStrings GoFloat Go OS Models Json JsonString JsonNumber JsonTime.

Record codec (A : Type) := {
  enc : A -> option json;
  dec : A -> json -> option A;
  czero : A;
  cempty : A -> bool;        (* what omitempty leaves out *)
  cok : A -> Prop;           (* the values that survive a round trip *)
  ctyped : A -> Prop;        (* the values of the type that decoding can give *)
  cdepth : nat;
}.
Arguments enc {A} c _ : assert.
Arguments dec {A} c _ _ : assert.
Arguments czero {A} c : assert.
Arguments cempty {A} c _ : assert.
Arguments cok {A} c _ : assert.
Arguments ctyped {A} c _ : assert.
Arguments cdepth {A} c : assert.

Record codec_laws {A} (c : codec A) : Prop := {
  enc_wf a j : cok c a -> enc c a = Some j -> wf (cdepth c) j;
  dec_enc a j : cok c a -> enc c a = Some j -> dec c (czero c) j = Some a;
  empty_zero a : cok c a -> cempty c a = true -> a = czero c;
}.

Lemma wf_mono d d' j : d <= d' -> wf d j -> wf d' j.
Proof.
  revert d d'. induction j as [|b|lit|raw|l IH|fs IH] using json_nested_ind; intros d d' Hd; try done.
  - destruct d as [|d]; [done|]. destruct d' as [|d']; [lia|]. cbn [wf].
    rewrite !wf_list, !Forall_forall. intros Hw j Hj. rewrite Forall_forall in IH.
    eapply IH; [done| |by apply Hw]. lia.
  - destruct d as [|d]; [done|]. destruct d' as [|d']; [lia|]. cbn [wf].
    rewrite !wf_members, !Forall_forall. intros Hw kv Hkv. rewrite Forall_forall in IH.
    destruct (Hw kv Hkv) as [Hk Hv]. split; [done|]. eapply IH; [done| |done]. lia.
Qed.

(** ** Basic types *)

Definition string_codec : codec string :=
  {| enc s := Some (JStr (quote s));
     dec cur j := match j with JNull => Some cur | JStr raw => unquote raw | _ => None end;
     czero := ""; cempty s := bool_decide (s = ""); cok := utf8_valid; ctyped := utf8_valid; cdepth := 0 |}.

Definition bool_codec : codec bool :=
  {| enc b := Some (JBool b);
     dec cur j := match j with JNull => Some cur | JBool b => Some b | _ => None end;
     czero := false; cempty := negb; cok _ := True; ctyped _ := True; cdepth := 0 |}.

Definition int_codec : codec Z :=
  {| enc z := Some (JNum (print_int z));
     dec cur j := match j with JNull => Some cur | JNum lit => parse_int64 lit | _ => None end;
     czero := 0%Z; cempty z := bool_decide (z = 0)%Z; cok := in_int64; ctyped := in_int64; cdepth := 0 |}.

(** Of the two zeros [omitempty] leaves out both, and only the positive one
    comes back. *)
Definition float_codec : codec float64 :=
  {| enc x := JNum <$> print_float64 x;
     dec cur j := match j with JNull => Some cur | JNum lit => parse_float64 lit | _ => None end;
     czero := f0; cempty x := feq x f0; cok x := float_prints x = true /\ x <> SpecFloat.S754_zero true;
     ctyped x := is_finite x = true; cdepth := 0 |}.

(** [time.Time] has its own methods; a struct is never empty. *)
Definition offset_of `{LocalZone} (t : time) : Z := if time_IsZero t then 0%Z else local_offset t.

Definition time_codec `{LocalZone} : codec time :=
  {| enc t := JStr <$> format_time (offset_of t) t;
     dec cur j := match j with JNull => Some cur | JStr raw => parse_time raw | _ => None end;
     czero := zero_time; cempty _ := false; cok t := zone_ok (offset_of t); ctyped _ := True; cdepth := 0 |}.

(** A pointer. *)
Definition ptr_codec {A} (c : codec A) : codec (option A) :=
  {| enc p := match p with Some a => enc c a | None => Some JNull end;
     dec cur j := match j with
                  | JNull => Some None
                  | _ => Some <$> dec c (default (czero c) cur) j
                  end;
     czero := None; cempty p := match p with Some _ => false | None => true end;
     cok p := match p with Some a => cok c a /\ enc c a <> Some JNull | None => True end;
     ctyped p := match p with Some a => ctyped c a | None => True end;
     cdepth := cdepth c |}.

(** The elements of an array, decoded over those already in the slice. *)
Fixpoint dec_list {A} (c : codec A) (cur : list A) (l : list json) : option (list A) :=
  match l with
  | [] => Some []
  | j :: l =>
      match dec c (default (czero c) (head cur)) j, dec_list c (tail cur) l with
      | Some a, Some r => Some (a :: r)
      | _, _ => None
      end
  end.

Definition list_codec {A} (c : codec A) : codec (list A) :=
  {| enc l := match l with [] => Some JNull | _ => JArr <$> mapM (enc c) l end;
     dec cur j := match j with JNull => Some [] | JArr l => dec_list c cur l | _ => None end;
     czero := []; cempty l := bool_decide (length l = 0); cok := Forall (cok c);
     ctyped := Forall (ctyped c); cdepth := S (cdepth c) |}.

(** ** Structs *)

Inductive struct : Type -> Type :=
| SNil : struct unit
| SCons {A B} (name : string) (omitempty : bool) (c : codec A) (s : struct B) : struct (A * B).

Fixpoint names {B} (s : struct B) : list string :=
  match s with
  | SNil => []
  | SCons name _ _ s => name :: names s
  end.

Fixpoint szero {B} (s : struct B) : B :=
  match s with
  | SNil => tt
  | SCons _ _ c s => (czero c, szero s)
  end.

Fixpoint sok {B} (s : struct B) : B -> Prop :=
  match s with
  | SNil => fun _ => True
  | SCons _ _ c s => fun '(a, b) => cok c a /\ sok s b
  end.

Fixpoint styped {B} (s : struct B) : B -> Prop :=
  match s with
  | SNil => fun _ => True
  | SCons _ _ c s => fun '(a, b) => ctyped c a /\ styped s b
  end.

Fixpoint sdepth {B} (s : struct B) : nat :=
  match s with
  | SNil => 0
  | SCons _ _ c s => Nat.max (cdepth c) (sdepth s)
  end.

(** The members Marshal writes. *)
Fixpoint enc_fields {B} (s : struct B) : B -> option (list (string * json)) :=
  match s with
  | SNil => fun _ => Some []
  | SCons name omitempty c s => fun '(a, b) =>
      if omitempty && cempty c a then enc_fields s b
      else match enc c a, enc_fields s b with
           | Some j, Some ms => Some ((name, j) :: ms)
           | _, _ => None
           end
  end.

(** Decoding of a member into the field number [i]. *)
Fixpoint dec_at {B} (s : struct B) (i : nat) (j : json) : B -> option B :=
  match s, i with
  | SNil, _ => fun b => Some b
  | SCons _ _ c s, O => fun '(a, b) => (fun a => (a, b)) <$> dec c a j
  | SCons _ _ c s, S i => fun '(a, b) => (fun b => (a, b)) <$> dec_at s i j b
  end.

(** [foldName]: ASCII letters in upper case, the long s and the Kelvin sign as
    the letters they fold to; what else is not ASCII matches no tag. *)
Definition fold_rune (r : N) : N :=
  if bool_decide (97 <= r)%N && bool_decide (r <= 122)%N then (r - 32)%N
  else if bool_decide (r = 383)%N then 83%N
  else if bool_decide (r = 8490)%N then 75%N else r.

Definition fold_name (s : string) : string :=
  of_bytes (map_runes fold_rune (String.length s) (to_bytes s)).

Fixpoint index_where (p : string -> bool) (l : list string) : option nat :=
  match l with
  | [] => None
  | x :: l => if p x then Some 0 else S <$> index_where p l
  end.

(** The field a member belongs to. *)
Definition find_field (ns : list string) (key : string) : option nat :=
  match index_where (fun n => bool_decide (n = key)) ns with
  | Some i => Some i
  | None => index_where (fun n => bool_decide (fold_name n = fold_name key)) ns
  end.

Definition dec_member {B} (s : struct B) (b : B) (m : string * json) : option B :=
  match find_field (names s) m.1 with
  | Some i => dec_at s i m.2 b
  | None => Some b
  end.

Fixpoint dec_members {B} (s : struct B) (b : B) (ms : list (string * json)) : option B :=
  match ms with
  | [] => Some b
  | m :: ms => dec_member s b m ≫= fun b => dec_members s b ms
  end.

(** The keys are strings like others. *)
Definition unquote_key (m : bytes * json) : option (string * json) :=
  (fun k => (k, m.2)) <$> unquote m.1.

(** The codec of a Go struct that is the tuple of its fields. *)
Definition struct_codec {T B} (s : struct B) (unpack : T -> B) (pack : B -> T) : codec T :=
  {| enc x := (fun ms => JObj ((fun m => (quote m.1, m.2)) <$> ms)) <$> enc_fields s (unpack x);
     dec cur j := match j with
                  | JNull => Some cur
                  | JObj ms => mapM unquote_key ms ≫= fun ms => pack <$> dec_members s (unpack cur) ms
                  | _ => None
                  end;
     czero := pack (szero s); cempty _ := false; cok x := sok s (unpack x);
     ctyped x := styped s (unpack x); cdepth := S (sdepth s) |}.

(** ** [Marshal] and [Unmarshal] *)

Definition Marshal {A} (c : codec A) (a : A) : option bytes := print <$> enc c a.
Definition Unmarshal {A} (c : codec A) (text : bytes) : option A := parse text ≫= dec c (czero c).

(** [json.NewDecoder(r).Decode(&v)] *)
Definition Decode {A} (c : codec A) (text : bytes) : option A :=
  parse_prefix text ≫= fun '(j, _) => dec c (czero c) j.

(** ** The laws *)

Lemma string_laws : codec_laws string_codec.
Proof.
  split.
  - intros s j _ [= <-]. apply quote_scans.
  - intros s j Hs [= <-]. cbn. rewrite unquote_quote. by f_equal.
  - intros s _ Hs. by apply bool_decide_eq_true in Hs.
Qed.

Lemma bool_laws : codec_laws bool_codec.
Proof. split; [by intros b j _ [= <-]..|by intros []]. Qed.

Lemma int_laws : codec_laws int_codec.
Proof.
  split.
  - intros z j _ [= <-]. apply print_int_ok.
  - intros z j Hz [= <-]. by apply parse_print_int.
  - intros z _ Hz. by apply bool_decide_eq_true in Hz.
Qed.

(** A text of plain bytes is a string without escapes. *)
Lemma string_ok_plain l :
  Forall (fun c => (32 <= code c)%N /\ c <> dquote /\ c <> backslash) l -> string_ok l.
Proof.
  unfold string_ok. induction 1 as [|c l (H1 & H2 & H3) _ IH]; [done|].
  cbn [app]. rewrite scan_string_plain by done. by rewrite IH.
Qed.

Lemma float_laws : codec_laws float_codec.
Proof.
  assert (H : forall x j, cok float_codec x -> enc float_codec x = Some j ->
    exists l, j = JNum l /\ number_ok l /\ parse_float64 l = Some x).
  { intros x j [Hx _]. cbn. unfold float_prints in Hx. destruct (print_float64 x) as [l|]; [|done].
    intros [= <-]. apply andb_true_iff in Hx as [H1 H2]. apply bool_decide_eq_true in H1.
    apply bool_decide_eq_true in H2. by exists l. }
  split.
  - intros x j Hx Hj. by destruct (H x j Hx Hj) as (l & -> & Hl & _).
  - intros x j Hx Hj. by destruct (H x j Hx Hj) as (l & -> & _ & Hl).
  - intros x [_ Hn]. cbn. by destruct x as [[]|[]| |[]].
Qed.

Definition plain (c : ascii) : Prop := (32 <= code c)%N /\ c <> dquote /\ c <> backslash.

Ltac plain_byte :=
  repeat match goal with |- context [if ?b then _ else _] => destruct b end;
  split_and!; [done|by intros ?..].

Lemma digits_plain l : forallb is_digit l = true -> Forall plain l.
Proof.
  rewrite forallb_forall, Forall_forall. intros H c Hc%list_elem_of_In. specialize (H c Hc).
  unfold is_digit, between in H. apply andb_true_iff in H as [H1 H2].
  apply bool_decide_eq_true in H1. apply bool_decide_eq_true in H2.
  split; [lia|]. split; intros ->; vm_compute in H1, H2; done.
Qed.

Lemma pad_plain n z : Forall plain (pad n z).
Proof. apply digits_plain, pad_digits. Qed.

Lemma strip_zeros_plain l : Forall plain l -> Forall plain (strip_zeros l).
Proof. destruct (strip_zeros_spec l) as (k & Hk). rewrite Hk at 1. by intros [H _]%Forall_app. Qed.

Lemma format_time_plain off t b : format_time off t = Some b -> Forall plain b.
Proof.
  unfold format_time. case_match; [|done]. intros Hb. apply (inj Some) in Hb as <-.
  fold (format_zone off). unfold format_zone.
  repeat match goal with
  | |- Forall plain (_ ++ _) => apply Forall_app; split
  | |- Forall plain (_ :: _) => apply Forall_cons; split; [plain_byte|]
  | |- Forall plain (pad _ _) => apply pad_plain
  | |- Forall plain (strip_zeros _) => apply strip_zeros_plain
  | |- Forall plain (if ?b then _ else _) => destruct b
  | |- Forall plain [] => constructor
  end.
Qed.

Lemma time_laws `{LocalZone} : codec_laws time_codec.
Proof.
  split.
  - intros t j _. cbn. destruct (format_time _ t) as [b|] eqn:Hb; [|done]. intros [= <-].
    by eapply string_ok_plain, format_time_plain.
  - intros t j Ht. cbn. destruct (format_time _ t) as [b|] eqn:Hb; [|done]. intros [= <-].
    exact (parse_format_time _ t b Ht Hb).
  - done.
Qed.

Lemma ptr_laws {A} (c : codec A) : codec_laws c -> codec_laws (ptr_codec c).
Proof.
  intros Hc. split.
  - intros [a|] j Ha Hj; [|by simplify_eq/=]. by apply (enc_wf c Hc a); [apply Ha|].
  - intros [a|] j Ha Hj; [|by simplify_eq/=]. destruct Ha as [Ha Hn]. cbn in *.
    pose proof (dec_enc c Hc a j Ha Hj) as Hd. destruct j; [by rewrite Hj in Hn|by rewrite Hd..].
  - by intros [a|].
Qed.

Lemma dec_list_enc {A} (c : codec A) l js :
  codec_laws c -> Forall (cok c) l -> Forall2 (fun a j => enc c a = Some j) l js ->
  dec_list c [] js = Some l.
Proof.
  intros Hc Hl H. induction H as [|a j l js Ha _ IH]; [done|]. apply Forall_cons in Hl as [Hok Hl].
  cbn. rewrite (dec_enc c Hc a j Hok Ha). cbn in IH. by rewrite IH.
Qed.

Lemma list_laws {A} (c : codec A) : codec_laws c -> codec_laws (list_codec c).
Proof.
  intros Hc. assert (H : forall l j, l <> [] -> enc (list_codec c) l = Some j ->
    exists js, j = JArr js /\ Forall2 (fun a j => enc c a = Some j) l js).
  { intros [|a l] j; [done|]. intros _. cbn -[mapM].
    destruct (mapM (enc c) (a :: l)) as [js|] eqn:Hm; [|done]. intros [= <-].
    exists js. split; [done|]. by apply mapM_Some. }
  split.
  - intros l j Hl Hj. destruct (decide (l = [])) as [->|Hn]; [by simplify_eq/=|].
    destruct (H l j Hn Hj) as (js & -> & Hjs). cbn. apply wf_list. clear Hj Hn.
    induction Hjs as [|a j l js Ha _ IH]; [constructor|]. apply Forall_cons in Hl as [Hok Hl].
    constructor; [by eapply enc_wf|by apply IH].
  - intros l j Hl Hj. destruct (decide (l = [])) as [->|Hn]; [by simplify_eq/=|].
    destruct (H l j Hn Hj) as (js & -> & Hjs). by eapply dec_list_enc.
  - intros [|a l]; [done|]. intros _ He. by apply bool_decide_eq_true in He.
Qed.

(** Every field's codec is lawful. *)
Fixpoint slaws {B} (s : struct B) : Prop :=
  match s with
  | SNil => True
  | SCons _ _ c s => codec_laws c /\ slaws s
  end.

Definition names_ok (ns : list string) : Prop := NoDup ns /\ Forall utf8_valid ns.

Lemma index_where_exact k ns :
  k ∈ ns -> exists i, index_where (fun n => bool_decide (n = k)) ns = Some i.
Proof.
  induction ns as [|n ns IH]; [set_solver|]. intros Hk. cbn. case_bool_decide; [by eexists|].
  destruct IH as [i ->]; [set_solver|]. by eexists.
Qed.

Lemma find_field_here n ns : find_field (n :: ns) n = Some 0.
Proof. unfold find_field. cbn. by rewrite bool_decide_eq_true_2. Qed.

Lemma find_field_later n ns k : k <> n -> k ∈ ns -> find_field (n :: ns) k = S <$> find_field ns k.
Proof.
  intros Hn Hk. unfold find_field. cbn. rewrite bool_decide_eq_false_2 by done.
  by destruct (index_where_exact k ns Hk) as [i ->].
Qed.

Lemma enc_fields_names {B} (s : struct B) : forall b ms,
  enc_fields s b = Some ms -> Forall (fun m => m.1 ∈ names s) ms.
Proof.
  induction s as [|A B name o c s IH]; cbn; [by intros b ms [= <-]|].
  intros [a b] ms. destruct (o && cempty c a).
  - intros H. eapply Forall_impl; [by eapply IH|]. intros m Hm. by right.
  - destruct (enc c a) as [j|]; [|done]. destruct (enc_fields s b) as [ms'|] eqn:Hms; [|done].
    intros [= <-]. constructor; [by left|]. eapply Forall_impl; [by eapply IH|]. intros m Hm. by right.
Qed.

Lemma dec_members_later {A B} n o (c : codec A) (s : struct B) a : forall ms b,
  n ∉ names s -> Forall (fun m => m.1 ∈ names s) ms ->
  dec_members (SCons n o c s) (a, b) ms = (fun b => (a, b)) <$> dec_members s b ms.
Proof.
  intros ms b Hn Hms. revert b. induction Hms as [|[k j] ms Hk _ IH]; intros b; [done|].
  cbn [dec_members]. unfold dec_member. cbn [fst snd names] in *.
  rewrite find_field_later by (done || by intros ->).
  destruct (find_field (names s) k) as [i|]; cbn; [|apply IH].
  destruct (dec_at s i j b) as [b'|]; cbn; [apply IH|done].
Qed.

Lemma dec_enc_fields {B} (s : struct B) : forall b ms,
  slaws s -> NoDup (names s) -> sok s b -> enc_fields s b = Some ms ->
  dec_members s (szero s) ms = Some b.
Proof.
  induction s as [|A B name o c s IH]; cbn [names slaws sok szero]; [by intros [] ms _ _ _ [= <-]|].
  intros [a b] ms [Hc Hs] [Hn Hnd]%NoDup_cons [Ha Hb] H. cbn [enc_fields] in H.
  destruct (o && cempty c a) eqn:Ho.
  - apply andb_true_iff in Ho as [_ Ho]. rewrite <- (empty_zero c Hc a Ha Ho).
    rewrite dec_members_later by (done || by eapply enc_fields_names). by rewrite (IH b ms).
  - destruct (enc c a) as [j|] eqn:Hj; [|done].
    destruct (enc_fields s b) as [ms'|] eqn:Hms; [|done]. injection H as <-.
    cbn [dec_members]. unfold dec_member. cbn [names fst snd]. rewrite find_field_here.
    cbn [dec_at]. rewrite (dec_enc c Hc a j Ha Hj). cbn [fmap option_fmap option_map mbind option_bind].
    rewrite dec_members_later by (done || by eapply enc_fields_names). by rewrite (IH b ms').
Qed.

Lemma enc_fields_wf {B} (s : struct B) : forall b ms,
  slaws s -> sok s b -> enc_fields s b = Some ms -> Forall (fun m => wf (sdepth s) m.2) ms.
Proof.
  induction s as [|A B name o c s IH]; cbn; [by intros b ms _ _ [= <-]|].
  intros [a b] ms [Hc Hs] [Ha Hb] H.
  assert (Hlater : forall ms, enc_fields s b = Some ms ->
    Forall (fun m => wf (Nat.max (cdepth c) (sdepth s)) m.2) ms).
  { intros ms' Hms. eapply Forall_impl; [by eapply IH|]. intros m. apply wf_mono. lia. }
  destruct (o && cempty c a); [by apply Hlater|].
  destruct (enc c a) as [j|] eqn:Hj; [|done].
  destruct (enc_fields s b) as [ms'|]; [|done]. injection H as <-. constructor; [|by apply Hlater].
  eapply wf_mono; [|by eapply (enc_wf c Hc)]. lia.
Qed.

Lemma unquote_keys ms :
  Forall (fun m => utf8_valid m.1) ms ->
  mapM unquote_key ((fun m => (quote m.1, m.2)) <$> ms) = Some ms.
Proof.
  intros H. apply mapM_Some. induction H as [|[k j] ms Hk _ IH]; [constructor|].
  constructor; [|done]. unfold unquote_key. cbn [fst snd] in *.
  rewrite unquote_quote, Hk. done.
Qed.

Lemma struct_laws {T B} (s : struct B) (unpack : T -> B) (pack : B -> T) :
  (forall b, unpack (pack b) = b) -> (forall x, pack (unpack x) = x) ->
  slaws s -> names_ok (names s) -> codec_laws (struct_codec s unpack pack).
Proof.
  intros Hpu Hup Hs [Hnd Hnames].
  assert (H : forall x j, enc (struct_codec s unpack pack) x = Some j ->
    exists ms, j = JObj ((fun m => (quote m.1, m.2)) <$> ms) /\ enc_fields s (unpack x) = Some ms).
  { intros x j. cbn. destruct (enc_fields s (unpack x)) as [ms|]; [|done]. intros [= <-]. by exists ms. }
  split.
  - intros x j Hx Hj. destruct (H x j Hj) as (ms & -> & Hms). cbn [cdepth struct_codec wf].
    apply wf_members, Forall_fmap. pose proof (enc_fields_wf s _ ms Hs Hx Hms) as Hw.
    eapply Forall_impl; [exact Hw|]. intros m Hm. split; [apply quote_scans|exact Hm].
  - intros x j Hx Hj. destruct (H x j Hj) as (ms & -> & Hms). cbn [dec struct_codec].
    rewrite unquote_keys.
    + cbn [mbind option_bind czero struct_codec]. rewrite Hpu.
      rewrite (dec_enc_fields s (unpack x) ms) by done. cbn. by rewrite Hup.
    + pose proof (enc_fields_names s _ ms Hms) as Hk. eapply Forall_impl; [exact Hk|].
      intros m Hm. by eapply Forall_forall in Hnames.
  - done.
Qed.

(** ** What is decoded is well typed *)

Record codec_typed {A} (c : codec A) : Prop := {
  zero_typed : ctyped c (czero c);
  dec_typed cur j a : ctyped c cur -> dec c cur j = Some a -> ctyped c a;
}.

Lemma string_typed : codec_typed string_codec.
Proof. split; [done|]. intros cur [| | |raw| |] a; cbn; try done; [by intros ? [= <-]|]. intros _. apply unquote_valid. Qed.

Lemma bool_typed : codec_typed bool_codec.
Proof. done. Qed.

Lemma int_typed : codec_typed int_codec.
Proof. split; [done|]. intros cur [| |lit| | |] a; cbn; try done; [by intros ? [= <-]|]. intros _. apply parse_int64_range. Qed.

Lemma float_typed : codec_typed float_codec.
Proof. split; [done|]. intros cur [| |lit| | |] a; cbn; try done; [by intros ? [= <-]|]. intros _. apply parse_float64_finite. Qed.

Lemma time_typed `{LocalZone} : codec_typed time_codec.
Proof. done. Qed.

Lemma ptr_typed {A} (c : codec A) : codec_typed c -> codec_typed (ptr_codec c).
Proof.
  intros Hc. split; [done|]. intros cur j p Hcur. destruct j; cbn; [by intros [= <-]|..];
    (destruct (dec c _ _) as [a|] eqn:Ha; [|done]; intros [= <-]; eapply (dec_typed c Hc); [|exact Ha];
     by destruct cur; [|apply zero_typed]).
Qed.

Lemma dec_list_typed {A} (c : codec A) l : codec_typed c -> forall cur r,
  Forall (ctyped c) cur -> dec_list c cur l = Some r -> Forall (ctyped c) r.
Proof.
  intros Hc. induction l as [|j l IH]; intros cur r Hcur; cbn; [by intros [= <-]|].
  destruct (dec c _ j) as [a|] eqn:Ha; [|done]. destruct (dec_list c _ l) as [r'|] eqn:Hr; [|done].
  intros [= <-]. constructor.
  - eapply (dec_typed c Hc); [|exact Ha]. by destruct Hcur; [apply zero_typed|].
  - eapply IH; [|exact Hr]. by destruct Hcur.
Qed.

Lemma list_typed {A} (c : codec A) : codec_typed c -> codec_typed (list_codec c).
Proof.
  intros Hc. split; [constructor|]. intros cur j r Hcur. destruct j; cbn; try done; [by intros [= <-]|].
  by apply dec_list_typed.
Qed.

Fixpoint stypes {B} (s : struct B) : Prop :=
  match s with
  | SNil => True
  | SCons _ _ c s => codec_typed c /\ stypes s
  end.

Lemma szero_typed {B} (s : struct B) : stypes s -> styped s (szero s).
Proof. induction s as [|A B name o c s IH]; [done|]. intros [Hc Hs]. split; [by apply zero_typed|auto]. Qed.

Lemma dec_at_typed {B} (s : struct B) j : stypes s -> forall i b b',
  styped s b -> dec_at s i j b = Some b' -> styped s b'.
Proof.
  induction s as [|A B name o c s IH]; cbn; [by intros _ i b b' _ [= <-]|].
  intros [Hc Hs] [|i] [a b] b' [Ha Hb].
  - destruct (dec c a j) as [a'|] eqn:Hd; [|done]. intros [= <-]. split; [by eapply (dec_typed c Hc)|done].
  - destruct (dec_at s i j b) as [b1|] eqn:Hd; [|done]. intros [= <-]. split; [done|by eapply IH].
Qed.

Lemma struct_typed {T B} (s : struct B) (unpack : T -> B) (pack : B -> T) :
  (forall b, unpack (pack b) = b) -> stypes s -> codec_typed (struct_codec s unpack pack).
Proof.
  intros Hup Hs. split; [cbn; rewrite Hup; by apply szero_typed|].
  intros cur j x Hcur. destruct j as [| | | | |ms]; cbn; try done; [by intros [= <-]|].
  destruct (mapM unquote_key ms) as [ks|]; cbn; [|done]. clear ms.
  destruct (dec_members s (unpack cur) ks) as [b|] eqn:Hd; [|done]. intros [= <-]. cbn. rewrite Hup.
  revert Hcur Hd. cbn. generalize (unpack cur). induction ks as [|m ks IH]; intros b0 H0; cbn; [by intros [= <-]|].
  unfold dec_member. destruct (find_field _ _) as [i|]; cbn; [|by apply IH].
  destruct (dec_at s i m.2 b0) as [b1|] eqn:Hb; cbn; [|done]. apply IH. by eapply dec_at_typed.
Qed.

Lemma Unmarshal_typed {A} (c : codec A) text a : codec_typed c -> Unmarshal c text = Some a -> ctyped c a.
Proof.
  intros Hc. unfold Unmarshal. destruct (parse text) as [j|]; [|done].
  intros H. eapply (dec_typed c Hc); [by apply zero_typed|exact H].
Qed.

Lemma Decode_typed {A} (c : codec A) text a : codec_typed c -> Decode c text = Some a -> ctyped c a.
Proof.
  intros Hc. unfold Decode. destruct (parse_prefix text) as [[j r]|]; [|done].
  intros H. eapply (dec_typed c Hc); [by apply zero_typed|exact H].
Qed.

(** What Marshal wrote, Unmarshal and Decode read back, the latter with more
    input behind it. *)
Lemma Unmarshal_Marshal {A} (c : codec A) a text :
  codec_laws c -> cdepth c <= 1000 -> cok c a -> Marshal c a = Some text ->
  Unmarshal c text = Some a.
Proof.
  unfold Marshal, Unmarshal. intros Hc Hd Ha H. destruct (enc c a) as [j|] eqn:Hj; [|done].
  injection H as <-. rewrite (parse_print (cdepth c)) by (done || by eapply enc_wf).
  by apply dec_enc.
Qed.

Lemma Decode_Marshal {A} (c : codec A) a text rest :
  codec_laws c -> cdepth c <= 1000 -> cok c a -> Marshal c a = Some text -> value_ends rest ->
  Decode c (text ++ rest) = Some a.
Proof.
  unfold Marshal, Decode. intros Hc Hd Ha H Hr. destruct (enc c a) as [j|] eqn:Hj; [|done].
  injection H as <-. rewrite (parse_prefix_print (cdepth c)) by (done || by eapply enc_wf).
  by apply dec_enc.
Qed.

(** An encoder's text ends in a newline. *)
Lemma Unmarshal_encoded {A} (c : codec A) a text :
  codec_laws c -> cdepth c <= 1000 -> cok c a -> Marshal c a = Some text ->
  Unmarshal c (text ++ [newline]) = Some a.
Proof.
  unfold Marshal, Unmarshal, parse. intros Hc Hd Ha H. destruct (enc c a) as [j|] eqn:Hj; [|done].
  injection H as <-. rewrite (parse_prefix_print (cdepth c));
    [by apply dec_enc|by eapply enc_wf|done|cbn; set_solver].
Qed.

(** The text of the errors of [encoding/json] is a parameter: of Marshal for a
    value it refuses, of Unmarshal and Decode for a text. *)
Class JsonErrors := {
  marshal_error : string;
  unmarshal_error : bytes -> string;
}.
