(* ===== verification/JsonIndent.v ===== *)
(** * Indented JSON: [json.MarshalIndent] and [Encoder.SetIndent]

    The text of [print] with a new line, indented by two spaces for each open
    bracket, after every bracket and comma, and a space after every colon;
    empty arrays and objects stay closed. *)

From S2P Require Import Prelude GoStrings GoFloat Go OS Models Json JsonString JsonNumber JsonTime Codec.

Definition new_line (depth : nat) : bytes := newline :: concat (replicate depth (to_bytes "  ")).

(** The parts between two brackets. *)
Fixpoint indent_parts (depth : nat) (l : list bytes) : bytes :=
  match l with
  | [] => []
  | [x] => new_line depth ++ x
  | x :: l => new_line depth ++ x ++ ","%char :: indent_parts depth l
  end.

Definition bracketed (o c : ascii) (depth : nat) (l : list bytes) : bytes :=
  match l with
  | [] => [o; c]
  | _ => o :: indent_parts (S depth) l ++ new_line depth ++ [c]
  end.

Fixpoint print_indented (depth : nat) (j : json) : bytes :=
  match j with
  | JArr l => bracketed "["%char "]"%char depth (List.map (print_indented (S depth)) l)
  | JObj fs => bracketed "{"%char "}"%char depth
      (List.map (fun '(k, v) => quoted k ++ to_bytes ": " ++ print_indented (S depth) v) fs)
  | j => print j
  end.

(** [json.MarshalIndent(v, "", "  ")] *)
Definition MarshalIndent {A} (c : codec A) (a : A) : option bytes := print_indented 0 <$> enc c a.

Example print_indented_ex : print_indented 0
    (JObj [(to_bytes "a", JArr [JNum (to_bytes "1"); JObj []]); (to_bytes "b", JNull)]) =
  (fun c => if decide (c = "'"%char) then dquote else c) <$> to_bytes
"{
  'a': [
    1,
    {}
  ],
  'b': null
}".
Proof. reflexivity. Qed.

(** [uint64] *)
Definition uint_codec : codec Z :=
  {| enc z := Some (JNum (print_int z));
     dec cur j := match j with
                  | JNull => Some cur
                  | JNum lit => if forallb is_digit lit && bool_decide (digits_value lit < 2 ^ 64)%Z
                                then Some (digits_value lit) else None
                  | _ => None
                  end;
     czero := 0%Z; cempty z := bool_decide (z = 0)%Z; cok z := (0 <= z < 2 ^ 64)%Z;
     ctyped z := (0 <= z < 2 ^ 64)%Z; cdepth := 0 |}.
