(* ===== verification/Affinity.v ===== *)
(** * CPU pinning (pkg/sandbox/affinity.go, affinity_linux.go)

    The package keeps one counter, [nextCore], under a mutex; a call of
    [AllocateNextCore] is one step on it.  [PinProcessToCore] builds a CPU mask
    of sixteen 64-bit words and tries the system call, then the taskset
    command. *)

From S2P Require Import Prelude GoStrings Go OS.

(** The package variable is the state; the result is the core and the new
    value. *)
Definition AllocateNextCore (numCPU nextCore : Z) : Z * Z :=
  if bool_decide (numCPU <= 1)%Z then (0%Z, nextCore)
  else (Z.rem nextCore numCPU, int64 (nextCore + 1)).

(** The cores [k] successive calls hand out. *)
Fixpoint allocations (numCPU nextCore : Z) (k : nat) : list Z :=
  match k with
  | 0 => []
  | S k => let (core, next) := AllocateNextCore numCPU nextCore in
           core :: allocations numCPU next k
  end.

Definition mask_words : nat := 16.

(** [mask[byteIndex] |= 1 << bitIndex] on a zero mask, in 64-bit words. *)
Definition core_mask (coreID : Z) : list Z :=
  let byteIndex := Z.to_nat (Z.quot coreID 64) in
  let bitIndex := Z.rem coreID 64 in
  <[byteIndex := Z.lor 0 (Z.shiftl 1 bitIndex `mod` 2 ^ 64)]> (replicate mask_words 0%Z).

Definition plain_command (path : string) (args : list string) : command :=
  {| cmd_Path := path; cmd_Args := args; cmd_Dir := ""; cmd_Stdin := None;
     cmd_Timeout := None; cmd_SysProcAttr := None |}.

Definition taskset_fallback (pid coreID : Z) : prog osE (option error) :=
  c ← call (RunCmd (plain_command "taskset" ["-cp"; Itoa coreID; Itoa pid]));
  match c_err c with
  | Some err => mret (Some (wrapf ("failed to pin PID " +:+ Itoa pid +:+ " to core "
                                   +:+ Itoa coreID +:+ ": ") err))
  | None => mret None
  end.

Definition PinProcessToCore (pid coreID : Z) : prog osE (option error) :=
  if bool_decide (coreID < 0)%Z then mret None
  else if bool_decide (Z.quot coreID 64 < Z.of_nat mask_words)%Z then
    errno ← call (SchedSetaffinity pid (core_mask coreID));
    if bool_decide (errno = 0)%Z then mret None else taskset_fallback pid coreID
  else taskset_fallback pid coreID.

(** affinity_fallback.go *)
Definition PinProcessToCore_other (pid coreID : Z) : prog osE (option error) := mret None.

(** ** Lemmas *)

Lemma allocations_gen n k : forall m,
  (1 < n)%Z -> (0 <= m)%Z -> (m + Z.of_nat k <= 2 ^ 63)%Z ->
  allocations n m k = (fun i => i `mod` n)%Z <$> seqZ m (Z.of_nat k).
Proof.
  induction k as [|k IH]; intros m Hn Hm Hk; [done|].
  rewrite seqZ_cons by lia. cbn -[seqZ Z.of_nat].
  unfold AllocateNextCore at 1. rewrite bool_decide_eq_false_2 by lia.
  rewrite Z.rem_mod_nonneg by lia. f_equal.
  replace (Z.pred (Z.of_nat (S k))) with (Z.of_nat k) by lia.
  destruct k as [|k']; [done|].
  rewrite int64_id by (unfold in_int64, int64_min, int64_max; lia).
  apply IH; lia.
Qed.

Lemma testbit_word b j : (0 <= b < 64)%Z -> (0 <= j < 64)%Z ->
  Z.testbit (Z.lor 0 (Z.shiftl 1 b `mod` 2 ^ 64)) j = bool_decide (j = b).
Proof.
  intros Hb Hj. rewrite Z.lor_0_l, Z.shiftl_1_l.
  rewrite Z.mod_pow2_bits_low by lia. rewrite Z.pow2_bits_eqb by lia.
  rewrite Z.eqb_sym. by case_bool_decide; lia.
Qed.

(** ** Properties *)

(** The cores handed out are 0, 1, ..., n-1, 0, 1, ... in turn: on a host
    with n > 1 CPUs the i-th call returns i mod n (for as long as the counter
    does not wrap), so every core is a valid index and any n successive calls
    use n different cores; on a single-CPU host it is always core 0. *)
Theorem allocations_round_robin (n : Z) (k : nat) (Hk : (Z.of_nat k <= 2 ^ 63)%Z) :
  allocations n 0 k =
    (if bool_decide (n <= 1)%Z then replicate k 0%Z
     else (fun i => i `mod` n)%Z <$> seqZ 0 (Z.of_nat k)) /\
  Forall (fun core => 0 <= core < Z.max 1 n)%Z (allocations n 0 k) /\
  ((1 < n)%Z -> forall (i j : nat) c, i < j -> (Z.of_nat j - Z.of_nat i < n)%Z ->
     allocations n 0 k !! i = Some c -> allocations n 0 k !! j <> Some c).
Proof.
  assert (Heq : allocations n 0 k =
    (if bool_decide (n <= 1)%Z then replicate k 0%Z
     else (fun i => i `mod` n)%Z <$> seqZ 0 (Z.of_nat k))).
  { case_bool_decide as Hn; [|apply allocations_gen; lia]. clear Hk.
    induction k as [|k IH]; [done|]. cbn. unfold AllocateNextCore at 1.
    rewrite bool_decide_eq_true_2 by done. by f_equal. }
  rewrite Heq. split_all; [done| |].
  - case_bool_decide; [apply Forall_replicate; lia|].
    apply Forall_fmap, Forall_forall. intros i _. cbn.
    pose proof (Z.mod_pos_bound i n). lia.
  - intros Hn i j c Hij Hd. rewrite bool_decide_eq_false_2 by lia.
    rewrite !list_lookup_fmap. intros (a & [-> Ha]%lookup_seqZ & ->)%fmap_Some.
    intros (b & [-> Hb]%lookup_seqZ & Hc)%fmap_Some.
    pose proof (Z.div_mod (0 + Z.of_nat i) n ltac:(lia)).
    pose proof (Z.div_mod (0 + Z.of_nat j) n ltac:(lia)).
    destruct (Z.le_gt_cases ((0 + Z.of_nat j) / n) ((0 + Z.of_nat i) / n)); nia.
Qed.

Lemma allocations_round_robin_witness :
  allocations 4 0 6 = [0; 1; 2; 3; 0; 1]%Z.
Proof.
  refine (eq_trans (proj1 (allocations_round_robin 4 6 _)) _); [lia|reflexivity].
Defined.

(** For a core below 1024 the system call is made first and with a mask in
    which exactly that core's bit is set; when the kernel accepts it nothing
    else is run.  A larger core goes to taskset alone, and a negative one is
    ignored. *)
Theorem PinProcessToCore_mask (pid coreID : Z) :
  wp (PinProcessToCore pid coreID) (fun tr _ =>
    ((coreID < 0)%Z -> tr = []) /\
    ((1024 <= coreID)%Z -> exists c tr', tr = [Ev (RunCmd c) tr'] /\ cmd_Path c = "taskset") /\
    ((0 <= coreID < 1024)%Z -> exists mask errno rest,
       tr = Ev (SchedSetaffinity pid mask) errno :: rest /\
       (errno = 0%Z -> rest = []) /\
       length mask = mask_words /\
       forall j, (0 <= j < 1024)%Z ->
         Z.testbit (mask !!! Z.to_nat (j / 64)) (j mod 64) = bool_decide (j = coreID))) [].
Proof.
  assert (Hmask : (0 <= coreID < 1024)%Z -> length (core_mask coreID) = mask_words /\
    forall j, (0 <= j < 1024)%Z ->
      Z.testbit (core_mask coreID !!! Z.to_nat (j / 64)) (j mod 64) = bool_decide (j = coreID)).
  { intros Hc. unfold core_mask. split; [by rewrite length_insert, length_replicate|].
    intros j Hj. rewrite Z.quot_div_nonneg, Z.rem_mod_nonneg by lia.
    pose proof (Z.div_mod j 64). pose proof (Z.div_mod coreID 64).
    pose proof (Z.mod_pos_bound j 64). pose proof (Z.mod_pos_bound coreID 64).
    destruct (decide (j / 64 = coreID / 64)%Z) as [Hw|Hw].
    - rewrite Hw, list_lookup_total_insert_eq
        by (rewrite length_replicate; unfold mask_words; lia).
      rewrite testbit_word by lia. apply bool_decide_ext. lia.
    - rewrite list_lookup_total_insert_ne by lia.
      rewrite lookup_total_replicate_2 by (unfold mask_words; lia).
      rewrite Z.bits_0. symmetry. apply bool_decide_eq_false. lia. }
  unfold PinProcessToCore. case_bool_decide as H0; [wp_step; split_all; intros; done || lia|].
  assert (Hq : (Z.quot coreID 64 < Z.of_nat mask_words <-> coreID < 1024)%Z).
  { rewrite Z.quot_div_nonneg by lia. unfold mask_words.
    pose proof (Z.div_mod coreID 64). pose proof (Z.mod_pos_bound coreID 64). lia. }
  case_bool_decide as H1; rewrite Hq in H1.
  - destruct (Hmask ltac:(lia)) as [Hl Hb]. repeat wp_step. case_bool_decide.
    + wp_step. split_all; intros; try lia. eexists _, _, []. by split_all.
    + unfold taskset_fallback. repeat wp_step. case_match; wp_step;
        split_all; intros; try lia; eexists _, _, [_];
        split_all; done || (intros; congruence).
  - unfold taskset_fallback. repeat wp_step. case_match; wp_step;
      split_all; intros; try lia; by eexists _, _.
Qed.
