(* ===== verification/Watchdog.v ===== *)
(** * The bounded output buffer (pkg/sandbox/watchdog.go)

    [BoundedBuffer] is the [io.Writer] every backend plugs into a process's
    stdout and stderr.  The record holds the fields of the Go struct but the
    mutex: each method runs under it, so a method is one atomic step.  The
    theorems say what a sequence of writes leaves in the buffer: the first
    [maxBytes] bytes of the concatenated output, however it was cut into
    chunks, and the flag exactly when more was produced. *)

From S2P Require Import Prelude.

Module BoundedBuffer.

Record t := mk {
  buf : bytes;
  maxBytes : Z;
  written : Z;
  exceeded : bool;
}.

Definition NewBoundedBuffer (maxBytes : Z) : t :=
  let maxBytes := if bool_decide (maxBytes <= 0)%Z then 1048576%Z else maxBytes in
  mk [] maxBytes 0 false.

(** [Write p]: the count it reports, and the buffer after it (the error it
    returns is always nil). *)
Definition Write (b : t) (p : bytes) : Z * t :=
  let n := len p in
  let w := int64 (written b + n) in
  if bool_decide (len (buf b) < maxBytes b)%Z then
    let remaining := (maxBytes b - len (buf b))%Z in
    if bool_decide (len p <= remaining)%Z
    then (n, mk (buf b ++ p) (maxBytes b) w (exceeded b))
    else (n, mk (buf b ++ take (Z.to_nat remaining) p) (maxBytes b) w true)
  else (n, mk (buf b) (maxBytes b) w true).

Definition String (b : t) : string := of_bytes (buf b).
Definition Exceeded (b : t) : bool := exceeded b.
Definition TotalWritten (b : t) : Z := written b.

(** What [os/exec] does with a writer: one [Write] per chunk it reads. *)
Definition WriteAll (b : t) (chunks : list bytes) : t :=
  fold_left (fun b p => snd (Write b p)) chunks b.

(** ** Invariant *)

Record wf (b : t) : Prop := {
  wf_cap : (0 < maxBytes b)%Z;
  wf_len : (len (buf b) <= maxBytes b)%Z;
  wf_full : exceeded b = true -> len (buf b) = maxBytes b;
}.

Lemma NewBoundedBuffer_wf n : wf (NewBoundedBuffer n).
Proof. unfold NewBoundedBuffer. split; unfold len; cbn; case_bool_decide; intros; try done; lia. Qed.

(** The abstract state a buffer stands for: all the bytes it was given. *)
Definition represents (b : t) (all : bytes) : Prop :=
  buf b = take (Z.to_nat (maxBytes b)) all /\
  exceeded b = bool_decide (maxBytes b < len all)%Z /\
  written b = int64 (len all) /\ (0 < maxBytes b)%Z.

Lemma represents_wf b all : represents b all -> wf b.
Proof.
  intros (Hb & He & _ & Hm). split; [done| |]; rewrite Hb, len_take; [lia|].
  rewrite He. intros Hx%bool_decide_eq_true. lia.
Qed.

Lemma New_represents n : represents (NewBoundedBuffer n) [].
Proof.
  unfold represents, NewBoundedBuffer, len. cbn [buf maxBytes exceeded written].
  rewrite take_nil. split_all; try done; [|case_bool_decide; lia].
  symmetry. apply bool_decide_eq_false. cbn. case_bool_decide; lia.
Qed.

(** Appending to a prefix: how much of [p] still fits after [all]. *)
Lemma take_app_fit (m : Z) (all p : bytes) :
  (0 < m)%Z ->
  take (Z.to_nat m) (all ++ p) =
  take (Z.to_nat m) all ++ take (Z.to_nat (m - len (take (Z.to_nat m) all))) p.
Proof.
  intros Hm. rewrite take_app. f_equal. unfold len. rewrite length_take.
  destruct (decide (length all <= Z.to_nat m)).
  - f_equal. lia.
  - by replace (Z.to_nat m - length all) with 0 by lia;
      replace (Z.to_nat (m - Z.of_nat (Z.to_nat m `min` length all))) with 0 by lia.
Qed.

(** The chunks must be non-empty: an empty write into a buffer that is
    exactly full takes the last branch and raises the flag. *)
Lemma Write_represents b all p :
  p <> [] -> represents b all -> represents (snd (Write b p)) (all ++ p).
Proof.
  intros Hp (Hb & He & Hw & Hm). unfold represents, Write.
  assert (0 < len p)%Z by (destruct p; [done|unfold len; cbn; lia]).
  assert (Hl : len (buf b) = Z.min (maxBytes b) (len all)) by (rewrite Hb, len_take; lia).
  rewrite Hw, int64_add_l, len_app.
  assert (Hfit := take_app_fit (maxBytes b) all p Hm). rewrite <- Hb in Hfit.
  pose proof (len_nonneg all).
  repeat case_bool_decide; cbn in *; split_all; try done; try lia; rewrite ?Hfit.
  all: try (f_equal; symmetry; apply take_ge; unfold len in *; lia).
  all: replace (Z.to_nat (maxBytes b - len (buf b))) with 0 by lia;
    by rewrite take_0, app_nil_r.
Qed.

Lemma WriteAll_represents chunks : Forall (fun p => p <> []) chunks ->
  forall b all,
  represents b all -> represents (WriteAll b chunks) (all ++ concat chunks).
Proof.
  induction 1 as [|p chunks Hp Hch IH]; intros b all Hb; cbn.
  - by rewrite app_nil_r.
  - rewrite app_assoc. apply IH, Write_represents, Hb. done.
Qed.

Lemma Write_cap b p : maxBytes (snd (Write b p)) = maxBytes b.
Proof. unfold Write. by repeat case_bool_decide. Qed.

Lemma WriteAll_cap chunks : forall b, maxBytes (WriteAll b chunks) = maxBytes b.
Proof.
  unfold WriteAll. induction chunks as [|p chunks IH]; intros b; cbn; [done|].
  by rewrite IH, Write_cap.
Qed.

Lemma Write_wf b p : wf b -> wf (snd (Write b p)).
Proof.
  intros [Hc Hl Hf]. unfold Write.
  repeat case_bool_decide; cbn; split; cbn in *; try done;
    rewrite ?len_app, ?len_take; pose proof (len_nonneg p); try lia.
  intros He. specialize (Hf He). lia.
Qed.

Lemma WriteAll_wf chunks : forall b, wf b -> wf (WriteAll b chunks).
Proof.
  unfold WriteAll. induction chunks as [|p chunks IH]; intros b Hb; cbn; [done|].
  by apply IH, Write_wf.
Qed.

Lemma WriteAll_app b c1 c2 : WriteAll b (c1 ++ c2) = WriteAll (WriteAll b c1) c2.
Proof. unfold WriteAll. apply fold_left_app. Qed.

Definition cap (n : Z) : Z := if bool_decide (n <= 0)%Z then 1048576%Z else n.

Lemma New_cap n : maxBytes (NewBoundedBuffer n) = cap n.
Proof. done. Qed.

(** ** Properties *)

(** C25: a buffer that receives the non-empty chunks of a process's output holds
    exactly the first [maxBytes] bytes of the whole output, reports it
    exceeded exactly when the output is longer than the cap, and counts every
    byte (as an int64); the cap is the argument, or 1 MiB for an argument that
    is not positive. *)
Theorem WriteAll_captures_prefix (n : Z) (chunks : list bytes)
    (Hne : Forall (fun p => p <> []) chunks) :
  let b := WriteAll (NewBoundedBuffer n) chunks in
  to_bytes (String b) = take (Z.to_nat (cap n)) (concat chunks) /\
  Exceeded b = bool_decide (cap n < len (concat chunks))%Z /\
  TotalWritten b = int64 (len (concat chunks)).
Proof.
  destruct (WriteAll_represents chunks Hne _ [] (New_represents n)) as (Hb & He & Hw & _).
  rewrite WriteAll_cap, New_cap in Hb, He. cbn. unfold String, Exceeded, TotalWritten.
  by rewrite Hb, He, Hw, to_of_bytes.
Qed.

Lemma WriteAll_captures_prefix_witness :
  to_bytes (String (WriteAll (NewBoundedBuffer 4) [to_bytes "hel"; to_bytes "lo"]))
  = to_bytes "hell".
Proof.
  refine (eq_trans (proj1 (WriteAll_captures_prefix 4 [to_bytes "hel"; to_bytes "lo"] _)) _).
  - repeat constructor; discriminate.
  - reflexivity.
Defined.

(** Whatever is written, in whatever chunks (empty ones included), the memory
    the buffer holds stays within its cap, [Write] reports every byte of its
    argument as consumed (so the process is never blocked or killed by a short
    write), and a buffer that reports "exceeded" is full. *)
Theorem Write_bounded (n : Z) (chunks : list bytes) (p : bytes) :
  let b := WriteAll (NewBoundedBuffer n) chunks in
  (0 <= len (to_bytes (String b)) <= cap n)%Z /\
  fst (Write b p) = len p /\
  (Exceeded b = true -> len (to_bytes (String b)) = cap n).
Proof.
  cbn. pose proof (WriteAll_wf chunks _ (NewBoundedBuffer_wf n)) as [_ Hl Hf].
  rewrite WriteAll_cap, New_cap in Hl, Hf. unfold String. rewrite to_of_bytes.
  split_all; auto with go; [].
  unfold Write. by repeat case_bool_decide.
Qed.

(** An empty write into an exactly full buffer raises the flag although no
    byte was lost. *)
Example empty_write_when_full :
  Exceeded (WriteAll (NewBoundedBuffer 2) [to_bytes "ab"]) = false /\
  Exceeded (WriteAll (NewBoundedBuffer 2) [to_bytes "ab"; []]) = true.
Proof. split; reflexivity. Qed.

(** The two cases of watchdog_test.go. *)
Example test_within_limit :
  Write (NewBoundedBuffer 100) (to_bytes "hello world") =
  (11%Z, mk (to_bytes "hello world") 100 11 false).
Proof. reflexivity. Qed.

Example test_exceeds_limit :
  Write (NewBoundedBuffer 10) (to_bytes "hello world from test payload") =
  (29%Z, mk (to_bytes "hello worl") 10 29 true).
Proof. reflexivity. Qed.

End BoundedBuffer.
