(* ===== verification/Sandbox.v ===== *)
(** * The sandbox interface (pkg/sandbox/sandbox.go)

    [SandboxContext] and the Go interface [Sandbox] as a record of its methods,
    the shared [WriteSourceFile], and [SandboxSpec]: what every backend promises
    its clients (the engine and the worker), which the files of the three
    backends prove. *)

From S2P Require Import Prelude GoStrings GoFloat Go OS Models Languages FilePath Watchdog.

Record SandboxContext := {
  sc_ID : string;
  sc_Request : ExecutionRequest;
  sc_Language : LanguageHandler;
  sc_WorkingDir : string;
  sc_SourcePath : string;
  sc_BinaryPath : string;
  sc_CgroupPath : string;
  sc_CreatedAt : time;
}.

(** The methods of the interface. A pair of a pointer and an error is returned
    as Go returns it, so a nil result with a nil error is representable. *)
Record Sandbox := {
  sb_Name : string;
  sb_IsAvailable : prog osE bool;
  sb_Prepare : ExecutionRequest -> LanguageHandler -> prog osE (error + SandboxContext);
  sb_Compile : SandboxContext -> prog osE (option CompilationResult * option error);
  sb_Execute : SandboxContext -> prog osE (option ExecutionResult * option error);
  sb_Cleanup : SandboxContext -> prog osE (option error);
}.

Definition WriteSourceFile (sCtx : SandboxContext) : prog osE (option error) :=
  err ← call (MkdirAll (sc_WorkingDir sCtx) 493);
  match (err : option error) with
  | Some err => mret (Some (wrapf "failed to create sandbox workspace: " err))
  | None =>
      err ← call (WriteFile (sc_SourcePath sCtx) (Code (sc_Request sCtx)) 420);
      match (err : option error) with
      | Some err => mret (Some (wrapf "failed to write source code: " err))
      | None => mret None
      end
  end.

(** A buffer after a process wrote its chunks to it. *)
Definition captured (req : ExecutionRequest) (chunks : list bytes) : BoundedBuffer.t :=
  BoundedBuffer.WriteAll (BoundedBuffer.NewBoundedBuffer (MaxOutputBytes req)) chunks.

(** The output comparison the backends share: equality after trailing
    carriage returns and newlines are removed. *)
Definition output_matches (stdout expected : string) : bool :=
  bool_decide (TrimRight stdout crlf = TrimRight expected crlf).

(** The result every backend's [Compile] builds from a finished compiler. *)
Definition compilation_of (req : ExecutionRequest) (start now : time) (c : completion)
    : CompilationResult :=
  {| comp_Success := bool_decide (exit_code (c_err c) = 0%Z);
     comp_ExitCode := exit_code (c_err c);
     comp_Stdout := BoundedBuffer.String (captured req (c_stdout c));
     comp_Stderr := BoundedBuffer.String (captured req (c_stderr c));
     comp_TimeMs := elapsed_ms start now |}.

(** The program's standard input: nil when there is none. *)
Definition stdin_reader (input : string) : option string :=
  if bool_decide (input = "") then None else Some input.

Definition stdin_of (req : ExecutionRequest) : option string := stdin_reader (Stdin req).

(** ** What a backend promises *)

(** The command line a language runs a program with. *)
Definition run_line (lang : LanguageHandler) (target : string) : list string :=
  (RunCommand lang target).1 :: (RunCommand lang target).2.

(** The command line it compiles a source file with. *)
Definition compile_line (lang : LanguageHandler) (source binary : string) : list string :=
  (CompileCommand lang source binary).1 :: (CompileCommand lang source binary).2.

(** The file of a workspace that is run. *)
Definition program_file (lang : LanguageHandler) : string :=
  if NeedsCompilation lang then BinaryFilename lang else SourceFilename lang.

(** The command lines that run the program of a workspace: the language's own
    on the program file in it, or the same in a container in which the
    workspace is mounted, read only, as /workspace. *)
Inductive runs_program (lang : LanguageHandler) (dir : string) : list string -> Prop :=
| runs_directly : runs_program lang dir (run_line lang (Join [dir; program_file lang]))
| runs_in_container options image :
    runs_program lang dir
      ("docker" :: "run" :: options
         ++ ["-v"; dir +:+ ":/workspace:ro"; "-w"; "/workspace"; image]
         ++ run_line lang (Join ["/workspace"; program_file lang])).

(** Those that compile its source file to its binary. *)
Inductive compiles (lang : LanguageHandler) (dir : string) : list string -> Prop :=
| compiles_directly :
    compiles lang dir (compile_line lang (Join [dir; SourceFilename lang])
                                         (Join [dir; BinaryFilename lang]))
| compiles_in_container options image :
    compiles lang dir
      ("docker" :: "run" :: options
         ++ ["-v"; dir +:+ ":/workspace:rw"; "-w"; "/workspace"; image]
         ++ compile_line lang (SourceFilename lang) (BinaryFilename lang)).

(** The program of a workspace was run on this input and ended like this. *)
Definition program_ran (lang : LanguageHandler) (dir input : string) (c : completion)
    : list (event osE) -> Prop :=
  runs_to_end (fun cmd => cmd_Stdin cmd = stdin_reader input /\
                          runs_program lang dir (cmd_Path cmd :: cmd_Args cmd)) c.

(** Its source was compiled, and the compiler ended with this exit code. *)
Definition compiler_ran (lang : LanguageHandler) (dir : string) (code : Z)
    (tr : list (event osE)) : Prop :=
  exists c, exit_code (c_err c) = code /\
    runs_to_end (fun cmd => compiles lang dir (cmd_Path cmd :: cmd_Args cmd)) c tr.

(** The two outputs of a result are those of a process, cut at the cap. *)
Definition output_of (req : ExecutionRequest) (c : completion) (res : ExecutionResult) : Prop :=
  res_Stdout res = BoundedBuffer.String (captured req (c_stdout c)) /\
  res_Stderr res = BoundedBuffer.String (captured req (c_stderr c)).

(** The files of a context lie in its workspace. *)
Definition placed (sCtx : SandboxContext) : Prop :=
  sc_SourcePath sCtx = Join [sc_WorkingDir sCtx; SourceFilename (sc_Language sCtx)] /\
  sc_BinaryPath sCtx = Join [sc_WorkingDir sCtx; BinaryFilename (sc_Language sCtx)].

(** A workspace that was set up for a request: made, filled with exactly the
    request's code, and with nothing removed on the way. *)
Record prepared (req : ExecutionRequest) (lang : LanguageHandler) (sCtx : SandboxContext)
    (tr : list (event osE)) : Prop := {
  pr_id : sc_ID sCtx = ID req;
  pr_request : sc_Request sCtx = req;
  pr_language : sc_Language sCtx = lang;
  pr_placed : placed sCtx;
  pr_kept : no_remove tr;
  pr_dir : made_dir (sc_WorkingDir sCtx) tr;
  pr_source : wrote (Join [sc_WorkingDir sCtx; SourceFilename lang]) (Code req) tr;
}.

Definition verdicts_of_a_run : list Verdict :=
  [VerdictAccepted; VerdictWrongAnswer; VerdictTimeLimitExceeded; VerdictMemoryLimitExceeded;
   VerdictRuntimeError; VerdictOutputLimitExceeded].

(** A result of [Execute] for a context. The last field is the soundness of
    the ACCEPTED verdict. *)
Record result_ok (name : string) (sCtx : SandboxContext) (res : ExecutionResult) : Prop := {
  ro_id : res_ID res = sc_ID sCtx;
  ro_backend : res_SandboxBackend res = name;
  ro_verdict : res_Verdict res ∈ verdicts_of_a_run;
  ro_no_compilation : res_Compilation res = None;
  ro_stdout : (len (to_bytes (res_Stdout res))
               <= BoundedBuffer.cap (MaxOutputBytes (sc_Request sCtx)))%Z;
  ro_stderr : (len (to_bytes (res_Stderr res))
               <= BoundedBuffer.cap (MaxOutputBytes (sc_Request sCtx)))%Z;
  ro_accepted : res_Verdict res = VerdictAccepted ->
    res_ExitCode res = 0%Z /\
    flt (of_Z (TimeLimitMs (sc_Request sCtx))) (res_WallTimeMs res) = false /\
    res_OOMKilled res = false /\
    (ExpectedOutput (sc_Request sCtx) = "" \/
     output_matches (res_Stdout res) (ExpectedOutput (sc_Request sCtx)) = true);
}.

Class SandboxSpec (sb : Sandbox) : Prop := {
  (** [Prepare] starts no process and never panics; on success the context
      describes the request and its workspace has been set up. *)
  spec_prepare req lang :
    wp (sb_Prepare sb req lang) (fun tr o => idle tr /\
      exists r, o = Returned r /\ forall sCtx, r = inr sCtx -> prepared req lang sCtx tr) [];
  (** [Compile] never panics; there is a result whenever there is no error, it
      is successful exactly when its exit code is 0, and the exit code is that
      of the compiler, run on the source of the workspace. *)
  spec_compile sCtx :
    wp (sb_Compile sb sCtx) (fun tr o => no_remove tr /\
      exists r err, o = Returned (r, err) /\
      (err = None -> is_Some r) /\
      forall c, r = Some c -> comp_Success c = bool_decide (comp_ExitCode c = 0%Z) /\
        (NeedsCompilation (sc_Language sCtx) = true -> placed sCtx ->
         compiler_ran (sc_Language sCtx) (sc_WorkingDir sCtx) (comp_ExitCode c) tr)) [];
  spec_execute sCtx :
    wp (sb_Execute sb sCtx) (fun _ o =>
      (exists res, o = Returned (Some res, None) /\ result_ok (sb_Name sb) sCtx res) \/
      (exists err, o = Returned (None, Some err))) [];
  (** A result comes from running the program of the workspace on the request's
      input, and reports what that run printed. *)
  spec_execute_ran sCtx :
    wp (sb_Execute sb sCtx) (fun tr o => forall res, o = Returned (Some res, None) ->
      placed sCtx -> exists c,
        program_ran (sc_Language sCtx) (sc_WorkingDir sCtx) (Stdin (sc_Request sCtx)) c tr /\
        output_of (sc_Request sCtx) c res) [];
  spec_execute_kept sCtx : wp (sb_Execute sb sCtx) (fun tr _ => no_remove tr) [];
  (** [Cleanup] removes the workspace and starts nothing. *)
  spec_cleanup sCtx :
    wp (sb_Cleanup sb sCtx) (fun tr o =>
      (exists r, o = Returned r) /\ removes (sc_WorkingDir sCtx) tr /\ idle tr) [];
  (** The only temporary directory a backend makes is the workspace of the
      context it returns; one that fails to prepare removes it. *)
  spec_prepare_temp req lang :
    wp (sb_Prepare sb req lang) (fun tr o =>
      match o with
      | Returned (inr sCtx) => forall d, made_temp d tr -> d = sc_WorkingDir sCtx
      | _ => forall d, made_temp d tr -> removes d tr
      end) [];
  spec_available_temp : wp (sb_IsAvailable sb) (fun tr _ => no_temp tr) [];
  spec_compile_temp sCtx : wp (sb_Compile sb sCtx) (fun tr _ => no_temp tr) [];
  spec_execute_temp sCtx : wp (sb_Execute sb sCtx) (fun tr _ => no_temp tr) [];
  spec_cleanup_temp sCtx : wp (sb_Cleanup sb sCtx) (fun tr _ => no_temp tr) [];
}.

(** ** Lemmas the backends share *)

(** A compiler is not taken for the program it makes. *)
Lemma compiler_is_no_program dir line :
  compiles CppHandler dir line -> ~ runs_program CppHandler dir line.
Proof.
  intros Hc Hr. inversion Hc as [Hl|o1 i1 Hl]; inversion Hr as [Hl'|o2 i2 Hl']; subst; try done.
  set (mw := [_; _; _; _; i1]) in Hl'. set (mr := [_; _; _; _; i2]) in Hl'.
  change (compile_line CppHandler _ _) with
    (["g++"; "-O3"; "-std=c++17"; "-Wall"; "-Wextra"; "-DONLINE_JUDGE"; "-pipe"; "solution.cpp"; "-o"]
       ++ ["solution"]) in Hl'.
  change ((["docker"; "run"] ++ o2 ++ mr ++ ["/workspace/solution"])
          = ["docker"; "run"] ++ o1 ++ mw ++ (["g++"; "-O3"; "-std=c++17"; "-Wall"; "-Wextra";
              "-DONLINE_JUDGE"; "-pipe"; "solution.cpp"; "-o"] ++ ["solution"])) in Hl'.
  rewrite !app_assoc in Hl'. by apply app_inj_tail in Hl' as [_ [=]].
Qed.

(** The two backends whose commands name the files of the workspace. *)
Lemma placed_target sCtx :
  placed sCtx ->
  (if NeedsCompilation (sc_Language sCtx) then sc_BinaryPath sCtx else sc_SourcePath sCtx)
  = Join [sc_WorkingDir sCtx; program_file (sc_Language sCtx)].
Proof. intros [Hs Hb]. unfold program_file. by destruct (NeedsCompilation _). Qed.

Lemma ran_directly lang dir path args :
  RunCommand lang (Join [dir; program_file lang]) = (path, args) -> runs_program lang dir (path :: args).
Proof. intros H. pose proof (runs_directly lang dir) as Hr. unfold run_line in Hr. by rewrite H in Hr. Qed.

Lemma compiled_directly lang dir path args :
  CompileCommand lang (Join [dir; SourceFilename lang]) (Join [dir; BinaryFilename lang]) = (path, args) ->
  compiles lang dir (path :: args).
Proof. intros H. pose proof (compiles_directly lang dir) as Hr. unfold compile_line in Hr. by rewrite H in Hr. Qed.

Lemma captured_bound req chunks :
  (len (to_bytes (BoundedBuffer.String (captured req chunks)))
   <= BoundedBuffer.cap (MaxOutputBytes req))%Z.
Proof.
  unfold captured, BoundedBuffer.String. rewrite to_of_bytes.
  pose proof (BoundedBuffer.WriteAll_wf chunks _
    (BoundedBuffer.NewBoundedBuffer_wf (MaxOutputBytes req))) as [_ H _].
  by rewrite BoundedBuffer.WriteAll_cap, BoundedBuffer.New_cap in H.
Qed.

Lemma flt_fle x y : flt x y = true -> fle x y = true.
Proof. unfold flt, fle, SpecFloat.SFltb, SpecFloat.SFleb. by repeat case_match. Qed.

#[export] Hint Resolve captured_bound flt_fle : go.

Lemma output_matches_refl s : output_matches s s = true.
Proof. by apply bool_decide_eq_true. Qed.

Lemma compilation_of_ok req t0 t1 c :
  comp_Success (compilation_of req t0 t1 c)
  = bool_decide (comp_ExitCode (compilation_of req t0 t1 c) = 0%Z).
Proof. done. Qed.

#[export] Hint Resolve compilation_of_ok : go.

(** The verdict of the first rule that applies: the abstract form of a
    backend's if-chain. *)
Fixpoint first_rule (rules : list (bool * Verdict)) (default : Verdict) : Verdict :=
  match rules with
  | [] => default
  | (b, v) :: rules => if b then v else first_rule rules default
  end.

(** What the output rules say of the raw output of a process. *)
Definition over_cap (req : ExecutionRequest) (chunks : list bytes) : bool :=
  bool_decide (BoundedBuffer.cap (MaxOutputBytes req) < len (concat chunks))%Z.

Definition wrong_output (req : ExecutionRequest) (chunks : list bytes) : bool :=
  negb (bool_decide (ExpectedOutput req = "")) &&
  negb (output_matches (of_bytes (concat chunks)) (ExpectedOutput req)).

Abbreviation nonempty_chunks := (Forall (fun p : bytes => p <> [])).

Lemma captured_exceeded req chunks :
  nonempty_chunks chunks ->
  BoundedBuffer.Exceeded (captured req chunks) = over_cap req chunks.
Proof.
  intros Hne. destruct (BoundedBuffer.WriteAll_represents chunks Hne _ []
    (BoundedBuffer.New_represents (MaxOutputBytes req))) as (_ & He & _).
  by rewrite BoundedBuffer.WriteAll_cap, BoundedBuffer.New_cap in He.
Qed.

(** Below the cap nothing is lost. *)
Lemma captured_whole req chunks :
  nonempty_chunks chunks -> over_cap req chunks = false ->
  BoundedBuffer.String (captured req chunks) = of_bytes (concat chunks).
Proof.
  intros Hne Ho%bool_decide_eq_false.
  destruct (BoundedBuffer.WriteAll_represents chunks Hne _ []
    (BoundedBuffer.New_represents (MaxOutputBytes req))) as (Hb & _ & _).
  rewrite BoundedBuffer.WriteAll_cap, BoundedBuffer.New_cap in Hb. cbn in Hb.
  unfold captured, BoundedBuffer.String. rewrite Hb, take_ge; [done|].
  unfold len in Ho. lia.
Qed.

(** ** Properties *)

(** Two outputs are considered equal exactly when they are one string followed
    by carriage returns and newlines; so a program may end its output with any
    line ending, or none, and nothing else is forgiven. *)
Theorem output_matches_spec (stdout expected : string) :
  output_matches stdout expected = true <->
  exists c t1 t2,
    to_bytes stdout = c ++ t1 /\ to_bytes expected = c ++ t2 /\
    Forall (fun x => x = carriage_return \/ x = newline) t1 /\
    Forall (fun x => x = carriage_return \/ x = newline) t2.
Proof.
  unfold output_matches. rewrite bool_decide_eq_true, TrimRight_eq_iff.
  assert (Hcut : forall x, in_cutset crlf x = true <-> x = carriage_return \/ x = newline).
  { intros x. unfold in_cutset, crlf. rewrite bool_decide_eq_true, to_of_bytes. set_solver. }
  by setoid_rewrite Hcut.
Qed.
