(* ===== verification/NativeSandbox.v ===== *)
(** * The cgroup v2 backend (pkg/sandbox/native_linux.go, native_fallback.go)

    One definition per method, the system calls in the order the code makes
    them.  [native_verdict] is the if-chain of [Execute]; [parse_memory_events]
    and [parse_cpu_stat] are the loops over the two cgroup files. *)

From S2P Require Import Prelude GoStrings GoFloat Go OS Models Languages FilePath Affinity.
From S2P Require Import Watchdog Sandbox.

Definition CgroupV2Root : string := "/sys/fs/cgroup".
Definition CgroupBaseSlice : string := "/sys/fs/cgroup/speedcode".
Definition EphemeralWorkspace : string := "/tmp/speedcode".
Definition DefaultSandboxUID : Z := 1001.
Definition DefaultSandboxGID : Z := 1001.

Definition CGROUP2_SUPER_MAGIC : Z := 1667723888. (* 0x63677270 *)
Definition SIGKILL : Z := 9.
Definition CLONE_NEWUTS : Z := 67108864.
Definition CLONE_NEWIPC : Z := 134217728.
Definition CLONE_NEWNET : Z := 1073741824.

Definition NativeName : string := "native_cgroupv2".

Definition uint32 (z : Z) : Z := z `mod` 2 ^ 32.

Definition native_IsAvailable : prog osE bool :=
  stat ← call (Statfs CgroupV2Root);
  match (stat : error + Z) with
  | inl _ => mret false
  | inr type =>
      euid ← call Geteuid;
      let isCgroupV2 := bool_decide (uint32 type = CGROUP2_SUPER_MAGIC) in
      let isRoot := bool_decide (euid = 0%Z) in
      mret (isCgroupV2 && isRoot)
  end.

(** [req.MemoryLimitMB * 1024 * 1024] *)
Definition memory_limit_bytes (req : ExecutionRequest) : Z :=
  int64 (int64 (MemoryLimitMB req * 1024) * 1024).

(** [fmt.Sprintf("%d %d\n", quotaUs, periodUs)] *)
Definition cpu_max_line (req : ExecutionRequest) : string :=
  let periodUs := 100000%Z in
  let quotaUs := int64_of_float (CpuQuota req * of_Z periodUs)%float in
  Itoa quotaUs +:+ " " +:+ Itoa periodUs +:+ nl.

Definition controllers : string := "+cpu +memory +pids" +:+ nl.

Definition setupCgroupHierarchy (cgroupPath : string) (req : ExecutionRequest)
    : prog osE (option error) :=
  err ← call (MkdirAll CgroupBaseSlice 493);
  match (err : option error) with
  | Some err => mret (Some (wrapf "failed to create base cgroup slice: " err))
  | None =>
  _ ← call (WriteFile (Join [CgroupV2Root; "cgroup.subtree_control"]) controllers 420);
  _ ← call (WriteFile (Join [CgroupBaseSlice; "cgroup.subtree_control"]) controllers 420);
  err ← call (MkdirAll cgroupPath 493);
  match (err : option error) with
  | Some err => mret (Some (wrapf "failed to create job cgroup slice: " err))
  | None =>
  err ← call (WriteFile (Join [cgroupPath; "memory.max"]) (Itoa (memory_limit_bytes req) +:+ nl) 420);
  match (err : option error) with
  | Some err => mret (Some (wrapf "failed to set memory.max: " err))
  | None =>
  err ← call (WriteFile (Join [cgroupPath; "cpu.max"]) (cpu_max_line req) 420);
  match (err : option error) with
  | Some err => mret (Some (wrapf "failed to set cpu.max: " err))
  | None =>
  err ← call (WriteFile (Join [cgroupPath; "pids.max"]) (Itoa (PidsLimit req) +:+ nl) 420);
  match (err : option error) with
  | Some err => mret (Some (wrapf "failed to set pids.max: " err))
  | None => mret None
  end end end end end.

Definition native_Cleanup (sCtx : SandboxContext) : prog osE (option error) :=
  let killPath := Join [sc_CgroupPath sCtx; "cgroup.kill"] in
  err ← call (Stat killPath);
  _ ← (match (err : option error) with
       | None => _ ← call (WriteFile killPath ("1" +:+ nl) 420); mret tt
       | Some _ => mret tt
       end);
  _ ← call (Remove (sc_CgroupPath sCtx));
  _ ← call (RemoveAll (sc_WorkingDir sCtx));
  mret None.

Definition native_context (req : ExecutionRequest) (lang : LanguageHandler) (now : time)
    : SandboxContext :=
  let workDir := Join [EphemeralWorkspace; ID req] in
  {| sc_ID := ID req;
     sc_Request := req;
     sc_Language := lang;
     sc_WorkingDir := workDir;
     sc_SourcePath := Join [workDir; SourceFilename lang];
     sc_BinaryPath := Join [workDir; BinaryFilename lang];
     sc_CgroupPath := Join [CgroupBaseSlice; ID req];
     sc_CreatedAt := now |}.

Definition native_Prepare (req : ExecutionRequest) (lang : LanguageHandler)
    : prog osE (error + SandboxContext) :=
  now ← call TimeNow;
  let sCtx := native_context req lang now in
  err ← WriteSourceFile sCtx;
  match err with
  | Some err => mret (inl err)
  | None =>
  _ ← call (Chown (sc_WorkingDir sCtx) DefaultSandboxUID DefaultSandboxGID);
  _ ← call (Chmod (sc_WorkingDir sCtx) 493);
  err ← setupCgroupHierarchy (sc_CgroupPath sCtx) req;
  match err with
  | Some err =>
      _ ← native_Cleanup sCtx;
      mret (inl (wrapf "cgroup v2 initialization failed: " err))
  | None => mret (inr sCtx)
  end end.

Definition native_Compile (sCtx : SandboxContext)
    : prog osE (option CompilationResult * option error) :=
  if negb (NeedsCompilation (sc_Language sCtx)) then
    mret (Some {| comp_Success := true; comp_ExitCode := 0; comp_Stdout := "";
                  comp_Stderr := ""; comp_TimeMs := f0 |}, None)
  else
  let '(cmdName, cmdArgs) :=
    CompileCommand (sc_Language sCtx) (sc_SourcePath sCtx) (sc_BinaryPath sCtx) in
  start ← call TimeNow;
  c ← call (RunCmd {| cmd_Path := cmdName; cmd_Args := cmdArgs;
                      cmd_Dir := sc_WorkingDir sCtx; cmd_Stdin := None;
                      cmd_Timeout := Some (10 * Second)%Z; cmd_SysProcAttr := None |});
  now ← call TimeNow;
  mret (Some (compilation_of (sc_Request sCtx) start now c), None).

(** ** Reading the cgroup's figures *)

Definition memory_event (oomKilled : bool) (line : string) : bool :=
  match Fields line with
  | k :: v :: _ =>
      if (bool_decide (k = "oom") || bool_decide (k = "oom_kill")) && negb (bool_decide (v = "0"))
      then true else oomKilled
  | _ => oomKilled
  end.

Definition parse_memory_events (content : string) : bool :=
  fold_left memory_event (ScanLines content) false.

Definition readCgroupMemoryStats (cgroupPath : string) : prog osE (Z * bool) :=
  data ← call (ReadFile (Join [cgroupPath; "memory.peak"]));
  let peakBytes := match (data : error + string) with
                   | inr data => ParseInt (TrimSpace data)
                   | inl _ => 0%Z
                   end in
  file ← call (OpenScan (Join [cgroupPath; "memory.events"]));
  let oomKilled := match (file : error + string) with
                   | inr content => parse_memory_events content
                   | inl _ => false
                   end in
  mret (peakBytes, oomKilled).

Fixpoint parse_cpu_stat (lines : list string) : float64 :=
  match lines with
  | [] => f0
  | line :: lines =>
      match Fields line with
      | k :: v :: _ => if bool_decide (k = "usage_usec")
                       then (of_Z (ParseInt v) / of_Z 1000)%float
                       else parse_cpu_stat lines
      | _ => parse_cpu_stat lines
      end
  end.

Definition readCgroupCpuStats (cgroupPath : string) : prog osE float64 :=
  file ← call (OpenScan (Join [cgroupPath; "cpu.stat"]));
  match (file : error + string) with
  | inl _ => mret f0
  | inr content => mret (parse_cpu_stat (ScanLines content))
  end.

Definition rusage_ms (r : rusage) : float64 :=
  ((of_Z (Utime_Sec r) * of_Z 1000 + of_Z (Utime_Usec r) / of_Z 1000)
   + (of_Z (Stime_Sec r) * of_Z 1000 + of_Z (Stime_Usec r) / of_Z 1000))%float.

(** ** Execute *)

Definition native_verdict (req : ExecutionRequest) (timedOut : bool) (wallDuration : float64)
    (oomKilled : bool) (peakMemoryBytes : Z) (stdoutBuf stderrBuf : BoundedBuffer.t)
    (exitCode : Z) : Verdict :=
  if timedOut || flt (of_Z (TimeLimitMs req)) wallDuration then VerdictTimeLimitExceeded
  else if oomKilled || bool_decide (memory_limit_bytes req < peakMemoryBytes)%Z
  then VerdictMemoryLimitExceeded
  else if BoundedBuffer.Exceeded stdoutBuf || BoundedBuffer.Exceeded stderrBuf
  then VerdictOutputLimitExceeded
  else if bool_decide (exitCode <> 0%Z) then VerdictRuntimeError
  else if negb (bool_decide (ExpectedOutput req = "")) then
    if negb (output_matches (BoundedBuffer.String stdoutBuf) (ExpectedOutput req))
    then VerdictWrongAnswer else VerdictAccepted
  else VerdictAccepted.

Definition sandbox_credentials : SysProcAttr :=
  {| Setpgid := true;
     Uid := uint32 DefaultSandboxUID;
     Gid := uint32 DefaultSandboxGID;
     Pdeathsig := SIGKILL;
     Cloneflags := Z.lor (Z.lor CLONE_NEWNET CLONE_NEWIPC) CLONE_NEWUTS |}.

Definition run_target (sCtx : SandboxContext) : string :=
  if NeedsCompilation (sc_Language sCtx) then sc_BinaryPath sCtx else sc_SourcePath sCtx.

(** The wait for the process: it ends, or the deadline passes first and the
    process group is killed and reaped. *)
Definition native_wait (pid timeout : Z) : prog osE (bool * completion) :=
  w ← call (WaitOrTimeout pid timeout);
  match (w : option completion) with
  | Some c => mret (false, c)
  | None =>
      _ ← call (KillGroup pid);
      _ ← call (KillProcess pid);
      c ← call (WaitCmd pid);
      mret (true, c)
  end.

Definition native_Execute (sCtx : SandboxContext)
    : prog osE (option ExecutionResult * option error) :=
  let req := sc_Request sCtx in
  let '(cmdName, cmdArgs) := RunCommand (sc_Language sCtx) (run_target sCtx) in
  wallStart ← call TimeNow;
  started ← call (StartCmd {| cmd_Path := cmdName; cmd_Args := cmdArgs;
                              cmd_Dir := sc_WorkingDir sCtx; cmd_Stdin := stdin_of req;
                              cmd_Timeout := None;
                              cmd_SysProcAttr := Some sandbox_credentials |});
  match (started : error + Z) with
  | inl err => mret (None, Some (wrapf "failed to start process: " err))
  | inr pid =>
  let procsFile := Join [sc_CgroupPath sCtx; "cgroup.procs"] in
  err ← call (WriteFile procsFile (Itoa pid +:+ nl) 420);
  match (err : option error) with
  | Some err =>
      _ ← call (KillProcess pid);
      mret (None, Some (wrapf "failed to attach process to cgroup: " err))
  | None =>
  targetCore ← call AllocCore;
  _ ← PinProcessToCore pid targetCore;
  '(timedOut, c) ← native_wait pid (TimeoutDuration req);
  wallEnd ← call TimeNow;
  let wallDuration := elapsed_ms wallStart wallEnd in
  '(peakMemoryBytes, oomKilled) ← readCgroupMemoryStats (sc_CgroupPath sCtx);
  cgroupCpu ← readCgroupCpuStats (sc_CgroupPath sCtx);
  let cpuTimeMs := if feq cgroupCpu f0
                   then match c_rusage c with
                        | Some r => rusage_ms r
                        | None => cgroupCpu
                        end
                   else cgroupCpu in
  let stdoutBuf := captured req (c_stdout c) in
  let stderrBuf := captured req (c_stderr c) in
  let exitCode := exit_code (c_err c) in
  now ← call TimeNow;
  mret (Some {| res_ID := sc_ID sCtx;
                res_Verdict := native_verdict req timedOut wallDuration oomKilled
                                 peakMemoryBytes stdoutBuf stderrBuf exitCode;
                res_ExitCode := exitCode;
                res_Stdout := BoundedBuffer.String stdoutBuf;
                res_Stderr := BoundedBuffer.String stderrBuf;
                res_WallTimeMs := wallDuration;
                res_CpuTimeMs := cpuTimeMs;
                res_PeakMemoryKB := Z.quot peakMemoryBytes 1024;
                res_PeakMemoryMB := (of_Z peakMemoryBytes / of_Z 1048576)%float;
                res_OOMKilled := oomKilled;
                res_Compilation := None;
                res_ErrorDetails := "";
                res_SandboxBackend := NativeName;
                res_ExecutedAt := now |}, None)
  end end.

Definition NativeCgroupV2Sandbox : Sandbox :=
  {| sb_Name := NativeName;
     sb_IsAvailable := native_IsAvailable;
     sb_Prepare := native_Prepare;
     sb_Compile := native_Compile;
     sb_Execute := native_Execute;
     sb_Cleanup := native_Cleanup |}.

(** ** The stub of the other platforms (native_fallback.go) *)

Definition unsupported_platform : error :=
  errors_New "native cgroup v2 sandbox is only supported on Linux hosts".

Definition NativeFallbackSandbox : Sandbox :=
  {| sb_Name := NativeName;
     sb_IsAvailable := mret false;
     sb_Prepare := fun _ _ => mret (inl unsupported_platform);
     sb_Compile := fun _ => mret (None, Some unsupported_platform);
     sb_Execute := fun _ => mret (None, Some unsupported_platform);
     sb_Cleanup := fun _ => mret None |}.

(** ** Lemmas *)

Lemma native_Cleanup_spec sCtx :
  wp (native_Cleanup sCtx) (fun tr o =>
    o = Returned None /\ removes (sc_WorkingDir sCtx) tr /\ idle tr) [].
Proof. unfold native_Cleanup. wp_run; (split; [done|split; [observe|harmless]]). Qed.

Lemma PinProcessToCore_returns pid core :
  wp (PinProcessToCore pid core) (fun _ o => exists r, o = Returned r) [].
Proof. unfold PinProcessToCore, taskset_fallback. wp_run; eauto. Qed.

Lemma readCgroupMemoryStats_returns path :
  wp (readCgroupMemoryStats path) (fun _ o => exists r, o = Returned r) [].
Proof. unfold readCgroupMemoryStats. wp_run; eauto. Qed.

Lemma readCgroupCpuStats_returns path :
  wp (readCgroupCpuStats path) (fun _ o => exists r, o = Returned r) [].
Proof. unfold readCgroupCpuStats. wp_run; eauto. Qed.

(** What an ACCEPTED verdict of the if-chain rules out. *)
Lemma native_verdict_accepted req timedOut wall oom peak ob eb code :
  native_verdict req timedOut wall oom peak ob eb code = VerdictAccepted <->
  timedOut = false /\ flt (of_Z (TimeLimitMs req)) wall = false /\
  oom = false /\ (peak <= memory_limit_bytes req)%Z /\
  BoundedBuffer.Exceeded ob = false /\ BoundedBuffer.Exceeded eb = false /\
  code = 0%Z /\
  (ExpectedOutput req = "" \/
   output_matches (BoundedBuffer.String ob) (ExpectedOutput req) = true).
Proof.
  unfold native_verdict. split.
  - intros H.
    destruct (timedOut || _) eqn:E1; [done|]. apply orb_false_iff in E1 as [E1 E1'].
    destruct (oom || _) eqn:E2; [done|]. apply orb_false_iff in E2 as [E2 E2'%bool_decide_eq_false].
    destruct (_ || _) eqn:E3; [done|]. apply orb_false_iff in E3 as [E3 E3'].
    case_bool_decide as E4; [done|].
    split_and!; try done; [lia|]. case_bool_decide; [by left|right].
    cbn in H. by destruct (output_matches _ _).
  - intros (-> & -> & -> & Hp & -> & -> & -> & Ho). cbn [orb].
    rewrite !bool_decide_eq_false_2 by (lia || done).
    case_bool_decide; cbn; [done|]. by destruct Ho as [?| ->].
Qed.

Lemma native_verdict_range req timedOut wall oom peak ob eb code :
  native_verdict req timedOut wall oom peak ob eb code ∈ verdicts_of_a_run.
Proof. unfold native_verdict, verdicts_of_a_run. repeat case_match; set_solver. Qed.

Lemma native_Prepare_ok req lang :
  wp (native_Prepare req lang) (fun tr o => idle tr /\
    exists r, o = Returned r /\ forall sCtx, r = inr sCtx -> prepared req lang sCtx tr) [].
Proof.
  unfold native_Prepare, WriteSourceFile, setupCgroupHierarchy, native_Cleanup.
  wp_run; (split; [harmless|]); eexists; (split; [done|]); intros ? [=]; subst.
  split; try done; [harmless|observe|observe].
Qed.

Lemma native_Compile_ok sCtx :
  wp (native_Compile sCtx) (fun tr o => no_remove tr /\
    exists r err, o = Returned (r, err) /\ (err = None -> is_Some r) /\
    forall c, r = Some c -> comp_Success c = bool_decide (comp_ExitCode c = 0%Z) /\
      (NeedsCompilation (sc_Language sCtx) = true -> placed sCtx ->
       compiler_ran (sc_Language sCtx) (sc_WorkingDir sCtx) (comp_ExitCode c) tr)) [].
Proof.
  unfold native_Compile. destruct (NeedsCompilation _) eqn:Hn; cbn [negb].
  2:{ wp_run. split; [constructor|]. eexists _, _. split_and!; [done..|]. by intros ? [= <-]. }
  destruct (CompileCommand _ _ _) as [path args] eqn:Hc. wp_run. split; [harmless|].
  eexists _, _. split_and!; [done..|]. intros ? [= <-]. split; [done|]. intros _ [Hs Hb].
  rewrite Hs, Hb in Hc. eexists. split; [done|]. left. pose proof (compiled_directly _ _ _ _ Hc). in_order.
Qed.

Lemma native_Execute_ok sCtx :
  wp (native_Execute sCtx) (fun _ o =>
    (exists res, o = Returned (Some res, None) /\ result_ok NativeName sCtx res) \/
    (exists err, o = Returned (None, Some err))) [].
Proof.
  unfold native_Execute. destruct (RunCommand _ _) as [cmdName cmdArgs].
  repeat wp_step. case_match; [wp_run; eauto|].
  repeat wp_step. case_match; [wp_run; eauto|].
  repeat wp_step. eapply wp_use; [apply PinProcessToCore_returns|].
  intros ? ? [? ->]. repeat wp_step.
  eapply wp_mono with (Q := fun _ o => exists t c, o = Returned (t, c)).
  { unfold native_wait. wp_run; eauto. }
  intros ? ? (timedOut & c & ->). repeat wp_step.
  eapply wp_use; [apply readCgroupMemoryStats_returns|]. intros ? ? [[peak oom] ->].
  repeat wp_step. eapply wp_use; [apply readCgroupCpuStats_returns|]. intros ? ? [cpu ->].
  wp_run. left. eexists. split; [done|].
  split; cbn; auto using native_verdict_range with go.
  intros (-> & Hw & -> & _ & _ & _ & Hc & Ho)%native_verdict_accepted. auto.
Qed.

Lemma native_Execute_no_temp sCtx :
  wp (native_Execute sCtx) (fun tr _ => no_temp tr) [].
Proof.
  unfold native_Execute, native_wait, PinProcessToCore, taskset_fallback,
    readCgroupMemoryStats, readCgroupCpuStats.
  destruct (RunCommand _ _) as [cmdName cmdArgs]. wp_run; no_temp.
Qed.

Lemma native_Execute_ran sCtx :
  wp (native_Execute sCtx) (fun tr o => forall res, o = Returned (Some res, None) ->
    placed sCtx -> exists c,
      program_ran (sc_Language sCtx) (sc_WorkingDir sCtx) (Stdin (sc_Request sCtx)) c tr /\
      output_of (sc_Request sCtx) c res) [].
Proof.
  unfold native_Execute, native_wait, PinProcessToCore, taskset_fallback,
    readCgroupMemoryStats, readCgroupCpuStats.
  destruct (RunCommand _ _) as [path args] eqn:Hr.
  assert (Hp : placed sCtx -> runs_program (sc_Language sCtx) (sc_WorkingDir sCtx) (path :: args)).
  { intros Hpl. unfold run_target in Hr. rewrite placed_target in Hr by done. by apply ran_directly. }
  wp_run; intros res [= <-] Hpl; eexists; (split; [|by split]); specialize (Hp Hpl); right;
    eexists; in_order.
Qed.

Lemma native_Execute_kept sCtx : wp (native_Execute sCtx) (fun tr _ => no_remove tr) [].
Proof.
  apply every_wp. unfold native_Execute, native_wait, PinProcessToCore, taskset_fallback,
    readCgroupMemoryStats, readCgroupCpuStats. every_run.
Qed.

(** The contract of the backend. *)
#[export] Instance native_spec : SandboxSpec NativeCgroupV2Sandbox.
Proof.
  split; intros.
  - apply native_Prepare_ok.
  - apply native_Compile_ok.
  - apply native_Execute_ok.
  - apply native_Execute_ran.
  - apply native_Execute_kept.
  - eapply wp_mono; [apply native_Cleanup_spec|]. intros tr o (-> & ? & ?). eauto.
  - cbn [sb_Prepare NativeCgroupV2Sandbox]. unfold native_Prepare, WriteSourceFile, setupCgroupHierarchy, native_Cleanup.
    wp_run; intros d Hm; by observe_in Hm.
  - cbn [sb_IsAvailable NativeCgroupV2Sandbox]. unfold native_IsAvailable. wp_run; no_temp.
  - cbn. unfold native_Compile. case_match; [|destruct (CompileCommand _ _ _)]; wp_run; no_temp.
  - apply native_Execute_no_temp.
  - cbn [sb_Cleanup NativeCgroupV2Sandbox]. unfold native_Cleanup. wp_run; no_temp.
Qed.

Lemma memory_limit_bytes_normalized req :
  normalized req -> memory_limit_bytes req = (MemoryLimitMB req * 2 ^ 20)%Z.
Proof.
  intros [_ _ Hm _ _ _ _]. unfold memory_limit_bytes, MaxAllowedMemoryMB in *.
  rewrite (int64_id (MemoryLimitMB req * 1024)) by (unfold in_int64, int64_min, int64_max; lia).
  rewrite int64_id by (unfold in_int64, int64_min, int64_max; lia). lia.
Qed.

(** ** Properties *)

(** The rules of the backend, in its order of priority. *)
Definition native_rules (req : ExecutionRequest) (timedOut : bool) (wall : float64)
    (oom : bool) (peak : Z) (out err : list bytes) (code : Z) : list (bool * Verdict) :=
  [(timedOut || flt (of_Z (TimeLimitMs req)) wall, VerdictTimeLimitExceeded);
   (oom || bool_decide (MemoryLimitMB req * 2 ^ 20 < peak)%Z, VerdictMemoryLimitExceeded);
   (over_cap req out || over_cap req err, VerdictOutputLimitExceeded);
   (negb (bool_decide (code = 0%Z)), VerdictRuntimeError);
   (wrong_output req out, VerdictWrongAnswer)].

(** C6: the verdict of the cgroup backend for a normalized request is the first
    rule that applies, in the order time, memory, output size, exit code,
    wrong answer, and ACCEPTED when none does; the rules speak of the
    process's whole output and of exact byte counts, so neither the truncating
    buffers nor the int64 arithmetic ever change a verdict. *)
Theorem native_verdict_rules (req : ExecutionRequest) (timedOut : bool) (wall : float64)
    (oom : bool) (peak : Z) (out err : list bytes) (code : Z)
    (Hn : normalized req) (Hout : nonempty_chunks out) (Herr : nonempty_chunks err) :
  native_verdict req timedOut wall oom peak (captured req out) (captured req err) code
  = first_rule (native_rules req timedOut wall oom peak out err code) VerdictAccepted.
Proof.
  unfold native_verdict, native_rules. cbn [first_rule].
  rewrite memory_limit_bytes_normalized, !captured_exceeded by done.
  repeat (case_match; [done|]). unfold wrong_output.
  destruct (over_cap req out) eqn:Ho; [done|].
  rewrite captured_whole by done. by repeat case_bool_decide; cbn; repeat case_match.
Qed.

Definition normal_sample : ExecutionRequest :=
  @normalize_with ascii_only "sub-1" sample_request.

Lemma native_verdict_rules_witness :
  native_verdict normal_sample false (of_Z 250) false 4096
    (captured normal_sample [to_bytes "1"; [newline]]) (captured normal_sample []) 0
  = VerdictAccepted.
Proof.
  refine (eq_trans (native_verdict_rules normal_sample false (of_Z 250) false 4096
    [to_bytes "1"; [newline]] [] 0 _ _ _) _).
  - apply (@normalize_with_normalized ascii_only). discriminate.
  - repeat constructor; discriminate.
  - constructor.
  - vm_compute. reflexivity.
Defined.

(** C31: preparing a job under the cgroup backend either fails with an error or
    leaves a workspace whose source file holds exactly the submitted code and
    a cgroup on which the limits of the request have all been written
    successfully: memory.max in bytes, cpu.max as the quota's share of a period
    of 100000 microseconds, and pids.max.  A failure after the code was written
    removes the workspace again; one before does not ([native_Prepare_leaks]
    below). *)
Theorem native_Prepare_enforces_limits (req : ExecutionRequest) (lang : LanguageHandler)
    (Hn : normalized req) :
  wp (native_Prepare req lang) (fun tr o => exists r, o = Returned r /\
    match r with
    | inr sCtx =>
        sc_CgroupPath sCtx = Join ["/sys/fs/cgroup/speedcode"; ID req] /\
        wrote (sc_SourcePath sCtx) (Code req) tr /\
        wrote (Join [sc_CgroupPath sCtx; "memory.max"])
              (Itoa (MemoryLimitMB req * 2 ^ 20) +:+ nl) tr /\
        wrote (Join [sc_CgroupPath sCtx; "cpu.max"])
              (Itoa (int64_of_float (CpuQuota req * of_Z 100000)%float) +:+ " 100000" +:+ nl) tr /\
        wrote (Join [sc_CgroupPath sCtx; "pids.max"]) (Itoa (PidsLimit req) +:+ nl) tr
    | inl _ => forall now, let sCtx := native_context req lang now in
        wrote (sc_SourcePath sCtx) (Code req) tr -> removes (sc_WorkingDir sCtx) tr
    end) [].
Proof.
  unfold native_Prepare, WriteSourceFile, setupCgroupHierarchy, native_Cleanup.
  rewrite memory_limit_bytes_normalized by done.
  wp_run; eexists; (split; [done|]); cbv beta iota zeta; try (split; [done|split_and!; observe]);
    intros now Hin; first [observe | observe_in Hin; by destruct Hin as (_ & _ & ?)].
Qed.

Lemma native_Prepare_enforces_limits_witness :
  wp (native_Prepare normal_sample PythonHandler) (fun tr o => forall sCtx,
    o = Returned (inr sCtx) ->
    wrote (Join [sc_CgroupPath sCtx; "memory.max"]) ("134217728" +:+ nl) tr) [].
Proof.
  eapply wp_mono; [apply (native_Prepare_enforces_limits normal_sample PythonHandler)|].
  - apply (@normalize_with_normalized ascii_only). discriminate.
  - intros tr o (r & -> & H) sCtx [= ->]. apply H.
Defined.

(** What a submitted program may not do on the host: it runs as user and group
    1001, in a process group of its own, is killed with its parent, and has
    new network, IPC and UTS namespaces (the bits 30, 27 and 26 of clone). *)
Record unprivileged (attr : SysProcAttr) : Prop := {
  up_uid : Uid attr = 1001%Z;
  up_gid : Gid attr = 1001%Z;
  up_group : Setpgid attr = true;
  up_death : Pdeathsig attr = 9%Z;
  up_namespaces : Forall (fun bit => Z.testbit (Cloneflags attr) bit = true) [30; 27; 26]%Z;
}.

Lemma credentials_unprivileged : unprivileged sandbox_credentials.
Proof. split; try reflexivity. repeat constructor. Qed.

(** C26: the process in which the cgroup backend runs a submitted program (its
    compiler and the taskset command are not meant) is unprivileged: user and
    group 1001, a process group of its own, fresh network, IPC and UTS
    namespaces.  After it was started it is, in this order, attached to the
    job's cgroup and waited for to its end; or, when it cannot be attached, it
    is killed and an error is reported.  When the request's time limit passes
    first, then after the limit its whole process group is killed, and after
    that the process is reaped, and the verdict is TIME_LIMIT_EXCEEDED. *)
Theorem native_Execute_supervises (sCtx : SandboxContext) :
  wp (native_Execute sCtx) (fun tr o => forall pid attr, started pid attr tr ->
    let attaches := writes (Join [sc_CgroupPath sCtx; "cgroup.procs"]) (Itoa pid +:+ nl) in
    (exists a, attr = Some a /\ unprivileged a) /\
    (in_order [starts pid attr; attaches; reaps pid] tr \/
     in_order [starts pid attr; kills pid] tr /\ exists err, o = Returned (None, Some err)) /\
    (timed_out pid (TimeoutDuration (sc_Request sCtx)) tr ->
     in_order [starts pid attr; attaches; times_out pid (TimeoutDuration (sc_Request sCtx));
               kills_group pid; reaps pid] tr /\
     exists res, o = Returned (Some res, None) /\ res_Verdict res = VerdictTimeLimitExceeded)) [].
Proof.
  unfold native_Execute, native_wait, PinProcessToCore, taskset_fallback,
    readCgroupMemoryStats, readCgroupCpuStats.
  destruct (RunCommand _ _) as [cmdName cmdArgs].
  wp_run; intros pid attr Hs; observe_in Hs; destruct Hs as [[= <-] <-]; cbv zeta;
    (split; [eexists; split; [done|apply credentials_unprivileged]|split]);
    try (left; in_order; done); try (right; split; [in_order; done|by eexists]);
    try (intros Ht; by observe_in Ht).
  all: intros _; split; [in_order; done|by eexists].
Qed.

(** For an ID that is one plain path component (as the generated "exec-" and
    "sub-" IDs are) the workspace and the cgroup of a job are its own
    directories right below /tmp/speedcode and /sys/fs/cgroup/speedcode, the
    source file and the binary lie right inside the workspace, and two
    different IDs never share a workspace or a cgroup. *)
Theorem native_workspace_confined (req : ExecutionRequest) (now : time)
    (Hid : plain_name (ID req)) :
  let sCtx := native_context req CppHandler now in
  sc_WorkingDir sCtx = EphemeralWorkspace +:+ "/" +:+ ID req /\
  sc_CgroupPath sCtx = CgroupBaseSlice +:+ "/" +:+ ID req /\
  sc_SourcePath sCtx = sc_WorkingDir sCtx +:+ "/solution.cpp" /\
  sc_BinaryPath sCtx = sc_WorkingDir sCtx +:+ "/solution" /\
  (forall req' now', plain_name (ID req') ->
     sc_WorkingDir (native_context req' CppHandler now') = sc_WorkingDir sCtx \/
     sc_CgroupPath (native_context req' CppHandler now') = sc_CgroupPath sCtx ->
     ID req' = ID req).
Proof.
  assert (Hw : forall r, plain_name (ID r) ->
    Join [EphemeralWorkspace; ID r] = EphemeralWorkspace +:+ "/" +:+ ID r).
  { intros r Hr. by apply Join_plain. }
  assert (Hg : forall r, plain_name (ID r) ->
    Join [CgroupBaseSlice; ID r] = CgroupBaseSlice +:+ "/" +:+ ID r).
  { intros r Hr. by apply Join_plain. }
  cbn -[Join String.append]. rewrite Hw, Hg by done.
  assert (Hsub : forall n, plain_name n ->
    Join [EphemeralWorkspace +:+ "/" +:+ ID req; n]
    = (EphemeralWorkspace +:+ "/" +:+ ID req) +:+ "/" +:+ n).
  { intros n Hnm.
    assert (Hc : Clean (EphemeralWorkspace +:+ "/" +:+ ID req)
                 = EphemeralWorkspace +:+ "/" +:+ ID req) by (by apply (Hw req)).
    rewrite (Join_plain _ n), Hc; [done|by apply HasPrefix_app_l|by rewrite Hc|done]. }
  rewrite !Hsub by (apply (bool_decide_unpack _); reflexivity).
  split_and!; try done. intros req' now' Hid'. rewrite Hw, Hg by done.
  intros [H|H]; by do 2 apply (inj _) in H.
Qed.

Definition named_request (id : string) : ExecutionRequest := @normalize_with ascii_only id sample_request.

Lemma native_workspace_confined_witness :
  sc_WorkingDir (native_context (named_request "sub-1b4e28ba-2fa") CppHandler 0)
  = "/tmp/speedcode/sub-1b4e28ba-2fa".
Proof.
  refine (proj1 (native_workspace_confined (named_request "sub-1b4e28ba-2fa") 0 _)).
  apply (bool_decide_unpack _). reflexivity.
Defined.

(** An ID that is not a plain component is not confined: with ".." the
    workspace, which [Cleanup] removes, is /tmp itself. *)
Example dotdot_escapes :
  sc_WorkingDir (native_context (named_request "..") CppHandler 0) = "/tmp" /\
  sc_CgroupPath (native_context (named_request "..") CppHandler 0) = "/sys/fs/cgroup".
Proof. split; reflexivity. Qed.

(** A failed source write: the directory has been made and nothing removes it. *)
Definition write_fails : env osE unit :=
  {| answer e s := (match e return resp e with
                    | TimeNow => 0%Z | NowFormat _ => "" | RandRead _ => None | Getenv _ => ""
                    | NumCPU => 1%Z | Geteuid => 0%Z | Statfs _ => inr 0%Z | Stat _ => None
                    | MkdirAll _ _ => None | MkdirTemp _ _ => inr "/tmp/t"
                    | WriteFile _ _ _ => Some (OtherError "no space left on device")
                    | ReadFile _ => inr "" | OpenScan _ => inr "" | Chown _ _ _ => None
                    | Chmod _ _ => None | Remove _ => None | RemoveAll _ => None
                    | RunCmd _ => Build_completion None [] [] None false
                    | StartCmd _ => inr 1%Z | WaitOrTimeout _ _ => None
                    | WaitCmd _ => Build_completion None [] [] None false
                    | KillProcess _ => tt | KillGroup _ => tt
                    | SchedSetaffinity _ _ => 0%Z | AllocCore => 0%Z
                    end, s) |}.

(** The cgroup backend leaks the workspace when the source file cannot be
    written: the run below fails after making the directory and performs no
    removal. *)
Theorem native_Prepare_leaks :
  let '(tr, o, _) := run write_fails (native_Prepare (named_request "sub-1") PythonHandler) tt in
  o = Returned (inl (wrapf "failed to write source code: "
                       (OtherError "no space left on device"))) /\
  made_dir "/tmp/speedcode/sub-1" tr /\ ~ removes "/tmp/speedcode/sub-1" tr.
Proof.
  vm_compute. split_and!; [done|right; by left|].
  intros H. repeat (inversion H as [? ? H'|? ? H']; clear H; subst; [done|rename H' into H]).
  inversion H.
Qed.
