(* ===== verification/DockerSandbox.v ===== *)
(** * The container backend (pkg/sandbox/docker.go)

    Every docker operation is a run of the docker command line; what "docker
    inspect" prints is decoded as the JSON of [containerInspectState]. *)

From S2P Require Import Prelude GoStrings GoFloat Go OS Models Languages FilePath Affinity.
From S2P Require Import Json JsonString JsonNumber JsonTime Codec Watchdog Sandbox.

(** [containerInspectState]: the exit code and the OOM flag of its [State]. *)
Definition inspect_state_codec : codec (Z * bool) :=
  struct_codec (SCons "ExitCode" false int_codec (SCons "OOMKilled" false bool_codec SNil))
    (fun x => (x.1, (x.2, tt))) (fun b => (b.1, b.2.1)).

Definition containerInspectState : codec (Z * bool) :=
  struct_codec (SCons "State" false inspect_state_codec SNil) (fun x => (x, tt)) fst.

(** [json.Unmarshal] of the inspect output into [[]containerInspectState]. *)
Definition decode_inspect (out : string) : option (list (Z * bool)) :=
  Unmarshal (list_codec containerInspectState) (to_bytes out).
Arguments decode_inspect : simpl never.

Example decode_inspect_ex :
  decode_inspect ("[{" +:+ of_bytes (quoted (to_bytes "Id")) +:+ ":3," +:+ of_bytes (quoted (to_bytes "state")) +:+
    ":{" +:+ of_bytes (quoted (to_bytes "OOMKilled")) +:+ ":true," +:+ of_bytes (quoted (to_bytes "ExitCode")) +:+
    ":137}}]") = Some [(137%Z, true)].
Proof. vm_compute. reflexivity. Qed.

Definition FallbackRunnerImage : string := "ubuntu:22.04".

Definition DockerName : string := "docker".

Definition docker_command (args : list string) (stdin : option string) (timeout : option Z)
    : command :=
  {| cmd_Path := "docker"; cmd_Args := args; cmd_Dir := ""; cmd_Stdin := stdin;
     cmd_Timeout := timeout; cmd_SysProcAttr := None |}.

(** [NewDockerSandbox]: the image is read from the environment. *)
Definition docker_image : prog osE string :=
  image ← call (Getenv "RUNNER_IMAGE");
  mret (if bool_decide (image = "") then FallbackRunnerImage else image).

Definition docker_IsAvailable : prog osE bool :=
  c ← call (RunCmd (docker_command ["info"] None (Some (2 * Second)%Z)));
  mret (match c_err c with None => true | Some _ => false end).

Definition docker_context (req : ExecutionRequest) (lang : LanguageHandler)
    (tempDir : string) (now : time) : SandboxContext :=
  {| sc_ID := ID req;
     sc_Request := req;
     sc_Language := lang;
     sc_WorkingDir := tempDir;
     sc_SourcePath := Join [tempDir; SourceFilename lang];
     sc_BinaryPath := Join [tempDir; BinaryFilename lang];
     sc_CgroupPath := "";
     sc_CreatedAt := now |}.

Definition docker_Prepare (req : ExecutionRequest) (lang : LanguageHandler)
    : prog osE (error + SandboxContext) :=
  dir ← call (MkdirTemp "" ("speedcode-docker-" +:+ ID req +:+ "-*"));
  match (dir : error + string) with
  | inl err => mret (inl (wrapf "failed to create docker workspace: " err))
  | inr tempDir =>
  now ← call TimeNow;
  let sCtx := docker_context req lang tempDir now in
  err ← WriteSourceFile sCtx;
  match err with
  | Some err =>
      _ ← call (RemoveAll tempDir);
      mret (inl err)
  | None => mret (inr sCtx)
  end end.

Definition docker_Compile (image : string) (sCtx : SandboxContext)
    : prog osE (option CompilationResult * option error) :=
  if negb (NeedsCompilation (sc_Language sCtx)) then
    mret (Some {| comp_Success := true; comp_ExitCode := 0; comp_Stdout := "";
                  comp_Stderr := ""; comp_TimeMs := f0 |}, None)
  else
  let '(cmdName, cmdArgs) :=
    CompileCommand (sc_Language sCtx) (SourceFilename (sc_Language sCtx))
      (BinaryFilename (sc_Language sCtx)) in
  let fullCommand := [cmdName] ++ cmdArgs in
  let containerArgs :=
    ["run"; "--rm"; "--network"; "none";
     "-v"; sc_WorkingDir sCtx +:+ ":/workspace:rw";
     "-w"; "/workspace"; image] ++ fullCommand in
  start ← call TimeNow;
  c ← call (RunCmd (docker_command containerArgs None (Some (15 * Second)%Z)));
  now ← call TimeNow;
  mret (Some (compilation_of (sc_Request sCtx) start now c), None).

Definition inspectContainer (containerName : string) : prog osE (Z * bool * Z) :=
  c ← call (RunCmd (docker_command ["inspect"; containerName] None None));
  match c_err c with
  | Some _ => mret (0%Z, false, 0%Z)
  | None =>
      match decode_inspect (of_bytes (concat (c_stdout c))) with
      | Some ((exitCode, oomKilled) :: _) => mret (exitCode, oomKilled, 0%Z)
      | _ => mret (0%Z, false, 0%Z)
      end
  end.

(** The arguments of "docker run". *)
Definition docker_run_args (image : string) (sCtx : SandboxContext) (containerName : string)
    (pinnedCore : Z) (execCommand : list string) : list string :=
  let req := sc_Request sCtx in
  ["run"; "-i";
   "--name"; containerName;
   "--network"; "none";
   "--read-only";
   "--tmpfs"; "/tmp:rw,noexec,nosuid,nodev,size=64m";
   "--memory"; Itoa (MemoryLimitMB req) +:+ "m";
   "--memory-swap"; Itoa (MemoryLimitMB req) +:+ "m";
   "--cpus"; Sprintf_2f (CpuQuota req);
   "--cpuset-cpus"; Itoa pinnedCore;
   "--pids-limit"; Itoa (PidsLimit req);
   "--cap-drop"; "ALL";
   "--security-opt"; "no-new-privileges";
   "-v"; sc_WorkingDir sCtx +:+ ":/workspace:ro";
   "-w"; "/workspace"; image] ++ execCommand.

Definition docker_verdict (req : ExecutionRequest) (wallDuration : float64) (oomKilled : bool)
    (stdoutBuf stderrBuf : BoundedBuffer.t) (exitCode : Z) : Verdict :=
  let limit := of_Z (TimeLimitMs req) in
  let verdict :=
    if flt limit wallDuration || bool_decide (exitCode = 124%Z)
       || (bool_decide (exitCode = 137%Z) && negb oomKilled)
    then if fle limit wallDuration then VerdictTimeLimitExceeded else VerdictAccepted
    else VerdictAccepted in
  if oomKilled || (bool_decide (exitCode = 137%Z) && oomKilled) then VerdictMemoryLimitExceeded
  else if bool_decide (verdict = VerdictAccepted) && bool_decide (exitCode <> 0%Z)
  then VerdictRuntimeError
  else if BoundedBuffer.Exceeded stdoutBuf || BoundedBuffer.Exceeded stderrBuf
  then VerdictOutputLimitExceeded
  else if bool_decide (verdict = VerdictAccepted) && negb (bool_decide (ExpectedOutput req = ""))
  then if negb (output_matches (BoundedBuffer.String stdoutBuf) (ExpectedOutput req))
       then VerdictWrongAnswer else verdict
  else verdict.

Definition docker_Execute (image : string) (sCtx : SandboxContext)
    : prog osE (option ExecutionResult * option error) :=
  let req := sc_Request sCtx in
  let lang := sc_Language sCtx in
  let containerName := "speedcode-exec-" +:+ sc_ID sCtx in
  let targetFile :=
    if NeedsCompilation lang then Join ["/workspace"; BinaryFilename lang]
    else Join ["/workspace"; SourceFilename lang] in
  let '(cmdName, cmdArgs) := RunCommand lang targetFile in
  let execCommand := [cmdName] ++ cmdArgs in
  pinnedCore ← call AllocCore;
  let dockerArgs := docker_run_args image sCtx containerName pinnedCore execCommand in
  let stdin := if bool_decide (Stdin req = "") then None else Some (Stdin req) in
  wallStart ← call TimeNow;
  c ← call (RunCmd (docker_command dockerArgs stdin
                      (Some (int64 (TimeoutDuration req + 500 * Millisecond)))));
  wallEnd ← call TimeNow;
  let wallDuration := elapsed_ms wallStart wallEnd in
  '(exitCode, oomKilled, peakMemoryBytes) ← inspectContainer containerName;
  _ ← call (RunCmd (docker_command ["rm"; "-f"; containerName] None None));
  let exitCode :=
    match c_err c with
    | Some _ => if bool_decide (exitCode = 0%Z) then exit_code (c_err c) else exitCode
    | None => exitCode
    end in
  let stdoutBuf := captured req (c_stdout c) in
  let stderrBuf := captured req (c_stderr c) in
  now ← call TimeNow;
  mret (Some {| res_ID := sc_ID sCtx;
                res_Verdict := docker_verdict req wallDuration oomKilled stdoutBuf stderrBuf
                                 exitCode;
                res_ExitCode := exitCode;
                res_Stdout := BoundedBuffer.String stdoutBuf;
                res_Stderr := BoundedBuffer.String stderrBuf;
                res_WallTimeMs := wallDuration;
                res_CpuTimeMs := (wallDuration * fconst 9 10)%float;
                res_PeakMemoryKB := Z.quot peakMemoryBytes 1024;
                res_PeakMemoryMB := (of_Z peakMemoryBytes / of_Z 1048576)%float;
                res_OOMKilled := oomKilled;
                res_Compilation := None;
                res_ErrorDetails := "";
                res_SandboxBackend := DockerName;
                res_ExecutedAt := now |}, None).

Definition docker_Cleanup (sCtx : SandboxContext) : prog osE (option error) :=
  call (RemoveAll (sc_WorkingDir sCtx)).

Definition DockerSandbox (image : string) : Sandbox :=
  {| sb_Name := DockerName;
     sb_IsAvailable := docker_IsAvailable;
     sb_Prepare := docker_Prepare;
     sb_Compile := docker_Compile image;
     sb_Execute := docker_Execute image;
     sb_Cleanup := docker_Cleanup |}.

(** ** Lemmas *)

Lemma docker_verdict_range req wall oom ob eb code :
  docker_verdict req wall oom ob eb code ∈ verdicts_of_a_run.
Proof. unfold docker_verdict, verdicts_of_a_run. repeat case_match; set_solver. Qed.

Lemma docker_verdict_accepted req wall oom ob eb code :
  docker_verdict req wall oom ob eb code = VerdictAccepted ->
  flt (of_Z (TimeLimitMs req)) wall = false /\ oom = false /\ code = 0%Z /\
  BoundedBuffer.Exceeded ob = false /\ BoundedBuffer.Exceeded eb = false /\
  (ExpectedOutput req = "" \/
   output_matches (BoundedBuffer.String ob) (ExpectedOutput req) = true).
Proof.
  unfold docker_verdict. intros H.
  destruct oom; [done|]. rewrite andb_false_r in H. cbn [orb] in H.
  destruct (flt _ wall) eqn:Hw.
  { rewrite (flt_fle _ _ Hw) in H. cbn [orb] in H. cbv zeta in H.
    rewrite (bool_decide_eq_false_2 (VerdictTimeLimitExceeded = VerdictAccepted)) in H by done.
    cbn [andb] in H. by case_match. }
  set (v := if _ || _ then _ else _) in H. cbv zeta in H. clearbody v.
  destruct (decide (v = VerdictAccepted)) as [Hv|Hv].
  - rewrite (bool_decide_eq_true_2 _ Hv) in H. cbn [andb] in H.
    case_bool_decide as Hc; [done|].
    destruct (_ || _) eqn:Ho; [done|]. apply orb_false_iff in Ho as [??].
    split_and!; try done. case_bool_decide; cbn in H; [by left|right].
    by destruct (output_matches _ _).
  - rewrite (bool_decide_eq_false_2 _ Hv) in H. cbn [andb] in H.
    by destruct (_ || _).
Qed.

Lemma docker_Prepare_ok req lang :
  wp (docker_Prepare req lang) (fun tr o => idle tr /\ exists r, o = Returned r /\
    match r with
    | inr sCtx =>
        made_temp (sc_WorkingDir sCtx) tr /\ prepared req lang sCtx tr /\
        forall d, made_temp d tr -> d = sc_WorkingDir sCtx
    | inl _ => forall tempDir, made_temp tempDir tr -> removes tempDir tr
    end) [].
Proof.
  unfold docker_Prepare, WriteSourceFile. wp_run; (split; [harmless|]); eexists; (split; [done|]);
    cbv beta iota zeta.
  all: try (split; [observe|split; [split; try done; [harmless|observe..]|]];
    intros d Hm; observe_in Hm; try done; by inversion Hm).
  all: intros tempDir Hm; observe_in Hm; try done. all: inversion Hm; subst; observe.
Qed.

(** One "docker inspect", whose first entry is reported when it can be read. *)
Lemma inspectContainer_spec name :
  wp (inspectContainer name) (fun tr o => exists ci code oom,
    tr = [Ev (RunCmd (docker_command ["inspect"; name] None None)) ci] /\
    o = Returned (code, oom, 0%Z) /\
    forall code' oom' rest, c_err ci = None ->
      decode_inspect (of_bytes (concat (c_stdout ci))) = Some ((code', oom') :: rest) ->
      code = code' /\ oom = oom') [].
Proof.
  unfold inspectContainer. repeat wp_step. destruct (c_err _) eqn:He.
  { wp_step. do 3 eexists. split_and!; [done..|]. congruence. }
  destruct (decode_inspect _) as [[|[code oom] l]|] eqn:Hd; wp_step;
    eexists _, _, _; (split_and!; [done..|]); intros ? ? ? _ Hd'; rewrite Hd in Hd'; by simplify_eq.
Qed.

Lemma docker_Compile_ok image sCtx :
  wp (docker_Compile image sCtx) (fun tr o => no_remove tr /\
    exists r err, o = Returned (r, err) /\ (err = None -> is_Some r) /\
    forall c, r = Some c -> comp_Success c = bool_decide (comp_ExitCode c = 0%Z) /\
      (NeedsCompilation (sc_Language sCtx) = true -> placed sCtx ->
       compiler_ran (sc_Language sCtx) (sc_WorkingDir sCtx) (comp_ExitCode c) tr)) [].
Proof.
  unfold docker_Compile. destruct (NeedsCompilation _) eqn:Hn; cbn [negb].
  2:{ wp_run. split; [constructor|]. eexists _, _. split_and!; [done..|]. by intros ? [= <-]. }
  destruct (CompileCommand _ _ _) as [path args] eqn:Hc. wp_run. split; [harmless|].
  eexists _, _. split_and!; [done..|]. intros ? [= <-]. split; [done|]. intros _ [Hs Hb].
  eexists. split; [done|]. left.
  pose proof (compiles_in_container (sc_Language sCtx) (sc_WorkingDir sCtx)
    ["--rm"; "--network"; "none"] image) as Hp.
  unfold compile_line in Hp. rewrite Hc in Hp. in_order.
Qed.

Lemma docker_Execute_ran image sCtx :
  wp (docker_Execute image sCtx) (fun tr o => forall res, o = Returned (Some res, None) ->
    exists c,
      program_ran (sc_Language sCtx) (sc_WorkingDir sCtx) (Stdin (sc_Request sCtx)) c tr /\
      output_of (sc_Request sCtx) c res) [].
Proof.
  set (lang := sc_Language sCtx).
  assert (Ht : (if NeedsCompilation lang then Join ["/workspace"; BinaryFilename lang]
                else Join ["/workspace"; SourceFilename lang]) = Join ["/workspace"; program_file lang])
    by (unfold program_file; by destruct (NeedsCompilation lang)).
  unfold docker_Execute, inspectContainer. fold lang. rewrite Ht.
  pose proof (fun options => runs_in_container lang (sc_WorkingDir sCtx) options image) as Hp.
  unfold run_line in Hp. destruct (RunCommand _ _) as [path args].
  repeat wp_step. match goal with core : resp AllocCore |- _ =>
    specialize (Hp (take 22 (tail (docker_run_args image sCtx ("speedcode-exec-" +:+ sc_ID sCtx) core [])))) end.
  wp_run; intros res [= <-]; eexists; (split; [|by split]); left; in_order.
Qed.

Lemma docker_Execute_ok image sCtx :
  wp (docker_Execute image sCtx) (fun _ o =>
    (exists res, o = Returned (Some res, None) /\ result_ok DockerName sCtx res) \/
    (exists err, o = Returned (None, Some err))) [].
Proof.
  unfold docker_Execute. destruct (RunCommand _ _) as [cmdName cmdArgs].
  repeat wp_step. eapply wp_use; [apply inspectContainer_spec|].
  intros ? ? (ci & code & oom & _ & -> & _). wp_run. all: left; eexists; split; [done|].
  all: split; cbn; auto using docker_verdict_range with go.
  all: intros (? & ? & ? & _ & _ & ?)%docker_verdict_accepted; auto.
Qed.

#[export] Instance docker_spec image : SandboxSpec (DockerSandbox image).
Proof.
  split; intros.
  - eapply wp_mono; [apply docker_Prepare_ok|]. intros tr o (Hi & r & -> & H1). split; [done|].
    eexists; split; [done|]. intros sCtx ->. apply H1.
  - apply docker_Compile_ok.
  - apply docker_Execute_ok.
  - eapply wp_mono; [apply docker_Execute_ran|]. auto.
  - apply every_wp. cbn. unfold docker_Execute, inspectContainer. every_run.
  - cbn. unfold docker_Cleanup. wp_run. split; [by eexists|split; [observe|harmless]].
  - eapply wp_mono; [apply docker_Prepare_ok|]. intros tr o (_ & [err|sCtx] & -> & H1); [done|].
    destruct H1 as (_ & _ & H1). auto.
  - cbn. unfold docker_IsAvailable. wp_run; no_temp.
  - cbn. unfold docker_Compile. case_match; [|destruct (CompileCommand _ _ _)]; wp_run; no_temp.
  - cbn. unfold docker_Execute, inspectContainer. destruct (RunCommand _ _) as [cmdName cmdArgs].
    wp_run; no_temp.
  - cbn. unfold docker_Cleanup. wp_run; no_temp.
Qed.

(** ** Properties *)

(** The wall-clock rule of this backend: the limit is passed, or the exit code
    is one of those "timeout" and SIGKILL leave and the limit is reached. *)
Definition docker_timed_out (req : ExecutionRequest) (wall : float64) (oom : bool) (code : Z)
    : bool :=
  (flt (of_Z (TimeLimitMs req)) wall || bool_decide (code = 124%Z)
   || (bool_decide (code = 137%Z) && negb oom)) && fle (of_Z (TimeLimitMs req)) wall.

(** The rules of the backend, in its order of priority. *)
Definition docker_rules (req : ExecutionRequest) (wall : float64) (oom : bool)
    (out err : list bytes) (code : Z) : list (bool * Verdict) :=
  let tle := docker_timed_out req wall oom code in
  [(oom, VerdictMemoryLimitExceeded);
   (negb tle && negb (bool_decide (code = 0%Z)), VerdictRuntimeError);
   (over_cap req out || over_cap req err, VerdictOutputLimitExceeded);
   (tle, VerdictTimeLimitExceeded);
   (wrong_output req out, VerdictWrongAnswer)].

(** The verdict of the container backend is the first rule that applies, in
    the order memory, exit code (unless out of time), output size, time, wrong
    answer, and ACCEPTED when none does; the rules speak of the container's
    whole output, whatever chunks it arrived in. *)
Theorem docker_verdict_rules (req : ExecutionRequest) (wall : float64) (oom : bool)
    (out err : list bytes) (code : Z)
    (Hout : nonempty_chunks out) (Herr : nonempty_chunks err) :
  docker_verdict req wall oom (captured req out) (captured req err) code
  = first_rule (docker_rules req wall oom out err code) VerdictAccepted.
Proof.
  unfold docker_verdict, docker_rules, docker_timed_out. cbn [first_rule]. cbv zeta.
  rewrite !captured_exceeded by done.
  destruct oom; [done|]. rewrite andb_false_r. cbn [orb negb].
  replace (if _ || _ || _ then if fle _ _ then _ else _ else _) with
    (if (flt (of_Z (TimeLimitMs req)) wall || bool_decide (code = 124%Z)
         || bool_decide (code = 137%Z) && true) && fle (of_Z (TimeLimitMs req)) wall
     then VerdictTimeLimitExceeded else VerdictAccepted)
    by (destruct (_ || _), (fle _ wall); done).
  destruct (_ && fle _ wall).
  - rewrite bool_decide_eq_false_2 by done. by repeat case_match.
  - rewrite bool_decide_eq_true_2 by done. cbn [andb negb].
    rewrite bool_decide_not. case_match; [done|].
    destruct (over_cap req out) eqn:Ho; [done|]. cbn [orb]. case_match; [done|].
    unfold wrong_output. rewrite captured_whole by done.
    by repeat case_bool_decide; cbn; repeat case_match.
Qed.

Definition slow_sample : ExecutionRequest := @normalize_with ascii_only "sub-1" sample_request.

(** The limit passed and the output over its cap: the size rule wins here. *)
Lemma docker_verdict_rules_witness :
  docker_verdict slow_sample (of_Z 20000) false
    (captured slow_sample [repeat newline 12]) (captured slow_sample []) 137
  = VerdictTimeLimitExceeded.
Proof.
  refine (eq_trans (docker_verdict_rules slow_sample (of_Z 20000) false [repeat newline 12]
    [] 137 _ _) _).
  - repeat constructor. discriminate.
  - constructor.
  - vm_compute. reflexivity.
Defined.

(** C27: executing a job in the container backend runs exactly one container, and
    an isolated one: without network, on a read-only root with a 64 MB /tmp,
    without capabilities or new privileges, with the workspace mounted read
    only, and under the request's memory limit (swap included), CPU quota and
    process limit.  The container gets half a second more than the request's
    time limit, is inspected once it ended or was abandoned, and then removed;
    the only other effects are the core counter and the clock, and the result
    carries what was inspected. *)
Theorem docker_Execute_one_container (image : string) (sCtx : SandboxContext) :
  let req := sc_Request sCtx in
  let name := "speedcode-exec-" +:+ sc_ID sCtx in
  let lang := sc_Language sCtx in
  let target := if NeedsCompilation lang then BinaryFilename lang else SourceFilename lang in
  let '(cmdName, cmdArgs) := RunCommand lang (Join ["/workspace"; target]) in
  wp (docker_Execute image sCtx) (fun tr o =>
    exists core t0 c t1 ci cr t2,
    tr = [Ev AllocCore core; Ev TimeNow t0;
          Ev (RunCmd {| cmd_Path := "docker";
                        cmd_Args :=
                          ["run"; "-i"; "--name"; name; "--network"; "none"; "--read-only";
                           "--tmpfs"; "/tmp:rw,noexec,nosuid,nodev,size=64m";
                           "--memory"; Itoa (MemoryLimitMB req) +:+ "m";
                           "--memory-swap"; Itoa (MemoryLimitMB req) +:+ "m";
                           "--cpus"; Sprintf_2f (CpuQuota req); "--cpuset-cpus"; Itoa core;
                           "--pids-limit"; Itoa (PidsLimit req);
                           "--cap-drop"; "ALL"; "--security-opt"; "no-new-privileges";
                           "-v"; sc_WorkingDir sCtx +:+ ":/workspace:ro"; "-w"; "/workspace";
                           image] ++ cmdName :: cmdArgs;
                        cmd_Dir := "";
                        cmd_Stdin := if bool_decide (Stdin req = "") then None else Some (Stdin req);
                        cmd_Timeout := Some (int64 (TimeoutDuration req + 500 * Millisecond));
                        cmd_SysProcAttr := None |}) c;
          Ev TimeNow t1;
          Ev (RunCmd (docker_command ["inspect"; name] None None)) ci;
          Ev (RunCmd (docker_command ["rm"; "-f"; name] None None)) cr;
          Ev TimeNow t2] /\
    exists res, o = Returned (Some res, None) /\
      res_WallTimeMs res = elapsed_ms t0 t1 /\
      (forall code oom rest, c_err ci = None ->
         decode_inspect (of_bytes (concat (c_stdout ci))) = Some ((code, oom) :: rest) ->
         res_OOMKilled res = oom /\ (code <> 0%Z -> res_ExitCode res = code))) [].
Proof.
  cbv zeta. unfold docker_Execute.
  destruct (NeedsCompilation _), (RunCommand _ _) as [cmdName cmdArgs]; cbv zeta;
    repeat wp_step; (eapply wp_use; [apply inspectContainer_spec|]);
    intros ? ? (ci & code & oom & -> & -> & Hd); repeat wp_step;
    eexists _, _, _, _, _, _, _; (split; [reflexivity|]);
    eexists; (split; [reflexivity|]); (split; [reflexivity|]); cbn;
    intros code' oom' rest Hc Hd'; destruct (Hd _ _ _ Hc Hd') as [-> ->];
    (split; [done|]); intros Hnz; rewrite bool_decide_eq_false_2 by done;
    clear Hd Hc Hd'; by destruct (c_err _).
Qed.
