(* ===== verification/DevSandbox.v ===== *)
(** * The developer backend (pkg/sandbox/dev_process.go)

    Runs the program as a plain child process with a watchdog timer. *)

From S2P Require Import Prelude GoStrings GoFloat Go OS Models Languages FilePath Watchdog.
From S2P Require Import Sandbox.

Definition DevName : string := "dev_process".

Definition dev_context (req : ExecutionRequest) (lang : LanguageHandler)
    (tempDir : string) (now : time) : SandboxContext :=
  {| sc_ID := ID req;
     sc_Request := req;
     sc_Language := lang;
     sc_WorkingDir := tempDir;
     sc_SourcePath := Join [tempDir; SourceFilename lang];
     sc_BinaryPath := Join [tempDir; BinaryFilename lang];
     sc_CgroupPath := "";
     sc_CreatedAt := now |}.

Definition dev_Prepare (req : ExecutionRequest) (lang : LanguageHandler)
    : prog osE (error + SandboxContext) :=
  dir ← call (MkdirTemp "" ("speedcode-dev-" +:+ ID req +:+ "-*"));
  match (dir : error + string) with
  | inl err => mret (inl (wrapf "failed to create dev workspace: " err))
  | inr tempDir =>
  now ← call TimeNow;
  let sCtx := dev_context req lang tempDir now in
  err ← WriteSourceFile sCtx;
  match err with
  | Some err =>
      _ ← call (RemoveAll tempDir);
      mret (inl err)
  | None => mret (inr sCtx)
  end end.

Definition dev_command (path : string) (args : list string) (dir : string)
    (stdin : option string) (timeout : Z) : command :=
  {| cmd_Path := path; cmd_Args := args; cmd_Dir := dir; cmd_Stdin := stdin;
     cmd_Timeout := Some timeout; cmd_SysProcAttr := None |}.

Definition dev_Compile (sCtx : SandboxContext)
    : prog osE (option CompilationResult * option error) :=
  if negb (NeedsCompilation (sc_Language sCtx)) then
    mret (Some {| comp_Success := true; comp_ExitCode := 0; comp_Stdout := "";
                  comp_Stderr := ""; comp_TimeMs := f0 |}, None)
  else
  let '(cmdName, cmdArgs) :=
    CompileCommand (sc_Language sCtx) (sc_SourcePath sCtx) (sc_BinaryPath sCtx) in
  start ← call TimeNow;
  c ← call (RunCmd (dev_command cmdName cmdArgs (sc_WorkingDir sCtx) None (15 * Second)%Z));
  now ← call TimeNow;
  mret (Some (compilation_of (sc_Request sCtx) start now c), None).

Definition dev_verdict (req : ExecutionRequest) (timedOut : bool) (wallDuration : float64)
    (stdoutBuf stderrBuf : BoundedBuffer.t) (exitCode : Z) : Verdict :=
  if timedOut || flt (of_Z (TimeLimitMs req)) wallDuration then VerdictTimeLimitExceeded
  else if bool_decide (exitCode <> 0%Z) then VerdictRuntimeError
  else if BoundedBuffer.Exceeded stdoutBuf || BoundedBuffer.Exceeded stderrBuf
  then VerdictOutputLimitExceeded
  else if negb (bool_decide (ExpectedOutput req = ""))
  then if negb (output_matches (BoundedBuffer.String stdoutBuf) (ExpectedOutput req))
       then VerdictWrongAnswer else VerdictAccepted
  else VerdictAccepted.

Definition dev_Execute (sCtx : SandboxContext)
    : prog osE (option ExecutionResult * option error) :=
  let req := sc_Request sCtx in
  let lang := sc_Language sCtx in
  let targetPath := if NeedsCompilation lang then sc_BinaryPath sCtx else sc_SourcePath sCtx in
  let '(cmdName, cmdArgs) := RunCommand lang targetPath in
  let stdin := if bool_decide (Stdin req = "") then None else Some (Stdin req) in
  wallStart ← call TimeNow;
  c ← call (RunCmd (dev_command cmdName cmdArgs (sc_WorkingDir sCtx) stdin
                      (TimeoutDuration req)));
  wallEnd ← call TimeNow;
  let wallDuration := elapsed_ms wallStart wallEnd in
  let timedOut := c_deadline c in
  let exitCode := exit_code (c_err c) in
  let stdoutBuf := captured req (c_stdout c) in
  let stderrBuf := captured req (c_stderr c) in
  now ← call TimeNow;
  mret (Some {| res_ID := sc_ID sCtx;
                res_Verdict := dev_verdict req timedOut wallDuration stdoutBuf stderrBuf exitCode;
                res_ExitCode := exitCode;
                res_Stdout := BoundedBuffer.String stdoutBuf;
                res_Stderr := BoundedBuffer.String stderrBuf;
                res_WallTimeMs := wallDuration;
                res_CpuTimeMs := (wallDuration * fconst 9 10)%float;
                res_PeakMemoryKB := 1024;
                res_PeakMemoryMB := of_Z 1;
                res_OOMKilled := false;
                res_Compilation := None;
                res_ErrorDetails := "";
                res_SandboxBackend := DevName;
                res_ExecutedAt := now |}, None).

Definition dev_Cleanup (sCtx : SandboxContext) : prog osE (option error) :=
  call (RemoveAll (sc_WorkingDir sCtx)).

Definition DevProcessSandbox : Sandbox :=
  {| sb_Name := DevName;
     sb_IsAvailable := mret true;
     sb_Prepare := dev_Prepare;
     sb_Compile := dev_Compile;
     sb_Execute := dev_Execute;
     sb_Cleanup := dev_Cleanup |}.

(** ** Lemmas *)

Lemma dev_verdict_range req timedOut wall ob eb code :
  dev_verdict req timedOut wall ob eb code ∈ verdicts_of_a_run.
Proof. unfold dev_verdict, verdicts_of_a_run. repeat case_match; set_solver. Qed.

Lemma dev_verdict_accepted req timedOut wall ob eb code :
  dev_verdict req timedOut wall ob eb code = VerdictAccepted ->
  flt (of_Z (TimeLimitMs req)) wall = false /\ code = 0%Z /\
  (ExpectedOutput req = "" \/
   output_matches (BoundedBuffer.String ob) (ExpectedOutput req) = true).
Proof.
  unfold dev_verdict. intros H.
  destruct (timedOut || _) eqn:E1; [done|]. apply orb_false_iff in E1 as [_ E1].
  case_bool_decide as E2; [done|]. destruct (_ || _); [done|].
  split_and!; try done. case_bool_decide; [by left|right].
  cbn in H. by destruct (output_matches _ _).
Qed.

Lemma dev_Prepare_ok req lang :
  wp (dev_Prepare req lang) (fun tr o => idle tr /\ exists r, o = Returned r /\
    match r with
    | inr sCtx =>
        made_temp (sc_WorkingDir sCtx) tr /\ prepared req lang sCtx tr /\
        forall d, made_temp d tr -> d = sc_WorkingDir sCtx
    | inl _ => forall tempDir, made_temp tempDir tr -> removes tempDir tr
    end) [].
Proof.
  unfold dev_Prepare, WriteSourceFile. wp_run; (split; [harmless|]); eexists; (split; [done|]);
    cbv beta iota zeta.
  all: try (split; [observe|split; [split; try done; [harmless|observe..]|]];
    intros d Hm; observe_in Hm; try done; by inversion Hm).
  all: intros tempDir Hm; observe_in Hm; try done. all: inversion Hm; subst; observe.
Qed.

Lemma dev_Compile_ok sCtx :
  wp (dev_Compile sCtx) (fun tr o => no_remove tr /\
    exists r err, o = Returned (r, err) /\ (err = None -> is_Some r) /\
    forall c, r = Some c -> comp_Success c = bool_decide (comp_ExitCode c = 0%Z) /\
      (NeedsCompilation (sc_Language sCtx) = true -> placed sCtx ->
       compiler_ran (sc_Language sCtx) (sc_WorkingDir sCtx) (comp_ExitCode c) tr)) [].
Proof.
  unfold dev_Compile. destruct (NeedsCompilation _) eqn:Hn; cbn [negb].
  2:{ wp_run. split; [constructor|]. eexists _, _. split_and!; [done..|]. by intros ? [= <-]. }
  destruct (CompileCommand _ _ _) as [path args] eqn:Hc. wp_run. split; [harmless|].
  eexists _, _. split_and!; [done..|]. intros ? [= <-]. split; [done|]. intros _ [Hs Hb].
  rewrite Hs, Hb in Hc. eexists. split; [done|]. left. pose proof (compiled_directly _ _ _ _ Hc). in_order.
Qed.

Lemma dev_Execute_ran sCtx :
  wp (dev_Execute sCtx) (fun tr o => forall res, o = Returned (Some res, None) ->
    placed sCtx -> exists c,
      program_ran (sc_Language sCtx) (sc_WorkingDir sCtx) (Stdin (sc_Request sCtx)) c tr /\
      output_of (sc_Request sCtx) c res) [].
Proof.
  unfold dev_Execute. destruct (RunCommand _ _) as [path args] eqn:Hr.
  assert (Hp : placed sCtx -> runs_program (sc_Language sCtx) (sc_WorkingDir sCtx) (path :: args)).
  { intros Hpl. rewrite placed_target in Hr by done. by apply ran_directly. }
  wp_run; intros res [= <-] Hpl; eexists; (split; [|by split]); specialize (Hp Hpl); left; in_order.
Qed.

#[export] Instance dev_spec : SandboxSpec DevProcessSandbox.
Proof.
  split; intros.
  - eapply wp_mono; [apply dev_Prepare_ok|]. intros tr o (Hi & r & -> & H1). split; [done|].
    eexists; split; [done|]. intros sCtx ->. apply H1.
  - apply dev_Compile_ok.
  - cbn. unfold dev_Execute. destruct (RunCommand _ _) as [cmdName cmdArgs].
    wp_run. left; eexists; split; [done|].
    split; cbn; auto using dev_verdict_range with go.
    intros (? & ? & ?)%dev_verdict_accepted; auto.
  - apply dev_Execute_ran.
  - apply every_wp. cbn. unfold dev_Execute. every_run.
  - cbn. unfold dev_Cleanup. wp_run. split; [by eexists|split; [observe|harmless]].
  - eapply wp_mono; [apply dev_Prepare_ok|]. intros tr o (_ & [err|sCtx] & -> & H1); [done|].
    destruct H1 as (_ & _ & H1). auto.
  - cbn. wp_run; no_temp.
  - cbn. unfold dev_Compile. case_match; [|destruct (CompileCommand _ _ _)]; wp_run; no_temp.
  - cbn. unfold dev_Execute. destruct (RunCommand _ _) as [cmdName cmdArgs]. wp_run; no_temp.
  - cbn. unfold dev_Cleanup. wp_run; no_temp.
Qed.

(** ** Properties *)

(** The rules of the backend, in its order of priority. *)
Definition dev_rules (req : ExecutionRequest) (timedOut : bool) (wall : float64)
    (out err : list bytes) (code : Z) : list (bool * Verdict) :=
  [(timedOut || flt (of_Z (TimeLimitMs req)) wall, VerdictTimeLimitExceeded);
   (negb (bool_decide (code = 0%Z)), VerdictRuntimeError);
   (over_cap req out || over_cap req err, VerdictOutputLimitExceeded);
   (wrong_output req out, VerdictWrongAnswer)].

(** The verdict of the developer backend is the first rule that applies, in
    the order time, exit code, output size, wrong answer, and ACCEPTED when
    none does, on the process's whole output. *)
Theorem dev_verdict_rules (req : ExecutionRequest) (timedOut : bool) (wall : float64)
    (out err : list bytes) (code : Z)
    (Hout : nonempty_chunks out) (Herr : nonempty_chunks err) :
  dev_verdict req timedOut wall (captured req out) (captured req err) code
  = first_rule (dev_rules req timedOut wall out err code) VerdictAccepted.
Proof.
  unfold dev_verdict, dev_rules. cbn [first_rule].
  rewrite !captured_exceeded by done. rewrite bool_decide_not.
  repeat (case_match; [done|]). unfold wrong_output.
  destruct (over_cap req out) eqn:Ho; [done|].
  rewrite captured_whole by done. by repeat case_bool_decide; cbn; repeat case_match.
Qed.

Definition dev_sample : ExecutionRequest := @normalize_with ascii_only "sub-1" sample_request.

Lemma dev_verdict_rules_witness :
  dev_verdict dev_sample false (of_Z 250)
    (captured dev_sample [to_bytes "1"; to_bytes "2"]) (captured dev_sample []) 0
  = VerdictWrongAnswer.
Proof.
  refine (eq_trans (dev_verdict_rules dev_sample false (of_Z 250)
    [to_bytes "1"; to_bytes "2"] [] 0 _ _) _).
  - repeat constructor; discriminate.
  - constructor.
  - vm_compute. reflexivity.
Defined.
