(* ===== verification/Select.v ===== *)
(** * Choosing a backend (SelectSandbox of pkg/sandbox/sandbox.go)

    The operating system is a parameter: the Go build links the cgroup backend
    on Linux and the stub of native_fallback.go elsewhere. *)

From S2P Require Import Prelude GoStrings GoFloat Go OS Models Languages Watchdog Sandbox.
From S2P Require Import NativeSandbox DockerSandbox DevSandbox.

(** [runtime.GOOS] *)
Class Platform := GOOS : string.

Section Select.
Context {OSName : Platform}.

Definition NewNativeCgroupV2Sandbox : Sandbox :=
  if bool_decide (GOOS = "linux") then NativeCgroupV2Sandbox else NativeFallbackSandbox.

Definition native_unavailable : error :=
  Errorf ("native cgroup v2 sandbox is not available on this host (" +:+ GOOS
          +:+ ", root required)").
Definition docker_unavailable : error :=
  Errorf "docker sandbox is not available or Docker daemon is unreachable".
Definition unknown_backend (preference : string) : error :=
  Errorf ("unknown sandbox backend preference: '" +:+ preference +:+ "'").

Definition SelectSandbox (preference : string) : prog osE (error + Sandbox) :=
  let native := NewNativeCgroupV2Sandbox in
  image ← docker_image;
  let docker := DockerSandbox image in
  let devSandbox := DevProcessSandbox in
  if bool_decide (preference ∈ ["native"; "cgroup"; "cgroupv2"]) then
    available ← sb_IsAvailable native;
    mret (if available : bool then inr native else inl native_unavailable)
  else if bool_decide (preference ∈ ["docker"; "container"]) then
    available ← sb_IsAvailable docker;
    mret (if available : bool then inr docker else inl docker_unavailable)
  else if bool_decide (preference ∈ ["dev_process"; "dev"; "process"]) then
    mret (inr devSandbox)
  else if bool_decide (preference ∈ ["auto"; ""]) then
    available ← (if bool_decide (GOOS = "linux") then sb_IsAvailable native else mret false);
    if available : bool then mret (inr native)
    else
      available ← sb_IsAvailable docker;
      mret (if available : bool then inr docker else inr devSandbox)
  else mret (inl (unknown_backend preference)).

(** ** Lemmas *)

(** What a host answers when asked whether the cgroup backend can run. *)
Definition cgroup_host (tr : list (event osE)) : Prop :=
  Exists (fun ev => match ev with
                    | Ev (Statfs p) r => p = CgroupV2Root /\
                        exists t, r = inr t /\ (t `mod` 2 ^ 32 = 1667723888)%Z
                    | _ => False end) tr /\
  Exists (fun ev => match ev with Ev Geteuid r => r = 0%Z | _ => False end) tr.

(** A docker daemon answered. *)
Definition docker_host (tr : list (event osE)) : Prop :=
  Exists (fun ev => match ev with
                    | Ev (RunCmd c) r => c = docker_command ["info"] None (Some (2 * Second)%Z) /\
                                         c_err r = None
                    | _ => False end) tr.

Lemma native_IsAvailable_ok :
  wp native_IsAvailable (fun tr o => no_temp tr /\ (
    o = Returned false \/ (o = Returned true /\ cgroup_host tr))) [].
Proof.
  unfold native_IsAvailable. wp_run; (split; [no_temp|]); auto.
  case_bool_decide as H1; [|by left]. case_bool_decide as H2; [|by left].
  right. split; [done|]. split; [left; eauto|right; left; done].
Qed.

Lemma docker_IsAvailable_ok :
  wp docker_IsAvailable (fun tr o => no_temp tr /\ (
    o = Returned false \/ (o = Returned true /\ docker_host tr))) [].
Proof.
  unfold docker_IsAvailable. repeat wp_step. split; [no_temp|]. destruct (c_err _) eqn:He; [by left|].
  right. split; [done|]. by left.
Qed.

Lemma new_native_available :
  wp (sb_IsAvailable NewNativeCgroupV2Sandbox) (fun tr o => no_temp tr /\ (
    o = Returned false \/
    (o = Returned true /\ GOOS = "linux" /\ NewNativeCgroupV2Sandbox = NativeCgroupV2Sandbox /\
     cgroup_host tr))) [].
Proof.
  unfold NewNativeCgroupV2Sandbox. case_bool_decide; [|split; [no_temp|by left]].
  eapply wp_mono; [apply native_IsAvailable_ok|]. intros ? ? [? [?|[? ?]]]; auto 10.
Qed.

Lemma cgroup_host_app_r tr1 tr2 : cgroup_host tr2 -> cgroup_host (tr1 ++ tr2).
Proof. intros [??]. split; apply Exists_app; by right. Qed.

Lemma docker_host_app_r tr1 tr2 : docker_host tr2 -> docker_host (tr1 ++ tr2).
Proof. intros ?. apply Exists_app. by right. Qed.

#[local] Hint Resolve cgroup_host_app_r docker_host_app_r : core.

Lemma docker_image_returns :
  wp docker_image (fun tr o => no_temp tr /\ exists image, o = Returned image) [].
Proof. unfold docker_image. wp_run. split; [no_temp|eauto]. Qed.

Definition native_names : list string := ["native"; "cgroup"; "cgroupv2"].
Definition docker_names : list string := ["docker"; "container"].
Definition dev_names : list string := ["dev_process"; "dev"; "process"].
Definition auto_names : list string := ["auto"; ""].

(** What a selected backend, or the refusal to select one, says. *)
Definition selected (preference : string) (tr : list (event osE)) (r : error + Sandbox) : Prop :=
  match r with
  | inr sb =>
      SandboxSpec sb /\
      ((sb = NativeCgroupV2Sandbox /\ GOOS = "linux" /\ cgroup_host tr /\
        preference ∈ native_names ++ auto_names) \/
       (exists image, sb = DockerSandbox image /\ docker_host tr /\
        preference ∈ docker_names ++ auto_names) \/
       (sb = DevProcessSandbox /\ preference ∈ dev_names ++ auto_names))
  | inl err =>
      preference ∉ dev_names ++ auto_names /\
      (err = native_unavailable \/ err = docker_unavailable \/
       err = unknown_backend preference /\ preference ∉ native_names ++ docker_names)
  end.

Lemma selected_docker preference image tr :
  docker_host tr -> preference ∈ docker_names ++ auto_names ->
  selected preference tr (inr (DockerSandbox image)).
Proof. intros. split; [apply _|]. right; left. by eexists. Qed.

Lemma selected_native preference tr :
  GOOS = "linux" -> cgroup_host tr -> preference ∈ native_names ++ auto_names ->
  selected preference tr (inr NativeCgroupV2Sandbox).
Proof. intros. split; [apply _|]. by left. Qed.

Lemma selected_dev preference tr :
  preference ∈ dev_names ++ auto_names -> selected preference tr (inr DevProcessSandbox).
Proof. intros. split; [apply _|]. by right; right. Qed.

#[local] Hint Resolve selected_native selected_docker selected_dev : core.

Lemma SelectSandbox_ok (preference : string) :
  wp (SelectSandbox preference) (fun tr o =>
    no_temp tr /\ exists r, o = Returned r /\ selected preference tr r) [].
Proof.
  unfold SelectSandbox, native_names, docker_names, dev_names, auto_names. wp_step.
  eapply wp_use; [apply docker_image_returns|]. intros tr0 ? [? [image ->]].
  wp_step. case_bool_decide as Hn; [|case_bool_decide as Hd; [|case_bool_decide as Hp;
    [|case_bool_decide as Ha]]].
  - wp_step. eapply wp_use; [apply new_native_available|].
    intros tr1 ? [? [->|(-> & ? & -> & ?)]]; repeat wp_step; (split; [auto with go|]); eexists;
      (split; [done|]).
    + split; [set_solver|auto].
    + apply selected_native; auto. set_solver.
  - wp_step. eapply wp_use; [apply docker_IsAvailable_ok|].
    intros tr1 ? [? [->|(-> & ?)]]; repeat wp_step; (split; [auto with go|]); eexists;
      (split; [done|]).
    + split; [set_solver|auto].
    + apply selected_docker; auto. set_solver.
  - wp_step. split; [auto|]. eexists; (split; [done|]). apply selected_dev. set_solver.
  - wp_step. eapply wp_use with (Q := fun tr o => no_temp tr /\ (o = Returned false \/
      (o = Returned true /\ GOOS = "linux" /\ NewNativeCgroupV2Sandbox = NativeCgroupV2Sandbox /\
       cgroup_host tr))).
    { case_bool_decide; [apply new_native_available|split; [no_temp|by left]]. }
    intros tr1 ? [? [->|(-> & ? & -> & ?)]]; repeat wp_step.
    + eapply wp_use; [apply docker_IsAvailable_ok|].
      intros tr2 ? [? [->|(-> & ?)]]; repeat wp_step; (split; [auto with go|]); eexists;
        (split; [done|]).
      * apply selected_dev. set_solver.
      * apply selected_docker; auto. set_solver.
    + split; [auto with go|]. eexists; (split; [done|]). apply selected_native; auto. set_solver.
  - wp_step. split; [auto|]. eexists; (split; [done|]).
    split; [set_solver|]. right; right. split; [done|set_solver].
Qed.

(** ** Properties *)

(** C29: whatever the preference and the host, selection never panics and every
    backend it returns keeps the contract of the interface; the cgroup backend
    is returned only on a Linux host whose cgroup v2 file system it saw as
    root, the container backend only when the daemon answered, the developer
    backend only when asked for by name or as the last resort of "auto"; "auto"
    and the developer names never fail, an unknown name always does. *)
Theorem SelectSandbox_sound (preference : string) :
  wp (SelectSandbox preference) (fun tr o => exists r, o = Returned r /\
    selected preference tr r) [].
Proof. eapply wp_mono; [apply SelectSandbox_ok|]. by intros ? ? [_ ?]. Qed.

End Select.

(** C30: the three backends give the same verdict to the same run, as long as the
    run breaks no memory rule, breaks the output cap without also crashing or
    running late, and does not end in a watchdog's exit code at the very instant
    of the limit; where two rules apply their orders differ. *)
Theorem backends_agree (req : ExecutionRequest) (wall : float64) (peak : Z)
    (out err : list bytes) (code : Z)
    (Hn : normalized req) (Hout : nonempty_chunks out) (Herr : nonempty_chunks err)
    (Hmem : (peak <= MemoryLimitMB req * 2 ^ 20)%Z)
    (Hcap : over_cap req out || over_cap req err = true ->
            code = 0%Z /\ flt (of_Z (TimeLimitMs req)) wall = false)
    (Hedge : fle (of_Z (TimeLimitMs req)) wall = true -> code ∈ [124; 137]%Z ->
             flt (of_Z (TimeLimitMs req)) wall = true) :
  let late := flt (of_Z (TimeLimitMs req)) wall in
  native_verdict req late wall false peak (captured req out) (captured req err) code
  = dev_verdict req late wall (captured req out) (captured req err) code /\
  docker_verdict req wall false (captured req out) (captured req err) code
  = dev_verdict req late wall (captured req out) (captured req err) code.
Proof.
  cbv zeta. unfold native_verdict, docker_verdict, dev_verdict.
  rewrite memory_limit_bytes_normalized, !captured_exceeded by done.
  rewrite (bool_decide_eq_false_2 (_ < peak)%Z) by lia. cbn [orb].
  rewrite orb_diag, andb_false_r, andb_true_r. cbn [orb].
  destruct (flt _ wall) eqn:Hw; cbn [orb].
  - rewrite (flt_fle _ _ Hw). rewrite (bool_decide_eq_false_2 (_ = VerdictAccepted)) by done.
    cbn [andb]. destruct (_ || _); [by destruct (Hcap eq_refl)|done].
  - replace (if bool_decide (code = 124%Z) || bool_decide (code = 137%Z) then _ else _)
      with VerdictAccepted.
    2:{ destruct (bool_decide (code = 124%Z) || bool_decide (code = 137%Z)) eqn:Hc; [|done].
        destruct (fle _ wall) eqn:Hl; [|done].
        apply orb_true_iff in Hc. rewrite !bool_decide_eq_true in Hc.
        assert (false = true) as [=]. apply Hedge; [done|set_solver]. }
    rewrite (bool_decide_eq_true_2 (VerdictAccepted = VerdictAccepted)) by done. cbn [andb].
    destruct (over_cap req out || over_cap req err).
    + destruct (Hcap eq_refl) as [-> _]. done.
    + split; [|done]. by case_bool_decide.
Qed.

Lemma backends_agree_witness :
  let out := [to_bytes "1"] in
  native_verdict dev_sample false (of_Z 120) false 4096 (captured dev_sample out)
    (captured dev_sample []) 3
  = dev_verdict dev_sample false (of_Z 120) (captured dev_sample out) (captured dev_sample []) 3.
Proof.
  refine (proj1 (backends_agree dev_sample (of_Z 120) 4096 [to_bytes "1"] [] 3 _ _ _ _ _ _)).
  - apply (@normalize_with_normalized ascii_only). discriminate.
  - repeat constructor; discriminate.
  - constructor.
  - vm_compute. discriminate.
  - vm_compute. discriminate.
  - vm_compute. discriminate.
Defined.

(** A crash after too much output: the backends order these two rules
    differently. *)
Definition chatty_request : ExecutionRequest :=
  {| ID := "sub-1"; Language := "cpp"; Code := ""; Stdin := ""; ExpectedOutput := "";
     TimeLimitMs := 1000; MemoryLimitMB := 64; CpuQuota := of_Z 1; PidsLimit := 8;
     MaxOutputBytes := 4; SandboxType := "auto" |}.

Example backends_disagree :
  let out := captured chatty_request [to_bytes "too long"] in
  let none := captured chatty_request [] in
  native_verdict chatty_request false (of_Z 120) false 4096 out none 139
  = VerdictOutputLimitExceeded /\
  dev_verdict chatty_request false (of_Z 120) out none 139 = VerdictRuntimeError /\
  docker_verdict chatty_request (of_Z 1200) false out none 137 = VerdictOutputLimitExceeded /\
  dev_verdict chatty_request true (of_Z 1200) out none 137 = VerdictTimeLimitExceeded.
Proof. vm_compute. done. Qed.
