(* ===== verification/Engine.v ===== *)
(** * The execution pipeline (pkg/engine/engine.go)

    [Run] composes normalization, the language registry, backend selection and
    the four phases of a backend.  Its properties use only the contract
    [SandboxSpec] of the backend that was selected. *)

From S2P Require Import Prelude GoStrings GoFloat Go OS Models Languages FilePath Watchdog Sandbox.
From S2P Require Import NativeSandbox DockerSandbox DevSandbox Select.

Record Engine := { SandboxBackend : string }.

Definition New (sandboxBackend : string) : Engine := {| SandboxBackend := sandboxBackend |}.

(** A result literal that sets only these fields. *)
Definition failure (id : string) (verdict : Verdict) (comp : option CompilationResult)
    (details backend : string) (now : time) : ExecutionResult :=
  {| res_ID := id; res_Verdict := verdict; res_ExitCode := 0; res_Stdout := ""; res_Stderr := "";
     res_WallTimeMs := f0; res_CpuTimeMs := f0; res_PeakMemoryKB := 0; res_PeakMemoryMB := f0;
     res_OOMKilled := false; res_Compilation := comp; res_ErrorDetails := details;
     res_SandboxBackend := backend; res_ExecutedAt := now |}.

Definition compilation_failure (id : string) (c : CompilationResult) (backend : string)
    (now : time) : ExecutionResult :=
  {| res_ID := id; res_Verdict := VerdictCompilationError; res_ExitCode := comp_ExitCode c;
     res_Stdout := comp_Stdout c; res_Stderr := comp_Stderr c;
     res_WallTimeMs := f0; res_CpuTimeMs := f0; res_PeakMemoryKB := 0; res_PeakMemoryMB := f0;
     res_OOMKilled := false; res_Compilation := Some c; res_ErrorDetails := "";
     res_SandboxBackend := backend; res_ExecutedAt := now |}.

Definition go_result : Type := option ExecutionResult * option error.

(** The phases after the workspace is prepared, under the deferred cleanup. *)
Definition execution_phase (sb : Sandbox) (sCtx : SandboxContext) (id : string)
    : prog osE go_result :=
  '(result, err) ← sb_Execute sb sCtx;
  match err with
  | Some err =>
      now ← call TimeNow;
      mret (Some (failure id VerdictSystemError None ("execution failed: " +:+ error_text err)
                    (sb_Name sb) now), None)
  | None => mret (result, None)
  end.

Definition run_phases (sb : Sandbox) (sCtx : SandboxContext) (id : string)
    (lang : LanguageHandler) : prog osE go_result :=
  if NeedsCompilation lang then
    '(compResult, err) ← sb_Compile sb sCtx;
    match err with
    | Some err =>
        now ← call TimeNow;
        mret (Some (failure id VerdictCompilationError compResult
                      ("compilation execution error: " +:+ error_text err) (sb_Name sb) now),
              None)
    | None =>
        c ← deref compResult;
        if negb (comp_Success c) then
          now ← call TimeNow;
          mret (Some (compilation_failure id c (sb_Name sb) now), None)
        else execution_phase sb sCtx id
    end
  else execution_phase sb sCtx id.

(** [defer func() { _ = sb.Cleanup(sCtx) }()] *)
Definition run_prepared (sb : Sandbox) (sCtx : SandboxContext) (id : string)
    (lang : LanguageHandler) : prog osE go_result :=
  defer (_ ← sb_Cleanup sb sCtx; mret tt) (run_phases sb sCtx id lang).

(** ** Lemmas on the phases, against the contract of the backend *)

Section Phases.
Context (sb : Sandbox) {Spec : SandboxSpec sb}.

(** The work of a run: the source was compiled without an error, if the
    language asks for it, and then the program ran on the request's input; what
    it printed is what the result reports. *)
Definition work_done (lang : LanguageHandler) (dir : string) (req : ExecutionRequest)
    (res : ExecutionResult) (tr : list (event osE)) : Prop :=
  exists tc tx c, tr = tc ++ tx /\
    (NeedsCompilation lang = true -> compiler_ran lang dir 0 tc) /\
    program_ran lang dir (Stdin req) c tx /\ output_of req c res.

(** What the phases deliver for a prepared context. *)
Definition phase_result (sCtx : SandboxContext) (res : ExecutionResult)
    (tr : list (event osE)) : Prop :=
  res_ID res = sc_ID sCtx /\ res_SandboxBackend res = sb_Name sb /\
  (result_ok (sb_Name sb) sCtx res /\
     work_done (sc_Language sCtx) (sc_WorkingDir sCtx) (sc_Request sCtx) res tr \/
   res_Verdict res = VerdictSystemError \/
   res_Verdict res = VerdictCompilationError /\ NeedsCompilation (sc_Language sCtx) = true).

Lemma execution_phase_ok sCtx tc :
  placed sCtx ->
  (NeedsCompilation (sc_Language sCtx) = true ->
   compiler_ran (sc_Language sCtx) (sc_WorkingDir sCtx) 0 tc) ->
  wp (execution_phase sb sCtx (sc_ID sCtx)) (fun tr o => no_remove tr /\
    exists res, o = Returned (Some res, None) /\ phase_result sCtx res (tc ++ tr)) [].
Proof.
  intros Hpl Hc. unfold execution_phase. wp_step.
  eapply wp_use; [apply wp_conj; [apply spec_execute_kept|apply wp_conj;
    [apply spec_execute|apply spec_execute_ran]]|].
  intros tr ? [Hk [[(res & -> & Hr)|[err ->]] Hl]]; repeat wp_step.
  - split; [done|]. eexists; split; [done|]. destruct (Hl res eq_refl Hpl) as (c & Hrun & Hout).
    split_and!; [by destruct Hr..|left]. split; [done|]. by exists tc, tr, c.
  - split; [apply no_remove_app; split; [done|harmless]|]. eexists; split; [done|].
    unfold phase_result, failure. cbn. auto 10.
Qed.

Lemma run_phases_ok sCtx :
  placed sCtx ->
  wp (run_phases sb sCtx (sc_ID sCtx) (sc_Language sCtx)) (fun tr o => no_remove tr /\
    exists res, o = Returned (Some res, None) /\ phase_result sCtx res tr) [].
Proof.
  intros Hpl. unfold run_phases. destruct (NeedsCompilation (sc_Language sCtx)) eqn:Hl.
  2:{ apply (execution_phase_ok sCtx []); [done|congruence]. }
  wp_step. eapply wp_use; [apply spec_compile|].
  intros tr ? (Hk & c & [err|] & -> & Hc & Hok); repeat wp_step.
  - split; [apply no_remove_app; split; [done|harmless]|].
    eexists; split; [done|]. unfold phase_result, failure. cbn. auto 10.
  - subst c. destruct (Hok a eq_refl) as [Hs Hcomp]. destruct (comp_Success _); cbn [negb]; repeat wp_step.
    + symmetry in Hs. apply bool_decide_eq_true in Hs. specialize (Hcomp Hl Hpl). rewrite Hs in Hcomp.
      eapply wp_use; [by apply (execution_phase_ok sCtx tr)|].
      intros s o [Hk' Hr]. split; [by apply no_remove_app|done].
    + split; [apply no_remove_app; split; [done|harmless]|].
      eexists; split; [done|]. unfold phase_result. cbn. auto 10.
  - by destruct (Hc eq_refl) as [? ?]; subst.
Qed.

Lemma run_phases_no_temp sCtx id lang :
  wp (run_phases sb sCtx id lang) (fun tr _ => no_temp tr) [].
Proof.
  assert (He : wp (execution_phase sb sCtx id) (fun tr _ => no_temp tr) []).
  { unfold execution_phase. wp_step. eapply wp_use; [apply spec_execute_temp|].
    intros tr [[r [e|]]|m] Ht; repeat wp_step; auto.
    apply no_temp_app; [done|no_temp]. }
  unfold run_phases. destruct (NeedsCompilation lang); [|done].
  wp_step. eapply wp_use; [apply spec_compile_temp|].
  intros tr [[c [e|]]|m] Ht; repeat wp_step; auto.
  - apply no_temp_app; [done|no_temp].
  - destruct (comp_Success _); cbn [negb]; repeat wp_step.
    + eapply wp_use; [apply He|]. auto with go.
    + apply no_temp_app; [done|no_temp].
Qed.

(** The deferred cleanup runs last, once, and removes the workspace. *)
Lemma run_prepared_ok sCtx :
  placed sCtx ->
  wp (run_prepared sb sCtx (sc_ID sCtx) (sc_Language sCtx)) (fun tr o =>
    exists res tr1 tr2, o = Returned (Some res, None) /\ tr = tr1 ++ tr2 /\
      no_remove tr1 /\ phase_result sCtx res tr1 /\
      removes (sc_WorkingDir sCtx) tr2 /\ idle tr2) [].
Proof.
  intros Hpl. unfold run_prepared. wp_step. eapply wp_mono; [by apply run_phases_ok|].
  intros tr ? (Hk & res & -> & Hr). repeat wp_step.
  eapply wp_use; [apply spec_cleanup|]. intros tr2 ? ([? ->] & Hrm & Hi). repeat wp_step.
  by eexists _, _, _.
Qed.

Lemma run_prepared_temp sCtx lang id :
  wp (run_prepared sb sCtx id lang) (fun tr _ =>
    no_temp tr /\ removes (sc_WorkingDir sCtx) tr) [].
Proof.
  unfold run_prepared. wp_step. eapply wp_mono; [apply run_phases_no_temp|].
  intros tr o Ht. repeat wp_step. eapply wp_use.
  { apply wp_conj; [apply spec_cleanup_temp|apply spec_cleanup]. }
  intros tr2 ? (Ht2 & [? ->] & Hrm & _). repeat wp_step. auto with go.
Qed.

End Phases.

Section Run.
Context {UL : UnicodeLower} {OSName : Platform}.

(** Selection, with the fallback to the engine's own preference. *)
Definition select_backend (e : Engine) (req : ExecutionRequest) : prog osE (error + Sandbox) :=
  sb ← SelectSandbox (SandboxType req);
  match sb with
  | inl err =>
      if negb (bool_decide (SandboxBackend e = "")) then SelectSandbox (SandboxBackend e)
      else mret (inl err)
  | inr sb => mret (inr sb)
  end.

Definition Run (e : Engine) (req : option ExecutionRequest) : prog osE go_result :=
  match req with
  | None => mret (None, Some (errors_New "execution request cannot be nil"))
  | Some req =>
  req ← Normalize req;
  match Get init_registry (Language req) with
  | inl err =>
      now ← call TimeNow;
      mret (Some (failure (ID req) VerdictSystemError None (error_text err) "" now), None)
  | inr lang =>
  sb ← select_backend e req;
  match (sb : error + Sandbox) with
  | inl err =>
      now ← call TimeNow;
      mret (Some (failure (ID req) VerdictSystemError None
                    ("failed to select sandbox: " +:+ error_text err) "" now), None)
  | inr sb =>
  sCtx ← sb_Prepare sb req lang;
  match sCtx with
  | inl err =>
      now ← call TimeNow;
      mret (Some (failure (ID req) VerdictSystemError None
                    ("failed to prepare sandbox: " +:+ error_text err) (sb_Name sb) now), None)
  | inr sCtx => run_prepared sb sCtx (ID req) lang
  end end end end.

(** ** Lemmas on the whole pipeline *)

(** The request [Run] works on. *)
Definition normal_form (req req' : ExecutionRequest) : Prop :=
  normalized req' /\ req' = normalize_with (ID req') req /\ (ID req <> "" -> ID req' = ID req).

Lemma Normalize_ok req :
  wp (Normalize req) (fun tr o => no_temp tr /\
    exists req', o = Returned req' /\ normal_form req req') [].
Proof.
  unfold Normalize, normal_form. wp_step. case_bool_decide as Hid.
  - unfold generateExecutionID. repeat wp_step. destruct r as [b|]; repeat wp_step;
      (split; [no_temp|]); eexists; split_and!; try done; by apply normalize_with_normalized.
  - repeat wp_step. split; [no_temp|]. eexists; split_and!; try done.
    by apply normalize_with_normalized.
Qed.

Lemma select_backend_ok e req :
  wp (select_backend e req) (fun tr o => no_temp tr /\
    exists r, o = Returned r /\ forall sb, r = inr sb -> SandboxSpec sb) [].
Proof. unfold select_backend.
  wp_step. eapply wp_mono; [apply SelectSandbox_ok|]. intros tr ? [Ht ([err|sb] & -> & Hs)].
  - repeat wp_step. case_match.
    + eapply wp_use; [apply SelectSandbox_ok|]. intros tr2 ? [? (r & -> & Hr)].
      split; [auto with go|]. eexists; split; [done|]. intros sb ->. by destruct Hr.
    + wp_step. split; [done|]. eexists; split; [done|]. by intros ? [=].
  - repeat wp_step. split; [done|]. eexists; split; [done|]. intros ? [= <-]. by destruct Hs.
Qed.

Lemma Normalize_kept req : every removes_nothing (Normalize req).
Proof. unfold Normalize, generateExecutionID. every_run. Qed.

Lemma SelectSandbox_kept preference : every removes_nothing (SelectSandbox preference).
Proof.
  unfold SelectSandbox, docker_image, NewNativeCgroupV2Sandbox.
  destruct (bool_decide (GOOS = "linux")); cbn [sb_IsAvailable NativeCgroupV2Sandbox NativeFallbackSandbox
    DockerSandbox]; unfold native_IsAvailable, docker_IsAvailable; every_run.
Qed.

Lemma select_backend_kept e req : every removes_nothing (select_backend e req).
Proof. unfold select_backend. every_run; apply SelectSandbox_kept. Qed.

(** Once anything is removed no process is started any more. *)
Definition settled (tr : list (event osE)) : Prop :=
  exists tr1 tr2, tr = tr1 ++ tr2 /\ no_remove tr1 /\ idle tr2.

(** How a run ends that got as far as a prepared workspace: it is prepared in
    [tp], [tr1] is the work and [tr2] the deferred cleanup. *)
Definition ran (req' : ExecutionRequest) (res : ExecutionResult) (tr : list (event osE)) : Prop :=
  exists lang sb sCtx tp tr1 tr2,
    tr = tp ++ tr1 ++ tr2 /\ Get init_registry (Language req') = inr lang /\
    prepared req' lang sCtx tp /\ no_remove tr1 /\ phase_result sb sCtx res tr1 /\
    removes (sc_WorkingDir sCtx) tr2 /\ idle tr2.

Lemma ran_settled req' res tr : ran req' res tr -> settled tr.
Proof.
  intros (lang & sb & sCtx & tp & tr1 & tr2 & -> & _ & Hp & Hk & _ & _ & Hi). exists (tp ++ tr1), tr2.
  rewrite app_assoc. split_and!; [done| |done]. apply no_remove_app. split; [by destruct Hp|done].
Qed.

Lemma prepared_app req lang sCtx tr1 tr2 :
  no_remove tr1 -> prepared req lang sCtx tr2 -> prepared req lang sCtx (tr1 ++ tr2).
Proof.
  intros Hk []. split; try done; [by apply no_remove_app|apply Exists_app; by right..].
Qed.

Lemma settled_idle tr1 tr2 : no_remove tr1 -> idle tr2 -> settled (tr1 ++ tr2).
Proof. intros. by exists tr1, tr2. Qed.

Lemma Run_ok e req :
  wp (Run e (Some req)) (fun tr o => settled tr /\
    exists req' res, normal_form req req' /\ o = Returned (Some res, None) /\
      res_ID res = ID req' /\ (res_Verdict res = VerdictSystemError \/ ran req' res tr)) [].
Proof.
  unfold Run. wp_step. eapply wp_use; [apply wp_conj; [apply Normalize_ok|apply every_wp, Normalize_kept]|].
  intros tr0 ? [[_ (req' & -> & Hn)] Hk0].
  wp_step. destruct (Get _ _) as [err|lang] eqn:Hg.
  { repeat wp_step. split; [apply settled_idle; [done|harmless]|].
    eexists _, _. split_and!; [done..|by left]. }
  wp_step. eapply wp_use; [apply wp_conj; [apply select_backend_ok|apply every_wp, select_backend_kept]|].
  intros tr1 ? [[_ ([err|sb] & -> & Hsb)] Hk1]; cbn [app].
  { repeat wp_step. split; [apply settled_idle; [by apply no_remove_app|harmless]|].
    eexists _, _. split_and!; [done..|by left]. }
  wp_step. pose proof (Hsb sb eq_refl) as Spec. wp_step.
  assert (Hk : no_remove (tr0 ++ tr1)) by (by apply no_remove_app).
  eapply wp_use; [apply spec_prepare|]. intros tr2 ? (Hi & [err|sCtx] & -> & Hp); repeat wp_step.
  { split; [|eexists _, _; split_and!; [done..|by left]].
    rewrite <- app_assoc. apply settled_idle; [done|]. apply idle_app. split; [done|harmless]. }
  specialize (Hp sCtx eq_refl). pose proof (pr_placed _ _ _ _ Hp) as Hpl.
  pose proof (run_prepared_ok sb sCtx Hpl) as Hrun.
  rewrite (pr_id _ _ _ _ Hp), (pr_language _ _ _ _ Hp) in Hrun. eapply wp_use; [exact Hrun|].
  intros tr3 ? (res & tr4 & tr5 & -> & -> & Hk4 & Hr & Hrm & Hi5).
  assert (Hran : ran req' res (((tr0 ++ tr1) ++ tr2) ++ tr4 ++ tr5)).
  { exists lang, sb, sCtx, ((tr0 ++ tr1) ++ tr2), tr4, tr5. split_and!; try done. by apply prepared_app. }
  split; [by eapply ran_settled|]. eexists _, _. split; [done|split; [done|]].
  split; [destruct Hr as [-> _]; by destruct Hp|by right].
Qed.

Lemma Run_temp e req :
  wp (Run e (Some req)) (fun tr _ => forall dir, made_temp dir tr -> removes dir tr) [].
Proof.
  assert (Hquiet : forall tr, no_temp tr -> forall dir, made_temp dir tr -> removes dir tr)
    by (intros tr Ht dir Hm; by destruct (no_temp_made dir tr)).
  unfold Run. wp_step. eapply wp_use; [apply Normalize_ok|]. intros tr0 ? [Ht0 (req' & -> & Hn)].
  wp_step. destruct (Get _ _) as [err|lang].
  { repeat wp_step. apply Hquiet, no_temp_app; [done|no_temp]. }
  wp_step. eapply wp_use; [apply select_backend_ok|].
  intros tr1 ? [Ht1 ([err|sb] & -> & Hsb)]; cbn [app] in *.
  { repeat wp_step. apply Hquiet, no_temp_app; [by apply no_temp_app|no_temp]. }
  wp_step. pose proof (Hsb sb eq_refl) as Spec. wp_step.
  eapply wp_use; [apply wp_conj; [apply spec_prepare|apply spec_prepare_temp]|].
  intros tr2 ? ((_ & [err|sCtx] & -> & _) & Hp); repeat wp_step.
  - intros dir. rewrite !made_temp_app, !removes_app. intros [[Hm|Hm]|Hm].
    + destruct Hm as [Hm|Hm]; by apply no_temp_made in Hm.
    + auto.
    + by observe_in Hm.
  - eapply wp_use; [by apply run_prepared_temp|]. intros tr3 ? [Ht3 Hrm].
    intros dir. rewrite !made_temp_app, !removes_app. intros [[[Hm|Hm]|Hm]|Hm];
      [by apply no_temp_made in Hm..| |by apply no_temp_made in Hm].
    rewrite (Hp _ Hm). auto.
Qed.

(** ** Properties *)

(** C12: a request that is not nil always gets a result and never an error or a
    panic, in every environment; the result carries the request's ID (the
    generated one when it had none), and its verdict is SYSTEM_ERROR, or
    COMPILATION_ERROR, which only a C++ submission can get, or one of the
    six verdicts of a run. *)
Theorem Run_total (e : Engine) (req : ExecutionRequest) :
  wp (Run e (Some req)) (fun _ o =>
    exists res, o = Returned (Some res, None) /\ res_ID res <> "" /\
      (ID req <> "" -> res_ID res = ID req) /\
      (res_Verdict res = VerdictSystemError \/
       res_Verdict res = VerdictCompilationError /\
         Get init_registry (canonical_language (Language req)) = inr CppHandler \/
       res_Verdict res ∈ verdicts_of_a_run)) [].
Proof.
  eapply wp_mono; [apply Run_ok|]. intros tr o (_ & req' & res & (Hn & Heq & Hid) & -> & Hrid & Hv).
  exists res. rewrite Hrid. split_and!; [done|by destruct Hn|done|].
  destruct Hv as [?|(lang & sb & sCtx & tp & tr1 & tr2 & _ & Hg & Hp & _ & Hr & _)]; [by left|].
  destruct Hr as (_ & _ & [[Hr _]|[?|[? Hl]]]); [|by left|].
  - right; right. by destruct Hr.
  - right; left. split; [done|]. rewrite Heq in Hg. cbn in Hg. rewrite (pr_language _ _ _ _ Hp) in Hl.
    destruct (Get_cases (canonical_language (Language req))) as [(_ & H1)|[(_ & H1)|(_ & _ & H1)]];
      rewrite Hg in H1; [by rewrite Hg|by injection H1 as ->|done].
Qed.

(** C4: an ACCEPTED verdict can be trusted.  In this order and with nothing
    removed meanwhile: the code of the request was written out, unchanged, as
    the source file of a workspace made for it; for C++ the compiler was run on
    that file, to the workspace's binary, and ended with exit code 0; and the
    program of that workspace was run with the command line of its language on
    the request's input.  The output reported is what that run printed, cut at
    the request's cap, and the expected one up to trailing line ends when one
    was given; the exit code is 0, no OOM kill was seen and the wall time is
    within the request's (clamped) time limit.  After that the workspace is
    removed and no process is started any more.  (How the memory, CPU and
    process limits are put on the run is the backends' part.) *)
Theorem Run_accepted_sound (e : Engine) (req : ExecutionRequest) :
  wp (Run e (Some req)) (fun tr o => forall res,
    o = Returned (Some res, None) -> res_Verdict res = VerdictAccepted ->
    exists dir lang c tp tc tx t2,
      tr = tp ++ tc ++ tx ++ t2 /\
      Get init_registry (canonical_language (Language req)) = inr lang /\
      made_dir dir tp /\ wrote (Join [dir; SourceFilename lang]) (Code req) tp /\
      (NeedsCompilation lang = true -> compiler_ran lang dir 0 tc) /\
      program_ran lang dir (Stdin req) c tx /\
      no_remove (tp ++ tc ++ tx) /\ removes dir t2 /\ idle t2 /\
      output_of (normalize_with (res_ID res) req) c res /\
      res_ExitCode res = 0%Z /\ res_OOMKilled res = false /\
      flt (of_Z (clamp_limit DefaultTimeLimitMs MaxAllowedTimeLimitMs (TimeLimitMs req)))
          (res_WallTimeMs res) = false /\
      (len (to_bytes (res_Stdout res))
         <= default_limit DefaultMaxOutputBytes (MaxOutputBytes req))%Z /\
      (ExpectedOutput req = "" \/
       output_matches (res_Stdout res) (ExpectedOutput req) = true)) [].
Proof.
  eapply wp_mono; [apply Run_ok|]. intros tr o (_ & req' & res & (Hn & Heq & Hid) & -> & Hrid & Hv).
  intros ? [= <-] Ha. destruct Hv as [Hv|Hv]; [by rewrite Ha in Hv|].
  destruct Hv as (lang & sb & sCtx & tp & tr1 & tr2 & -> & Hg & [_ Hq Hla _ Hkp Hdir Hw] & Hk1 & Hr & Hrm & Hi).
  destruct Hr as (_ & _ & [[Hr (tc & tx & c & -> & Hc & Hx & Hout)]|[Hr|[Hr _]]]); [|by rewrite Ha in Hr..].
  destruct (ro_accepted _ _ _ Hr Ha) as (Hcode & Ht & Ho & He). pose proof (ro_stdout _ _ _ Hr) as Hlen.
  rewrite Hla, Hq in *. rewrite <- Hrid in Heq.
  assert (Hin : Stdin req' = Stdin req /\ Code req' = Code req /\ ExpectedOutput req' = ExpectedOutput req /\
    Language req' = canonical_language (Language req) /\
    TimeLimitMs req' = clamp_limit DefaultTimeLimitMs MaxAllowedTimeLimitMs (TimeLimitMs req) /\
    MaxOutputBytes req' = default_limit DefaultMaxOutputBytes (MaxOutputBytes req)) by (by rewrite Heq).
  destruct Hin as (E1 & E2 & E3 & E4 & E5 & E6). rewrite E1, E2, E3, E4, E5, E6 in *.
  exists (sc_WorkingDir sCtx), lang, c, tp, tc, tx, tr2. rewrite <- Heq.
  split_and!; try done; [by rewrite <- !app_assoc|by apply no_remove_app|].
  etrans; [exact Hlen|]. unfold BoundedBuffer.cap.
  pose proof (default_limit_range DefaultMaxOutputBytes (MaxOutputBytes req)) as Hd.
  case_bool_decide; unfold DefaultMaxOutputBytes in *; lia.
Qed.

(** C28: a run leaves no temporary workspace behind: every temporary directory
    that was made is also removed, on every path, those where preparing,
    compiling or executing fails included.  Removing comes last: on every path
    no process is started once anything was removed, and a run that ends
    otherwise than in SYSTEM_ERROR did all its work in a workspace that was
    made before, with nothing removed meanwhile, and then removes it. *)
Theorem Run_cleans_up (e : Engine) (req : ExecutionRequest) :
  wp (Run e (Some req)) (fun tr o =>
    (forall dir, made_temp dir tr -> removes dir tr) /\
    (exists tr1 tr2, tr = tr1 ++ tr2 /\ no_remove tr1 /\ idle tr2) /\
    (forall res err, o = Returned (Some res, err) -> res_Verdict res <> VerdictSystemError ->
       exists dir tr1 tr2, tr = tr1 ++ tr2 /\ made_dir dir tr1 /\ no_remove tr1 /\
         removes dir tr2 /\ idle tr2)) [].
Proof.
  apply wp_conj; [apply Run_temp|]. eapply wp_mono; [apply Run_ok|].
  intros tr o (Hs & req' & res & _ & -> & _ & Hv). split; [done|]. intros ? ? [= <- _] Hne.
  destruct Hv as [?|(lang & sb & sCtx & tp & tr1 & tr2 & -> & _ & [] & Hk & _ & Hrm & Hi)]; [done|].
  exists (sc_WorkingDir sCtx), (tp ++ tr1), tr2. split_and!; [by rewrite app_assoc| | |done|done].
  - apply Exists_app. by left.
  - by apply no_remove_app.
Qed.

End Run.

(** A host on which everything works and every program prints "1". *)
Definition healthy_host : env osE Z :=
  {| answer e s := (match e return resp e with
                    | TimeNow => s | NowFormat _ => "" | RandRead _ => None | Getenv _ => ""
                    | NumCPU => 4%Z | Geteuid => 0%Z | Statfs _ => inr 1667723888%Z
                    | Stat _ => None | MkdirAll _ _ => None | MkdirTemp _ _ => inr "/tmp/run-1"
                    | WriteFile _ _ _ => None
                    | ReadFile _ => inr "" | OpenScan _ => inr "" | Chown _ _ _ => None
                    | Chmod _ _ => None | Remove _ => None | RemoveAll _ => None
                    | RunCmd _ => Build_completion None [to_bytes "1"; [newline]] [] None false
                    | StartCmd _ => inr 4242%Z
                    | WaitOrTimeout _ _ =>
                        Some (Build_completion None [to_bytes "1"; [newline]] [] None false)
                    | WaitCmd _ => Build_completion None [] [] None false
                    | KillProcess _ => tt | KillGroup _ => tt
                    | SchedSetaffinity _ _ => 0%Z | AllocCore => 0%Z
                    end, (s + Millisecond)%Z) |}.

(** Both the cgroup backend and, with "dev", the plain one accept the sample;
    a nil request is the one error. *)
Example Run_accepts :
  let verdict o := match o with Returned (Some r, None) => res_Verdict r | _ => "" end in
  let go req := verdict (run healthy_host
    (@Run ascii_only "linux" (New "auto") (Some req)) 0%Z).1.2 in
  go sample_request = VerdictAccepted /\
  go (named_request "sub-2") = VerdictAccepted /\
  (run healthy_host (@Run ascii_only "linux" (New "auto") None) 0%Z).1.2
  = Returned (None, Some (Errorf "execution request cannot be nil")).
Proof. vm_compute. done. Qed.
