(* ===== verification/Chan.v ===== *)
(** * Buffered Go channels

    The channel operations of the in-memory queue and event bus: a buffer of
    bounded length and a closed flag.  Sending on or closing a closed channel
    panics, receiving from one drains the buffer first. *)

From S2P Require Import Prelude Go.

Record chan (A : Type) := { ch_cap : nat; ch_buf : list A; ch_closed : bool }.
Arguments ch_cap {A} c.
Arguments ch_buf {A} c.
Arguments ch_closed {A} c.

Definition send_on_closed : string := "send on closed channel".
Definition close_of_closed : string := "close of closed channel".

Section Chan.
Context {A : Type}.
Implicit Types (c : chan A) (x : A).

Definition make_chan (n : nat) : chan A := {| ch_cap := n; ch_buf := []; ch_closed := false |}.

Definition with_buf c (l : list A) : chan A :=
  {| ch_cap := ch_cap c; ch_buf := l; ch_closed := ch_closed c |}.

(** Whether a send case of a select can proceed (on a closed channel it does,
    and panics). *)
Definition send_ready c : bool := ch_closed c || bool_decide (length (ch_buf c) < ch_cap c).

Definition send c x : outcome (chan A) :=
  if ch_closed c then Panicked send_on_closed else Returned (with_buf c (ch_buf c ++ [x])).

(** [select { case c <- x: default: }] *)
Definition try_send c x : outcome (chan A) :=
  if send_ready c then send c x else Returned c.

Inductive received := Got (x : A) (c : chan A) | Drained | Blocked.

Definition recv c : received :=
  match ch_buf c with
  | x :: l => Got x (with_buf c l)
  | [] => if ch_closed c then Drained else Blocked
  end.

Definition close c : outcome (chan A) :=
  if ch_closed c then Panicked close_of_closed
  else Returned {| ch_cap := ch_cap c; ch_buf := ch_buf c; ch_closed := true |}.

(** The buffer never outgrows the capacity. *)
Definition chan_wf c : Prop := length (ch_buf c) <= ch_cap c.

Lemma make_chan_wf n : chan_wf (make_chan n).
Proof. unfold chan_wf. cbn. lia. Qed.

Lemma try_send_wf c x c' : chan_wf c -> try_send c x = Returned c' -> chan_wf c'.
Proof.
  unfold chan_wf, try_send, send_ready, send. destruct (ch_closed c); [done|]. cbn.
  case_bool_decide; intros ? [= <-]; cbn; rewrite ?length_app; cbn; lia.
Qed.

Lemma recv_wf c x c' : chan_wf c -> recv c = Got x c' -> chan_wf c'.
Proof.
  unfold chan_wf, recv. destruct (ch_buf c) eqn:Hb; [by destruct (ch_closed c)|].
  intros ? [= <- <-]. cbn in *. lia.
Qed.

Lemma close_wf c c' : chan_wf c -> close c = Returned c' -> chan_wf c'.
Proof. unfold chan_wf, close. destruct (ch_closed c); [done|]. by intros ? [= <-]. Qed.

Lemma try_send_open c x :
  ch_closed c = false ->
  try_send c x = Returned (if bool_decide (length (ch_buf c) < ch_cap c)
                           then with_buf c (ch_buf c ++ [x]) else c).
Proof. unfold try_send, send_ready, send. intros ->. cbn. by case_bool_decide. Qed.

End Chan.

Arguments received A : clear implicits.

#[export] Hint Resolve make_chan_wf try_send_wf recv_wf close_wf : go.
