(* ===== verification/Queue.v ===== *)
(** * The submission queue (pkg/queue/queue.go, memory_queue.go)

    [SubmissionJob] with its defaults, and [MemoryQueue].  Where a Go [select]
    has several ready cases the runtime picks any, so an operation here
    returns the list of its possible outcomes.  [Enqueue] tests the closed flag
    under the lock and sends after releasing it, two steps that other calls may
    interleave: [step] is the system of concurrent callers. *)

From S2P Require Import Prelude GoStrings GoFloat Go OS Models Chan.

Record TestCase := {
  tc_ID : string;
  tc_Input : string;
  tc_ExpectedOutput : string;
  tc_IsHidden : bool;
}.

Record SubmissionJob := {
  j_SubmissionID : string;
  j_Language : string;
  j_Code : string;
  j_TimeLimitMs : Z;
  j_MemoryLimitMB : Z;
  j_CpuQuota : float64;
  j_PidsLimit : Z;
  j_MaxOutputBytes : Z;
  j_SandboxType : string;
  j_TestCases : list TestCase;
  j_EnqueuedAt : time;
}.

#[export] Instance TestCase_eq_dec : EqDecision TestCase.
Proof. solve_decision. Defined.

(** The [Normalize] method of a job, with what [time.Now] gives. *)
Definition normalize_job (now : time) (j : SubmissionJob) : SubmissionJob :=
  {| j_SubmissionID := j_SubmissionID j;
     j_Language := j_Language j;
     j_Code := j_Code j;
     j_TimeLimitMs := default_limit DefaultTimeLimitMs (j_TimeLimitMs j);
     j_MemoryLimitMB := default_limit DefaultMemoryLimitMB (j_MemoryLimitMB j);
     j_CpuQuota := if fle (j_CpuQuota j) f0 then DefaultCpuQuota else j_CpuQuota j;
     j_PidsLimit := default_limit DefaultPidsLimit (j_PidsLimit j);
     j_MaxOutputBytes := default_limit DefaultMaxOutputBytes (j_MaxOutputBytes j);
     j_SandboxType := if bool_decide (j_SandboxType j = "") then "auto" else j_SandboxType j;
     j_TestCases := j_TestCases j;
     j_EnqueuedAt := if time_IsZero (j_EnqueuedAt j) then now else j_EnqueuedAt j |}.

(** ** MemoryQueue *)

Record MemoryQueue := { mq_ch : chan SubmissionJob; mq_closed : bool }.

Definition NewMemoryQueue (capacity : Z) : MemoryQueue :=
  let capacity := if bool_decide (capacity <= 0)%Z then 10000%Z else capacity in
  {| mq_ch := make_chan (Z.to_nat capacity); mq_closed := false |}.

(** The first half of [Enqueue], under the read lock. *)
Definition Enqueue_check (m : MemoryQueue) : option error :=
  if mq_closed m then Some (Sentinel ErrQueueClosed) else None.

(** The second half: the defaults and the select.  [ctxErr] is the error of the
    context when it is done. *)
Definition Enqueue_send (ctxErr : option error) (now : time) (m : MemoryQueue)
    (job : SubmissionJob) : list (MemoryQueue * outcome (option error)) :=
  let job := normalize_job now job in
  let done := match ctxErr with Some e => [(m, Returned (Some e))] | None => [] end in
  let sent :=
    if send_ready (mq_ch m) then
      match send (mq_ch m) job with
      | Returned ch => [({| mq_ch := ch; mq_closed := mq_closed m |}, Returned None)]
      | Panicked msg => [(m, Panicked msg)]
      end
    else [] in
  match done ++ sent with
  | [] => [(m, Returned (Some (Sentinel ErrBackpressureExceeded)))]
  | ready => ready
  end.

(** No outcome means that the call blocks. *)
Definition Dequeue (ctxErr : option error) (timer_fired : bool) (m : MemoryQueue)
    : list (MemoryQueue * (error + SubmissionJob)) :=
  match ctxErr with Some e => [(m, inl e)] | None => [] end ++
  (if timer_fired then [(m, inl (Sentinel ErrQueueEmpty))] else []) ++
  match recv (mq_ch m) with
  | Got job ch => [({| mq_ch := ch; mq_closed := mq_closed m |}, inr job)]
  | Drained => [(m, inl (Sentinel ErrQueueClosed))]
  | Blocked => []
  end.

Definition QueueDepth (m : MemoryQueue) : Z := len (ch_buf (mq_ch m)).

Definition Close (m : MemoryQueue) : outcome MemoryQueue :=
  if negb (mq_closed m) then
    match close (mq_ch m) with
    | Returned ch => Returned {| mq_ch := ch; mq_closed := true |}
    | Panicked msg => Panicked msg
    end
  else Returned m.

(** ** The calls of concurrent clients *)

(** [admitted] are the jobs whose [Enqueue] is between its two halves. *)
Record config := { cf_queue : MemoryQueue; cf_admitted : list SubmissionJob }.

Inductive label :=
| Checked (job : SubmissionJob)
| Enqueued (job : SubmissionJob)
| Rejected (err : error)
| SendPanicked (msg : string)
| Dequeued (job : SubmissionJob)
| DequeueFailed (err : error)
| Closed
| ClosePanicked (msg : string).

Definition send_label (now : time) (job : SubmissionJob) (o : outcome (option error)) : label :=
  match o with
  | Returned None => Enqueued (normalize_job now job)
  | Returned (Some err) => Rejected err
  | Panicked msg => SendPanicked msg
  end.

(** The [Err] method of a context. *)
Definition ctx_err (err : option error) : Prop :=
  err ∈ [None; Some (Sentinel ErrCanceled); Some (Sentinel ErrDeadlineExceeded)].

Inductive step : config -> label -> config -> Prop :=
| step_check_open m adm job :
    Enqueue_check m = None ->
    step {| cf_queue := m; cf_admitted := adm |} (Checked job)
         {| cf_queue := m; cf_admitted := job :: adm |}
| step_check_closed m adm err :
    Enqueue_check m = Some err ->
    step {| cf_queue := m; cf_admitted := adm |} (Rejected err)
         {| cf_queue := m; cf_admitted := adm |}
| step_send ctxErr now m adm1 job adm2 m' o :
    ctx_err ctxErr ->
    (m', o) ∈ Enqueue_send ctxErr now m job ->
    step {| cf_queue := m; cf_admitted := adm1 ++ job :: adm2 |} (send_label now job o)
         {| cf_queue := m'; cf_admitted := adm1 ++ adm2 |}
| step_dequeue ctxErr fired m adm m' job :
    ctx_err ctxErr ->
    (m', inr job) ∈ Dequeue ctxErr fired m ->
    step {| cf_queue := m; cf_admitted := adm |} (Dequeued job)
         {| cf_queue := m'; cf_admitted := adm |}
| step_dequeue_fail ctxErr fired m adm m' err :
    ctx_err ctxErr ->
    (m', inl err) ∈ Dequeue ctxErr fired m ->
    step {| cf_queue := m; cf_admitted := adm |} (DequeueFailed err)
         {| cf_queue := m'; cf_admitted := adm |}
| step_close m adm m' :
    Close m = Returned m' ->
    step {| cf_queue := m; cf_admitted := adm |} Closed
         {| cf_queue := m'; cf_admitted := adm |}
| step_close_panic m adm msg :
    Close m = Panicked msg ->
    step {| cf_queue := m; cf_admitted := adm |} (ClosePanicked msg)
         {| cf_queue := m; cf_admitted := adm |}.

Inductive steps : config -> list label -> config -> Prop :=
| steps_refl c : steps c [] c
| steps_trans c ls c' l c'' : steps c ls c' -> step c' l c'' -> steps c (ls ++ [l]) c''.

Definition initial (capacity : Z) : config :=
  {| cf_queue := NewMemoryQueue capacity; cf_admitted := [] |}.

Definition enqueued (ls : list label) : list SubmissionJob :=
  omap (fun l => match l with Enqueued j => Some j | _ => None end) ls.
Definition dequeued (ls : list label) : list SubmissionJob :=
  omap (fun l => match l with Dequeued j => Some j | _ => None end) ls.

(** ** Lemmas *)

(** The flag and the channel agree, and the buffer is within its capacity. *)
Record mq_ok (m : MemoryQueue) : Prop := {
  mq_wf : chan_wf (mq_ch m);
  mq_flag : ch_closed (mq_ch m) = mq_closed m;
}.

Abbreviation buffered m := (ch_buf (mq_ch m)).
Abbreviation capacity m := (ch_cap (mq_ch m)).

Lemma NewMemoryQueue_ok n : mq_ok (NewMemoryQueue n).
Proof. split; [apply make_chan_wf|done]. Qed.

(** What a send can do. *)
Inductive send_outcome (now : time) (m : MemoryQueue) (job : SubmissionJob)
    : option error -> MemoryQueue -> outcome (option error) -> Prop :=
| send_cancelled err : send_outcome now m job (Some err) m (Returned (Some err))
| send_full :
    mq_closed m = false -> length (buffered m) = capacity m ->
    send_outcome now m job None m (Returned (Some (Sentinel ErrBackpressureExceeded)))
| send_closed ctxErr :
    mq_closed m = true -> send_outcome now m job ctxErr m (Panicked send_on_closed)
| send_done ctxErr m' :
    mq_closed m = false -> mq_ok m' -> mq_closed m' = false -> capacity m' = capacity m ->
    buffered m' = buffered m ++ [normalize_job now job] ->
    send_outcome now m job ctxErr m' (Returned None).

Lemma Enqueue_send_outcome ctxErr now m job m' o :
  mq_ok m -> (m', o) ∈ Enqueue_send ctxErr now m job -> send_outcome now m job ctxErr m' o.
Proof.
  intros [Hwf Hf] Hin. unfold Enqueue_send, send_ready, send in Hin. rewrite Hf in Hin.
  unfold chan_wf in Hwf.
  destruct (mq_closed m) eqn:Hc; cbn [orb] in Hin.
  - destruct ctxErr; cbn in Hin; set_unfold in Hin.
    + destruct Hin as [[= -> ->]|[[= -> ->]|[]]]; by constructor.
    + destruct Hin as [[= -> ->]|[]]; by constructor.
  - case_bool_decide as Hlt.
    + assert (send_outcome now m job ctxErr
        {| mq_ch := with_buf (mq_ch m) (ch_buf (mq_ch m) ++ [normalize_job now job]);
           mq_closed := false |} (Returned None)) as Hs.
      { apply send_done; try done. split; [|done]. unfold chan_wf. cbn.
        rewrite length_app. cbn. lia. }
      destruct ctxErr; cbn in Hin; set_unfold in Hin.
      * destruct Hin as [[= -> ->]|[[= -> ->]|[]]]; [by constructor|done].
      * by destruct Hin as [[= -> ->]|[]].
    + destruct ctxErr; cbn in Hin; set_unfold in Hin; destruct Hin as [[= -> ->]|[]];
        constructor; [done|cbn; lia].
Qed.

Inductive dequeue_outcome (m : MemoryQueue) : MemoryQueue -> error + SubmissionJob -> Prop :=
| dequeue_got job m' :
    buffered m = job :: buffered m' -> mq_closed m' = mq_closed m -> capacity m' = capacity m ->
    mq_ok m' -> dequeue_outcome m m' (inr job)
| dequeue_failed err :
    (err = Sentinel ErrQueueClosed -> mq_closed m = true /\ buffered m = []) ->
    dequeue_outcome m m (inl err).

Lemma Dequeue_outcome ctxErr fired m m' r :
  mq_ok m -> ctx_err ctxErr ->
  (m', r) ∈ Dequeue ctxErr fired m -> dequeue_outcome m m' r.
Proof.
  intros [Hwf Hf] Hctx Hin. unfold Dequeue in Hin.
  apply elem_of_app in Hin as [Hin|Hin].
  { destruct ctxErr; set_unfold in Hin; [|done]. destruct Hin as [[= -> ->]|[]].
    constructor. intros ->. set_unfold in Hctx. naive_solver. }
  apply elem_of_app in Hin as [Hin|Hin].
  { destruct fired; set_unfold in Hin; [|done]. destruct Hin as [[= -> ->]|[]]. by constructor. }
  destruct (recv (mq_ch m)) as [job ch| |] eqn:Hr; set_unfold in Hin;
    [destruct Hin as [[= -> ->]|[]]..|done].
  - pose proof (recv_wf _ _ _ Hwf Hr). unfold recv in Hr.
    destruct (ch_buf (mq_ch m)) as [|j l] eqn:Hb; [by destruct (ch_closed _)|].
    injection Hr as -> <-. by constructor.
  - constructor. intros _. unfold recv in Hr.
    destruct (ch_buf (mq_ch m)); [|done]. by destruct (ch_closed _) eqn:?; simplify_eq.
Qed.

Lemma Close_ok m :
  mq_ok m -> exists m', Close m = Returned m' /\ mq_ok m' /\ mq_closed m' = true /\
    buffered m' = buffered m /\ capacity m' = capacity m.
Proof.
  intros [Hwf Hf]. unfold Close, close. rewrite Hf.
  destruct (mq_closed m) eqn:Hc; cbn; eexists; split_and!; try done. by split; rewrite ?Hc.
Qed.

(** One step keeps the queue well formed; what it does to the buffer is what
    its label says. *)
Record step_effect (c : config) (l : label) (c' : config) : Prop := {
  se_ok : mq_ok (cf_queue c');
  se_cap : capacity (cf_queue c') = capacity (cf_queue c);
  se_order : dequeued [l] ++ buffered (cf_queue c') = buffered (cf_queue c) ++ enqueued [l];
  se_closed : mq_closed (cf_queue c) = true -> mq_closed (cf_queue c') = true;
  se_admit : mq_closed (cf_queue c) = true -> cf_admitted c = [] -> cf_admitted c' = [];
  se_enqueue : enqueued [l] <> [] -> mq_closed (cf_queue c) = false;
  se_close : mq_closed (cf_queue c) = false -> mq_closed (cf_queue c') = true ->
    l = Closed /\ cf_admitted c' = cf_admitted c;
  se_panic msg : l = SendPanicked msg ->
    mq_closed (cf_queue c) = true /\ cf_admitted c <> [] /\ msg = send_on_closed;
  se_close_panic msg : l <> ClosePanicked msg;
}.

Lemma step_effect_of c l c' : mq_ok (cf_queue c) -> step c l c' -> step_effect c l c'.
Proof.
  intros Hok Hs. destruct Hs as [m adm job Hc|m adm err Hc|ctxErr now m adm1 job adm2 m' o Hctx Hin
    |ctxErr fired m adm m' job Hctx Hin|ctxErr fired m adm m' err Hctx Hin|m adm m' Hc|m adm msg Hc];
    cbn in *.
  - unfold Enqueue_check in Hc. destruct (mq_closed m) eqn:?; [done|].
    split; cbn; rewrite ?app_nil_r; try done; congruence.
  - split; cbn; rewrite ?app_nil_r; try done; congruence.
  - apply Enqueue_send_outcome in Hin; [|done].
    destruct Hin; split; cbn; rewrite ?app_nil_r; try done; try congruence;
      intros; destruct adm1; try done; naive_solver.
  - apply Dequeue_outcome in Hin; [|done..]. inversion Hin as [? ? Hb Hcl|]; subst.
    split; cbn; rewrite ?app_nil_r; try done; congruence.
  - apply Dequeue_outcome in Hin; [|done..]. inversion Hin; subst.
    split; cbn; rewrite ?app_nil_r; try done; congruence.
  - destruct (Close_ok m Hok) as (m2 & Heq & ? & ? & ? & ?). rewrite Hc in Heq.
    injection Heq as ->. split; cbn; rewrite ?app_nil_r; try done; try congruence.
  - destruct (Close_ok m Hok) as (m2 & Heq & _). by rewrite Hc in Heq.
Qed.

Lemma enqueued_app l1 l2 : enqueued (l1 ++ l2) = enqueued l1 ++ enqueued l2.
Proof. apply omap_app. Qed.

Lemma dequeued_app l1 l2 : dequeued (l1 ++ l2) = dequeued l1 ++ dequeued l2.
Proof. apply omap_app. Qed.

Lemma steps_effect c ls c' :
  mq_ok (cf_queue c) -> steps c ls c' ->
  mq_ok (cf_queue c') /\ capacity (cf_queue c') = capacity (cf_queue c) /\
  dequeued ls ++ buffered (cf_queue c') = buffered (cf_queue c) ++ enqueued ls.
Proof.
  intros Hok Hs. induction Hs as [c|c ls c1 l c2 _ IH Hstep]; [by rewrite app_nil_r|].
  destruct (IH Hok) as (Hok1 & Hcap & Ho).
  destruct (step_effect_of c1 l c2 Hok1 Hstep) as [Hok2 Hcap2 Ho2 _ _ _ _ _ _].
  split_and!; [done|congruence|].
  by rewrite dequeued_app, enqueued_app, <- app_assoc, Ho2, !app_assoc, Ho.
Qed.

(** ** Properties *)

(** C14: however the calls of concurrent clients interleave, the queue is first in,
    first out and loses or duplicates nothing: the jobs accepted so far are
    exactly the jobs handed out, in the same order, followed by the buffer,
    which never exceeds the capacity; and closing the queue never panics. *)
Theorem queue_fifo (n : Z) (ls : list label) (c : config) (Hs : steps (initial n) ls c) :
  enqueued ls = dequeued ls ++ buffered (cf_queue c) /\
  (QueueDepth (cf_queue c) <= if bool_decide (n <= 0)%Z then 10000 else n)%Z /\
  (forall msg, ClosePanicked msg ∉ ls).
Proof.
  assert (Hok : mq_ok (cf_queue (initial n))) by apply NewMemoryQueue_ok.
  destruct (steps_effect (initial n) ls c Hok Hs) as ([Hwf _] & Hcap & Ho). split_and!.
  - by rewrite Ho.
  - unfold QueueDepth, len. unfold chan_wf in Hwf. rewrite Hcap in Hwf. cbn in Hwf.
    case_bool_decide; lia.
  - intros msg. clear Hwf Hcap Ho. induction Hs as [|c0 ls c1 l c2 Hs1 IH Hstep]; [set_solver|].
    destruct (steps_effect c0 ls c1 Hok Hs1) as (Hok1 & _).
    pose proof (se_close_panic _ _ _ (step_effect_of c1 l c2 Hok1 Hstep) msg).
    rewrite elem_of_app, list_elem_of_singleton. naive_solver.
Qed.

Definition sample_job (id : string) : SubmissionJob :=
  {| j_SubmissionID := id; j_Language := "python"; j_Code := "print(1)"; j_TimeLimitMs := 0;
     j_MemoryLimitMB := 0; j_CpuQuota := f0; j_PidsLimit := 0; j_MaxOutputBytes := 0;
     j_SandboxType := "dev"; j_TestCases := []; j_EnqueuedAt := 5%Z |}.

Definition normal_job (id : string) : SubmissionJob := normalize_job 5 (sample_job id).

(** A queue of one place: "b" is refused, "a" comes out. *)
Lemma queue_fifo_witness :
  enqueued [Checked (sample_job "a"); Enqueued (normal_job "a"); Checked (sample_job "b");
            Rejected (Sentinel ErrBackpressureExceeded); Dequeued (normal_job "a")]
  = [normal_job "a"].
Proof.
  refine (proj1 (queue_fifo 1 _
    {| cf_queue := {| mq_ch := {| ch_cap := 1; ch_buf := []; ch_closed := false |};
                      mq_closed := false |}; cf_admitted := [] |} _)).
  refine (steps_trans _ [_; _; _; _] _ _ _ _ _).
  { refine (steps_trans _ [_; _; _] _ _ _ _ _).
    { refine (steps_trans _ [_; _] _ _ _ _ _).
      { refine (steps_trans _ [_] _ _ _ _ _).
        { refine (steps_trans _ [] _ _ _ (steps_refl _) _). by apply step_check_open. }
        apply (step_send None 5 _ [] (sample_job "a") []
          {| mq_ch := {| ch_cap := 1; ch_buf := [normal_job "a"]; ch_closed := false |};
             mq_closed := false |} (Returned None)); by constructor. }
      by apply step_check_open. }
    apply (step_send None 5 _ [] (sample_job "b") []
      {| mq_ch := {| ch_cap := 1; ch_buf := [normal_job "a"]; ch_closed := false |};
         mq_closed := false |} (Returned (Some (Sentinel ErrBackpressureExceeded))));
      by constructor. }
  apply (step_dequeue None false); by constructor.
Defined.

(** Once the queue is closed and no [Enqueue] is between its two halves, no
    later call adds a job or panics: what follows only hands out the jobs still
    buffered, in order, and a "queue is closed" answer to [Dequeue] comes only
    after the last of them. *)
Theorem queue_close_drains (c : config) (ls : list label) (c' : config)
    (Hok : mq_ok (cf_queue c)) (Hclosed : mq_closed (cf_queue c) = true)
    (Hquiet : cf_admitted c = []) (Hs : steps c ls c') :
  buffered (cf_queue c) = dequeued ls ++ buffered (cf_queue c') /\
  enqueued ls = [] /\ (forall msg, SendPanicked msg ∉ ls) /\
  (forall ctxErr fired, ctx_err ctxErr ->
     (cf_queue c', inl (Sentinel ErrQueueClosed)) ∈ Dequeue ctxErr fired (cf_queue c') <->
     buffered (cf_queue c') = []).
Proof.
  assert (Hinv : mq_ok (cf_queue c') /\ mq_closed (cf_queue c') = true /\ cf_admitted c' = [] /\
    enqueued ls = [] /\ forall msg, SendPanicked msg ∉ ls).
  { induction Hs as [|c0 ls c1 l c2 _ IH Hstep]; [by split_and!; try set_solver|].
    destruct (IH Hok Hclosed Hquiet) as (Hok1 & Hc1 & Ha1 & He & Hp).
    destruct (step_effect_of c1 l c2 Hok1 Hstep) as [? _ _ Hc Ha Henq _ Hpan _].
    split_and!; auto.
    - rewrite enqueued_app, He. destruct (enqueued [l]); [done|].
      by rewrite Hc1 in Henq; specialize (Henq ltac:(done)).
    - intros msg. rewrite elem_of_app, list_elem_of_singleton. intros [?|<-]; [naive_solver|].
      by destruct (Hpan msg eq_refl) as (_ & ? & _). }
  destruct Hinv as (Hok' & Hc' & _ & He & Hp).
  destruct (steps_effect c ls c' Hok Hs) as (_ & _ & Ho).
  rewrite He, app_nil_r in Ho. split_and!; try done. intros ctxErr fired Hctx. split.
  - intros Hin. apply Dequeue_outcome in Hin; [|done..]. inversion Hin; subst. naive_solver.
  - intros Hb. unfold Dequeue, recv. destruct Hok' as [_ Hf]. rewrite Hb, Hf, Hc'. set_solver.
Qed.

Lemma queue_close_drains_witness :
  dequeued [Dequeued (normal_job "a")] = [normal_job "a"].
Proof.
  refine (eq_sym (eq_trans (proj1 (queue_close_drains
    {| cf_queue := {| mq_ch := {| ch_cap := 2; ch_buf := [normal_job "a"]; ch_closed := true |};
                      mq_closed := true |}; cf_admitted := [] |}
    [Dequeued (normal_job "a")]
    {| cf_queue := {| mq_ch := {| ch_cap := 2; ch_buf := []; ch_closed := true |};
                      mq_closed := true |}; cf_admitted := [] |} _ _ _ _)) _)).
  - split; [|done]. unfold chan_wf. cbn. lia.
  - done.
  - done.
  - refine (steps_trans _ [] _ _ _ (steps_refl _) _). apply (step_dequeue None false); by constructor.
  - done.
Defined.

(** C32: the only way [Enqueue] can panic is the race of its two halves with
    [Close]: before a panic there was a [Close] at a moment when some call had
    passed the closed test and not yet sent, and the race does happen. *)
Theorem queue_panic_is_close_race (n : Z) :
  (forall ls c msg, steps (initial n) ls c -> SendPanicked msg ∈ ls ->
     exists l1 l2 c1, ls = l1 ++ Closed :: l2 /\ steps (initial n) l1 c1 /\
       cf_admitted c1 <> []) /\
  (forall job, exists c, steps (initial n)
     [Checked job; Closed; SendPanicked send_on_closed] c).
Proof.
  split.
  - intros ls c msg Hs.
    set (raced := fun ls => exists l1 l2 c1, ls = l1 ++ Closed :: l2 /\
      steps (initial n) l1 c1 /\ cf_admitted c1 <> []).
    change (SendPanicked msg ∈ ls -> raced ls).
    enough (mq_ok (cf_queue c) /\ (raced ls \/
      ((mq_closed (cf_queue c) = true -> cf_admitted c = []) /\ SendPanicked msg ∉ ls)))
      by naive_solver.
    remember (initial n) as c0 eqn:Hc0.
    induction Hs as [|c0 ls c1 l c2 Hs IH Hstep]; subst.
    { split; [apply NewMemoryQueue_ok|]. right. split; [done|set_solver]. }
    destruct (IH eq_refl) as (Hok1 & Hr).
    destruct (step_effect_of c1 l c2 Hok1 Hstep) as [Hok2 _ _ _ Ha _ Hcl Hpan _].
    split; [done|]. destruct Hr as [(l1 & l2 & c3 & -> & ? & ?)|[Hq Hn]].
    { left. exists l1, (l2 ++ [l]), c3. by rewrite <- app_assoc. }
    destruct (decide (cf_admitted c1 = [])) as [He|He];
      destruct (mq_closed (cf_queue c1)) eqn:Hc1; try (by specialize (Hq eq_refl)).
    + right. split; [auto|]. rewrite elem_of_app, list_elem_of_singleton.
      intros [?|<-]; [done|]. by destruct (Hpan msg eq_refl) as (_ & ? & _).
    + right. split.
      * intros H2. destruct (Hcl eq_refl H2) as [_ ->]. done.
      * rewrite elem_of_app, list_elem_of_singleton.
        intros [?|<-]; [done|]. by destruct (Hpan msg eq_refl) as (? & _).
    + destruct (mq_closed (cf_queue c2)) eqn:Hc2.
      * left. destruct (Hcl eq_refl eq_refl) as [-> _]. by exists ls, [], c1.
      * right. split; [done|]. rewrite elem_of_app, list_elem_of_singleton.
        intros [?|<-]; [done|]. by destruct (Hpan msg eq_refl) as (? & _).
  - intros job.
    set (closed := {| mq_ch := {| ch_cap := capacity (NewMemoryQueue n); ch_buf := [];
                                  ch_closed := true |}; mq_closed := true |}).
    exists {| cf_queue := closed; cf_admitted := [] |}. refine (steps_trans _ [_; _] _ _ _ _ _).
    { refine (steps_trans _ [_] _ _ _ _ _).
      { refine (steps_trans _ [] _ _ _ (steps_refl _) _). by apply step_check_open. }
      by apply step_close. }
    apply (step_send None 0 closed [] job [] closed (Panicked send_on_closed)); by constructor.
Qed.
