(* ===== verification/Events.v ===== *)
(** * Execution events and the in-memory event bus (pkg/events)

    The bus keeps, per submission, a list of channels; the channels live in a
    heap, because the subscriber, the bus and the cleanup closure share each of
    them.  [bus_once] is the [sync.Once] of the closures that have run.  Every
    method is one step here: it holds the bus's lock from start to end, or,
    [Publish], its read lock.
    [bus_closures] is the submission each cleanup closure captured. *)

From S2P Require Import Prelude GoStrings GoFloat Go OS Models Chan.

(** ** Events (events.go) *)

Abbreviation EventStatus := string (only parsing).

Definition StatusQueued : EventStatus := "QUEUED".
Definition StatusCompiling : EventStatus := "COMPILING".
Definition StatusRunning : EventStatus := "RUNNING".
Definition StatusTestCaseStart : EventStatus := "TESTCASE_START".
Definition StatusTestCasePassed : EventStatus := "TESTCASE_PASSED".
Definition StatusTestCaseFailed : EventStatus := "TESTCASE_FAILED".
Definition StatusCompleted : EventStatus := "COMPLETED".
Definition StatusFailed : EventStatus := "FAILED".

Record TestCaseResult := {
  tr_TestCaseID : string;
  tr_Index : Z;
  tr_Verdict : Verdict;
  tr_ExitCode : Z;
  tr_Stdout : string;
  tr_Stderr : string;
  tr_WallTimeMs : float64;
  tr_CpuTimeMs : float64;
  tr_PeakMemoryMB : float64;
  tr_OOMKilled : bool;
}.

Record ExecutionEvent := {
  ev_SubmissionID : string;
  ev_Status : EventStatus;
  ev_Timestamp : time;
  ev_CurrentTestCase : Z;
  ev_TotalTestCases : Z;
  ev_Verdict : Verdict;
  ev_TestCaseResult : option TestCaseResult;
  ev_Compilation : option CompilationResult;
  ev_StdoutChunk : string;
  ev_StderrChunk : string;
  ev_WallTimeMs : float64;
  ev_CpuTimeMs : float64;
  ev_PeakMemoryMB : float64;
  ev_ErrorDetails : string;
}.

(** The fields [Publish] overwrites. *)
Definition stamp (now : time) (submissionID : string) (e : ExecutionEvent) : ExecutionEvent :=
  {| ev_SubmissionID := submissionID;
     ev_Status := ev_Status e;
     ev_Timestamp := if time_IsZero (ev_Timestamp e) then now else ev_Timestamp e;
     ev_CurrentTestCase := ev_CurrentTestCase e;
     ev_TotalTestCases := ev_TotalTestCases e;
     ev_Verdict := ev_Verdict e;
     ev_TestCaseResult := ev_TestCaseResult e;
     ev_Compilation := ev_Compilation e;
     ev_StdoutChunk := ev_StdoutChunk e;
     ev_StderrChunk := ev_StderrChunk e;
     ev_WallTimeMs := ev_WallTimeMs e;
     ev_CpuTimeMs := ev_CpuTimeMs e;
     ev_PeakMemoryMB := ev_PeakMemoryMB e;
     ev_ErrorDetails := ev_ErrorDetails e |}.

(** ** MemoryEventBus (memory_bus.go) *)

Record MemoryEventBus := {
  bus_subscribers : gmap string (list nat);
  bus_chans : gmap nat (chan ExecutionEvent);
  bus_next : nat;
  bus_closures : gmap nat string;
  bus_once : gset nat;
  bus_closed : bool;
}.

Definition NewMemoryEventBus : MemoryEventBus :=
  {| bus_subscribers := ∅; bus_chans := ∅; bus_next := 0;
     bus_closures := ∅; bus_once := ∅; bus_closed := false |}.

Definition with_chans (m : MemoryEventBus) (h : gmap nat (chan ExecutionEvent))
    : MemoryEventBus :=
  {| bus_subscribers := bus_subscribers m; bus_chans := h; bus_next := bus_next m;
     bus_closures := bus_closures m; bus_once := bus_once m; bus_closed := bus_closed m |}.

(** An operation on a channel of the heap; one that is not there is nil. *)
Definition on_chan (h : gmap nat (chan ExecutionEvent)) (i : nat)
    (f : chan ExecutionEvent -> outcome (chan ExecutionEvent))
    : outcome (gmap nat (chan ExecutionEvent)) :=
  match h !! i with
  | Some c => match f c with Returned c' => Returned (<[i := c']> h) | Panicked msg => Panicked msg end
  | None => Panicked nil_deref
  end.

(** [for _, ch := range subs { f(ch) }] *)
Fixpoint each_chan (f : chan ExecutionEvent -> outcome (chan ExecutionEvent)) (subs : list nat)
    (h : gmap nat (chan ExecutionEvent)) : outcome (gmap nat (chan ExecutionEvent)) :=
  match subs with
  | [] => Returned h
  | i :: subs => match on_chan h i f with
                 | Returned h' => each_chan f subs h'
                 | Panicked msg => Panicked msg
                 end
  end.

(** [Publish] holds the bus's read lock only, so several may run at once and
    interleave channel by channel; it is one step here.  For the channel of one
    subscriber, which each of them reaches at most once, that is an order of
    the publications. *)
Definition Publish (now : time) (m : MemoryEventBus) (submissionID : string)
    (event : option ExecutionEvent) : outcome MemoryEventBus :=
  match event with
  | None => Returned m
  | Some event =>
      let event := stamp now submissionID event in
      if bus_closed m then Returned m
      else match bus_subscribers m !! submissionID with
      | None => Returned m
      | Some subs =>
          match each_chan (fun ch => try_send ch event) subs (bus_chans m) with
          | Returned h => Returned (with_chans m h)
          | Panicked msg => Panicked msg
          end
      end
  end.

Definition Subscribe (m : MemoryEventBus) (submissionID : string) : MemoryEventBus * nat :=
  let eventCh := bus_next m in
  ({| bus_subscribers :=
        <[submissionID := default [] (bus_subscribers m !! submissionID) ++ [eventCh]]>
          (bus_subscribers m);
      bus_chans := <[eventCh := make_chan 64]> (bus_chans m);
      bus_next := S eventCh;
      bus_closures := <[eventCh := submissionID]> (bus_closures m);
      bus_once := bus_once m;
      bus_closed := bus_closed m |}, eventCh).

(** The closure [Subscribe] returns. *)
Definition cleanup (m : MemoryEventBus) (submissionID : string) (eventCh : nat)
    : outcome MemoryEventBus :=
  if bool_decide (eventCh ∈ bus_once m) then Returned m
  else
    let subs := default [] (bus_subscribers m !! submissionID) in
    let newSubs := filter (fun ch => ch <> eventCh) subs in
    let subscribers :=
      if bool_decide (newSubs = []) then delete submissionID (bus_subscribers m)
      else <[submissionID := newSubs]> (bus_subscribers m) in
    match on_chan (bus_chans m) eventCh close with
    | Returned h =>
        Returned {| bus_subscribers := subscribers; bus_chans := h; bus_next := bus_next m;
                    bus_closures := bus_closures m;
                    bus_once := {[eventCh]} ∪ bus_once m; bus_closed := bus_closed m |}
    | Panicked msg => Panicked msg
    end.

(** The order in which a Go map is traversed does not matter here. *)
Definition all_subscribers (m : MemoryEventBus) : list nat :=
  map_to_list (bus_subscribers m) ≫= snd.

Definition Close (m : MemoryEventBus) : outcome MemoryEventBus :=
  if negb (bus_closed m) then
    match each_chan close (all_subscribers m) (bus_chans m) with
    | Returned h =>
        Returned {| bus_subscribers := ∅; bus_chans := h; bus_next := bus_next m;
                    bus_closures := bus_closures m; bus_once := bus_once m; bus_closed := true |}
    | Panicked msg => Panicked msg
    end
  else Returned m.

(** [<-ch] in a subscriber. *)
Definition receive (m : MemoryEventBus) (i : nat) : option (ExecutionEvent * MemoryEventBus) :=
  match bus_chans m !! i with
  | Some c => match recv c with
              | Got e c' => Some (e, with_chans m (<[i := c']> (bus_chans m)))
              | _ => None
              end
  | None => None
  end.

(** ** The invariant *)

Definition open_chan (c : chan ExecutionEvent) : Prop :=
  ch_closed c = false /\ ch_cap c = 64 /\ chan_wf c.

Record bus_ok (m : MemoryEventBus) : Prop := {
  (** A registered channel is open, its closure captured the submission it is
      registered for and has not run. *)
  bo_registered id subs i :
    bus_subscribers m !! id = Some subs -> i ∈ subs ->
    bus_closures m !! i = Some id /\ i ∉ bus_once m /\
    exists c, bus_chans m !! i = Some c /\ open_chan c;
  bo_nodup id subs : bus_subscribers m !! id = Some subs -> NoDup subs;
  (** On an open bus a channel stays registered until its closure runs. *)
  bo_live id i :
    bus_closed m = false -> bus_closures m !! i = Some id -> i ∉ bus_once m ->
    exists subs, bus_subscribers m !! id = Some subs /\ i ∈ subs;
  bo_fresh i : is_Some (bus_chans m !! i) \/ is_Some (bus_closures m !! i) \/ i ∈ bus_once m ->
    i < bus_next m;
}.

Lemma NewMemoryEventBus_ok : bus_ok NewMemoryEventBus.
Proof.
  split; cbn; try set_solver. intros i [[? H]|[[? H]|H]]; set_solver.
Qed.

(** What [try_send] does to an open channel. *)
Definition offer (e : ExecutionEvent) (c : chan ExecutionEvent) : chan ExecutionEvent :=
  if bool_decide (length (ch_buf c) < ch_cap c) then with_buf c (ch_buf c ++ [e]) else c.

Definition closed_of (c : chan ExecutionEvent) : chan ExecutionEvent :=
  {| ch_cap := ch_cap c; ch_buf := ch_buf c; ch_closed := true |}.

Lemma try_send_offer e c : open_chan c -> try_send c e = Returned (offer e c).
Proof. intros [H _]. by apply try_send_open. Qed.

Lemma close_closed_of c : open_chan c -> close c = Returned (closed_of c).
Proof. intros [H _]. unfold close. by rewrite H. Qed.

Lemma offer_open e c : open_chan c -> open_chan (offer e c).
Proof.
  intros (Hc & Hcap & Hwf). unfold offer, open_chan, chan_wf in *.
  case_bool_decide; cbn; rewrite ?length_app; cbn; split_and!; try done; lia.
Qed.

(** A loop over distinct live channels that never fails. *)
Lemma each_chan_spec f g subs : forall h,
  NoDup subs ->
  (forall i, i ∈ subs -> exists c, h !! i = Some c /\ f c = Returned (g c)) ->
  exists h', each_chan f subs h = Returned h' /\
    forall i, h' !! i = if decide (i ∈ subs) then g <$> h !! i else h !! i.
Proof.
  induction subs as [|j subs IH]; intros h Hnd Hf; cbn.
  { exists h. split; [done|]. intros i. by case_decide; set_solver. }
  apply NoDup_cons in Hnd as [Hj Hnd].
  destruct (Hf j ltac:(set_solver)) as (c & Hc & Hfc). unfold on_chan. rewrite Hc, Hfc.
  destruct (IH (<[j := g c]> h) Hnd) as (h' & -> & Hh').
  { intros i Hi. destruct (Hf i ltac:(set_solver)) as (ci & Hci & Hfi). exists ci.
    by rewrite lookup_insert_ne by set_solver. }
  exists h'. split; [done|]. intros i. rewrite Hh'.
  destruct (decide (i = j)) as [->|Hne].
  - rewrite lookup_insert_eq, Hc. repeat case_decide; set_solver.
  - rewrite lookup_insert_ne by done. repeat case_decide; set_solver.
Qed.

Lemma all_subscribers_elem m i :
  i ∈ all_subscribers m <-> exists id subs, bus_subscribers m !! id = Some subs /\ i ∈ subs.
Proof.
  unfold all_subscribers. rewrite list_elem_of_bind. setoid_rewrite elem_of_map_to_list'.
  split.
  - intros ([id subs] & ? & ?). by exists id, subs.
  - intros (id & subs & ? & ?). by exists (id, subs).
Qed.

Lemma all_subscribers_nodup m : bus_ok m -> NoDup (all_subscribers m).
Proof.
  intros Hok. apply NoDup_bind.
  - intros [id1 s1] [id2 s2] i Hin1 Hin2 H1 H2.
    apply elem_of_map_to_list in Hin1, Hin2. cbn in *.
    destruct (bo_registered m Hok _ _ _ Hin1 H1) as [Hc1 _].
    destruct (bo_registered m Hok _ _ _ Hin2 H2) as [Hc2 _]. congruence.
  - intros [id s] Hin. apply elem_of_map_to_list in Hin. by apply (bo_nodup m Hok id).
  - apply NoDup_map_to_list.
Qed.

(** Changing the contents of open channels keeps the invariant. *)
Lemma with_chans_ok m h :
  bus_ok m ->
  (forall i, is_Some (h !! i) <-> is_Some (bus_chans m !! i)) ->
  (forall i c, bus_chans m !! i = Some c -> open_chan c -> exists c', h !! i = Some c' /\ open_chan c') ->
  bus_ok (with_chans m h).
Proof.
  intros Hok Hdom Hopen. split; cbn.
  - intros id subs i Hs Hi. destruct (bo_registered m Hok id subs i Hs Hi) as (? & ? & c & ? & ?).
    eauto.
  - apply (bo_nodup m Hok).
  - apply (bo_live m Hok).
  - intros i. rewrite Hdom. apply (bo_fresh m Hok).
Qed.

(** The channels an event for a submission is offered to. *)
Definition targets (m : MemoryEventBus) (submissionID : string) : list nat :=
  if bus_closed m then [] else default [] (bus_subscribers m !! submissionID).

Lemma Publish_spec now m id e :
  bus_ok m ->
  exists h, Publish now m id (Some e) = Returned (with_chans m h) /\ bus_ok (with_chans m h) /\
    forall i, h !! i = if decide (i ∈ targets m id)
                       then offer (stamp now id e) <$> bus_chans m !! i
                       else bus_chans m !! i.
Proof.
  intros Hok. unfold Publish, targets.
  assert (Hsame : m = with_chans m (bus_chans m)) by (by destruct m).
  destruct (bus_closed m).
  { exists (bus_chans m). rewrite <- Hsame. split_and!; [done..|]. intros i. by case_decide; set_solver. }
  destruct (bus_subscribers m !! id) as [subs|] eqn:Hs; cbn.
  2:{ exists (bus_chans m). rewrite <- Hsame. split_and!; [done..|].
      intros i. by case_decide; set_solver. }
  destruct (each_chan_spec (fun ch => try_send ch (stamp now id e)) (offer (stamp now id e)) subs
    (bus_chans m)) as (h & -> & Hh).
  { by apply (bo_nodup m Hok id). }
  { intros i Hi. destruct (bo_registered m Hok id subs i Hs Hi) as (_ & _ & c & Hc & Ho).
    exists c. split; [done|]. by apply try_send_offer. }
  exists h. split_and!; [done| |done]. apply with_chans_ok; [done|..].
  - intros i. rewrite Hh. case_decide; [by rewrite fmap_is_Some|done].
  - intros i c Hc Ho. rewrite Hh, Hc. case_decide; cbn; eauto using offer_open.
Qed.

Lemma Subscribe_ok m id : bus_ok m -> bus_ok (Subscribe m id).1.
Proof.
  intros Hok.
  assert (Hfresh : forall id subs, bus_subscribers m !! id = Some subs -> bus_next m ∉ subs).
  { intros id' subs Hs Hin. destruct (bo_registered m Hok _ _ _ Hs Hin) as (_ & _ & c & Hc & _).
    pose proof (bo_fresh m Hok (bus_next m) (or_introl (ex_intro _ c Hc))). lia. }
  assert (Honce : bus_next m ∉ bus_once m).
  { intros Hin. pose proof (bo_fresh m Hok (bus_next m) (or_intror (or_intror Hin))). lia. }
  split; cbn.
  - intros id' subs i. destruct (decide (id' = id)) as [->|Hne].
    + rewrite lookup_insert_eq. intros [= <-] [Hin|Hin]%elem_of_app.
      * destruct (bus_subscribers m !! id) as [s|] eqn:Hs; cbn in Hin; [|set_solver].
        destruct (bo_registered m Hok id s i Hs Hin) as (? & ? & ?).
        specialize (Hfresh _ _ Hs). rewrite !lookup_insert_ne by set_solver. auto.
      * apply list_elem_of_singleton in Hin as ->. rewrite !lookup_insert_eq.
        split_and!; [done..|]. eexists; split; [done|]. split_and!; try done. apply make_chan_wf.
    + rewrite lookup_insert_ne by done. intros Hs Hin.
      destruct (bo_registered m Hok id' subs i Hs Hin) as (? & ? & ?).
      specialize (Hfresh _ _ Hs). rewrite !lookup_insert_ne by set_solver. auto.
  - intros id' subs. destruct (decide (id' = id)) as [->|Hne].
    + rewrite lookup_insert_eq. intros [= <-].
      destruct (bus_subscribers m !! id) as [s|] eqn:Hs; cbn; [|apply NoDup_singleton].
      apply NoDup_app. split_and!; [by apply (bo_nodup m Hok id)| |apply NoDup_singleton].
      specialize (Hfresh _ _ Hs). set_solver.
    + rewrite lookup_insert_ne by done. apply (bo_nodup m Hok).
  - intros id' i Hcl. destruct (decide (i = bus_next m)) as [->|Hi].
    + rewrite lookup_insert_eq. intros [= <-] _. rewrite lookup_insert_eq.
      eexists; split; [done|]. set_solver.
    + rewrite lookup_insert_ne by done. intros Hc Ho.
      destruct (bo_live m Hok id' i Hcl Hc Ho) as (subs & Hs & Hin).
      destruct (decide (id' = id)) as [->|Hne].
      * rewrite lookup_insert_eq, Hs. eexists; split; [done|]. set_solver.
      * rewrite lookup_insert_ne by done. eauto.
  - intros i Hi. destruct (decide (i = bus_next m)) as [->|Hne]; [lia|].
    rewrite !lookup_insert_ne in Hi by done. pose proof (bo_fresh m Hok i Hi). lia.
Qed.

Definition unregister (m : MemoryEventBus) (id : string) (i : nat) : gmap string (list nat) :=
  let newSubs := filter (fun ch => ch <> i) (default [] (bus_subscribers m !! id)) in
  if bool_decide (newSubs = []) then delete id (bus_subscribers m)
  else <[id := newSubs]> (bus_subscribers m).

(** Unregistering removes the channel and nothing else. *)
Lemma unregister_lookup m id i id' j :
  (exists subs, unregister m id i !! id' = Some subs /\ j ∈ subs) <->
  (exists subs, bus_subscribers m !! id' = Some subs /\ j ∈ subs) /\ ~ (id' = id /\ j = i).
Proof.
  unfold unregister. destruct (decide (id' = id)) as [->|Hne].
  - destruct (bus_subscribers m !! id) as [s|] eqn:Hs; cbn.
    + case_bool_decide as Hf.
      * rewrite lookup_delete_eq. split; [naive_solver|]. intros [(s' & [= <-] & Hj) Hn].
        assert (j ∈ filter (fun ch => ch <> i) s) as Hin by (apply list_elem_of_filter; naive_solver).
        rewrite Hf in Hin. set_solver.
      * rewrite lookup_insert_eq. split.
        { intros (s' & [= <-] & Hj%list_elem_of_filter). naive_solver. }
        intros [(s' & [= <-] & Hj) Hn]. eexists; split; [done|].
        apply list_elem_of_filter. naive_solver.
    + rewrite lookup_delete_eq. naive_solver.
  - case_bool_decide; rewrite ?lookup_delete_ne, ?lookup_insert_ne by done; naive_solver.
Qed.

Lemma cleanup_ok m id i :
  bus_ok m -> bus_closures m !! i = Some id -> i ∉ bus_once m -> bus_closed m = false ->
  exists m', cleanup m id i = Returned m' /\ bus_ok m' /\ bus_closed m' = false /\
    bus_closures m' = bus_closures m /\ bus_subscribers m' = unregister m id i /\
    bus_once m' = {[i]} ∪ bus_once m /\
    (forall j, bus_chans m' !! j = if decide (j = i) then closed_of <$> bus_chans m !! j
                                   else bus_chans m !! j).
Proof.
  intros Hok Hc Ho Hcl. destruct (bo_live m Hok id i Hcl Hc Ho) as (subs & Hs & Hi).
  destruct (bo_registered m Hok id subs i Hs Hi) as (_ & _ & c & Hch & Hopen).
  unfold cleanup. rewrite bool_decide_eq_false_2 by done. unfold on_chan.
  rewrite Hch, (close_closed_of c Hopen).
  eexists. split; [done|]. cbn. fold (unregister m id i). split_and!; try done.
  2:{ intros j. case_decide; subst; [by rewrite lookup_insert_eq, Hch|].
      by rewrite lookup_insert_ne by done. }
  split; cbn; fold (unregister m id i).
  - intros id' subs' j Hs' Hj.
    destruct (proj1 (unregister_lookup m id i id' j)) as [(s & Hs0 & Hj0) Hne]; [eauto|].
    destruct (bo_registered m Hok id' s j Hs0 Hj0) as (Hcj & Hoj & cj & Hchj & Hopj).
    assert (j <> i) by (intros ->; naive_solver).
    split_and!; [done|set_solver|]. exists cj. by rewrite lookup_insert_ne.
  - intros id' subs' Hs'. unfold unregister in Hs'.
    destruct (decide (id' = id)) as [->|Hne].
    + rewrite Hs in Hs'. cbn in Hs'. case_bool_decide; [by rewrite lookup_delete_eq in Hs'|].
      rewrite lookup_insert_eq in Hs'. injection Hs' as <-.
      apply NoDup_filter, (bo_nodup m Hok id subs Hs).
    + apply (bo_nodup m Hok id').
      case_bool_decide; by rewrite ?lookup_delete_ne, ?lookup_insert_ne in Hs' by done.
  - intros id' j _ Hcj Hoj. apply unregister_lookup. split; [|set_solver].
    apply (bo_live m Hok); [done..|set_solver].
  - intros j. destruct (decide (j = i)) as [->|Hne].
    + intros _. apply (bo_fresh m Hok). right; left. by eexists.
    + rewrite lookup_insert_ne by done. intros Hj. apply (bo_fresh m Hok). set_solver.
Qed.

Lemma Close_bus_ok m :
  bus_ok m -> exists m', Close m = Returned m' /\ bus_ok m' /\ bus_closed m' = true /\
    bus_closures m' = bus_closures m /\ bus_once m' = bus_once m /\
    (bus_closed m = false -> bus_subscribers m' = ∅ /\
     forall id subs i, bus_subscribers m !! id = Some subs -> i ∈ subs ->
       bus_chans m' !! i = closed_of <$> bus_chans m !! i).
Proof.
  intros Hok. unfold Close. destruct (bus_closed m) eqn:Hcl; cbn [negb].
  { by exists m. }
  destruct (each_chan_spec close closed_of (all_subscribers m) (bus_chans m)) as (h & -> & Hh).
  { by apply all_subscribers_nodup. }
  { intros i (id & subs & Hs & Hi)%all_subscribers_elem.
    destruct (bo_registered m Hok id subs i Hs Hi) as (_ & _ & c & Hc & Ho).
    exists c. split; [done|]. by apply close_closed_of. }
  eexists. split; [done|]. cbn. split_and!; try done.
  2:{ intros _. split; [done|]. intros id subs i Hs Hi. rewrite Hh, decide_True; [done|].
      apply all_subscribers_elem. eauto. }
  split; cbn; try done; try set_solver.
  intros i Hi. apply (bo_fresh m Hok). rewrite Hh in Hi. case_decide; [|done].
  by rewrite fmap_is_Some in Hi.
Qed.

Lemma receive_ok m i e m' : bus_ok m -> receive m i = Some (e, m') -> bus_ok m'.
Proof.
  intros Hok. unfold receive. destruct (bus_chans m !! i) as [c|] eqn:Hc; [|done].
  unfold recv. destruct (ch_buf c) as [|x l] eqn:Hb; [by destruct (ch_closed c)|].
  intros [= <- <-]. apply with_chans_ok; [done|..].
  - intros j. destruct (decide (j = i)) as [->|]; [|by rewrite lookup_insert_ne].
    rewrite lookup_insert_eq, Hc. by split; eexists.
  - intros j cj Hcj Hoj. destruct (decide (j = i)) as [->|]; [|rewrite lookup_insert_ne by done; eauto].
    rewrite lookup_insert_eq. eexists; split; [done|]. rewrite Hc in Hcj. injection Hcj as <-.
    destruct Hoj as (? & ? & Hwf). unfold open_chan, chan_wf in *. cbn. rewrite Hb in Hwf. cbn in Hwf.
    split_and!; [done..|lia].
Qed.

(** ** Sequences of calls *)

Inductive op :=
| DoPublish (now : time) (id : string) (e : option ExecutionEvent)
| DoSubscribe (id : string)
| DoCleanup (i : nat)
| DoReceive (i : nat)
| DoClose.

(** A call, and the event it handed to which subscriber.  A closure that does not
    exist is not called; a receive that would block does nothing yet. *)
Definition exec (m : MemoryEventBus) (o : op)
    : outcome (MemoryEventBus * list (nat * ExecutionEvent)) :=
  let quiet r := match r with Returned m' => Returned (m', []) | Panicked msg => Panicked msg end in
  match o with
  | DoPublish now id e => quiet (Publish now m id e)
  | DoSubscribe id => Returned ((Subscribe m id).1, [])
  | DoCleanup i =>
      match bus_closures m !! i with
      | Some id => quiet (cleanup m id i)
      | None => Returned (m, [])
      end
  | DoReceive i =>
      match receive m i with
      | Some (e, m') => Returned (m', [(i, e)])
      | None => Returned (m, [])
      end
  | DoClose => quiet (Close m)
  end.

Fixpoint run_ops (m : MemoryEventBus) (ops : list op)
    : outcome (MemoryEventBus * list (nat * ExecutionEvent)) :=
  match ops with
  | [] => Returned (m, [])
  | o :: ops =>
      match exec m o with
      | Returned (m', out) =>
          match run_ops m' ops with
          | Returned (m'', out') => Returned (m'', out ++ out')
          | Panicked msg => Panicked msg
          end
      | Panicked msg => Panicked msg
      end
  end.

(** What was published for a submission, and what a subscriber got. *)
Definition published (id : string) (ops : list op) : list ExecutionEvent :=
  omap (fun o => match o with
                 | DoPublish now id' (Some e) => if decide (id' = id) then Some (stamp now id e) else None
                 | _ => None
                 end) ops.

Definition delivered (i : nat) (out : list (nat * ExecutionEvent)) : list ExecutionEvent :=
  omap (fun p => if decide (p.1 = i) then Some p.2 else None) out.

Definition pending (m : MemoryEventBus) (i : nat) : list ExecutionEvent :=
  match bus_chans m !! i with Some c => ch_buf c | None => [] end.

(** Calls that neither close the bus nor run the closure of [i]. *)
Definition keeps (i : nat) (o : op) : Prop := o <> DoClose /\ o <> DoCleanup i.

(** A subscriber attached to an open bus. *)
Record attached (m : MemoryEventBus) (id : string) (i : nat) : Prop := {
  at_ok : bus_ok m;
  at_open : bus_closed m = false;
  at_closure : bus_closures m !! i = Some id;
  at_once : i ∉ bus_once m;
}.

Lemma attached_chan m id i :
  attached m id i -> i ∈ targets m id /\ exists c, bus_chans m !! i = Some c /\ open_chan c.
Proof.
  intros [Hok Ho Hc Hn]. destruct (bo_live m Hok id i Ho Hc Hn) as (subs & Hs & Hi).
  unfold targets. rewrite Ho, Hs. split; [done|].
  by destruct (bo_registered m Hok id subs i Hs Hi) as (_ & _ & ?).
Qed.

Lemma attached_targets m id id' i :
  attached m id i -> i ∈ targets m id' -> id' = id.
Proof.
  intros [Hok Ho Hc Hn] Hi. unfold targets in Hi. rewrite Ho in Hi.
  destruct (bus_subscribers m !! id') as [subs|] eqn:Hs; [|set_solver].
  destruct (bo_registered m Hok id' subs i Hs Hi) as (? & _). congruence.
Qed.

(** One call, seen by an attached subscriber: what it got and what waits for it
    grew by what was published for it, as far as there was room. *)
Definition followed (m : MemoryEventBus) (id : string) (i : nat) (o : op) : Prop :=
  exists m' out acc, exec m o = Returned (m', out) /\ attached m' id i /\
    delivered i out ++ pending m' i = pending m i ++ acc /\
    acc `sublist_of` published id [o] /\
    (length (pending m i) < 64 -> acc = published id [o]).

(** A call that does not concern the subscriber. *)
Lemma followed_quiet m id i o m' :
  exec m o = Returned (m', []) -> attached m' id i ->
  bus_chans m' !! i = bus_chans m !! i -> published id [o] = [] -> followed m id i o.
Proof.
  intros He Ha Hc Hp. exists m', [], []. rewrite Hp. split_and!; try done.
  unfold pending. by rewrite Hc, app_nil_r.
Qed.

Lemma publish_followed m id i now id' e :
  attached m id i -> followed m id i (DoPublish now id' (Some e)).
Proof.
  intros Hat. destruct (attached_chan m id i Hat) as (Ht & c & Hc & Hopen).
  destruct (Publish_spec now m id' e (at_ok _ _ _ Hat)) as (h & Hpub & Hok' & Hh).
  specialize (Hh i). rewrite Hc in Hh. destruct Hat as [Hok Ho Hcl Hn].
  destruct (decide (id' = id)) as [->|Hne].
  - rewrite decide_True in Hh by done. destruct Hopen as (_ & Hcap & _).
    exists (with_chans m h), [],
      (if bool_decide (length (ch_buf c) < 64) then [stamp now id e] else []).
    unfold exec. rewrite Hpub. split; [done|]. split; [by split|].
    unfold pending, published. cbn -[length Nat.lt]. rewrite Hh, Hc, decide_True by done.
    cbn -[length Nat.lt]. unfold offer. rewrite Hcap.
    case_bool_decide; split_and!; try done; [by rewrite app_nil_r|apply sublist_nil_l].
  - rewrite decide_False in Hh by (intros Hi; by apply Hne, (attached_targets m id id' i)).
    apply (followed_quiet _ _ _ _ (with_chans m h)); [by unfold exec; rewrite Hpub|by split| |].
    + cbn. by rewrite Hh, Hc.
    + cbn. by rewrite decide_False.
Qed.

Lemma subscribe_followed m id i id' : attached m id i -> followed m id i (DoSubscribe id').
Proof.
  intros Hat. destruct (attached_chan m id i Hat) as (_ & c & Hc & _). destruct Hat as [Hok Ho Hcl Hn].
  assert (bus_next m <> i).
  { intros <-. pose proof (bo_fresh m Hok _ (or_introl (ex_intro _ c Hc))). lia. }
  apply (followed_quiet _ _ _ _ (Subscribe m id').1); [done| |cbn; by rewrite lookup_insert_ne|done].
  split; cbn; [by apply (Subscribe_ok m)|done|by rewrite lookup_insert_ne|done].
Qed.

Lemma cleanup_followed m id i j : attached m id i -> j <> i -> followed m id i (DoCleanup j).
Proof.
  intros Hat Hne. destruct (bus_closures m !! j) as [id'|] eqn:Hj.
  2:{ apply (followed_quiet _ _ _ _ m); cbn; by rewrite ?Hj. }
  destruct (decide (j ∈ bus_once m)) as [Hin|Hin].
  { apply (followed_quiet _ _ _ _ m); [|done..]. cbn. rewrite Hj. unfold cleanup.
    by rewrite bool_decide_eq_true_2. }
  destruct Hat as [Hok Ho Hcl Hn].
  destruct (cleanup_ok m id' j Hok Hj Hin Ho) as (m' & Hcu & Hok' & Ho' & Hc' & _ & Hn' & Hh).
  apply (followed_quiet _ _ _ _ m'); [by cbn; rewrite Hj, Hcu| |by rewrite Hh, decide_False|done].
  split; [done..|congruence|set_solver].
Qed.

Lemma receive_followed m id i j : attached m id i -> followed m id i (DoReceive j).
Proof.
  intros Hat. destruct (receive m j) as [[e m']|] eqn:Hr.
  2:{ apply (followed_quiet _ _ _ _ m); cbn; by rewrite ?Hr. }
  pose proof Hat as [Hok Ho Hcl Hn]. pose proof (receive_ok m j e m' Hok Hr) as Hok'.
  pose proof Hr as Hr'. unfold receive, recv in Hr.
  destruct (bus_chans m !! j) as [cj|] eqn:Hcj; [|done].
  destruct (ch_buf cj) as [|x l] eqn:Hb; [by destruct (ch_closed cj)|]. injection Hr as -> <-.
  exists (with_chans m (<[j := with_buf cj l]> (bus_chans m))), [(j, e)], [].
  unfold exec. rewrite Hr'. split; [done|]. split; [by split|].
  unfold pending, delivered. cbn. rewrite app_nil_r. split_and!; try done.
  destruct (decide (j = i)) as [->|Hne].
  - by rewrite lookup_insert_eq, Hcj, Hb.
  - by rewrite lookup_insert_ne by done.
Qed.

Lemma exec_followed m id i o : attached m id i -> keeps i o -> followed m id i o.
Proof.
  intros Hat [Hk1 Hk2].
  destruct o as [now id' [e|]|id'|j|j|];
    [by apply publish_followed|by apply (followed_quiet _ _ _ _ m)
    |by apply subscribe_followed|by apply cleanup_followed; [|congruence]
    |by apply receive_followed|done].
Qed.

Lemma published_cons id o ops : published id (o :: ops) = published id [o] ++ published id ops.
Proof. apply (omap_app _ [o] ops). Qed.

Lemma delivered_app i l1 l2 : delivered i (l1 ++ l2) = delivered i l1 ++ delivered i l2.
Proof. apply omap_app. Qed.

Lemma run_ops_attached id i ops : forall m,
  attached m id i -> Forall (keeps i) ops ->
  exists m' out acc, run_ops m ops = Returned (m', out) /\ attached m' id i /\
    delivered i out ++ pending m' i = pending m i ++ acc /\
    acc `sublist_of` published id ops /\
    (length (pending m i) + length (published id ops) <= 64 -> acc = published id ops).
Proof.
  induction ops as [|o ops IH]; intros m Hat Hk.
  { exists m, [], []. split_and!; try done. by rewrite app_nil_r. }
  apply Forall_cons in Hk as [Hko Hk]. rewrite published_cons.
  destruct (exec_followed m id i o Hat Hko) as (m1 & out1 & acc1 & He & Hat1 & Hd1 & Hs1 & Hf1).
  destruct (IH m1 Hat1 Hk) as (m2 & out2 & acc2 & Hr & Hat2 & Hd2 & Hs2 & Hf2).
  exists m2, (out1 ++ out2), (acc1 ++ acc2). cbn [run_ops]. rewrite He, Hr.
  split; [done|]. split; [done|]. split; [|split].
  - by rewrite delivered_app, <- app_assoc, Hd2, app_assoc, Hd1, app_assoc.
  - by apply sublist_app.
  - rewrite length_app. intros Hlen.
    assert (acc1 = published id [o]) as ->.
    { destruct (published id [o]) as [|x l]; [by apply sublist_nil_r in Hs1|].
      apply Hf1. cbn in Hlen. lia. }
    rewrite Hf2; [done|]. apply (f_equal length) in Hd1. rewrite !length_app in Hd1. lia.
Qed.

Lemma Subscribe_attached m id :
  bus_ok m -> bus_closed m = false ->
  attached (Subscribe m id).1 id (Subscribe m id).2 /\
  pending (Subscribe m id).1 (Subscribe m id).2 = [].
Proof.
  intros Hok Ho. split; [split; cbn|].
  - by apply (Subscribe_ok m).
  - done.
  - apply lookup_insert_eq.
  - intros Hin. pose proof (bo_fresh m Hok _ (or_intror (or_intror Hin))). lia.
  - unfold pending. cbn. by rewrite lookup_insert_eq.
Qed.

(** ** Properties *)

(** C13: from the moment it subscribes to an open bus, and whatever the other
    clients publish, subscribe, receive or cancel, a subscriber gets events of
    its own submission only, in the order they were published and none twice;
    it misses none as long as at most 64 were published, and no call panics. *)
Theorem subscriber_stream (m : MemoryEventBus) (id : string) (ops : list op)
    (Hok : bus_ok m) (Hopen : bus_closed m = false)
    (Hkeeps : Forall (keeps (Subscribe m id).2) ops) :
  let i := (Subscribe m id).2 in
  exists m' out, run_ops (Subscribe m id).1 ops = Returned (m', out) /\ bus_ok m' /\
    (delivered i out ++ pending m' i) `sublist_of` published id ops /\
    (length (published id ops) <= 64 ->
     delivered i out ++ pending m' i = published id ops).
Proof.
  cbv zeta. destruct (Subscribe_attached m id Hok Hopen) as [Hat Hp].
  destruct (run_ops_attached id _ ops _ Hat Hkeeps) as (m' & out & acc & Hr & Hat' & Hd & Hs & Hf).
  rewrite Hp in *. cbn [app length] in *. exists m', out. rewrite Hd.
  split_and!; [done|apply Hat'|done|done].
Qed.

Definition sample_event (status : EventStatus) : ExecutionEvent :=
  {| ev_SubmissionID := ""; ev_Status := status; ev_Timestamp := zero_time;
     ev_CurrentTestCase := 0; ev_TotalTestCases := 0; ev_Verdict := ""; ev_TestCaseResult := None;
     ev_Compilation := None; ev_StdoutChunk := ""; ev_StderrChunk := ""; ev_WallTimeMs := f0;
     ev_CpuTimeMs := f0; ev_PeakMemoryMB := f0; ev_ErrorDetails := "" |}.

Definition sample_ops : list op :=
  [DoPublish 1 "a" (Some (sample_event StatusRunning)); DoSubscribe "b";
   DoPublish 2 "b" (Some (sample_event StatusFailed)); DoReceive 0;
   DoPublish 3 "a" (Some (sample_event StatusCompleted)); DoCleanup 1].

Lemma subscriber_stream_witness :
  exists m' out, run_ops (Subscribe NewMemoryEventBus "a").1 sample_ops = Returned (m', out) /\
    delivered 0 out ++ pending m' 0
    = [stamp 1 "a" (sample_event StatusRunning); stamp 3 "a" (sample_event StatusCompleted)].
Proof.
  destruct (subscriber_stream NewMemoryEventBus "a" sample_ops NewMemoryEventBus_ok eq_refl)
    as (m' & out & Hr & _ & _ & Hf).
  - repeat constructor; discriminate.
  - exists m', out. split; [exact Hr|]. apply Hf. vm_compute. lia.
Defined.

(** Running a cleanup closure on an open bus detaches its channel and only it:
    the channel is closed with what it had buffered, later events no longer
    reach it, every other subscriber keeps its channel and its registration,
    and running the closure again changes nothing. *)
Theorem cleanup_detaches (m : MemoryEventBus) (id : string) (i : nat) (Hat : attached m id i) :
  exists m', cleanup m id i = Returned m' /\ bus_ok m' /\ cleanup m' id i = Returned m' /\
    pending m' i = pending m i /\
    (exists c, bus_chans m' !! i = Some c /\ ch_closed c = true) /\
    (forall id', targets m' id' = filter (fun j => j <> i) (targets m id')) /\
    (forall j, j <> i -> bus_chans m' !! j = bus_chans m !! j) /\
    (forall now id' e, exists m'', Publish now m' id' (Some e) = Returned m'' /\
       bus_chans m'' !! i = bus_chans m' !! i).
Proof.
  destruct (attached_chan m id i Hat) as (_ & c & Hc & _). pose proof Hat as [Hok Ho Hcl Hn].
  destruct (cleanup_ok m id i Hok Hcl Hn Ho) as (m' & Hcu & Hok' & Ho' & _ & Hs' & Hn' & Hh).
  assert (Htargets : forall id', targets m' id' = filter (fun j => j <> i) (targets m id')).
  { intros id'. unfold targets. rewrite Ho', Ho, Hs'. unfold unregister.
    destruct (decide (id' = id)) as [->|Hne].
    - case_bool_decide as Hf; [by rewrite lookup_delete_eq, Hf|by rewrite lookup_insert_eq].
    - assert (Hid : i ∉ targets m id') by (intros Hi; by apply Hne, (attached_targets m id id' i)).
      unfold targets in Hid. rewrite Ho in Hid. 
      rewrite (filter_keeps_all _ (default [] (bus_subscribers m !! id'))).
      2:{ apply Forall_forall. by intros j Hj ->. }
      case_bool_decide; by rewrite ?lookup_delete_ne, ?lookup_insert_ne by done. }
  exists m'. split_and!; [done|done| | | |done| |].
  - unfold cleanup. rewrite bool_decide_eq_true_2; [done|]. rewrite Hn'. set_solver.
  - unfold pending. by rewrite Hh, decide_True, Hc.
  - rewrite Hh, decide_True, Hc by done. by eexists.
  - intros j Hj. by rewrite Hh, decide_False.
  - intros now id' e. destruct (Publish_spec now m' id' e Hok') as (h & -> & _ & Hp).
    eexists. split; [done|]. cbn. rewrite Hp, decide_False; [done|].
    rewrite Htargets, list_elem_of_filter. naive_solver.
Qed.

Lemma sample_attached : attached (Subscribe NewMemoryEventBus "a").1 "a" 0.
Proof. apply (Subscribe_attached NewMemoryEventBus "a"); [apply NewMemoryEventBus_ok|done]. Qed.

Lemma cleanup_detaches_witness :
  exists m', cleanup (Subscribe NewMemoryEventBus "a").1 "a" 0 = Returned m' /\
    targets m' "a" = [].
Proof.
  destruct (cleanup_detaches (Subscribe NewMemoryEventBus "a").1 "a" 0 sample_attached)
    as (m' & Hc & _ & _ & _ & _ & Ht & _).
  exists m'. split; [exact Hc|]. rewrite Ht. vm_compute. reflexivity.
Defined.

(** Closing the bus under an attached subscriber never panics by itself and
    closes the subscriber's channel, but the subscriber's own cleanup then
    closes it a second time and panics; and a subscription made after the
    close succeeds with a channel that no event ever reaches. *)
Theorem cleanup_after_Close_panics (m : MemoryEventBus) (id : string) (i : nat)
    (Hat : attached m id i) :
  exists m', Close m = Returned m' /\ bus_ok m' /\
    cleanup m' id i = Panicked close_of_closed /\
    (forall id' now e, Publish now (Subscribe m' id').1 id' (Some e)
                       = Returned (Subscribe m' id').1).
Proof.
  destruct (attached_chan m id i Hat) as (Ht & c & Hc & _). destruct Hat as [Hok Ho Hcl Hn].
  destruct (Close_bus_ok m Hok) as (m' & Hclose & Hok' & Hc' & _ & Hn' & Hopen).
  destruct (Hopen Ho) as [Hs' Hch]. exists m'. split_and!; [done|done| |].
  - unfold cleanup, on_chan. rewrite Hn', bool_decide_eq_false_2 by done.
    unfold targets in Ht. rewrite Ho in Ht.
    destruct (bus_subscribers m !! id) as [subs|] eqn:Hs; [|set_solver].
    by rewrite (Hch id subs i Hs Ht), Hc.
  - intros id' now e. unfold Publish. cbn. by rewrite Hc'.
Qed.

Lemma cleanup_after_Close_panics_witness :
  exists m', Close (Subscribe NewMemoryEventBus "a").1 = Returned m' /\
    cleanup m' "a" 0 = Panicked close_of_closed.
Proof.
  destruct (cleanup_after_Close_panics (Subscribe NewMemoryEventBus "a").1 "a" 0 sample_attached)
    as (m' & H1 & _ & H2 & _).
  exists m'. split; [exact H1|exact H2].
Defined.
