(* ===== verification/Store.v ===== *)
(** * Submission state and its store (pkg/store)

    [SubmissionState], the interface [StateStore] with the laws its clients
    rely on, and [MemoryStore].  The store copies what it is given and what it
    hands out, so states are values; the one field it writes through the
    caller's pointer, [UpdatedAt], is part of a call's result. *)

From S2P Require Import Prelude GoStrings GoFloat Go OS Models Events.

Record SubmissionState := {
  st_SubmissionID : string;
  st_Status : EventStatus;
  st_Verdict : Verdict;
  st_Language : string;
  st_TotalTestCases : Z;
  st_PassedTestCases : Z;
  st_Results : list TestCaseResult;
  st_Compilation : option CompilationResult;
  st_PeakMemoryMB : float64;
  st_TotalCpuTimeMs : float64;
  st_TotalWallTimeMs : float64;
  st_ErrorDetails : string;
  st_CreatedAt : time;
  st_UpdatedAt : time;
  st_CompletedAt : option time;
}.

(** [state.UpdatedAt = time.Now()] *)
Definition set_updated (now : time) (s : SubmissionState) : SubmissionState :=
  {| st_SubmissionID := st_SubmissionID s; st_Status := st_Status s; st_Verdict := st_Verdict s;
     st_Language := st_Language s; st_TotalTestCases := st_TotalTestCases s;
     st_PassedTestCases := st_PassedTestCases s; st_Results := st_Results s;
     st_Compilation := st_Compilation s; st_PeakMemoryMB := st_PeakMemoryMB s;
     st_TotalCpuTimeMs := st_TotalCpuTimeMs s; st_TotalWallTimeMs := st_TotalWallTimeMs s;
     st_ErrorDetails := st_ErrorDetails s; st_CreatedAt := st_CreatedAt s;
     st_UpdatedAt := now; st_CompletedAt := st_CompletedAt s |}.

(** ** The interface *)

Class StateStore (St : Type) := {
  (** The new store, the state behind the caller's pointer, the error. *)
  SaveState : time -> St -> option SubmissionState -> St * option SubmissionState * option error;
  GetState : St -> string -> error + SubmissionState;
}.

(** A save that reports no error is what later reads of its ID see, until the
    next one, for the states the store can represent; it does not disturb other
    IDs. *)
Class StateStoreLaws (St : Type) `{StateStore St} := {
  storable : SubmissionState -> Prop;
  save_get now s st s' p : storable (set_updated now st) ->
    SaveState now s (Some st) = (s', p, None) ->
    p = Some (set_updated now st) /\ GetState s' (st_SubmissionID st) = inr (set_updated now st);
  save_get_ne now s st s' p id : SaveState now s (Some st) = (s', p, None) ->
    id <> st_SubmissionID st -> GetState s' id = GetState s id;
}.

(** ** MemoryStore (memory_store.go) *)

Record MemoryStore := { ms_states : gmap string SubmissionState }.

Definition NewMemoryStore : MemoryStore := {| ms_states := ∅ |}.

(** Both methods copy the record and its slice of results, so neither the
    caller's later writes nor a reader's reach the stored value. *)
Definition memory_SaveState (now : time) (m : MemoryStore) (state : option SubmissionState)
    : MemoryStore * option SubmissionState * option error :=
  match state with
  | None => (m, None, None)
  | Some state =>
      let state := set_updated now state in
      ({| ms_states := <[st_SubmissionID state := state]> (ms_states m) |}, Some state, None)
  end.

Definition memory_GetState (m : MemoryStore) (submissionID : string) : error + SubmissionState :=
  match ms_states m !! submissionID with
  | None => inl (Sentinel ErrNotFound)
  | Some state => inr state
  end.

Definition memory_Close (m : MemoryStore) : MemoryStore := NewMemoryStore.

#[export] Instance memory_store : StateStore MemoryStore :=
  {| SaveState := memory_SaveState; GetState := memory_GetState |}.

#[export] Instance memory_store_laws : StateStoreLaws MemoryStore.
Proof.
  refine {| storable _ := True |}.
  - intros now s st s' p _ [= <- <-]. split; [done|]. cbn. unfold memory_GetState. cbn.
    by rewrite lookup_insert_eq.
  - intros now s st s' p id [= <- <-] Hne. cbn. unfold memory_GetState. cbn.
    by rewrite lookup_insert_ne by done.
Defined.

(** ** Clients of the interface *)

Section Client.
Context {St : Type} `{StateStoreLaws St}.

(** A run of saves; the result says whether all of them succeeded. *)
Fixpoint save_all (s : St) (ws : list (time * SubmissionState)) : option St :=
  match ws with
  | [] => Some s
  | (now, st) :: ws =>
      match SaveState now s (Some st) with
      | (s', _, None) => save_all s' ws
      | (_, _, Some _) => None
      end
  end.

(** The last save for an ID, stamped. *)
Fixpoint last_saved (id : string) (ws : list (time * SubmissionState)) : option SubmissionState :=
  match ws with
  | [] => None
  | (now, st) :: ws =>
      match last_saved id ws with
      | Some st' => Some st'
      | None => if decide (st_SubmissionID st = id) then Some (set_updated now st) else None
      end
  end.

Lemma save_all_get id ws : forall s s',
  Forall (fun w => storable (St := St) (set_updated w.1 w.2)) ws ->
  save_all s ws = Some s' ->
  GetState s' id = match last_saved id ws with Some st => inr st | None => GetState s id end.
Proof.
  induction ws as [|[now st] ws IH]; intros s s' Hok Hs; cbn in *; [by injection Hs as ->|].
  apply Forall_cons in Hok as [Hst Hok].
  destruct (SaveState now s (Some st)) as [[s1 p] [e|]] eqn:Hsv; [done|].
  rewrite (IH s1 s' Hok Hs). destruct (last_saved id ws); [done|].
  destruct (decide (st_SubmissionID st = id)) as [<-|Hne].
  - by apply (save_get _ _ _ _ _ Hst Hsv).
  - apply (save_get_ne _ _ _ _ _ _ Hsv). congruence.
Qed.

End Client.

Lemma memory_saves_succeed ws : forall m, is_Some (save_all (St := MemoryStore) m ws).
Proof. induction ws as [|[now st] ws IH]; intros m; [by eexists|apply IH]. Qed.

(** ** Properties *)

(** The in-memory store never fails to save and reads back, under each ID, the
    last state saved there with the time of the save as its update time,
    whatever was saved under other IDs before or after, and "submission not
    found" exactly for the IDs never saved; closing it forgets all of them. *)
Theorem memory_store_last_write (ws : list (time * SubmissionState)) (id : string) :
  exists m, save_all (St := MemoryStore) NewMemoryStore ws = Some m /\
    memory_GetState m id = match last_saved id ws with
                           | Some st => inr st
                           | None => inl (Sentinel ErrNotFound)
                           end /\
    memory_GetState (memory_Close m) id = inl (Sentinel ErrNotFound).
Proof.
  destruct (memory_saves_succeed ws NewMemoryStore) as [m Hm]. exists m.
  split_and!; [done| |done].
  change (memory_GetState m id) with (GetState (St := MemoryStore) m id).
  by rewrite (save_all_get id ws NewMemoryStore m ltac:(by apply Forall_forall) Hm).
Qed.
