(* ===== verification/Wire.v ===== *)
(** * The records that travel between the processes, as JSON

    The struct tags of queue.go, events.go, store.go and result.go, as codecs
    (Codec.v), and their laws.  The values that survive a round trip are those
    whose strings are valid UTF-8, whose integers are int64, whose floats are
    finite and whose times have an offset RFC 3339 can express. *)

From S2P Require Import Prelude GoStrings GoFloat Go OS Models Json JsonString JsonNumber JsonTime Codec.
From S2P Require Import Queue Events Store.

(** The fields and tags of TestCase (queue.go). *)
Definition TestCase_fields : struct _ :=
  SCons "id" false string_codec $ SCons "input" false string_codec $
  SCons "expected_output" false string_codec $ SCons "is_hidden" false bool_codec $ SNil.

Definition unpack_TestCase (x : TestCase) :=
  (tc_ID x, (tc_Input x, (tc_ExpectedOutput x, (tc_IsHidden x, tt)))).

Definition pack_TestCase b : TestCase :=
  let '(v1, (v2, (v3, (v4, tt)))) := b in
  {| tc_ID := v1; tc_Input := v2; tc_ExpectedOutput := v3; tc_IsHidden := v4 |}.

Definition TestCase_codec : codec TestCase :=
  struct_codec TestCase_fields unpack_TestCase pack_TestCase.

(** The fields and tags of SubmissionJob (queue.go). *)
Definition SubmissionJob_fields `{LocalZone} : struct _ :=
  SCons "submission_id" false string_codec $ SCons "language" false string_codec $
  SCons "code" false string_codec $ SCons "time_limit_ms" false int_codec $
  SCons "memory_limit_mb" false int_codec $ SCons "cpu_quota" false float_codec $
  SCons "pids_limit" false int_codec $ SCons "max_output_bytes" false int_codec $
  SCons "sandbox_type" false string_codec $
  SCons "test_cases" false (list_codec TestCase_codec) $ SCons "enqueued_at" false time_codec $ SNil.

Definition unpack_SubmissionJob (x : SubmissionJob) :=
  (j_SubmissionID x, (j_Language x, (j_Code x, (j_TimeLimitMs x, (j_MemoryLimitMB x,
  (j_CpuQuota x, (j_PidsLimit x, (j_MaxOutputBytes x, (j_SandboxType x, (j_TestCases x,
  (j_EnqueuedAt x, tt))))))))))).

Definition pack_SubmissionJob b : SubmissionJob :=
  let '(v1, (v2, (v3, (v4, (v5, (v6, (v7, (v8, (v9, (v10, (v11, tt))))))))))) := b in
  {| j_SubmissionID := v1; j_Language := v2; j_Code := v3; j_TimeLimitMs := v4;
     j_MemoryLimitMB := v5; j_CpuQuota := v6; j_PidsLimit := v7; j_MaxOutputBytes := v8;
     j_SandboxType := v9; j_TestCases := v10; j_EnqueuedAt := v11 |}.

Definition SubmissionJob_codec `{LocalZone} : codec SubmissionJob :=
  struct_codec SubmissionJob_fields unpack_SubmissionJob pack_SubmissionJob.

(** The fields and tags of CompilationResult (result.go). *)
Definition CompilationResult_fields : struct _ :=
  SCons "success" false bool_codec $ SCons "exit_code" false int_codec $
  SCons "stdout" true string_codec $ SCons "stderr" true string_codec $
  SCons "time_ms" false float_codec $ SNil.

Definition unpack_CompilationResult (x : CompilationResult) :=
  (comp_Success x, (comp_ExitCode x, (comp_Stdout x, (comp_Stderr x, (comp_TimeMs x, tt))))).

Definition pack_CompilationResult b : CompilationResult :=
  let '(v1, (v2, (v3, (v4, (v5, tt))))) := b in
  {| comp_Success := v1; comp_ExitCode := v2; comp_Stdout := v3; comp_Stderr := v4;
     comp_TimeMs := v5 |}.

Definition CompilationResult_codec : codec CompilationResult :=
  struct_codec CompilationResult_fields unpack_CompilationResult pack_CompilationResult.

(** The fields and tags of TestCaseResult (events.go). *)
Definition TestCaseResult_fields : struct _ :=
  SCons "test_case_id" false string_codec $ SCons "index" false int_codec $
  SCons "verdict" false string_codec $ SCons "exit_code" false int_codec $
  SCons "stdout" true string_codec $ SCons "stderr" true string_codec $
  SCons "wall_time_ms" false float_codec $ SCons "cpu_time_ms" false float_codec $
  SCons "peak_memory_mb" false float_codec $ SCons "oom_killed" false bool_codec $ SNil.

Definition unpack_TestCaseResult (x : TestCaseResult) :=
  (tr_TestCaseID x, (tr_Index x, (tr_Verdict x, (tr_ExitCode x, (tr_Stdout x, (tr_Stderr x,
  (tr_WallTimeMs x, (tr_CpuTimeMs x, (tr_PeakMemoryMB x, (tr_OOMKilled x, tt)))))))))).

Definition pack_TestCaseResult b : TestCaseResult :=
  let '(v1, (v2, (v3, (v4, (v5, (v6, (v7, (v8, (v9, (v10, tt)))))))))) := b in
  {| tr_TestCaseID := v1; tr_Index := v2; tr_Verdict := v3; tr_ExitCode := v4; tr_Stdout := v5;
     tr_Stderr := v6; tr_WallTimeMs := v7; tr_CpuTimeMs := v8; tr_PeakMemoryMB := v9;
     tr_OOMKilled := v10 |}.

Definition TestCaseResult_codec : codec TestCaseResult :=
  struct_codec TestCaseResult_fields unpack_TestCaseResult pack_TestCaseResult.

(** The fields and tags of ExecutionEvent (events.go). *)
Definition ExecutionEvent_fields `{LocalZone} : struct _ :=
  SCons "submission_id" false string_codec $ SCons "status" false string_codec $
  SCons "timestamp" false time_codec $ SCons "current_test_case" true int_codec $
  SCons "total_test_cases" true int_codec $ SCons "verdict" true string_codec $
  SCons "test_case_result" true (ptr_codec TestCaseResult_codec) $
  SCons "compilation" true (ptr_codec CompilationResult_codec) $
  SCons "stdout_chunk" true string_codec $ SCons "stderr_chunk" true string_codec $
  SCons "wall_time_ms" true float_codec $ SCons "cpu_time_ms" true float_codec $
  SCons "peak_memory_mb" true float_codec $ SCons "error_details" true string_codec $ SNil.

Definition unpack_ExecutionEvent (x : ExecutionEvent) :=
  (ev_SubmissionID x, (ev_Status x, (ev_Timestamp x, (ev_CurrentTestCase x,
  (ev_TotalTestCases x, (ev_Verdict x, (ev_TestCaseResult x, (ev_Compilation x,
  (ev_StdoutChunk x, (ev_StderrChunk x, (ev_WallTimeMs x, (ev_CpuTimeMs x, (ev_PeakMemoryMB x,
  (ev_ErrorDetails x, tt)))))))))))))).

Definition pack_ExecutionEvent b : ExecutionEvent :=
  let '(v1, (v2, (v3, (v4, (v5, (v6, (v7, (v8, (v9, (v10, (v11, (v12, (v13, (v14, tt)))))))))))))) := b in
  {| ev_SubmissionID := v1; ev_Status := v2; ev_Timestamp := v3; ev_CurrentTestCase := v4;
     ev_TotalTestCases := v5; ev_Verdict := v6; ev_TestCaseResult := v7; ev_Compilation := v8;
     ev_StdoutChunk := v9; ev_StderrChunk := v10; ev_WallTimeMs := v11; ev_CpuTimeMs := v12;
     ev_PeakMemoryMB := v13; ev_ErrorDetails := v14 |}.

Definition ExecutionEvent_codec `{LocalZone} : codec ExecutionEvent :=
  struct_codec ExecutionEvent_fields unpack_ExecutionEvent pack_ExecutionEvent.

(** The fields and tags of SubmissionState (store.go). *)
Definition SubmissionState_fields `{LocalZone} : struct _ :=
  SCons "submission_id" false string_codec $ SCons "status" false string_codec $
  SCons "verdict" false string_codec $ SCons "language" false string_codec $
  SCons "total_test_cases" false int_codec $ SCons "passed_test_cases" false int_codec $
  SCons "results" true (list_codec TestCaseResult_codec) $
  SCons "compilation" true (ptr_codec CompilationResult_codec) $
  SCons "peak_memory_mb" false float_codec $ SCons "total_cpu_time_ms" false float_codec $
  SCons "total_wall_time_ms" false float_codec $ SCons "error_details" true string_codec $
  SCons "created_at" false time_codec $ SCons "updated_at" false time_codec $
  SCons "completed_at" true (ptr_codec time_codec) $ SNil.

Definition unpack_SubmissionState (x : SubmissionState) :=
  (st_SubmissionID x, (st_Status x, (st_Verdict x, (st_Language x, (st_TotalTestCases x,
  (st_PassedTestCases x, (st_Results x, (st_Compilation x, (st_PeakMemoryMB x,
  (st_TotalCpuTimeMs x, (st_TotalWallTimeMs x, (st_ErrorDetails x, (st_CreatedAt x,
  (st_UpdatedAt x, (st_CompletedAt x, tt))))))))))))))).

Definition pack_SubmissionState b : SubmissionState :=
  let '(v1, (v2, (v3, (v4, (v5, (v6, (v7, (v8, (v9, (v10, (v11, (v12, (v13, (v14, (v15, tt))))))))))))))) := b in
  {| st_SubmissionID := v1; st_Status := v2; st_Verdict := v3; st_Language := v4;
     st_TotalTestCases := v5; st_PassedTestCases := v6; st_Results := v7; st_Compilation := v8;
     st_PeakMemoryMB := v9; st_TotalCpuTimeMs := v10; st_TotalWallTimeMs := v11;
     st_ErrorDetails := v12; st_CreatedAt := v13; st_UpdatedAt := v14; st_CompletedAt := v15 |}.

Definition SubmissionState_codec `{LocalZone} : codec SubmissionState :=
  struct_codec SubmissionState_fields unpack_SubmissionState pack_SubmissionState.

(** The fields and tags of ExecutionResult (result.go). *)
Definition ExecutionResult_fields `{LocalZone} : struct _ :=
  SCons "id" false string_codec $ SCons "verdict" false string_codec $
  SCons "exit_code" false int_codec $ SCons "stdout" false string_codec $
  SCons "stderr" false string_codec $ SCons "wall_time_ms" false float_codec $
  SCons "cpu_time_ms" false float_codec $ SCons "peak_memory_kb" false int_codec $
  SCons "peak_memory_mb" false float_codec $ SCons "oom_killed" false bool_codec $
  SCons "compilation" true (ptr_codec CompilationResult_codec) $
  SCons "error_details" true string_codec $ SCons "sandbox_backend" false string_codec $
  SCons "executed_at" false time_codec $ SNil.

Definition unpack_ExecutionResult (x : ExecutionResult) :=
  (res_ID x, (res_Verdict x, (res_ExitCode x, (res_Stdout x, (res_Stderr x, (res_WallTimeMs x,
  (res_CpuTimeMs x, (res_PeakMemoryKB x, (res_PeakMemoryMB x, (res_OOMKilled x,
  (res_Compilation x, (res_ErrorDetails x, (res_SandboxBackend x, (res_ExecutedAt x, tt)))))))))))))).

Definition pack_ExecutionResult b : ExecutionResult :=
  let '(v1, (v2, (v3, (v4, (v5, (v6, (v7, (v8, (v9, (v10, (v11, (v12, (v13, (v14, tt)))))))))))))) := b in
  {| res_ID := v1; res_Verdict := v2; res_ExitCode := v3; res_Stdout := v4; res_Stderr := v5;
     res_WallTimeMs := v6; res_CpuTimeMs := v7; res_PeakMemoryKB := v8; res_PeakMemoryMB := v9;
     res_OOMKilled := v10; res_Compilation := v11; res_ErrorDetails := v12;
     res_SandboxBackend := v13; res_ExecutedAt := v14 |}.

Definition ExecutionResult_codec `{LocalZone} : codec ExecutionResult :=
  struct_codec ExecutionResult_fields unpack_ExecutionResult pack_ExecutionResult.

(** ** Laws *)

Lemma ascii_utf8_valid s : is_ascii s = true -> utf8_valid s.
Proof.
  intros Hs. unfold utf8_valid, sanitize. rewrite <- (of_to_bytes s) at 3. f_equal.
  rewrite <- length_to_bytes. apply is_ascii_spec in Hs.
  induction Hs as [|c l Hc _ IH]; [done|]. cbn [length map_runes].
  assert (Hd : decode_rune (c :: l) = (code c, 1)).
  { unfold decode_rune. unfold is_ascii_byte in Hc. by rewrite Hc. }
  rewrite Hd, encode_ascii by done. cbn [drop app]. by rewrite drop_0, IH.
Qed.

(** Lists of tags are checked by evaluation. *)
Definition tags_ok (ns : list string) : bool :=
  bool_decide (NoDup ns) && forallb is_ascii ns.

Lemma tags_ok_spec ns : tags_ok ns = true -> names_ok ns.
Proof.
  intros [H1 H2]%andb_true_iff. apply bool_decide_eq_true in H1. split; [done|].
  apply Forall_forall. intros n Hn. apply ascii_utf8_valid.
  rewrite forallb_forall in H2. by apply H2, list_elem_of_In.
Qed.

#[export] Hint Resolve string_laws bool_laws int_laws float_laws time_laws ptr_laws list_laws : codec.

Ltac struct_codec_laws :=
  apply struct_laws;
    [intros b; repeat match goal with x : _ * _ |- _ => destruct x | x : unit |- _ => destruct x end; reflexivity
    |by intros []
    |lazymatch goal with |- slaws ?s => let s' := eval red in s in change (slaws s') end;
     cbn [slaws]; split_and!; auto with codec
    |apply tags_ok_spec; vm_compute; reflexivity].

Lemma TestCase_laws : codec_laws TestCase_codec.
Proof. struct_codec_laws. Qed.

Lemma CompilationResult_laws : codec_laws CompilationResult_codec.
Proof. struct_codec_laws. Qed.

Lemma TestCaseResult_laws : codec_laws TestCaseResult_codec.
Proof. struct_codec_laws. Qed.

#[export] Hint Resolve TestCase_laws CompilationResult_laws TestCaseResult_laws : codec.

#[export] Hint Resolve string_typed bool_typed int_typed float_typed time_typed ptr_typed list_typed : codec.

Ltac struct_codec_typed :=
  apply struct_typed;
    [intros b; repeat match goal with x : _ * _ |- _ => destruct x | x : unit |- _ => destruct x end; reflexivity
    |lazymatch goal with |- stypes ?s => let s' := eval red in s in change (stypes s') end;
     cbn [stypes]; split_and!; auto with codec].

Lemma TestCase_typed : codec_typed TestCase_codec.
Proof. struct_codec_typed. Qed.

Lemma CompilationResult_typed : codec_typed CompilationResult_codec.
Proof. struct_codec_typed. Qed.

Lemma TestCaseResult_typed : codec_typed TestCaseResult_codec.
Proof. struct_codec_typed. Qed.

#[export] Hint Resolve TestCase_typed CompilationResult_typed TestCaseResult_typed : codec.

Section Zone.
Context {LZ : LocalZone}.

Lemma SubmissionJob_typed : codec_typed SubmissionJob_codec.
Proof. struct_codec_typed. Qed.

Lemma ExecutionEvent_typed : codec_typed ExecutionEvent_codec.
Proof. struct_codec_typed. Qed.

Lemma SubmissionState_typed : codec_typed SubmissionState_codec.
Proof. struct_codec_typed. Qed.

Lemma SubmissionJob_laws : codec_laws SubmissionJob_codec.
Proof. struct_codec_laws. Qed.

Lemma ExecutionEvent_laws : codec_laws ExecutionEvent_codec.
Proof. struct_codec_laws. Qed.

Lemma ExecutionResult_laws : codec_laws ExecutionResult_codec.
Proof. struct_codec_laws. Qed.

Lemma SubmissionState_laws : codec_laws SubmissionState_codec.
Proof. struct_codec_laws. Qed.

End Zone.

(** ** Properties *)


Definition wire_event : ExecutionEvent :=
  {| ev_SubmissionID := "sub-1"; ev_Status := StatusTestCasePassed; ev_Timestamp := 1788086700000000000;
     ev_CurrentTestCase := 1; ev_TotalTestCases := 2; ev_Verdict := VerdictAccepted;
     ev_TestCaseResult := None; ev_Compilation := None; ev_StdoutChunk := "a<b" +:+ nl;
     ev_StderrChunk := ""; ev_WallTimeMs := fconst 125 10; ev_CpuTimeMs := f0;
     ev_PeakMemoryMB := of_Z 3; ev_ErrorDetails := "" |}.

Definition text_of (s : string) : string :=
  of_bytes ((fun c => if decide (c = "'"%char) then dquote else c) <$> to_bytes s).

Example wire_event_text :
  of_bytes <$> Marshal (ExecutionEvent_codec (H := utc)) wire_event = Some (text_of
    "{'submission_id':'sub-1','status':'TESTCASE_PASSED','timestamp':'2026-08-30T10:45:00Z','current_test_case':1,'total_test_cases':2,'verdict':'ACCEPTED','stdout_chunk':'a\u003cb\n','wall_time_ms':12.5,'peak_memory_mb':3}").
Proof. vm_compute. reflexivity. Qed.

(** C17: the messages between the processes survive their JSON encoding: whatever
    Marshal writes for a job, an event or a state with valid UTF-8 strings,
    int64 integers, printable floats and expressible time zones, Unmarshal reads
    back as the same value; a string on its own comes back with each invalid
    byte replaced by U+FFFD, and what comes back is always valid. *)
Theorem messages_round_trip `{LocalZone} :
  (forall job text, cok SubmissionJob_codec job -> Marshal SubmissionJob_codec job = Some text ->
     Unmarshal SubmissionJob_codec text = Some job) /\
  (forall e text, cok ExecutionEvent_codec e -> Marshal ExecutionEvent_codec e = Some text ->
     Unmarshal ExecutionEvent_codec text = Some e) /\
  (forall st text, cok SubmissionState_codec st -> Marshal SubmissionState_codec st = Some text ->
     Unmarshal SubmissionState_codec text = Some st) /\
  (forall s, exists text, Marshal string_codec s = Some text /\
     Unmarshal string_codec text = Some (sanitize s) /\ utf8_valid (sanitize s)).
Proof.
  split_and!.
  - intros job text. apply Unmarshal_Marshal; [apply SubmissionJob_laws|vm_compute; lia].
  - intros e text. apply Unmarshal_Marshal; [apply ExecutionEvent_laws|vm_compute; lia].
  - intros st text. apply Unmarshal_Marshal; [apply SubmissionState_laws|vm_compute; lia].
  - intros s. exists (print (JStr (quote s))). split_and!; [done| |].
    + unfold Unmarshal. rewrite (parse_print 0); [|apply quote_scans|lia]. apply unquote_quote.
    + eapply unquote_valid, unquote_quote.
Qed.

Definition wire_bytes : bytes := default [] (Marshal (ExecutionEvent_codec (H := utc)) wire_event).

Lemma messages_round_trip_witness :
  Unmarshal (ExecutionEvent_codec (H := utc)) wire_bytes = Some wire_event.
Proof.
  refine (proj1 (proj2 (messages_round_trip (H := utc))) wire_event wire_bytes _ _).
  - repeat refine (conj _ _). all: vm_compute; done || congruence.
  - vm_compute. reflexivity.
Defined.
