(* ===== verification/Cli.v ===== *)
(** * The command line engine (cmd/engine/main.go)

    [main] reads the code and the input, builds a request from the flags, runs
    it and prints the result for a reader or as JSON.  [fatalError] ends the
    process with exit code 1 and a line on stderr; it is the value [Exit1]
    here.  The flag library gives the flags; their defaults are
    [default_flags]. *)

From S2P Require Import Prelude GoStrings GoFloat Go OS Models Languages FilePath.
From S2P Require Import Json JsonString JsonNumber JsonTime Codec JsonIndent Queue Events Store Wire.
From S2P Require Import Watchdog Sandbox NativeSandbox DockerSandbox DevSandbox Select Engine.

Record flags := {
  fl_file : string;
  fl_code : string;
  fl_lang : string;
  fl_input : string;
  fl_expected : string;
  fl_timeLimitMs : Z;
  fl_memoryLimitMB : Z;
  fl_cpuQuota : float64;
  fl_pidsLimit : Z;
  fl_sandbox : string;
  fl_json : bool;
}.

Definition default_flags : flags :=
  {| fl_file := ""; fl_code := ""; fl_lang := ""; fl_input := ""; fl_expected := "";
     fl_timeLimitMs := DefaultTimeLimitMs; fl_memoryLimitMB := DefaultMemoryLimitMB;
     fl_cpuQuota := DefaultCpuQuota; fl_pidsLimit := DefaultPidsLimit; fl_sandbox := "auto"; fl_json := false |}.

(** How the process ends: its stdout, or its stderr and exit code 1. *)
Inductive exit := Done (stdout : string) | Exit1 (stderr : string).

Definition fatalError (msg : string) : exit := Exit1 ("Error: " +:+ msg +:+ nl).

(** The language of a file by its extension, when no flag says it. *)
Definition language_of (file lang : string) : string :=
  if bool_decide (lang = "") then
    let ext := Ext file in
    if bool_decide (ext ∈ [".cpp"; ".cc"; ".cxx"]) then "cpp"
    else if bool_decide (ext = ".py") then "python3" else lang
  else lang.

(** The code and the language, or the message of a fatal error. *)
Definition read_code (fl : flags) : prog osE (string + string * string) :=
  if negb (bool_decide (fl_file fl = "")) then
    data ← call (ReadFile (fl_file fl));
    match (data : error + string) with
    | inl err => mret (inl ("failed to read file: " +:+ error_text err))
    | inr data => mret (inr (data, language_of (fl_file fl) (fl_lang fl)))
    end
  else if negb (bool_decide (fl_code fl = "")) then mret (inr (fl_code fl, fl_lang fl))
  else mret (inl "either --file or --code must be specified. Run with -h for help.").

(** Standard input, from a file when the flag starts with "@". *)
Definition read_stdin (fl : flags) : prog osE (string + string) :=
  if HasPrefix (fl_input fl) "@" then
    data ← call (ReadFile (of_bytes (drop 1 (to_bytes (fl_input fl)))));
    match (data : error + string) with
    | inl err => mret (inl ("failed to read stdin file: " +:+ error_text err))
    | inr data => mret (inr data)
    end
  else mret (inr (fl_input fl)).

Definition cli_request (fl : flags) (code lang stdin : string) : ExecutionRequest :=
  {| ID := ""; Language := lang; Code := code; Stdin := stdin; ExpectedOutput := fl_expected fl;
     TimeLimitMs := fl_timeLimitMs fl; MemoryLimitMB := fl_memoryLimitMB fl; CpuQuota := fl_cpuQuota fl;
     PidsLimit := fl_pidsLimit fl; MaxOutputBytes := 0; SandboxType := fl_sandbox fl |}.

(** ** What is printed *)

(** A text between the escape sequences of a terminal colour. *)
Definition coloured (colour text : string) : string :=
  of_bytes [byte 27] +:+ "[" +:+ colour +:+ "m" +:+ text +:+ of_bytes [byte 27] +:+ "[0m".

Definition formatVerdict (v : Verdict) : string :=
  if bool_decide (v = VerdictAccepted) then coloured "32" "[ ACCEPTED ]"
  else if bool_decide (v = VerdictTimeLimitExceeded) then coloured "33" "[ TIME_LIMIT_EXCEEDED ]"
  else if bool_decide (v = VerdictMemoryLimitExceeded) then coloured "35" "[ MEMORY_LIMIT_EXCEEDED ]"
  else if bool_decide (v = VerdictCompilationError) then coloured "31" "[ COMPILATION_ERROR ]"
  else if bool_decide (v = VerdictRuntimeError) then coloured "31" "[ RUNTIME_ERROR ]"
  else if bool_decide (v = VerdictWrongAnswer) then coloured "31" "[ WRONG_ANSWER ]"
  else "[" +:+ v +:+ "]".

Definition line (s : string) : string := s +:+ nl.
Definition rule : string := line "==================================================".
Definition show_bool (b : bool) : string := if b then "true" else "false".

(** A section with a heading, when there is something to show. *)
Definition section (heading text : string) : string := nl +:+ line ("--- " +:+ heading +:+ " ---") +:+ line text.

Definition compilation_section (res : ExecutionResult) : string :=
  match res_Compilation res with
  | Some c => if comp_Success c then ""
              else section ("Compilation Error (Exit " +:+ Itoa (comp_ExitCode c) +:+ " in " +:+
                              Sprintf_2f (comp_TimeMs c) +:+ "ms)") (comp_Stderr c)
  | None => ""
  end.

Definition printHumanReadable (res : ExecutionResult) : string :=
  rule +:+ line "🚀 GDG VIT Chennai Remote Runtime Engine (Phase 1)" +:+ rule +:+
  line ("Submission ID  : " +:+ res_ID res) +:+
  line ("Sandbox Backend: " +:+ res_SandboxBackend res) +:+
  line ("Verdict        : " +:+ formatVerdict (res_Verdict res)) +:+
  line ("Exit Code      : " +:+ Itoa (res_ExitCode res)) +:+
  line ("Wall Time      : " +:+ Sprintf_2f (res_WallTimeMs res) +:+ " ms") +:+
  line ("CPU Time       : " +:+ Sprintf_2f (res_CpuTimeMs res) +:+ " ms") +:+
  line ("Peak Memory    : " +:+ Itoa (res_PeakMemoryKB res) +:+ " KB (" +:+
        Sprintf_2f (res_PeakMemoryMB res) +:+ " MB)") +:+
  line ("OOM Killed     : " +:+ show_bool (res_OOMKilled res)) +:+
  compilation_section res +:+
  (if bool_decide (res_Stdout res = "") then "" else section "Program Stdout" (res_Stdout res)) +:+
  (if bool_decide (res_Stderr res = "") || bool_decide (res_Verdict res = VerdictCompilationError) then ""
   else section "Program Stderr" (res_Stderr res)) +:+
  (if bool_decide (res_ErrorDetails res = "") then "" else section "Error Details" (res_ErrorDetails res)) +:+
  rule.

Section Cli.
Context {UL : UnicodeLower} {OSName : Platform} {LZ : LocalZone} {JE : JsonErrors}.

Definition report (json : bool) (res : ExecutionResult) : exit :=
  if json then
    match MarshalIndent ExecutionResult_codec res with
    | Some text => Done (of_bytes (text ++ [newline]))
    | None => fatalError ("failed to encode result JSON: " +:+ marshal_error)
    end
  else Done (printHumanReadable res).

Definition run_request (fl : flags) (req : ExecutionRequest) : prog osE exit :=
  '(result, err) ← Run (New (fl_sandbox fl)) (Some req);
  match (err : option error) with
  | Some err => mret (fatalError ("engine execution failed: " +:+ error_text err))
  | None => res ← deref result; mret (report (fl_json fl) res)
  end.

Definition engine_main (fl : flags) : prog osE exit :=
  code ← read_code fl;
  match (code : string + string * string) with
  | inl msg => mret (fatalError msg)
  | inr (code, lang) =>
      if bool_decide (lang = "") then
        mret (fatalError "language must be specified via --lang (e.g. cpp, python3)")
      else
        stdin ← read_stdin fl;
        match (stdin : string + string) with
        | inl msg => mret (fatalError msg)
        | inr stdin => run_request fl (cli_request fl code lang stdin)
        end
  end.

(** ** Properties *)












End Cli.

Example language_of_ex : (language_of "/a/sol.cc" "", language_of "x.py" "", language_of "x.py" "cpp",
  language_of "x.rs" "") = ("cpp", "python3", "cpp", "").
Proof. reflexivity. Qed.

Example main_runs :
  (run healthy_host (engine_main (UL := ascii_only) (OSName := "linux") (LZ := utc)
     (JE := {| marshal_error := ""; unmarshal_error _ := "" |})
     {| fl_file := ""; fl_code := "print(1)"; fl_lang := "python"; fl_input := ""; fl_expected := "1";
        fl_timeLimitMs := 0; fl_memoryLimitMB := 0; fl_cpuQuota := f0; fl_pidsLimit := 0; fl_sandbox := "dev";
        fl_json := true |}) 0%Z).1.2 = Returned (Done (text_of
"{
  'id': 'exec-',
  'verdict': 'ACCEPTED',
  'exit_code': 0,
  'stdout': '1\n',
  'stderr': '',
  'wall_time_ms': 2,
  'cpu_time_ms': 1.8,
  'peak_memory_kb': 1024,
  'peak_memory_mb': 1,
  'oom_killed': false,
  'sandbox_backend': 'dev_process',
  'executed_at': '1970-01-01T00:00:00.01Z'
}
")).
Proof. vm_compute. reflexivity. Qed.
