(* ===== verification/Redis.v ===== *)
(** * The Redis-backed queue and store (redis_queue.go, redis_store.go)

    The client library is a parameter, [RedisClient]: one function per command
    the code sends, over the state [R] of the server and the connection, with
    the documented behaviour of the commands that succeed as [RedisLaws].  A
    call that ends in another error than [redis.Nil] may or may not have had its
    effect, so nothing is assumed of it. *)

From S2P Require Import Prelude GoStrings GoFloat Go OS Models Json JsonString JsonNumber JsonTime Codec.
From S2P Require Import Queue Events Store Wire.

Class RedisClient (R : Type) := {
  LPush : R -> string -> string -> R * option error;
  BRPop : R -> Z -> string -> R * (error + list string);
  LLen : R -> string -> error + Z;
  RSet : R -> string -> string -> Z -> R * option error;
  RGet : R -> string -> error + string;
  RPublish : R -> string -> string -> R * option error;
  RSubscribe : R -> string -> R * option error;       (* up to the confirmation *)
  RUnsubscribe : R -> string -> R;
  RClose : R -> R * option error;
}.

(** The lists, head first, and the values a server holds. *)
Class RedisLaws (R : Type) `{RedisClient R} := {
  rlist : R -> string -> list string;
  lpush_ok r k v r' : LPush r k v = (r', None) ->
    rlist r' k = v :: rlist r k /\ (forall k', k' <> k -> rlist r' k' = rlist r k');
  brpop_ok r t k r' res : BRPop r t k = (r', inr res) ->
    exists l v, res = [k; v] /\ rlist r k = l ++ [v] /\ rlist r' k = l /\
      (forall k', k' <> k -> rlist r' k' = rlist r k');
  brpop_nil r t k r' e : BRPop r t k = (r', inl e) -> errors_Is e RedisNil = true ->
    rlist r k = [] /\ forall k', rlist r' k' = rlist r k';
  llen_ok r k n : LLen r k = inr n -> n = len (rlist r k);
  set_get r k v ttl r' : RSet r k v ttl = (r', None) -> (0 < ttl)%Z -> RGet r' k = inr v;
  set_get_ne r k v ttl r' k' : RSet r k v ttl = (r', None) -> k' <> k -> RGet r' k' = RGet r k';
}.

(** ** RedisQueue *)

Definition DefaultRedisQueueKey : string := "speedcode:queue:submissions".

Definition NewRedisQueue (queueKey : string) : string :=
  if bool_decide (queueKey = "") then DefaultRedisQueueKey else queueKey.

Section Redis.
Context {R : Type} `{RedisClient R} {LZ : LocalZone} {JE : JsonErrors}.

Definition redis_Enqueue (now : time) (r : R) (queueKey : string) (job : option SubmissionJob)
    : R * option error :=
  match job with
  | None => (r, Some (errors_New "cannot enqueue nil job"))
  | Some job =>
      match Marshal SubmissionJob_codec (normalize_job now job) with
      | None => (r, Some (wrapf "failed to marshal job payload: " (OtherError marshal_error)))
      | Some data => LPush r queueKey (of_bytes data)
      end
  end.

(** [ctxErr] is the context's error when [BRPop] has returned. *)
Definition redis_Dequeue (ctxErr : option error) (r : R) (timeout : Z) (queueKey : string)
    : R * (error + SubmissionJob) :=
  match BRPop r timeout queueKey with
  | (r, inl err) =>
      (r, inl (if errors_Is err RedisNil || bool_decide (is_Some ctxErr) then Sentinel ErrQueueEmpty
               else wrapf "redis dequeue failed: " err))
  | (r, inr (_ :: data :: _)) =>
      match Unmarshal SubmissionJob_codec (to_bytes data) with
      | Some job => (r, inr job)
      | None => (r, inl (wrapf "failed to unmarshal job payload: "
                           (OtherError (unmarshal_error (to_bytes data)))))
      end
  | (r, inr _) => (r, inl (Sentinel ErrQueueEmpty))
  end.

Definition redis_QueueDepth (r : R) (queueKey : string) : error + Z := LLen r queueKey.

(** [Close] of the queue, the store and the bus. *)
Definition redis_Close (r : R) : R * option error := RClose r.

(** ** RedisStore *)

Definition RedisStatePrefix : string := "speedcode:state:".
Definition DefaultStateTTL : Z := 24 * 3600 * Second.

Definition NewRedisStore (ttl : Z) : Z := if bool_decide (ttl <= 0)%Z then DefaultStateTTL else ttl.

(** The new state, the record behind the caller's pointer and the error. *)
Definition redis_SaveState (ttl : Z) (now : time) (r : R) (state : option SubmissionState)
    : R * option SubmissionState * option error :=
  match state with
  | None => (r, None, Some (errors_New "cannot save nil state"))
  | Some state =>
      let state := set_updated now state in
      match Marshal SubmissionState_codec state with
      | None => (r, Some state, Some (wrapf "failed to marshal submission state: " (OtherError marshal_error)))
      | Some data =>
          let (r, err) := RSet r (RedisStatePrefix +:+ st_SubmissionID state) (of_bytes data) ttl in
          (r, Some state, err)
      end
  end.

Definition redis_GetState (r : R) (submissionID : string) : error + SubmissionState :=
  match RGet r (RedisStatePrefix +:+ submissionID) with
  | inl err =>
      inl (if errors_Is err RedisNil then Sentinel ErrNotFound
           else wrapf "failed to get submission state: " err)
  | inr data =>
      match Unmarshal SubmissionState_codec (to_bytes data) with
      | Some state => inr state
      | None => inl (wrapf "failed to unmarshal submission state: "
                       (OtherError (unmarshal_error (to_bytes data))))
      end
  end.

(** ** RedisEventBus: publishing *)

Definition RedisEventChannelPrefix : string := "speedcode:events:".

Definition redis_Publish (now : time) (r : R) (submissionID : string) (event : option ExecutionEvent)
    : R * option error :=
  match event with
  | None => (r, None)
  | Some event =>
      match Marshal ExecutionEvent_codec (stamp now submissionID event) with
      | None => (r, Some (wrapf "failed to marshal event: " (OtherError marshal_error)))
      | Some data => RPublish r (RedisEventChannelPrefix +:+ submissionID) (of_bytes data)
      end
  end.

End Redis.

(** ** The store behind its interface *)

Lemma prefix_inj (p s1 s2 : string) : p +:+ s1 = p +:+ s2 -> s1 = s2.
Proof. induction p as [|c p IH]; [done|]. intros [= Heq]. by apply IH. Qed.

Lemma Marshal_Unmarshal {A} (c : codec A) a data :
  codec_laws c -> cdepth c <= 1000 -> cok c a -> Marshal c a = Some data ->
  Unmarshal c (to_bytes (of_bytes data)) = Some a.
Proof. rewrite to_of_bytes. apply Unmarshal_Marshal. Qed.

Lemma NewRedisStore_pos ttl : (0 < NewRedisStore ttl)%Z.
Proof. unfold NewRedisStore. case_bool_decide; [done|lia]. Qed.

Section Store.
Context {R : Type} `{RedisLaws R} {LZ : LocalZone} {JE : JsonErrors} (ttl : Z).

Definition redis_store : StateStore R :=
  {| SaveState := redis_SaveState (NewRedisStore ttl); GetState := redis_GetState |}.

Lemma redis_SaveState_ok now r st r' p :
  redis_SaveState (NewRedisStore ttl) now r (Some st) = (r', p, None) ->
  p = Some (set_updated now st) /\
  exists data, Marshal SubmissionState_codec (set_updated now st) = Some data /\
    RSet r (RedisStatePrefix +:+ st_SubmissionID st) (of_bytes data) (NewRedisStore ttl) = (r', None).
Proof.
  unfold redis_SaveState. destruct (Marshal _ _) as [data|] eqn:Hm; [|done].
  change (st_SubmissionID (set_updated now st)) with (st_SubmissionID st).
  destruct (RSet _ _ _ _) as [r1 e] eqn:Hs. intros [= -> <- ->]. split; [done|]. by exists data.
Qed.

(** Redis represents what JSON can carry. *)
Definition redis_store_laws : @StateStoreLaws R redis_store.
Proof.
  refine {| storable st := cok SubmissionState_codec st |}.
  - intros now r st r' p Hok Hs. apply redis_SaveState_ok in Hs as (-> & data & Hm & Hs).
    split; [done|]. cbn. unfold redis_GetState.
    rewrite (set_get _ _ _ _ _ Hs (NewRedisStore_pos ttl)).
    rewrite (Marshal_Unmarshal SubmissionState_codec (set_updated now st));
      [done|apply SubmissionState_laws|vm_compute; lia|done|done].
  - intros now r st r' p id Hs Hne. apply redis_SaveState_ok in Hs as (-> & data & Hm & Hs).
    cbn. unfold redis_GetState. rewrite (set_get_ne _ _ _ _ _ _ Hs); [done|].
    intros Heq. by apply prefix_inj in Heq.
Defined.

End Store.

(** ** The calls of concurrent clients of the queue

    A command of Redis is atomic, so a call is one step.  [RElse] is any command
    on another key.  A call that fails in the connection is not among the steps:
    its effect is unknown. *)

Inductive rlabel :=
| REnqueued (job : SubmissionJob)
| RRejected (err : error)
| RDequeued (job : SubmissionJob)
| REmpty
| RDropped (err : error)
| RElse.

Section Queue.
Context {R : Type} `{RedisLaws R} {LZ : LocalZone} {JE : JsonErrors} (key : string).

Inductive rstep : R -> rlabel -> R -> Prop :=
| rstep_enqueue now r job r' :
    redis_Enqueue now r key (Some job) = (r', None) -> rstep r (REnqueued (normalize_job now job)) r'
| rstep_reject now r job r' err :
    Marshal SubmissionJob_codec (normalize_job now job) = None ->
    redis_Enqueue now r key (Some job) = (r', Some err) -> rstep r (RRejected err) r'
| rstep_dequeue ctxErr timeout r job r' :
    redis_Dequeue ctxErr r timeout key = (r', inr job) -> rstep r (RDequeued job) r'
| rstep_empty timeout r r' err :
    BRPop r timeout key = (r', inl err) -> errors_Is err RedisNil = true ->
    redis_Dequeue None r timeout key = (r', inl (Sentinel ErrQueueEmpty)) -> rstep r REmpty r'
| rstep_drop ctxErr timeout r res r' err :
    BRPop r timeout key = (r', inr res) ->
    redis_Dequeue ctxErr r timeout key = (r', inl err) -> rstep r (RDropped err) r'
| rstep_else r r' : rlist r' key = rlist r key -> rstep r RElse r'.

Inductive rsteps : R -> list rlabel -> R -> Prop :=
| rsteps_refl r : rsteps r [] r
| rsteps_snoc r ls r' l r'' : rsteps r ls r' -> rstep r' l r'' -> rsteps r (ls ++ [l]) r''.

Definition renqueued (ls : list rlabel) : list SubmissionJob :=
  omap (fun l => match l with REnqueued j => Some j | _ => None end) ls.
Definition rdequeued (ls : list rlabel) : list SubmissionJob :=
  omap (fun l => match l with RDequeued j => Some j | _ => None end) ls.

(** The jobs whose texts are in the list, the first pushed first. *)
Definition holds (r : R) (pending : list SubmissionJob) : Prop :=
  Forall (cok SubmissionJob_codec) pending /\
  Forall2 (fun job text => of_bytes <$> Marshal SubmissionJob_codec job = Some text)
    pending (reverse (rlist r key)).

Lemma holds_push r job r' now pending :
  holds r pending -> cok SubmissionJob_codec (normalize_job now job) ->
  redis_Enqueue now r key (Some job) = (r', None) -> holds r' (pending ++ [normalize_job now job]).
Proof.
  intros [Hok Hl] Hj. unfold redis_Enqueue. destruct (Marshal _ _) as [data|] eqn:Hm; [|done].
  intros [Hp _]%lpush_ok. split; [by apply Forall_app; split; [|constructor]|].
  rewrite Hp, reverse_cons. apply Forall2_app; [done|]. constructor; [|done]. by rewrite Hm.
Qed.

Lemma holds_pop ctxErr timeout r res r' pending :
  holds r pending -> BRPop r timeout key = (r', inr res) ->
  exists job rest, pending = job :: rest /\ holds r' rest /\
    redis_Dequeue ctxErr r timeout key = (r', inr job).
Proof.
  intros [Hok Hl] Hb. destruct (brpop_ok _ _ _ _ _ Hb) as (l & v & -> & Hr & Hr' & _).
  rewrite Hr, reverse_snoc in Hl. inversion Hl as [|job v' rest l' Hm Hrest]; subst.
  apply Forall_cons in Hok as [Hj Hok]. exists job, rest. split_and!; [done| |].
  - split; [done|]. done.
  - unfold redis_Dequeue. rewrite Hb. destruct (Marshal _ job) as [data|] eqn:Hd; [|done].
    injection Hm as <-. rewrite (Marshal_Unmarshal SubmissionJob_codec job);
      [done|apply SubmissionJob_laws|vm_compute; lia|done|done].
Qed.

Lemma holds_empty timeout r r' err pending :
  holds r pending -> BRPop r timeout key = (r', inl err) -> errors_Is err RedisNil = true ->
  pending = [] /\ holds r' [].
Proof.
  intros [Hok Hl] Hb He. destruct (brpop_nil _ _ _ _ _ Hb He) as [Hn Hs]. rewrite Hn in Hl.
  inversion Hl; subst. split; [done|]. split; [done|]. rewrite Hs, Hn. constructor.
Qed.

Lemma renqueued_app l1 l2 : renqueued (l1 ++ l2) = renqueued l1 ++ renqueued l2.
Proof. apply omap_app. Qed.
Lemma rdequeued_app l1 l2 : rdequeued (l1 ++ l2) = rdequeued l1 ++ rdequeued l2.
Proof. apply omap_app. Qed.

(** One step: what it pushes and pops. *)
Lemma rstep_holds r l r' pending :
  holds r pending -> Forall (cok SubmissionJob_codec) (renqueued [l]) -> rstep r l r' ->
  exists pending', holds r' pending' /\ pending ++ renqueued [l] = rdequeued [l] ++ pending' /\
    (forall err, l <> RDropped err) /\ (l = REmpty -> pending = []).
Proof.
  intros Hh Hok Hs.
  destruct Hs as [now r job r' He|now r job r' err Hm He|c t r job r' Hd|t r r' err Hb He Hd|c t r res r' err Hb Hd|r r' He].
  - exists (pending ++ [normalize_job now job]). cbn in Hok. apply Forall_cons in Hok as [Hok _].
    split_and!; [by eapply holds_push|done..].
  - exists pending. unfold redis_Enqueue in He. rewrite Hm in He. injection He as -> _.
    split_and!; [done|by rewrite app_nil_r|done..].
  - destruct (BRPop r t key) as [r1 [e|res]] eqn:Hb.
    + unfold redis_Dequeue in Hd. rewrite Hb in Hd. by case_match.
    + destruct (holds_pop c t r res r1 pending Hh Hb) as (job' & rest & -> & Hr & Hd').
      rewrite Hd in Hd'. injection Hd' as -> ->. exists rest.
      split_and!; [done|cbn; by rewrite app_nil_r|done..].
  - destruct (holds_empty t r r' err pending Hh Hb He) as [-> Hr]. by exists [].
  - destruct (holds_pop c t r res r' pending Hh Hb) as (job' & rest & -> & Hr & Hd'). congruence.
  - exists pending. split_and!; [|by rewrite app_nil_r|done..]. destruct Hh as [H1 H2].
    split; [done|]. by rewrite He.
Qed.

Lemma rsteps_holds r ls r' :
  rlist r key = [] -> Forall (cok SubmissionJob_codec) (renqueued ls) -> rsteps r ls r' ->
  exists pending, holds r' pending /\ renqueued ls = rdequeued ls ++ pending /\
    (forall err, RDropped err ∉ ls).
Proof.
  intros Hr Hok Hs. induction Hs as [r|r ls r1 l r2 _ IH Hstep].
  - exists []. split_and!; [|done|set_solver]. split; [done|]. rewrite Hr. constructor.
  - rewrite renqueued_app in Hok. apply Forall_app in Hok as [Hok1 Hok2].
    destruct (IH Hr Hok1) as (pending & Hh & Heq & Hd).
    destruct (rstep_holds r1 l r2 pending Hh Hok2 Hstep) as (p' & Hh' & Heq' & Hd' & _).
    exists p'. split_and!; [done| |].
    + by rewrite renqueued_app, rdequeued_app, Heq, <- !app_assoc, Heq'.
    + intros err. rewrite elem_of_app, list_elem_of_singleton. intros [?|<-]; [by eapply Hd|].
      by eapply Hd'.
Qed.

End Queue.

(** ** A small server *)

Record mini_redis := { mr_lists : gmap string (list string); mr_values : gmap string string }.

Definition mr_list (r : mini_redis) (k : string) : list string := default [] (mr_lists r !! k).

#[export] Instance mini_client : RedisClient mini_redis :=
  {| LPush r k v := ({| mr_lists := <[k := v :: mr_list r k]> (mr_lists r); mr_values := mr_values r |}, None);
     BRPop r t k := match last (mr_list r k) with
                    | Some v => ({| mr_lists := <[k := removelast (mr_list r k)]> (mr_lists r);
                                    mr_values := mr_values r |}, inr [k; v])
                    | None => (r, inl (Sentinel RedisNil))
                    end;
     LLen r k := inr (len (mr_list r k));
     RSet r k v ttl := ({| mr_lists := mr_lists r; mr_values := <[k := v]> (mr_values r) |}, None);
     RSubscribe r _ := (r, None);
     RUnsubscribe r _ := r;
     RGet r k := match mr_values r !! k with Some v => inr v | None => inl (Sentinel RedisNil) end;
     RPublish r _ _ := (r, None);
     RClose r := (r, None) |}.

#[export] Instance mini_laws : RedisLaws mini_redis.
Proof.
  refine {| rlist := mr_list |}.
  - intros r k v r' [= <-]. split; [unfold mr_list at 1; cbn; by rewrite lookup_insert_eq|].
    intros k' Hk. unfold mr_list. cbn. by rewrite lookup_insert_ne.
  - intros r t k r' res. cbn. destruct (last (mr_list r k)) as [v|] eqn:Hl; [|done]. intros [= <- <-].
    exists (removelast (mr_list r k)), v. split_and!; [done| | |].
    + rewrite app_removelast_last with (d := v) at 1 by (intros Hn; by rewrite Hn in Hl).
      f_equal. f_equal. apply last_Some in Hl as [l' ->]. by rewrite last_last.
    + unfold mr_list at 1. cbn. by rewrite lookup_insert_eq.
    + intros k' Hk. unfold mr_list. cbn. by rewrite lookup_insert_ne.
  - intros r t k r' e. cbn. destruct (last (mr_list r k)) as [v|] eqn:Hl; [done|]. intros [= <- <-] _.
    by apply last_None in Hl.
  - by intros r k n [= <-].
  - intros r k v ttl r' [= <-] _. cbn. by rewrite lookup_insert_eq.
  - intros r k v ttl r' k' [= <-] Hk. cbn. by rewrite lookup_insert_ne.
Defined.

(** ** Properties *)

(** C16: the Redis queue is the same FIFO as the in-memory one, whatever clients
    do to it and to other keys in any order: as long as the connection works
    and the jobs can be carried by JSON, the jobs dequeued are exactly those
    enqueued, with their defaults filled in, in order and each once, none is
    dropped for its encoding, what is still queued is what [QueueDepth]
    counts, and "empty" is only answered when nothing is queued. *)
Theorem redis_queue_fifo {R} `{RedisLaws R} {LZ : LocalZone} {JE : JsonErrors} (key : string)
    (ls : list rlabel) (r r' : R) (Hempty : rlist r key = [])
    (Hok : Forall (cok SubmissionJob_codec) (renqueued ls)) (Hs : rsteps key r ls r') :
  exists pending, renqueued ls = rdequeued ls ++ pending /\
    (forall err, RDropped err ∉ ls) /\
    (forall n, redis_QueueDepth r' key = inr n -> n = len pending) /\
    (forall r'', rstep key r' REmpty r'' -> pending = []).
Proof.
  destruct (rsteps_holds key r ls r' Hempty Hok Hs) as (pending & Hh & Heq & Hd).
  exists pending. split_and!; [done|done| |].
  - intros n Hn%llen_ok. destruct Hh as [_ Hl%Forall2_length]. rewrite length_reverse in Hl.
    unfold len. by rewrite Hl.
  - intros r'' Hst. destruct (rstep_holds key r' REmpty r'' pending Hh ltac:(constructor) Hst)
      as (_ & _ & _ & _ & Hp). by apply Hp.
Qed.

#[local] Existing Instance utc.

Definition no_errors : JsonErrors := {| marshal_error := ""; unmarshal_error _ := "" |}.
#[local] Existing Instance no_errors.

Definition empty_server : mini_redis := {| mr_lists := ∅; mr_values := ∅ |}.
Definition queue_key : string := NewRedisQueue "".

Definition one_queued : mini_redis :=
  (redis_Enqueue 5 empty_server queue_key (Some (sample_job "a"))).1.
Definition two_queued : mini_redis :=
  (redis_Enqueue 5 one_queued queue_key (Some (sample_job "b"))).1.

Lemma redis_queue_fifo_witness :
  rdequeued [REnqueued (normal_job "a"); REnqueued (normal_job "b"); RDequeued (normal_job "a")] =
    [normal_job "a"] /\
  exists pending, [normal_job "a"; normal_job "b"] = [normal_job "a"] ++ pending.
Proof.
  split; [done|].
  destruct (redis_queue_fifo queue_key
    [REnqueued (normal_job "a"); REnqueued (normal_job "b"); RDequeued (normal_job "a")]
    empty_server (redis_Dequeue None two_queued 1 queue_key).1) as (pending & Heq & _).
  - reflexivity.
  - repeat constructor; vm_compute; try done; intros; congruence.
  - apply (rsteps_snoc _ _ [_; _] two_queued).
    + apply (rsteps_snoc _ _ [_] one_queued).
      * apply (rsteps_snoc _ _ [] empty_server); [constructor|].
        apply (rstep_enqueue queue_key 5 _ (sample_job "a")). vm_compute. reflexivity.
      * apply (rstep_enqueue queue_key 5 _ (sample_job "b")). vm_compute. reflexivity.
    + apply (rstep_dequeue queue_key None 1). vm_compute. reflexivity.
  - exists pending. exact Heq.
Defined.

(** The Redis store keeps the contract of a store for every state JSON can
    carry: after any sequence of saves that report no error, a read gives the
    last state saved under its ID with the time of that save as its update
    time, and what was there before for the other IDs. *)
Theorem redis_store_last_write {R} `{RedisLaws R} {LZ : LocalZone} {JE : JsonErrors} (ttl : Z)
    (ws : list (time * SubmissionState)) (r r' : R) (id : string)
    (Hok : Forall (fun w => cok SubmissionState_codec (set_updated w.1 w.2)) ws)
    (Hs : save_all (H := redis_store ttl) r ws = Some r') :
  redis_GetState r' id = match last_saved id ws with
                         | Some st => inr st
                         | None => redis_GetState r id
                         end.
Proof. exact (save_all_get (H0 := redis_store_laws ttl) id ws r r' Hok Hs). Qed.

Definition sample_state : SubmissionState :=
  {| st_SubmissionID := "sub-1"; st_Status := StatusCompleted; st_Verdict := VerdictAccepted;
     st_Language := "cpp"; st_TotalTestCases := 1; st_PassedTestCases := 1; st_Results := [];
     st_Compilation := Some {| comp_Success := true; comp_ExitCode := 0; comp_Stdout := "";
                               comp_Stderr := "warning"; comp_TimeMs := fconst 3055 10 |};
     st_PeakMemoryMB := fconst 13 10; st_TotalCpuTimeMs := f0; st_TotalWallTimeMs := of_Z 20;
     st_ErrorDetails := ""; st_CreatedAt := 5; st_UpdatedAt := 5; st_CompletedAt := Some 9%Z |}.

Definition one_saved : mini_redis := (redis_SaveState (NewRedisStore 0) 7 empty_server (Some sample_state)).1.1.

Lemma redis_store_last_write_witness :
  redis_GetState one_saved "sub-1" = inr (set_updated 7 sample_state).
Proof.
  apply (redis_store_last_write 0 [(7%Z, sample_state)] empty_server one_saved "sub-1").
  - repeat constructor; vm_compute; try done; intros; congruence.
  - vm_compute. reflexivity.
Defined.

(** A state whose compiler output is not valid UTF-8 does not come back as it
    was: each bad byte is three bytes now. *)
Example redis_alters_bad_utf8 :
  let bad := {| st_SubmissionID := "x"; st_Status := StatusFailed; st_Verdict := "";
     st_Language := ""; st_TotalTestCases := 0; st_PassedTestCases := 0; st_Results := [];
     st_Compilation := None; st_PeakMemoryMB := f0; st_TotalCpuTimeMs := f0; st_TotalWallTimeMs := f0;
     st_ErrorDetails := of_bytes [byte 255]; st_CreatedAt := 5; st_UpdatedAt := 5; st_CompletedAt := None |} in
  match redis_GetState (redis_SaveState 1 7 empty_server (Some bad)).1.1 "x" with
  | inr st => st_ErrorDetails st = of_bytes [byte 239; byte 191; byte 189]
  | inl _ => False
  end.
Proof. vm_compute. reflexivity. Qed.
