(* ===== verification/RedisBus.v ===== *)
(** * A Redis subscription (Subscribe of pkg/events/redis_bus.go)

    [Subscribe] starts a goroutine that moves the messages of the Pub/Sub channel
    into a channel of 64 events, and hands the subscriber that channel with a
    closure that ends the subscription.  The goroutine, the subscriber and the
    client library take steps in any order.  What the library delivers, when,
    and that its channel ends after a close, are its business: [BDeliver] and
    [BInboxEnd] are its steps. *)

From S2P Require Import Prelude GoStrings GoFloat Go OS Models Json JsonString JsonNumber JsonTime Codec.
From S2P Require Import Queue Chan Events Store Wire Redis.

(** Where the goroutine is. *)
Inductive pump :=
| Selecting
| Sending (event : ExecutionEvent)
| Returning                       (* before its deferred cleanup *)
| Finished
| Crashed (msg : string).

Record subscription := {
  rs_ch : chan ExecutionEvent;    (* eventCh *)
  rs_inbox : list string;         (* pubsub.Channel() *)
  rs_inbox_closed : bool;
  rs_once : bool;                 (* the cleanup has begun *)
  rs_closing : bool;              (* it has closed pubsub and not yet eventCh *)
  rs_ctx : bool;                  (* ctx is done *)
  rs_pump : pump;
}.

(** The subscription whose goroutine starts. *)
Definition Subscribe_redis : subscription :=
  {| rs_ch := make_chan 64; rs_inbox := []; rs_inbox_closed := false; rs_once := false;
     rs_closing := false; rs_ctx := false; rs_pump := Selecting |}.

(** [Subscribe]: a subscription that is confirmed, or an error. *)
Definition redis_Subscribe {R} `{RedisClient R} (r : R) (submissionID : string) : R * (error + subscription) :=
  let channel := RedisEventChannelPrefix +:+ submissionID in
  match RSubscribe r channel with
  | (r, Some err) => (RUnsubscribe r channel, inl (wrapf "failed to subscribe to redis pubsub: " err))
  | (r, None) => (r, inr Subscribe_redis)
  end.

Definition set_pump (s : subscription) (p : pump) : subscription :=
  {| rs_ch := rs_ch s; rs_inbox := rs_inbox s; rs_inbox_closed := rs_inbox_closed s;
     rs_once := rs_once s; rs_closing := rs_closing s; rs_ctx := rs_ctx s; rs_pump := p |}.

Definition set_inbox (s : subscription) (l : list string) : subscription :=
  {| rs_ch := rs_ch s; rs_inbox := l; rs_inbox_closed := rs_inbox_closed s;
     rs_once := rs_once s; rs_closing := rs_closing s; rs_ctx := rs_ctx s; rs_pump := rs_pump s |}.

Definition set_ch (s : subscription) (c : chan ExecutionEvent) : subscription :=
  {| rs_ch := c; rs_inbox := rs_inbox s; rs_inbox_closed := rs_inbox_closed s;
     rs_once := rs_once s; rs_closing := rs_closing s; rs_ctx := rs_ctx s; rs_pump := rs_pump s |}.

Definition set_ctx (s : subscription) : subscription :=
  {| rs_ch := rs_ch s; rs_inbox := rs_inbox s; rs_inbox_closed := rs_inbox_closed s;
     rs_once := rs_once s; rs_closing := rs_closing s; rs_ctx := true; rs_pump := rs_pump s |}.

(** The first half of the cleanup, under the [sync.Once]: [pubsub.Close()]. *)
Definition cleanup_begin (s : subscription) : subscription :=
  if rs_once s then s
  else {| rs_ch := rs_ch s; rs_inbox := rs_inbox s; rs_inbox_closed := true; rs_once := true;
          rs_closing := true; rs_ctx := rs_ctx s; rs_pump := rs_pump s |}.

(** The second half: [close(eventCh)]. *)
Definition cleanup_end (s : subscription) (c : chan ExecutionEvent) : subscription :=
  {| rs_ch := c; rs_inbox := rs_inbox s; rs_inbox_closed := rs_inbox_closed s;
     rs_once := rs_once s; rs_closing := false; rs_ctx := rs_ctx s; rs_pump := rs_pump s |}.

Inductive blabel :=
| BDeliver (payload : string)
| BInboxEnd
| BPump
| BCtx
| BSend (e : ExecutionEvent)
| BPanic (msg : string)
| BUnsubscribe
| BClose
| BCancel
| BReceive (e : ExecutionEvent).

Section Bus.
Context {LZ : LocalZone}.

Definition decode_event (payload : string) : option ExecutionEvent :=
  Unmarshal ExecutionEvent_codec (to_bytes payload).

(** The goroutine after a message. *)
Definition after_message (payload : string) : pump :=
  match decode_event payload with Some e => Sending e | None => Selecting end.

Inductive bstep : subscription -> blabel -> subscription -> Prop :=
| bstep_deliver s p :
    rs_inbox_closed s = false -> bstep s (BDeliver p) (set_inbox s (rs_inbox s ++ [p]))
| bstep_message s p l :
    rs_pump s = Selecting -> rs_inbox s = p :: l ->
    bstep s BPump (set_pump (set_inbox s l) (after_message p))
| bstep_inbox_end s :
    rs_pump s = Selecting -> rs_inbox s = [] -> rs_inbox_closed s = true ->
    bstep s BInboxEnd (set_pump s Returning)
| bstep_ctx_select s :
    rs_pump s = Selecting -> rs_ctx s = true -> bstep s BCtx (set_pump s Returning)
| bstep_send s e c :
    rs_pump s = Sending e -> send_ready (rs_ch s) = true -> send (rs_ch s) e = Returned c ->
    bstep s (BSend e) (set_pump (set_ch s c) Selecting)
| bstep_send_panic s e msg :
    rs_pump s = Sending e -> send_ready (rs_ch s) = true -> send (rs_ch s) e = Panicked msg ->
    bstep s (BPanic msg) (set_pump s (Crashed msg))
| bstep_ctx_send s e :
    rs_pump s = Sending e -> rs_ctx s = true -> bstep s BCtx (set_pump s Returning)
| bstep_return s :
    rs_pump s = Returning -> bstep s BPump (set_pump (cleanup_begin s) Finished)
| bstep_unsubscribe s : bstep s BUnsubscribe (cleanup_begin s)
| bstep_close s c :
    rs_closing s = true -> close (rs_ch s) = Returned c -> bstep s BClose (cleanup_end s c)
| bstep_close_panic s msg :
    rs_closing s = true -> close (rs_ch s) = Panicked msg ->
    bstep s (BPanic msg) (set_pump s (Crashed msg))
| bstep_cancel s : bstep s BCancel (set_ctx s)
| bstep_receive s e c :
    recv (rs_ch s) = Got e c -> bstep s (BReceive e) (set_ch s c).

Inductive bsteps : subscription -> list blabel -> subscription -> Prop :=
| bsteps_refl s : bsteps s [] s
| bsteps_snoc s ls s' l s'' : bsteps s ls s' -> bstep s' l s'' -> bsteps s (ls ++ [l]) s''.

(** ** Observations *)

Definition delivered (ls : list blabel) : list string :=
  omap (fun l => match l with BDeliver p => Some p | _ => None end) ls.
Definition got (ls : list blabel) : list ExecutionEvent :=
  omap (fun l => match l with BReceive e => Some e | _ => None end) ls.

(** The event the goroutine holds. *)
Definition in_flight (s : subscription) : list ExecutionEvent :=
  match rs_pump s with Sending e => [e] | _ => [] end.

Definition running (s : subscription) : Prop :=
  match rs_pump s with Selecting | Sending _ => True | _ => False end.

(** What the state says of the labels so far. *)
Record bus_ok (s : subscription) (ls : list blabel) : Prop := {
  bo_prefix : got ls ++ ch_buf (rs_ch s) `prefix_of` omap decode_event (delivered ls);
  bo_exact : running s ->
    omap decode_event (delivered ls) =
      got ls ++ ch_buf (rs_ch s) ++ in_flight s ++ omap decode_event (rs_inbox s);
  bo_closed : ch_closed (rs_ch s) = true -> rs_once s = true /\ rs_closing s = false;
  bo_closing : rs_closing s = true -> ch_closed (rs_ch s) = false /\ rs_once s = true;
  bo_once : rs_once s = true -> BUnsubscribe ∈ ls \/ rs_pump s = Finished;
  bo_inbox : rs_inbox_closed s = rs_once s;
  bo_stop : running s \/ rs_ctx s = true \/ BUnsubscribe ∈ ls;
  bo_cancel : rs_ctx s = true -> BCancel ∈ ls;
  bo_wf : chan_wf (rs_ch s) /\ ch_cap (rs_ch s) = 64;
  bo_crash msg : rs_pump s = Crashed msg -> BUnsubscribe ∈ ls /\ msg = send_on_closed;
}.

Lemma delivered_snoc ls l : delivered (ls ++ [l]) = delivered ls ++ delivered [l].
Proof. apply omap_app. Qed.
Lemma got_snoc ls l : got (ls ++ [l]) = got ls ++ got [l].
Proof. apply omap_app. Qed.

Lemma Subscribe_redis_ok : bus_ok Subscribe_redis [].
Proof. split; try done; [by left|]. split; [|done]. unfold chan_wf. cbn. lia. Qed.

Lemma after_message_flight s p l :
  in_flight (set_pump (set_inbox s l) (after_message p)) = omap decode_event [p].
Proof. unfold in_flight, after_message. cbn. by destruct (decode_event p). Qed.

Lemma running_after p s l : running (set_pump (set_inbox s l) (after_message p)).
Proof. unfold running, after_message. cbn. by destruct (decode_event p). Qed.

(** A step that neither delivers nor receives, and touches no event. *)
Lemma quiet_ok s ls l s' :
  bus_ok s ls -> delivered [l] = [] -> got [l] = [] ->
  ch_buf (rs_ch s') = ch_buf (rs_ch s) -> ch_cap (rs_ch s') = ch_cap (rs_ch s) ->
  rs_inbox s' = rs_inbox s -> (running s' -> rs_pump s' = rs_pump s) ->
  (ch_closed (rs_ch s') = true -> rs_once s' = true /\ rs_closing s' = false) ->
  (rs_closing s' = true -> ch_closed (rs_ch s') = false /\ rs_once s' = true) ->
  (rs_once s' = true -> BUnsubscribe ∈ ls ++ [l] \/ rs_pump s' = Finished) ->
  rs_inbox_closed s' = rs_once s' ->
  (running s' \/ rs_ctx s' = true \/ BUnsubscribe ∈ ls ++ [l]) ->
  (rs_ctx s' = true -> BCancel ∈ ls ++ [l]) ->
  (forall msg, rs_pump s' = Crashed msg -> BUnsubscribe ∈ ls ++ [l] /\ msg = send_on_closed) ->
  bus_ok s' (ls ++ [l]).
Proof.
  intros [] Hd Hg Hb Hc Hi Hp ???????. split; try done;
    rewrite ?delivered_snoc, ?got_snoc, ?Hd, ?Hg, ?app_nil_r, ?Hb, ?Hi; try done.
  - intros Hr. specialize (Hp Hr). unfold in_flight. rewrite Hp. apply bo_exact0.
    unfold running in *. by rewrite <- Hp.
  - unfold chan_wf. by rewrite Hb, Hc.
Qed.

(** A step that moves events and leaves the flags alone. *)
Lemma data_ok s ls l s' :
  bus_ok s ls ->
  got (ls ++ [l]) ++ ch_buf (rs_ch s') `prefix_of` omap decode_event (delivered (ls ++ [l])) ->
  (running s' -> omap decode_event (delivered (ls ++ [l])) =
     got (ls ++ [l]) ++ ch_buf (rs_ch s') ++ in_flight s' ++ omap decode_event (rs_inbox s')) ->
  chan_wf (rs_ch s') -> ch_cap (rs_ch s') = ch_cap (rs_ch s) ->
  ch_closed (rs_ch s') = ch_closed (rs_ch s) -> rs_once s' = rs_once s ->
  rs_closing s' = rs_closing s -> rs_inbox_closed s' = rs_inbox_closed s -> rs_ctx s' = rs_ctx s ->
  rs_pump s' = rs_pump s \/ (running s /\ running s') -> bus_ok s' (ls ++ [l]).
Proof.
  intros [Hpre Hex Hcl Hcg Hon Hin Hst Hca [Hwf Hcap] Hcr] H1 H2 H3 H4 H5 H6 H7 H8 H9 Hp.
  assert (Hl : BUnsubscribe ∈ ls -> BUnsubscribe ∈ ls ++ [l]) by set_solver.
  assert (Hlc : BCancel ∈ ls -> BCancel ∈ ls ++ [l]) by set_solver.
  assert (Hnf : running s -> rs_pump s <> Finished) by (unfold running; intros Hr Heq; by rewrite Heq in Hr).
  assert (Hnc : forall msg, running s' -> rs_pump s' <> Crashed msg)
    by (unfold running; intros msg Hr Heq; by rewrite Heq in Hr).
  split; rewrite ?H4, ?H5, ?H6, ?H7, ?H8, ?H9; auto.
  - intros Ho. destruct (Hon Ho) as [Hu|Hf]; [auto|].
    destruct Hp as [Hp|[Hr _]]; [right; congruence|by destruct (Hnf Hr)].
  - destruct Hp as [Hp|[_ Hr]]; [|auto]. unfold running in *. rewrite Hp. destruct Hst as [|[|]]; auto.
  - intros msg Hm. destruct Hp as [Hp|[_ Hr]]; [|by destruct (Hnc msg Hr)].
    rewrite Hp in Hm. destruct (Hcr msg Hm). auto.
Qed.

Lemma running_sending s e : rs_pump s = Sending e -> running s.
Proof. unfold running. by intros ->. Qed.
Lemma running_selecting s : rs_pump s = Selecting -> running s.
Proof. unfold running. by intros ->. Qed.

(** The cleanup has begun only if the subscriber began it or the goroutine is done. *)
Lemma once_unsubscribed s ls :
  bus_ok s ls -> rs_once s = true -> rs_pump s <> Finished -> BUnsubscribe ∈ ls.
Proof. intros Hok Ho Hn. by destruct (bo_once _ _ Hok Ho). Qed.

Lemma deliver_ok s ls p :
  bus_ok s ls -> bus_ok (set_inbox s (rs_inbox s ++ [p])) (ls ++ [BDeliver p]).
Proof.
  intros Hok. pose proof Hok as [Hpre Hex _ _ _ _ _ _ [Hwf _] _].
  apply (data_ok s); try done; [| |by left]; rewrite delivered_snoc, got_snoc, omap_app; cbn [set_inbox rs_ch rs_inbox].
  - rewrite app_nil_r. by apply prefix_app_r.
  - intros Hr. rewrite app_nil_r, omap_app, (Hex Hr), <- !app_assoc. done.
Qed.

Lemma message_ok s ls p l :
  bus_ok s ls -> rs_pump s = Selecting -> rs_inbox s = p :: l ->
  bus_ok (set_pump (set_inbox s l) (after_message p)) (ls ++ [BPump]).
Proof.
  intros Hok Hp Hi. pose proof Hok as [Hpre Hex _ _ _ _ _ _ [Hwf _] _].
  pose proof (running_selecting s Hp) as Hr.
  apply (data_ok s); try done; [| |right; split; [done|apply running_after]];
    rewrite delivered_snoc, got_snoc, !app_nil_r; [done|]. intros _.
  rewrite after_message_flight, (Hex Hr), Hi. unfold in_flight. rewrite Hp. cbn [app set_pump set_inbox rs_ch rs_inbox].
  change (p :: l) with ([p] ++ l). by rewrite omap_app.
Qed.

Lemma sent_ok s ls e c :
  bus_ok s ls -> rs_pump s = Sending e -> send_ready (rs_ch s) = true -> send (rs_ch s) e = Returned c ->
  bus_ok (set_pump (set_ch s c) Selecting) (ls ++ [BSend e]).
Proof.
  intros Hok Hp Hr Hs. pose proof Hok as [Hpre Hex _ _ _ _ _ _ [Hwf _] _].
  pose proof (running_sending s e Hp) as Hrun. specialize (Hex Hrun).
  assert (Hfl : in_flight s = [e]) by (unfold in_flight; by rewrite Hp). rewrite Hfl in Hex.
  unfold send in Hs. destruct (ch_closed (rs_ch s)) eqn:Hc; [done|]. injection Hs as <-.
  unfold send_ready in Hr. rewrite Hc in Hr. apply bool_decide_eq_true in Hr.
  apply (data_ok s); try done; [| | |by right]; rewrite ?delivered_snoc, ?got_snoc, ?app_nil_r;
    cbn [set_pump set_ch rs_ch rs_inbox with_buf ch_buf].
  - rewrite Hex, !app_assoc. by apply prefix_app_r.
  - intros _. by rewrite Hex, <- !app_assoc.
  - unfold chan_wf. cbn. rewrite length_app. cbn. lia.
Qed.

Lemma received_ok s ls e c :
  bus_ok s ls -> recv (rs_ch s) = Got e c -> bus_ok (set_ch s c) (ls ++ [BReceive e]).
Proof.
  intros Hok Hr. pose proof Hok as [Hpre Hex _ _ _ _ _ _ [Hwf _] _].
  pose proof (recv_wf _ _ _ Hwf Hr) as Hwf'. unfold recv in Hr.
  destruct (ch_buf (rs_ch s)) as [|e' l] eqn:Hb; [by case_match|]. injection Hr as -> <-.
  apply (data_ok s); try done; [| |by left]; rewrite delivered_snoc, got_snoc, app_nil_r;
    cbn [set_ch rs_ch rs_inbox with_buf ch_buf].
  - by rewrite <- app_assoc.
  - intros Hr. rewrite (Hex Hr), <- !app_assoc. done.
Qed.

(** The goroutine leaves its loop. *)
Lemma leave_ok s ls l p :
  bus_ok s ls -> delivered [l] = [] -> got [l] = [] ->
  ~ running (set_pump s p) -> p <> Finished ->
  (rs_once s = true -> BUnsubscribe ∈ ls) -> (rs_ctx s = true \/ BUnsubscribe ∈ ls) ->
  (forall msg, p = Crashed msg -> BUnsubscribe ∈ ls /\ msg = send_on_closed) ->
  bus_ok (set_pump s p) (ls ++ [l]).
Proof.
  intros Hok Hd Hg Hnr Hnf Ho Hst Hcr.
  assert (Hl : BUnsubscribe ∈ ls -> BUnsubscribe ∈ ls ++ [l]) by set_solver.
  assert (Hlc : BCancel ∈ ls -> BCancel ∈ ls ++ [l]) by set_solver.
  apply (quiet_ok s); try done; cbn.
  - apply (bo_closed _ _ Hok).
  - apply (bo_closing _ _ Hok).
  - auto.
  - apply (bo_inbox _ _ Hok).
  - destruct Hst; auto.
  - intros Hc. by apply Hlc, (bo_cancel _ _ Hok).
  - intros msg Hm. destruct (Hcr msg Hm). auto.
Qed.

Lemma return_ok s ls :
  bus_ok s ls -> rs_pump s = Returning -> bus_ok (set_pump (cleanup_begin s) Finished) (ls ++ [BPump]).
Proof.
  intros Hok Hp.
  assert (Hst : rs_ctx s = true \/ BUnsubscribe ∈ ls).
  { destruct (bo_stop _ _ Hok) as [Hr|Hst]; [|done]. unfold running in Hr. by rewrite Hp in Hr. }
  pose proof (bo_closed _ _ Hok) as Hcl. pose proof (bo_closing _ _ Hok) as Hcg.
  pose proof (bo_cancel _ _ Hok) as Hca.
  assert (Hnc : rs_once s = false -> ch_closed (rs_ch s) = false).
  { intros Ho. destruct (ch_closed (rs_ch s)); [|done]. destruct Hcl; [done|congruence]. }
  unfold cleanup_begin. destruct (rs_once s) eqn:Ho; apply (quiet_ok s); try done; cbn.
  - by rewrite Ho.
  - by rewrite Ho.
  - by right.
  - by rewrite (bo_inbox _ _ Hok), Ho.
  - right. set_solver.
  - set_solver.
  - by rewrite Hnc.
  - by rewrite Hnc.
  - by right.
  - right. set_solver.
  - set_solver.
Qed.

Lemma unsubscribe_ok s ls : bus_ok s ls -> bus_ok (cleanup_begin s) (ls ++ [BUnsubscribe]).
Proof.
  intros Hok. pose proof (bo_closed _ _ Hok) as Hcl. pose proof (bo_closing _ _ Hok) as Hcg.
  pose proof (bo_cancel _ _ Hok) as Hca.
  assert (Hu : BUnsubscribe ∈ ls ++ [BUnsubscribe]) by set_solver.
  assert (Hcr : forall msg, rs_pump s = Crashed msg -> BUnsubscribe ∈ ls ++ [BUnsubscribe] /\ msg = send_on_closed).
  { intros msg Hm. by destruct (bo_crash _ _ Hok msg Hm). }
  assert (Hnc : rs_once s = false -> ch_closed (rs_ch s) = false).
  { intros Ho. destruct (ch_closed (rs_ch s)); [|done]. destruct Hcl; [done|congruence]. }
  unfold cleanup_begin. destruct (rs_once s) eqn:Ho; apply (quiet_ok s); try done; cbn; auto.
  - by rewrite Ho.
  - by rewrite Ho.
  - by rewrite (bo_inbox _ _ Hok), Ho.
  - set_solver.
  - by rewrite Hnc.
  - set_solver.
Qed.

Lemma closed_ok s ls c :
  bus_ok s ls -> rs_closing s = true -> close (rs_ch s) = Returned c ->
  bus_ok (cleanup_end s c) (ls ++ [BClose]).
Proof.
  intros Hok Hg Hclo. destruct (bo_closing _ _ Hok Hg) as [Hc Ho].
  unfold close in Hclo. rewrite Hc in Hclo. injection Hclo as <-.
  assert (Hl : BUnsubscribe ∈ ls -> BUnsubscribe ∈ ls ++ [BClose]) by set_solver.
  apply (quiet_ok s); try done; cbn.
  - intros _. destruct (bo_once _ _ Hok Ho); auto.
  - apply (bo_inbox _ _ Hok).
  - destruct (bo_stop _ _ Hok) as [|[|]]; auto.
  - pose proof (bo_cancel _ _ Hok). set_solver.
  - intros msg Hm. destruct (bo_crash _ _ Hok msg Hm). auto.
Qed.

Lemma cancelled_ok s ls : bus_ok s ls -> bus_ok (set_ctx s) (ls ++ [BCancel]).
Proof.
  intros Hok. assert (Hl : BUnsubscribe ∈ ls -> BUnsubscribe ∈ ls ++ [BCancel]) by set_solver.
  apply (quiet_ok s); try done; cbn.
  - apply (bo_closed _ _ Hok).
  - apply (bo_closing _ _ Hok).
  - intros Ho. destruct (bo_once _ _ Hok Ho); auto.
  - apply (bo_inbox _ _ Hok).
  - auto.
  - set_solver.
  - intros msg Hm. destruct (bo_crash _ _ Hok msg Hm). auto.
Qed.

Lemma bstep_ok s ls l s' : bus_ok s ls -> bstep s l s' -> bus_ok s' (ls ++ [l]).
Proof.
  intros Hok Hs.
  destruct Hs as [s p Hi|s p q Hp Hi|s Hp Hi Hic|s Hp Hc|s e c Hp Hr Hsd|s e msg Hp Hr Hsd|s e Hp Hc|s Hp|s
    |s c Hg Hclo|s msg Hg Hclo|s|s e c Hrv].
  - by apply deliver_ok.
  - by apply message_ok.
  - assert (Hu : BUnsubscribe ∈ ls).
    { apply (once_unsubscribed s); [done|by rewrite <- (bo_inbox _ _ Hok)|congruence]. }
    apply leave_ok; try done; [intros []|by right].
  - apply leave_ok; try done; [intros []| |by left].
    intros Ho. apply (once_unsubscribed s); [done|done|congruence].
  - by apply sent_ok.
  - unfold send in Hsd. destruct (ch_closed (rs_ch s)) eqn:Hc; [|done]. injection Hsd as <-.
    assert (Hu : BUnsubscribe ∈ ls).
    { apply (once_unsubscribed s); [done|by apply (bo_closed _ _ Hok)|congruence]. }
    apply leave_ok; try done; [intros []|by right|]. by intros msg [= <-].
  - apply leave_ok; try done; [intros []| |by left].
    intros Ho. apply (once_unsubscribed s); [done|done|congruence].
  - by apply return_ok.
  - by apply unsubscribe_ok.
  - by apply closed_ok.
  - destruct (bo_closing _ _ Hok Hg) as [Hc _]. unfold close in Hclo. by rewrite Hc in Hclo.
  - by apply cancelled_ok.
  - by apply received_ok.
Qed.

Lemma bsteps_ok ls s : bsteps Subscribe_redis ls s -> bus_ok s ls.
Proof.
  intros Hs. remember Subscribe_redis as s0. induction Hs; subst; [apply Subscribe_redis_ok|].
  eapply bstep_ok; eauto.
Qed.

End Bus.

(** ** Properties *)

Lemma redis_Subscribe_ok {R} `{RedisClient R} (r r' : R) id s :
  redis_Subscribe r id = (r', inr s) -> s = Subscribe_redis.
Proof. unfold redis_Subscribe. by destruct (RSubscribe r _) as [r1 [err|]]; intros [=]. Qed.

Lemma bsteps_cons `{LocalZone} s l s' ls s'' : bstep s l s' -> bsteps s' ls s'' -> bsteps s (l :: ls) s''.
Proof.
  intros H1 Hs. induction Hs as [s'|s' ls s1 l' s2 _ IH Hstep].
  - apply (bsteps_snoc s [] s l s'); [constructor|done].
  - rewrite app_comm_cons. eapply bsteps_snoc; [by apply IH|done].
Qed.

(** C19: a Redis subscriber receives the events of the messages delivered to it
    in order, each once, and never more than 64 wait in its channel; until it
    unsubscribes or its context is cancelled the goroutine runs and nothing is
    lost, a slow subscriber only makes it wait.  Messages that are no events are
    skipped, and what [Publish] sent is read back as the event it stamped. *)
Theorem redis_subscriber_stream {R} `{RedisClient R} `{LocalZone} (r r' : R) (submissionID : string)
    (s0 : subscription) (Hsub : redis_Subscribe r submissionID = (r', inr s0))
    (ls : list blabel) (s : subscription) (Hs : bsteps s0 ls s) :
  got ls `prefix_of` omap decode_event (delivered ls) /\
  length (ch_buf (rs_ch s)) <= 64 /\
  (BUnsubscribe ∉ ls -> BCancel ∉ ls -> running s /\
     omap decode_event (delivered ls) =
       got ls ++ ch_buf (rs_ch s) ++ in_flight s ++ omap decode_event (rs_inbox s)) /\
  (forall now id e data, cok ExecutionEvent_codec (stamp now id e) ->
     Marshal ExecutionEvent_codec (stamp now id e) = Some data ->
     decode_event (of_bytes data) = Some (stamp now id e)).
Proof.
  apply redis_Subscribe_ok in Hsub as ->.
  pose proof (bsteps_ok ls s Hs) as [Hpre Hex _ _ _ _ Hst Hca [Hwf Hcap] _]. split_and!.
  - etrans; [|exact Hpre]. by apply prefix_app_r.
  - unfold chan_wf in Hwf. by rewrite Hcap in Hwf.
  - intros Hu Hc. assert (Hr : running s) by (destruct Hst as [|[|]]; [done|by destruct Hc; apply Hca|done]).
    split; [done|by apply Hex].
  - intros now id e data Hok Hm. unfold decode_event.
    assert (Hd : cdepth ExecutionEvent_codec <= 1000) by (vm_compute; lia).
    exact (Marshal_Unmarshal _ _ _ ExecutionEvent_laws Hd Hok Hm).
Qed.

(** A label does not occur in a concrete list. *)
Ltac no_label :=
  let Hin := fresh in intros Hin;
  repeat (apply elem_of_cons in Hin as [Hin|Hin]; [discriminate Hin|]); by apply elem_of_nil in Hin.

Definition wire_text : string := default "" (of_bytes <$> Marshal (ExecutionEvent_codec (H := utc)) wire_event).

Lemma redis_subscriber_stream_witness :
  omap (decode_event (LZ := utc)) [wire_text; "junk"] = [wire_event] ++ [].
Proof.
  assert (Hs : exists s, bsteps (LZ := utc) Subscribe_redis
    [BDeliver wire_text; BPump; BSend wire_event; BReceive wire_event; BDeliver "junk"; BPump] s /\
    ch_buf (rs_ch s) ++ in_flight s ++ omap (decode_event (LZ := utc)) (rs_inbox s) = []).
  { eexists. split.
    - eapply bsteps_cons; [by apply bstep_deliver|].
      eapply bsteps_cons; [by eapply bstep_message|].
      eapply bsteps_cons; [eapply bstep_send; [vm_compute; reflexivity..]|].
      eapply bsteps_cons; [by eapply bstep_receive|].
      eapply bsteps_cons; [by apply bstep_deliver|].
      eapply bsteps_cons; [by eapply bstep_message|]. apply bsteps_refl.
    - vm_compute. reflexivity. }
  destruct Hs as (s & Hs & He).
  destruct (@redis_subscriber_stream mini_redis mini_client utc empty_server empty_server "a" Subscribe_redis eq_refl _ s Hs) as (_ & _ & H & _).
  destruct (H ltac:(no_label) ltac:(no_label)) as [_ H']. clear H. rename H' into H. rewrite He in H. exact H.
Defined.

(** C38: ending a Redis subscription is unsafe: the goroutine can only panic when
    the subscriber has unsubscribed, and it always can when it holds an event
    at that moment, however the event got there: the cleanup closes the channel
    the goroutine is about to send on, and the panic, in a goroutine of the
    bus, takes the process down. *)
Theorem redis_unsubscribe_race `{LocalZone} (ls : list blabel) (s : subscription)
    (Hs : bsteps Subscribe_redis ls s) :
  (forall msg s', bstep s (BPanic msg) s' -> BUnsubscribe ∈ ls /\ msg = send_on_closed) /\
  (forall e, rs_pump s = Sending e -> BUnsubscribe ∉ ls ->
     exists s', bsteps Subscribe_redis (ls ++ [BUnsubscribe; BClose; BPanic send_on_closed]) s').
Proof.
  pose proof (bsteps_ok ls s Hs) as Hok. split.
  - intros msg s' Hst. inversion Hst as [| | | | |s1 e m Hp Hr Hsd| | | | |s1 m Hg Hclo| |]; subst.
    + unfold send in Hsd. destruct (ch_closed (rs_ch s)) eqn:Hc; [|done]. injection Hsd as <-.
      split; [|done]. apply (once_unsubscribed s); [done|by apply (bo_closed _ _ Hok)|congruence].
    + destruct (bo_closing _ _ Hok Hg) as [Hc _]. unfold close in Hclo. by rewrite Hc in Hclo.
  - intros e Hp Hu. assert (Ho : rs_once s = false).
    { destruct (rs_once s) eqn:Ho; [|done]. destruct Hu.
      apply (once_unsubscribed s); [done|done|congruence]. }
    assert (Hc : ch_closed (rs_ch s) = false).
    { destruct (ch_closed (rs_ch s)) eqn:Hc; [|done].
      destruct (bo_closed _ _ Hok Hc). congruence. }
    change [BUnsubscribe; BClose; BPanic send_on_closed] with
      ([BUnsubscribe] ++ [BClose] ++ [BPanic send_on_closed]). rewrite !app_assoc.
    eexists. eapply bsteps_snoc; [eapply bsteps_snoc; [eapply bsteps_snoc; [exact Hs|apply bstep_unsubscribe]|]|].
    + apply bstep_close; unfold cleanup_begin; rewrite Ho; [done|]. cbn. unfold close. by rewrite Hc.
    + eapply bstep_send_panic; unfold cleanup_begin; rewrite Ho; cbn; [done..|]. done.
Qed.

Lemma redis_unsubscribe_race_witness :
  exists s, bsteps (LZ := utc) Subscribe_redis
    ([BDeliver wire_text; BPump] ++ [BUnsubscribe; BClose; BPanic send_on_closed]) s.
Proof.
  refine (proj2 (redis_unsubscribe_race (H := utc) [BDeliver wire_text; BPump]
    (set_pump Subscribe_redis (Sending wire_event)) _) wire_event eq_refl _).
  - eapply bsteps_cons; [by apply bstep_deliver|].
    eapply bsteps_cons; [by eapply bstep_message|]. apply bsteps_refl.
  - no_label.
Defined.
