(* ===== verification/Api.v ===== *)
(** * The REST API (pkg/api/server.go)

    A handler is a program of what the server calls: its queue, store and event
    bus behind their interfaces, the uuid library, the clock, and for the
    WebSocket handler the connection.  It returns the response it wrote.  The
    request's body is the text that was read; its path has no escapes.  The
    streaming handler is in WebSocket.v, the routing in Routes.v. *)

From S2P Require Import Prelude GoStrings GoFloat Go OS Models Languages FilePath.
From S2P Require Import Json JsonString JsonNumber JsonTime Codec Queue Events Store Wire.

Record ServerConfig := { Addr : string; MaxQueueDepth : Z }.

(** The defaults of [NewServer]. *)
Definition server_config (cfg : ServerConfig) : ServerConfig :=
  {| Addr := if bool_decide (Addr cfg = "") then ":8080" else Addr cfg;
     MaxQueueDepth := if bool_decide (MaxQueueDepth cfg <= 0)%Z then 500%Z else MaxQueueDepth cfg |}.

(** [Start], from what [ListenAndServe] returned. *)
Definition Start (served : option error) : option error :=
  match served with
  | Some err => if errors_Is err ErrServerClosed then None else Some err
  | None => None
  end.

Record SubmitRequest := {
  sr_Language : string;
  sr_Code : string;
  sr_TimeLimitMs : Z;
  sr_MemoryLimitMB : Z;
  sr_CpuQuota : float64;
  sr_PidsLimit : Z;
  sr_MaxOutputBytes : Z;
  sr_SandboxType : string;
  sr_TestCases : list TestCase;
}.

Record SubmitResponse := {
  sp_SubmissionID : string;
  sp_Status : EventStatus;
  sp_WsURL : string;
  sp_EnqueuedAt : time;
}.

(** The fields and tags of SubmitRequest (server.go). *)
Definition SubmitRequest_fields : struct _ :=
  SCons "language" false string_codec $ SCons "code" false string_codec $
  SCons "time_limit_ms" true int_codec $ SCons "memory_limit_mb" true int_codec $
  SCons "cpu_quota" true float_codec $ SCons "pids_limit" true int_codec $
  SCons "max_output_bytes" true int_codec $ SCons "sandbox_type" true string_codec $
  SCons "test_cases" false (list_codec TestCase_codec) $ SNil.

Definition unpack_SubmitRequest (x : SubmitRequest) :=
  (sr_Language x, (sr_Code x, (sr_TimeLimitMs x, (sr_MemoryLimitMB x, (sr_CpuQuota x,
  (sr_PidsLimit x, (sr_MaxOutputBytes x, (sr_SandboxType x, (sr_TestCases x, tt))))))))).

Definition pack_SubmitRequest b : SubmitRequest :=
  let '(v1, (v2, (v3, (v4, (v5, (v6, (v7, (v8, (v9, tt))))))))) := b in
  {| sr_Language := v1; sr_Code := v2; sr_TimeLimitMs := v3; sr_MemoryLimitMB := v4;
     sr_CpuQuota := v5; sr_PidsLimit := v6; sr_MaxOutputBytes := v7; sr_SandboxType := v8;
     sr_TestCases := v9 |}.

Definition SubmitRequest_codec : codec SubmitRequest :=
  struct_codec SubmitRequest_fields unpack_SubmitRequest pack_SubmitRequest.

(** The fields and tags of SubmitResponse (server.go). *)
Definition SubmitResponse_fields `{LocalZone} : struct _ :=
  SCons "submission_id" false string_codec $ SCons "status" false string_codec $
  SCons "ws_url" false string_codec $ SCons "enqueued_at" false time_codec $ SNil.

Definition unpack_SubmitResponse (x : SubmitResponse) :=
  (sp_SubmissionID x, (sp_Status x, (sp_WsURL x, (sp_EnqueuedAt x, tt)))).

Definition pack_SubmitResponse b : SubmitResponse :=
  let '(v1, (v2, (v3, (v4, tt)))) := b in
  {| sp_SubmissionID := v1; sp_Status := v2; sp_WsURL := v3; sp_EnqueuedAt := v4 |}.

Definition SubmitResponse_codec `{LocalZone} : codec SubmitResponse :=
  struct_codec SubmitResponse_fields unpack_SubmitResponse pack_SubmitResponse.

Lemma SubmitRequest_laws : codec_laws SubmitRequest_codec.
Proof. struct_codec_laws. Qed.

Lemma SubmitRequest_typed : codec_typed SubmitRequest_codec.
Proof. struct_codec_typed. Qed.

Lemma SubmitResponse_laws `{LocalZone} : codec_laws SubmitResponse_codec.
Proof. struct_codec_laws. Qed.

(** ** What the server calls

    A method of an interface may panic.  [WsSelect] is the select of the
    streaming loop: which case the runtime took. *)

Inductive ws_input :=
| CtxDone
| ReaderDone
| Tick
| Event (event : option ExecutionEvent).     (* [None]: the channel is closed *)

Inductive frame :=
| TextFrame (data : bytes)
| PingFrame
| CloseFrame (code : Z) (reason : string).

Inductive apiE :=
| QueueDepthCall
| EnqueueCall (job : SubmissionJob)
| SaveCall (state : SubmissionState)
| GetCall (submissionID : string)
| PublishCall (submissionID : string) (event : ExecutionEvent)
| SubscribeCall (submissionID : string)
| Unsubscribe
| NewUUID
| ApiNow
| ApiNowFormat (layout : string)
| MetricsHandler
| Upgrade
| WsSelect
| WsWrite (f : frame)
| StopTicker
| CancelCtx
| CloseConn.

Record http_request := { rq_Method : string; rq_Path : string; rq_Body : string }.
Record http_response := { rp_Status : Z; rp_Header : gmap string string; rp_Body : string }.

#[export] Instance apiE_effect : Effect apiE := fun e =>
  match e with
  | QueueDepthCall => outcome (error + Z)
  | EnqueueCall _ => outcome (option error)
  | SaveCall _ => outcome (option error)
  | GetCall _ => outcome (error + SubmissionState)
  | PublishCall _ _ => outcome (option error)
  | SubscribeCall _ => outcome (option error)
  | Unsubscribe => outcome unit
  | NewUUID => string
  | ApiNow => time
  | ApiNowFormat _ => string
  | MetricsHandler => http_response
  | Upgrade => option error
  | WsSelect => ws_input
  | WsWrite _ => option error
  | StopTicker | CancelCtx | CloseConn => unit
  end.

Definition invoke {A} (p : prog apiE (outcome A)) : prog apiE A := p ≫= outcome_prog.

(** ** Writing responses *)

Definition StatusText (status : Z) : string :=
  if bool_decide (status = 301)%Z then "Moved Permanently"
  else if bool_decide (status = 400)%Z then "Bad Request"
  else if bool_decide (status = 404)%Z then "Not Found"
  else if bool_decide (status = 405)%Z then "Method Not Allowed"
  else if bool_decide (status = 429)%Z then "Too Many Requests"
  else if bool_decide (status = 500)%Z then "Internal Server Error" else "".

Definition json_header : gmap string string := {["Content-Type" := "application/json"]}.

(** [json.NewEncoder(w).Encode(v)]: nothing is written when it fails. *)
Definition encode_body {A} (c : codec A) (a : A) : string :=
  match Marshal c a with Some text => of_bytes (text ++ [newline]) | None => "" end.

Definition writeJSONError (status : Z) (message : string) : http_response :=
  {| rp_Status := status; rp_Header := json_header;
     rp_Body := of_bytes (print (JObj [(to_bytes "error", JStr (quote (StatusText status)));
                                       (to_bytes "message", JStr (quote message))]) ++ [newline]) |}.

(** [http.Error] *)
Definition http_Error (msg : string) (status : Z) : http_response :=
  {| rp_Status := status;
     rp_Header := {["Content-Type" := "text/plain; charset=utf-8"; "X-Content-Type-Options" := "nosniff"]};
     rp_Body := msg +:+ nl |}.

Definition respond (r : http_response) : prog apiE http_response := mret r.

(** ** Submissions *)

Section Api.
Context {UL : UnicodeLower} {LZ : LocalZone} {JE : JsonErrors}.

(** [uuid.New().String()[:12]] *)
Definition short_uuid : prog apiE string :=
  u ← call NewUUID;
  if bool_decide (String.length u < 12) then
    Panic ("runtime error: slice bounds out of range [:12] with length " +:+ Itoa (Z.of_nat (String.length u)))
  else mret (of_bytes (take 12 (to_bytes u))).

Definition initial_state (id : string) (now : time) (req : SubmitRequest) : SubmissionState :=
  {| st_SubmissionID := id; st_Status := StatusQueued; st_Verdict := VerdictAccepted;
     st_Language := sr_Language req; st_TotalTestCases := len (sr_TestCases req);
     st_PassedTestCases := 0; st_Results := []; st_Compilation := None; st_PeakMemoryMB := f0;
     st_TotalCpuTimeMs := f0; st_TotalWallTimeMs := f0; st_ErrorDetails := "";
     st_CreatedAt := now; st_UpdatedAt := now; st_CompletedAt := None |}.

Definition submitted_job (id : string) (now : time) (req : SubmitRequest) : SubmissionJob :=
  {| j_SubmissionID := id; j_Language := sr_Language req; j_Code := sr_Code req;
     j_TimeLimitMs := sr_TimeLimitMs req; j_MemoryLimitMB := sr_MemoryLimitMB req;
     j_CpuQuota := sr_CpuQuota req; j_PidsLimit := sr_PidsLimit req;
     j_MaxOutputBytes := sr_MaxOutputBytes req; j_SandboxType := sr_SandboxType req;
     j_TestCases := sr_TestCases req; j_EnqueuedAt := now |}.

Definition queued_event (id : string) (now : time) : ExecutionEvent :=
  {| ev_SubmissionID := id; ev_Status := StatusQueued; ev_Timestamp := now; ev_CurrentTestCase := 0;
     ev_TotalTestCases := 0; ev_Verdict := ""; ev_TestCaseResult := None; ev_Compilation := None;
     ev_StdoutChunk := ""; ev_StderrChunk := ""; ev_WallTimeMs := f0; ev_CpuTimeMs := f0;
     ev_PeakMemoryMB := f0; ev_ErrorDetails := "" |}.

Definition ws_url (id : string) : string := "/api/v1/submissions/" +:+ id +:+ "/ws".

(** The submission once the request is accepted: state, job and event. *)
Definition enqueue_submission (req : SubmitRequest) : prog apiE http_response :=
  u ← short_uuid;
  let submissionID := "sub-" +:+ u in
  now ← call ApiNow;
  saved ← invoke (call (SaveCall (initial_state submissionID now req)));
  match saved with
  | Some err =>
      respond (writeJSONError 500 ("Failed to initialize submission state: " +:+ error_text err))
  | None =>
      queued ← invoke (call (EnqueueCall (submitted_job submissionID now req)));
      match queued with
      | Some err => respond (writeJSONError 500 ("Failed to enqueue submission: " +:+ error_text err))
      | None =>
          _ ← invoke (call (PublishCall submissionID (queued_event submissionID now)));
          respond {| rp_Status := 202; rp_Header := json_header;
                     rp_Body := encode_body SubmitResponse_codec
                       {| sp_SubmissionID := submissionID; sp_Status := StatusQueued;
                          sp_WsURL := ws_url submissionID; sp_EnqueuedAt := now |} |}
      end
  end.

Definition queue_full (depth max : Z) : http_response :=
  let r := writeJSONError 429 ("Queue capacity exceeded (current depth: " +:+ Itoa depth +:+
             ", max: " +:+ Itoa max +:+ "); please retry shortly") in
  {| rp_Status := rp_Status r; rp_Header := <["Retry-After" := "5"]> (rp_Header r); rp_Body := rp_Body r |}.

(** What is checked of a request before anything is done with it. *)
Definition validate (r : http_request) : http_response + SubmitRequest :=
  if negb (bool_decide (rq_Method r = "POST")) then inl (http_Error "Method Not Allowed" 405)
  else match Decode SubmitRequest_codec (to_bytes (rq_Body r)) with
  | None => inl (writeJSONError 400 ("Invalid JSON payload: " +:+ unmarshal_error (to_bytes (rq_Body r))))
  | Some req =>
      if bool_decide (TrimSpace (sr_Code req) = "") then inl (writeJSONError 400 "code cannot be empty")
      else match Get init_registry (sr_Language req) with
           | inl err => inl (writeJSONError 400 (error_text err))
           | inr _ => inr req
           end
  end.

Definition handleSubmissions (cfg : ServerConfig) (r : http_request) : prog apiE http_response :=
  match validate r with
  | inl resp => respond resp
  | inr req =>
      depth ← invoke (call QueueDepthCall);
      match (depth : error + Z) with
      | inr depth => if bool_decide (MaxQueueDepth cfg <= depth)%Z
                     then respond (queue_full depth (MaxQueueDepth cfg))
                     else enqueue_submission req
      | inl _ => enqueue_submission req
      end
  end.

(** ** Reading a submission *)

Definition getSubmission (r : http_request) : prog apiE http_response :=
  if negb (bool_decide (rq_Method r = "GET")) then respond (http_Error "Method Not Allowed" 405)
  else
    let id := TrimSpace (TrimPrefix (rq_Path r) "/api/v1/submissions/") in
    if bool_decide (id = "") then respond (writeJSONError 400 "missing submission id")
    else
      state ← invoke (call (GetCall id));
      match (state : error + SubmissionState) with
      | inl err =>
          if errors_Is err ErrNotFound then respond (writeJSONError 404 "submission not found")
          else respond (writeJSONError 500 ("failed to get submission: " +:+ error_text err))
      | inr state =>
          respond {| rp_Status := 200; rp_Header := json_header;
                     rp_Body := encode_body SubmissionState_codec state |}
      end.

(** ** Health *)

Definition health_body (depth : Z) (timestamp : string) : string :=
  of_bytes (print (JObj [(to_bytes "queue_depth", JNum (print_int depth));
                         (to_bytes "status", JStr (quote "healthy"));
                         (to_bytes "timestamp", JStr (quote timestamp))]) ++ [newline]).

Definition handleHealth : prog apiE http_response :=
  depth ← invoke (call QueueDepthCall);
  now ← call (ApiNowFormat "2006-01-02T15:04:05Z07:00");
  respond {| rp_Status := 200; rp_Header := json_header;
             rp_Body := health_body (match (depth : error + Z) with inr d => d | inl _ => 0%Z end) now |}.

End Api.

(** ** Observations *)

Definition saves (tr : list (event apiE)) : list SubmissionState :=
  omap (fun ev => match ev_call ev with SaveCall st => Some st | _ => None end) tr.

Definition accepted_event (ev : event apiE) : option SubmissionJob :=
  match ev_call ev as e return resp e -> option SubmissionJob with
  | EnqueueCall job => fun r => match (r : outcome (option error)) with Returned None => Some job | _ => None end
  | _ => fun _ => None
  end (ev_resp ev).

(** The jobs the queue took. *)
Definition accepted (tr : list (event apiE)) : list SubmissionJob := omap accepted_event tr.

(** The same as properties of one event, with the answers that say it was done:
    the state was stored, the job was queued, the event handed to the bus. *)
Definition stores (st : SubmissionState) (ev : event apiE) : Prop :=
  match ev with Ev (SaveCall st') r => st' = st /\ r = Returned None | _ => False end.

Definition queues (job : SubmissionJob) (ev : event apiE) : Prop :=
  match ev with Ev (EnqueueCall job') r => job' = job /\ r = Returned None | _ => False end.

Definition announces (id : string) (e : ExecutionEvent) (ev : event apiE) : Prop :=
  match ev with Ev (PublishCall id' e') _ => id' = id /\ e' = e | _ => False end.

Definition announced (tr : list (event apiE)) : list (string * ExecutionEvent) :=
  omap (fun ev => match ev_call ev with PublishCall id e => Some (id, e) | _ => None end) tr.

(** The depth the queue reported. *)
Definition depth_seen (tr : list (event apiE)) : option Z :=
  match tr with
  | ev :: _ =>
      match ev_call ev as e return resp e -> option Z with
      | QueueDepthCall => fun r => match (r : outcome (error + Z)) with Returned (inr d) => Some d | _ => None end
      | _ => fun _ => None
      end (ev_resp ev)
  | [] => None
  end.

(** ** Properties *)

Section Properties.
Context {UL : UnicodeLower} {LZ : LocalZone} {JE : JsonErrors}.

Definition accepted_response (id : string) (now : time) : http_response :=
  {| rp_Status := 202; rp_Header := json_header;
     rp_Body := encode_body SubmitResponse_codec
       {| sp_SubmissionID := id; sp_Status := StatusQueued; sp_WsURL := ws_url id; sp_EnqueuedAt := now |} |}.

(** What a submission leaves behind, by how far it got. *)
Definition admitted (cfg : ServerConfig) (tr : list (event apiE)) : Prop :=
  forall depth, depth_seen tr = Some depth -> (depth < MaxQueueDepth cfg)%Z.

Inductive submitted (cfg : ServerConfig) (req : SubmitRequest) (tr : list (event apiE))
    : outcome http_response -> Prop :=
| refused_full depth :
    depth_seen tr = Some depth -> (MaxQueueDepth cfg <= depth)%Z ->
    saves tr = [] -> accepted tr = [] -> announced tr = [] ->
    submitted cfg req tr (Returned (queue_full depth (MaxQueueDepth cfg)))
| not_queued id now msg :
    admitted cfg tr -> saves tr = [initial_state id now req] -> accepted tr = [] -> announced tr = [] ->
    submitted cfg req tr (Returned (writeJSONError 500 msg))
| is_queued id now :
    admitted cfg tr -> saves tr = [initial_state id now req] ->
    accepted tr = [submitted_job id now req] -> announced tr = [(id, queued_event id now)] ->
    in_order [stores (initial_state id now req); queues (submitted_job id now req);
              announces id (queued_event id now)] tr ->
    submitted cfg req tr (Returned (accepted_response id now))
| broke_off msg :
    admitted cfg tr ->
    (accepted tr = [] /\ announced tr = [] /\
       (saves tr = [] \/ exists id now, saves tr = [initial_state id now req]) \/
     exists id now, saves tr = [initial_state id now req] /\ accepted tr = [submitted_job id now req] /\
       announced tr = [(id, queued_event id now)] /\
       in_order [stores (initial_state id now req); queues (submitted_job id now req);
                 announces id (queued_event id now)] tr) ->
    submitted cfg req tr (Panicked msg).

(** Steps of a handler, with the answers of the services it waits for. *)
Ltac api_run :=
  repeat first
    [ wp_step
    | match goal with
      | |- after _ _ _ (match ?o with _ => _ end) => destruct o
      | |- after _ _ _ ?o => is_var o; destruct o
      | |- wp (match ?x with _ => _ end) _ _ => destruct x
      | |- wp (Panic ?m) ?Q ?tr => change (Q tr (Panicked m))
      end; cbv beta iota ].

Lemma enqueue_submission_ok cfg req (d : outcome (error + Z)) :
  admitted cfg [Ev QueueDepthCall d] ->
  wp (enqueue_submission req) (submitted cfg req) [Ev QueueDepthCall d].
Proof.
  intros H. unfold enqueue_submission, short_uuid, invoke, respond. api_run.
  all: first [by econstructor
             |eapply is_queued; [exact H|done..|in_order; done]
             |constructor; [exact H|];
              (left; split_and!; [done..|first [by left|right; by eexists _, _]])
              || (right; eexists _, _; split_and!; [done..|in_order; done])].
Qed.

(** What was stored, queued and announced is this request, field by field,
    under one ID. *)
Definition entered (req : SubmitRequest) (tr : list (event apiE)) : Prop :=
  exists id,
    Forall (fun st => st_SubmissionID st = id /\ st_Status st = "QUEUED" /\
      st_Language st = sr_Language req /\ st_TotalTestCases st = len (sr_TestCases req) /\
      st_PassedTestCases st = 0%Z /\ st_Results st = [] /\ st_CompletedAt st = None) (saves tr) /\
    Forall (fun job => j_SubmissionID job = id /\ j_Language job = sr_Language req /\
      j_Code job = sr_Code req /\ j_TimeLimitMs job = sr_TimeLimitMs req /\
      j_MemoryLimitMB job = sr_MemoryLimitMB req /\ j_CpuQuota job = sr_CpuQuota req /\
      j_PidsLimit job = sr_PidsLimit req /\ j_MaxOutputBytes job = sr_MaxOutputBytes req /\
      j_SandboxType job = sr_SandboxType req /\ j_TestCases job = sr_TestCases req) (accepted tr) /\
    Forall (fun a => a.1 = id /\ ev_SubmissionID a.2 = id /\ ev_Status a.2 = "QUEUED") (announced tr).

Lemma submitted_entered cfg req tr o : submitted cfg req tr o -> entered req tr.
Proof.
  assert (Hall : forall id now ss js es, Forall (eq (initial_state id now req)) ss ->
    Forall (eq (submitted_job id now req)) js -> Forall (eq (id, queued_event id now)) es ->
    saves tr = ss -> accepted tr = js -> announced tr = es -> entered req tr).
  { intros id now ss js es Hs Hj He Es Ea En. exists id. rewrite Es, Ea, En.
    split_and!; [eapply Forall_impl; [exact Hs|]|eapply Forall_impl; [exact Hj|]|eapply Forall_impl; [exact He|]];
      by intros ? <-. }
  intros [d _ _ Hs Ha Hn|id now msg _ Hs Ha Hn|id now _ Hs Ha Hn _|msg _ [(Ha & Hn & [Hs|(id & now & Hs)])|(id & now & Hs & Ha & Hn & _)]].
  - by apply (Hall "" 0%Z [] [] []).
  - eapply (Hall id now); [| | |exact Hs|exact Ha|exact Hn]; by repeat constructor.
  - eapply (Hall id now); [| | |exact Hs|exact Ha|exact Hn]; by repeat constructor.
  - by apply (Hall "" 0%Z [] [] []).
  - eapply (Hall id now); [| | |exact Hs|exact Ha|exact Hn]; by repeat constructor.
  - eapply (Hall id now); [| | |exact Hs|exact Ha|exact Hn]; by repeat constructor.
Qed.

(** C9: the accounts of a submission.  A request that is no POST, has no JSON
    body, no code or no known language is answered 4xx and touches nothing.
    Any other is refused with 429 exactly when the queue reports a depth of at
    least the bound, and then nothing is stored or queued; it gets 500 only
    when no job was queued and no event published; and 202 only when, in this
    order, the store answered that it has the submission's state, the queue
    that it took the one job with the same ID and the request's fields, and the
    QUEUED event was published; if a service panics, a job was queued only
    after the store had answered that it has the state.  In all cases what was
    stored, queued and announced is this request, field by field, under one
    ID. *)
Theorem submit_accounts (cfg : ServerConfig) (r : http_request) :
  wp (handleSubmissions cfg r) (fun tr o =>
    match validate r with
    | inl resp => tr = [] /\ o = Returned resp /\ (rp_Status resp = 400 \/ rp_Status resp = 405)%Z
    | inr req =>
        rq_Method r = "POST" /\ Decode SubmitRequest_codec (to_bytes (rq_Body r)) = Some req /\
        TrimSpace (sr_Code req) <> "" /\ (exists h, Get init_registry (sr_Language req) = inr h) /\
        submitted cfg req tr o /\ entered req tr
    end) [].
Proof.
  unfold handleSubmissions, validate.
  case_bool_decide as Hm; cbn [negb]; [|apply wp_ret; cbn; auto].
  destruct (Decode _ _) as [req|] eqn:Hd; [|apply wp_ret; cbn; auto].
  case_bool_decide as Hc; [apply wp_ret; cbn; auto|].
  destruct (Get init_registry (sr_Language req)) as [err|h] eqn:Hg; [apply wp_ret; cbn; auto|].
  apply (wp_mono _ (submitted cfg req)); [|intros tr o Hs; split_and!; [done..|by exists h|done|by eapply submitted_entered]].
  unfold invoke. do 3 wp_step. wp_step. apply wp_outcome_prog. destruct r0 as [[err|depth]|msg]; cbn [after app].
  - apply enqueue_submission_ok. by intros ? [=].
  - case_bool_decide as Hmax; [by apply wp_ret, refused_full|].
    apply enqueue_submission_ok. intros d Hs. apply (inj Some) in Hs as <-. lia.
  - constructor; [by intros ? [=]|left; split_and!; [done..|by left]].
Qed.

(** A property of the elements of a literal list, from the hypotheses. *)
Ltac all_of := repeat (apply Forall_cons; split; [assumption|]); apply Forall_nil_2.

(** C22: what is decoded is of its type whatever text arrives: in a request that
    is accepted every integer is an int64, every string valid UTF-8 and the
    quota finite, and the same holds of the jobs, events and states read from
    the services. *)
Theorem decoded_well_typed :
  (forall text req, Decode SubmitRequest_codec text = Some req ->
     Forall utf8_valid [sr_Language req; sr_Code req; sr_SandboxType req] /\
     Forall in_int64 [sr_TimeLimitMs req; sr_MemoryLimitMB req; sr_PidsLimit req; sr_MaxOutputBytes req] /\
     is_finite (sr_CpuQuota req) = true /\
     Forall (fun tc => Forall utf8_valid [tc_ID tc; tc_Input tc; tc_ExpectedOutput tc]) (sr_TestCases req)) /\
  (forall text job, Unmarshal SubmissionJob_codec text = Some job -> ctyped SubmissionJob_codec job) /\
  (forall text e, Unmarshal ExecutionEvent_codec text = Some e -> ctyped ExecutionEvent_codec e) /\
  (forall text st, Unmarshal SubmissionState_codec text = Some st -> ctyped SubmissionState_codec st).
Proof.
  split_and!.
  - intros text req H. apply (Decode_typed _ _ _ SubmitRequest_typed) in H.
    destruct H as (H1 & H2 & H3 & H4 & H5 & H6 & H7 & H8 & H9 & _). cbn in *.
    split_and!; [all_of|all_of|done|]. eapply Forall_impl; [exact H9|].
    intros tc (T1 & T2 & T3 & _). all_of.
  - intros text job. apply Unmarshal_typed, SubmissionJob_typed.
  - intros text e. apply Unmarshal_typed, ExecutionEvent_typed.
  - intros text st. apply Unmarshal_typed, SubmissionState_typed.
Qed.

End Properties.
