(* ===== verification/WebSocket.v ===== *)
(** * Streaming events over a WebSocket (pkg/api/websocket.go)

    [HandleWebSocket] sends the final state of a submission that is finished,
    and otherwise subscribes and forwards events until a final one.  Its loop
    ends by what it selects; [rounds] bounds how many selects a session sees,
    after which its context ends it, so every finite session is covered by some
    number of rounds.  The upgrader and the connection are the WebSocket
    library's; the goroutine that reads from the connection only ends the
    session, which is the inputs [ReaderDone] and [CtxDone]. *)

From S2P Require Import Prelude GoStrings GoFloat Go OS Models Languages FilePath.
From S2P Require Import Json JsonString JsonNumber JsonTime Codec Queue Events Store Wire Api.

(** The submission a path "/api/v1/submissions/:id/ws" is about. *)
Definition ws_route (path : string) : option string :=
  let pathParts := Split (Trim path "/") "/" in
  if (bool_decide (length pathParts < 4)) || negb (bool_decide (last pathParts = Some "ws")) then None
  else pathParts !! (length pathParts - 2).

Definition is_final (status : EventStatus) : bool :=
  bool_decide (status = StatusCompleted) || bool_decide (status = StatusFailed).

Section WebSocket.
Context {LZ : LocalZone}.

Definition final_event (now : time) (state : SubmissionState) : ExecutionEvent :=
  {| ev_SubmissionID := st_SubmissionID state; ev_Status := st_Status state; ev_Timestamp := now;
     ev_CurrentTestCase := st_TotalTestCases state; ev_TotalTestCases := st_TotalTestCases state;
     ev_Verdict := st_Verdict state; ev_TestCaseResult := None; ev_Compilation := st_Compilation state;
     ev_StdoutChunk := ""; ev_StderrChunk := ""; ev_WallTimeMs := st_TotalWallTimeMs state;
     ev_CpuTimeMs := st_TotalCpuTimeMs state; ev_PeakMemoryMB := st_PeakMemoryMB state;
     ev_ErrorDetails := st_ErrorDetails state |}.

(** The text of an encoder, which writes nothing when it fails. *)
Definition encoded {A} (c : codec A) (a : A) : bytes :=
  match Marshal c a with Some t => t ++ [newline] | None => [] end.

(** [conn.WriteJSON], its error ignored. *)
Definition write_json (text : bytes) : prog apiE unit :=
  _ ← call (WsWrite (TextFrame text)); mret tt.

Definition subscribe_error : bytes :=
  print (JObj [(to_bytes "error", JStr (quote "failed to subscribe to event bus"))]).

Fixpoint ws_loop (rounds : nat) : prog apiE unit :=
  match rounds with
  | O => mret tt
  | S rounds =>
      i ← call WsSelect;
      match (i : ws_input) with
      | CtxDone | ReaderDone | Event None => mret tt
      | Tick =>
          err ← call (WsWrite PingFrame);
          match (err : option error) with Some _ => mret tt | None => ws_loop rounds end
      | Event (Some event) =>
          match Marshal ExecutionEvent_codec event with
          | None => ws_loop rounds
          | Some data =>
              err ← call (WsWrite (TextFrame data));
              match (err : option error) with
              | Some _ => mret tt
              | None =>
                  if is_final (ev_Status event) then
                    _ ← call (WsWrite (CloseFrame 1000 "Execution Completed"));
                    mret tt
                  else ws_loop rounds
              end
          end
      end
  end.

Definition ws_stream (rounds : nat) (submissionID : string) : prog apiE unit :=
  sub ← invoke (call (SubscribeCall submissionID));
  match (sub : option error) with
  | Some _ => write_json (subscribe_error ++ [newline])
  | None => defer (invoke (call Unsubscribe)) (defer (call StopTicker) (ws_loop rounds))
  end.

Definition ws_session (rounds : nat) (submissionID : string) : prog apiE unit :=
  state ← invoke (call (GetCall submissionID));
  match (state : error + SubmissionState) with
  | inr state =>
      if is_final (st_Status state) then
        now ← call ApiNow;
        write_json (encoded ExecutionEvent_codec (final_event now state))
      else ws_stream rounds submissionID
  | inl _ => ws_stream rounds submissionID
  end.

(** [None]: the connection was taken over, or the upgrader has answered. *)
Definition HandleWebSocket (rounds : nat) (r : http_request) : prog apiE (option http_response) :=
  match ws_route (rq_Path r) with
  | None => mret (Some (http_Error "invalid websocket route" 400))
  | Some submissionID =>
      err ← call Upgrade;
      match (err : option error) with
      | Some _ => mret None
      | None => _ ← defer (call CloseConn) (defer (call CancelCtx) (ws_session rounds submissionID)); mret None
      end
  end.

(** ** Observations *)

Definition seen (tr : list (event apiE)) : list ExecutionEvent :=
  omap (fun ev : event apiE =>
          match ev_call ev as e return resp e -> option ExecutionEvent with
          | WsSelect => fun i => match i with Event e => e | _ => None end
          | _ => fun _ => None
          end (ev_resp ev)) tr.

Definition sent (tr : list (event apiE)) : list bytes :=
  omap (fun ev => match ev_call ev with WsWrite (TextFrame d) => Some d | _ => None end) tr.

Definition count_calls (p : apiE -> bool) (tr : list (event apiE)) : nat :=
  length (filter (fun ev => p (ev_call ev) = true) tr).

Definition is_close (e : apiE) : bool := match e with CloseConn => true | _ => false end.
Definition is_cancel (e : apiE) : bool := match e with CancelCtx => true | _ => false end.
Definition is_unsubscribe (e : apiE) : bool := match e with Unsubscribe => true | _ => false end.
Definition is_stop (e : apiE) : bool := match e with StopTicker => true | _ => false end.
Definition is_write (e : apiE) : bool := match e with WsWrite _ => true | _ => false end.
Definition is_goodbye (e : apiE) : bool := match e with WsWrite (CloseFrame _ _) => true | _ => false end.

Definition isSome {A} (o : option A) : bool := match o with Some _ => true | None => false end.

(** A write the connection refused, the farewell apart. *)
Definition refused_event (ev : event apiE) : bool :=
  match ev_call ev as e return resp e -> bool with
  | WsWrite (CloseFrame _ _) => fun _ => false
  | WsWrite _ => fun err => isSome err
  | _ => fun _ => false
  end (ev_resp ev).

Definition refused (tr : list (event apiE)) : bool := existsb refused_event tr.

Lemma seen_app t1 t2 : seen (t1 ++ t2) = seen t1 ++ seen t2.
Proof. apply omap_app. Qed.
Lemma sent_app t1 t2 : sent (t1 ++ t2) = sent t1 ++ sent t2.
Proof. apply omap_app. Qed.
Lemma count_calls_app p t1 t2 : count_calls p (t1 ++ t2) = count_calls p t1 + count_calls p t2.
Proof. unfold count_calls. by rewrite filter_app, length_app. Qed.
Lemma refused_app t1 t2 : refused (t1 ++ t2) = refused t1 || refused t2.
Proof. apply existsb_app. Qed.

(** An event that ends the stream. *)
Definition ends_stream (e : ExecutionEvent) : bool :=
  is_final (ev_Status e) && isSome (Marshal ExecutionEvent_codec e).

(** What [GetState] gave, when it does not end the session. *)
Definition unfinished (got : error + SubmissionState) : Prop :=
  forall state, got = inr state -> is_final (st_Status state) = false.

(** What a stretch of the loop does with the events it sees: each that has a
    JSON form is written, in order; one that ends the stream is the last, and
    is followed by the farewell if no write was refused. *)
Record streamed (tr : list (event apiE)) : Prop := {
  sd_sent : sent tr = omap (Marshal ExecutionEvent_codec) (seen tr);
  sd_last l1 e l2 : seen tr = l1 ++ e :: l2 -> ends_stream e = true -> l2 = [];
  sd_goodbye : count_calls is_goodbye tr =
    if existsb ends_stream (seen tr) && negb (refused tr) then 1 else 0;
  sd_inner : count_calls is_close tr = 0 /\ count_calls is_cancel tr = 0 /\
    count_calls is_unsubscribe tr = 0 /\ count_calls is_stop tr = 0;
}.

(** A stretch after which the loop goes on. *)
Definition ongoing (tr : list (event apiE)) : Prop :=
  streamed tr /\ existsb ends_stream (seen tr) = false /\ refused tr = false.

Lemma streamed_app t1 t2 : ongoing t1 -> streamed t2 -> streamed (t1 ++ t2).
Proof.
  intros ([H1 H2 H3 H4] & He & Hr) [G1 G2 G3 G4].
  split; rewrite ?sent_app, ?seen_app, ?count_calls_app, ?refused_app, ?existsb_app, ?omap_app.
  - by rewrite H1, G1.
  - intros l1 e l2 Heq Hf. destruct (app_eq_app _ _ _ _ Heq) as (k & [[Ha Hb]|[Ha Hb]]).
    + destruct k as [|x k]; [by apply (G2 [] e l2)|]. injection Hb as -> ->.
      rewrite Ha, existsb_app in He. apply orb_false_iff in He as [_ He]. cbn in He. by rewrite Hf in He.
    + by apply (G2 k e l2).
  - rewrite H3, G3, He, Hr. done.
  - destruct H4 as (-> & -> & -> & ->). exact G4.
Qed.

Abbreviation loop_post := (fun tr o => o = Returned tt /\ streamed tr).

(** A round that sees at most one event. *)
Lemma one_round tr :
  length (seen tr) <= 1 -> sent tr = omap (Marshal ExecutionEvent_codec) (seen tr) ->
  count_calls is_goodbye tr = (if existsb ends_stream (seen tr) && negb (refused tr) then 1 else 0) ->
  count_calls is_close tr = 0 /\ count_calls is_cancel tr = 0 /\
  count_calls is_unsubscribe tr = 0 /\ count_calls is_stop tr = 0 ->
  streamed tr.
Proof.
  intros Hlen ? ? ?. split; [done| |done..]. intros l1 e l2 Heq _. rewrite Heq, length_app in Hlen.
  destruct l2; [done|]. cbn in Hlen. lia.
Qed.

Lemma ws_loop_ok rounds : wp (ws_loop rounds) loop_post [].
Proof.
  induction rounds as [|rounds IH]; [by apply wp_ret; split; [|by apply one_round; cbn; auto]|].
  assert (Hgo : forall t1, ongoing t1 -> wp (ws_loop rounds) loop_post t1).
  { intros t1 H1. eapply wp_use; [exact IH|]. intros s o [-> Hs]. split; [done|]. by apply streamed_app. }
  cbn [ws_loop]. wp_step. wp_step. wp_step. destruct r as [| | |[event|]].
  1, 2, 5: by apply wp_ret; split; [|by apply one_round; cbn; auto].
  - wp_step. wp_step. wp_step. destruct r as [err|]; [by apply wp_ret; split; [|by apply one_round; cbn; auto]|].
    apply Hgo. split; [by apply one_round; cbn; auto|done].
  - destruct (Marshal ExecutionEvent_codec event) as [data|] eqn:Hm.
    2:{ apply Hgo. assert (He : ends_stream event = false) by (unfold ends_stream; by rewrite Hm, andb_false_r).
        split_and!; [by apply one_round; cbn -[Marshal ends_stream]; rewrite ?Hm, ?He; auto|cbn -[ends_stream]; by rewrite He|done]. }
    assert (He : ends_stream event = is_final (ev_Status event))
      by (unfold ends_stream; by rewrite Hm, andb_true_r).
    wp_step. wp_step. wp_step. destruct r as [err|].
    { apply wp_ret. split; [done|]. apply one_round; cbn -[Marshal ends_stream]; rewrite ?Hm, ?He; auto.
      by destruct (is_final _). }
    destruct (is_final (ev_Status event)) eqn:Hf.
    + wp_step. wp_step. wp_step. apply wp_ret. split; [done|]. by apply one_round; cbn -[Marshal ends_stream]; rewrite ?Hm, ?He; auto.
    + apply Hgo. split_and!; [by apply one_round; cbn -[Marshal ends_stream]; rewrite ?Hm, ?He; auto|cbn -[ends_stream]; by rewrite He|done].
Qed.

(** ** Properties *)

(** The calls of a session for a submission and how it ends: what each branch
    of the handler does between the upgrade and the end of the connection. *)
Inductive session (id : string) : list (event apiE) -> outcome unit -> Prop :=
| session_get_panics msg :
    session id [Ev (GetCall id) (Panicked msg)] (Panicked msg)
| session_finished state now err :
    is_final (st_Status state) = true ->
    session id [Ev (GetCall id) (Returned (inr state)); Ev ApiNow now;
                Ev (WsWrite (TextFrame (encoded ExecutionEvent_codec (final_event now state)))) err]
      (Returned tt)
| session_subscribe_panics got msg :
    unfinished got ->
    session id [Ev (GetCall id) (Returned got); Ev (SubscribeCall id) (Panicked msg)] (Panicked msg)
| session_not_subscribed got err werr :
    unfinished got ->
    session id [Ev (GetCall id) (Returned got); Ev (SubscribeCall id) (Returned (Some err));
                Ev (WsWrite (TextFrame (subscribe_error ++ [newline]))) werr] (Returned tt)
| session_streamed got tr o :
    unfinished got -> streamed tr ->
    session id ([Ev (GetCall id) (Returned got); Ev (SubscribeCall id) (Returned None)] ++ tr ++
                [Ev StopTicker tt; Ev Unsubscribe o]) o.

(** The deferred calls run when the loop ends, last deferred first. *)
Lemma ws_subscribed_ok rounds :
  wp (defer (invoke (call Unsubscribe)) (defer (call StopTicker) (ws_loop rounds)))
    (fun tr o => exists body, tr = body ++ [Ev StopTicker tt; Ev Unsubscribe o] /\ streamed body) [].
Proof.
  apply wp_defer, wp_defer. eapply wp_mono; [apply ws_loop_ok|]. intros tr o [-> Htr]. intros [].
  apply (wp_bind outcome_prog). intros o.
  destruct o as [[]|msg]; exists tr; (split; [by rewrite <- app_assoc|done]).
Qed.

Lemma ws_stream_ok rounds id got :
  unfinished got -> wp (ws_stream rounds id) (session id) [Ev (GetCall id) (Returned got)].
Proof.
  intros Hg. unfold ws_stream. apply wp_bind, (wp_bind outcome_prog). intros [[err|]|msg]; apply wp_outcome_prog; cbn [after app].
  - intros werr. by constructor.
  - eapply wp_use; [apply ws_subscribed_ok|]. intros tr o (body & -> & Hb). by constructor.
  - by constructor.
Qed.

Lemma ws_session_ok rounds id : wp (ws_session rounds id) (session id) [].
Proof.
  unfold ws_session. apply wp_bind, (wp_bind outcome_prog). intros [[err|state]|msg]; apply wp_outcome_prog; cbn [after app].
  - by apply ws_stream_ok.
  - destruct (is_final (st_Status state)) eqn:Hf; [|by apply ws_stream_ok; intros ? [= <-]].
    intros now err. by constructor.
  - constructor.
Qed.

(** C10: the WebSocket handler.  A path that is no WebSocket route gets 400 and a
    failed upgrade ends the request; otherwise the session for the ID of the
    path runs, whatever store, bus and connection answer: the state is read,
    a finished submission gets one event with its final state and no
    subscription, any other is subscribed to and every event received that
    has a JSON form is written once, in order, up to a final one, which is
    followed by the farewell unless a write failed.  The ticker is stopped,
    the subscription given back, the context cancelled and the connection
    closed, each once and in this order, also when a service panics. *)
Theorem HandleWebSocket_session (rounds : nat) (r : http_request) :
  wp (HandleWebSocket rounds r) (fun tr o =>
    match ws_route (rq_Path r) with
    | None => tr = [] /\ o = Returned (Some (http_Error "invalid websocket route" 400))
    | Some id =>
        (exists err, tr = [Ev Upgrade (Some err)] /\ o = Returned None) \/
        (exists body o', tr = Ev Upgrade None :: body ++ [Ev CancelCtx tt; Ev CloseConn tt] /\
           session id body o' /\
           o = match o' with Returned _ => Returned None | Panicked msg => Panicked msg end)
    end) [].
Proof.
  unfold HandleWebSocket. destruct (ws_route (rq_Path r)) as [id|]; [|by split].
  apply wp_bind. intros [err|]; cbn [after app]; [left; by exists err|].
  apply wp_bind, wp_defer, wp_defer. eapply wp_use; [apply ws_session_ok|].
  intros body o Hs. intros [].
  apply (wp_mono (outcome_prog o) (fun tr o' => tr = ([Ev Upgrade None] ++ body) ++ [Ev CancelCtx tt] /\ o' = o));
    [by destruct o|].
  intros tr o' [-> ->]. intros [].
  destruct o as [[]|msg]; right; exists body; eexists; (split; [|by split]); by rewrite <- !app_assoc.
Qed.

End WebSocket.
