(* ===== verification/Routes.v ===== *)
(** * Routing (pkg/api/server.go)

    [ServeHTTP] is the handler of the server: the CORS middleware around the
    [http.ServeMux] with the four registered patterns.  The mux cleans the path
    of every request but a CONNECT, redirects when that changes it, and picks
    the pattern that is the path, or whose trailing slash is a prefix of it.
    Paths are those without escapes and without a query. *)

From S2P Require Import Prelude GoStrings GoFloat Go OS Models Languages FilePath.
From S2P Require Import Json JsonString JsonNumber JsonTime Codec Queue Events Store Wire Api WebSocket.

(** [cleanPath] of net/http. *)
Definition cleanPath (p : string) : string :=
  if bool_decide (p = "") then "/"
  else
    let p := if HasPrefix p "/" then p else "/" +:+ p in
    let np := Clean p in
    if HasSuffix p "/" && negb (bool_decide (np = "/")) then np +:+ "/" else np.

Definition html_escape (s : string) : string :=
  of_bytes (to_bytes s ≫= fun c =>
    if bool_decide (code c = 38%N) then to_bytes "&amp;"
    else if bool_decide (code c = 60%N) then to_bytes "&lt;"
    else if bool_decide (code c = 62%N) then to_bytes "&gt;"
    else if bool_decide (code c = 34%N) then to_bytes "&#34;"
    else if bool_decide (code c = 39%N) then to_bytes "&#39;" else [c]).

(** [http.Redirect] to a clean path. *)
Definition Redirect (r : http_request) (url : string) (status : Z) : http_response :=
  let get := bool_decide (rq_Method r = "GET") in
  {| rp_Status := status;
     rp_Header := (if get || bool_decide (rq_Method r = "HEAD")
                   then {["Location" := url; "Content-Type" := "text/html; charset=utf-8"]}
                   else {["Location" := url]});
     rp_Body := if get then "<a href=" +:+ of_bytes [dquote] +:+ html_escape url +:+ of_bytes [dquote] +:+ ">" +:+ StatusText status +:+
                            "</a>." +:+ nl +:+ nl
                else "" |}.

Inductive route :=
| RSubmissions | RSubmission | RHealth | RMetrics | RRedirect (path : string) | RNotFound.

(** The registered patterns. *)
Definition match_path (path : string) : route :=
  if bool_decide (path = "/api/v1/submissions") then RSubmissions
  else if HasPrefix path "/api/v1/submissions/" then RSubmission
  else if bool_decide (path = "/api/v1/health") then RHealth
  else if bool_decide (path = "/metrics") then RMetrics
  else RNotFound.

Definition find_route (r : http_request) : route :=
  if bool_decide (rq_Method r = "CONNECT") then match_path (rq_Path r)
  else if bool_decide (cleanPath (rq_Path r) = rq_Path r) then match_path (rq_Path r)
  else RRedirect (cleanPath (rq_Path r)).

Definition cors_header : gmap string string :=
  {["Access-Control-Allow-Origin" := "*"; "Access-Control-Allow-Methods" := "GET, POST, OPTIONS";
    "Access-Control-Allow-Headers" := "Content-Type, Authorization"]}.

(** What a handler sets is set after the headers of the middleware. *)
Definition add_cors (resp : http_response) : http_response :=
  {| rp_Status := rp_Status resp; rp_Header := rp_Header resp ∪ cors_header; rp_Body := rp_Body resp |}.

Section Routes.
Context {UL : UnicodeLower} {LZ : LocalZone} {JE : JsonErrors}.

Definition answered (p : prog apiE http_response) : prog apiE (option http_response) :=
  resp ← p; mret (Some resp).

Definition handleSubmissionDetailOrWS (rounds : nat) (r : http_request) : prog apiE (option http_response) :=
  if HasSuffix (rq_Path r) "/ws" then HandleWebSocket rounds r else answered (getSubmission r).

Definition serve_mux (cfg : ServerConfig) (rounds : nat) (r : http_request)
    : prog apiE (option http_response) :=
  match find_route r with
  | RSubmissions => answered (handleSubmissions cfg r)
  | RSubmission => handleSubmissionDetailOrWS rounds r
  | RHealth => answered handleHealth
  | RMetrics => answered (call MetricsHandler)
  | RRedirect path => mret (Some (Redirect r path 301))
  | RNotFound => mret (Some (http_Error "404 page not found" 404))
  end.

Definition corsMiddleware (next : http_request -> prog apiE (option http_response)) (r : http_request)
    : prog apiE (option http_response) :=
  if bool_decide (rq_Method r = "OPTIONS") then
    mret (Some {| rp_Status := 204; rp_Header := cors_header; rp_Body := "" |})
  else
    resp ← next r;
    mret (add_cors <$> resp).

(** The handler [NewServer] builds. *)
Definition ServeHTTP (cfg : ServerConfig) (rounds : nat) : http_request -> prog apiE (option http_response) :=
  corsMiddleware (serve_mux (server_config cfg) rounds).

End Routes.

Example cleanPath_ex :
  (cleanPath "/api//v1/./submissions/x/", cleanPath "", cleanPath "/..", cleanPath "a")
  = ("/api/v1/submissions/x/", "/", "/", "/a").
Proof. vm_compute. reflexivity. Qed.

(** ** The paths of a submission *)

Lemma path_of_no_slash ns :
  ns <> [] -> Forall plain_name ns -> HasSuffix (path_of ns) "/" = false.
Proof.
  intros Hne Hns. apply not_true_is_false. rewrite HasSuffix_spec. intros [r Hr].
  destruct (path_of_bytes ns Hne Hns) as (a & l & b & _ & _ & Hb & Hn).
  unfold path_of in Hr. rewrite to_bytes_app in Hr. apply (f_equal last) in Hr.
  rewrite !last_app, Hb in Hr. by injection Hr.
Qed.

Lemma cleanPath_path_of ns : ns <> [] -> Forall plain_name ns -> cleanPath (path_of ns) = path_of ns.
Proof.
  intros Hne Hns. unfold cleanPath. rewrite bool_decide_eq_false_2 by done.
  replace (HasPrefix (path_of ns) "/") with true
    by (symmetry; apply HasPrefix_spec; unfold path_of; rewrite to_bytes_app; eauto).
  by rewrite Clean_path_of, path_of_no_slash.
Qed.

Lemma Trim_path_of ns : ns <> [] -> Forall plain_name ns -> Trim (path_of ns) "/" = String.concat "/" ns.
Proof.
  intros Hne Hns. destruct (path_of_bytes ns Hne Hns) as (a & l & b & Ha & Hna & Hb & Hnb).
  assert (Hin : forall c, in_cutset "/" c = bool_decide (c = slash)).
  { intros c. unfold in_cutset. apply bool_decide_ext. change (to_bytes "/") with [slash]. set_solver. }
  unfold Trim, path_of. rewrite to_bytes_app. change (to_bytes "/") with [slash]. cbn [app drop_while].
  rewrite Hin, bool_decide_eq_true_2 by done. rewrite Ha. cbn [drop_while].
  rewrite Hin, bool_decide_eq_false_2 by done. rewrite <- Ha.
  rewrite <- (of_to_bytes (String.concat "/" ns)) at 2. f_equal. unfold drop_while_end.
  apply last_Some in Hb as [k Hk]. rewrite Hk, reverse_snoc. cbn [drop_while].
  rewrite Hin, bool_decide_eq_false_2 by done. by rewrite reverse_cons, reverse_involutive.
Qed.

Definition submission_names (id : string) : list string := ["api"; "v1"; "submissions"; id].

(** Plain names, the literals by evaluation. *)
Ltac plain_names :=
  repeat (apply Forall_cons; split; [first [assumption|apply (bool_decide_unpack _); exact I]|]); constructor.

Lemma submission_names_plain id : plain_name id -> Forall plain_name (submission_names id).
Proof. intros H. plain_names. Qed.

Lemma ws_route_ws_url id : plain_name id -> ws_route (ws_url id) = Some id.
Proof.
  intros Hid. assert (Hns : Forall plain_name (submission_names id ++ ["ws"])).
  { apply Forall_app. split; [by apply submission_names_plain|]. plain_names. }
  change (ws_url id) with (path_of (submission_names id ++ ["ws"])). unfold ws_route.
  rewrite Trim_path_of, Split_concat by (done || by apply plain_names_split). done.
Qed.

(** A path with no ID is taken for one of the submission "submissions". *)
Example ws_route_no_id : ws_route "/api/v1/submissions/ws" = Some "submissions".
Proof. vm_compute. reflexivity. Qed.

(** ** Cleaning settles *)

Lemma cleanPath_forms p :
  cleanPath p = "/" \/
  exists ns, ns <> [] /\ Forall plain_name ns /\ (cleanPath p = path_of ns \/ cleanPath p = path_of ns +:+ "/").
Proof.
  unfold cleanPath. case_bool_decide; [by left|].
  set (q := if HasPrefix p "/" then p else "/" +:+ p).
  assert (Hq : HasPrefix q "/" = true).
  { unfold q. destruct (HasPrefix p "/") eqn:Hp; [done|].
    apply HasPrefix_spec. rewrite to_bytes_app. eauto. }
  destruct (Clean_rooted q Hq) as [->|(ns & Hne & Hns & ->)].
  - left. by rewrite andb_false_r.
  - right. exists ns. split_and!; [done|done|]. destruct (_ && _); auto.
Qed.

Lemma cleanPath_idemp p : cleanPath (cleanPath p) = cleanPath p.
Proof.
  destruct (cleanPath_forms p) as [->|(ns & Hne & Hns & [->| ->])]; [done|by apply cleanPath_path_of|].
  assert (Hroot : path_of ns <> "/").
  { intros H. destruct (path_of_bytes ns Hne Hns) as (a & l & b & Ha & _).
    apply (f_equal to_bytes) in H. unfold path_of in H. by rewrite to_bytes_app, Ha in H. }
  unfold cleanPath. rewrite bool_decide_eq_false_2 by done.
  assert (Hr : HasPrefix (path_of ns +:+ "/") "/" = true)
    by (unfold path_of; apply HasPrefix_spec; rewrite !to_bytes_app; rewrite <- app_assoc; eauto).
  rewrite Hr, Clean_trailing by done.
  replace (HasSuffix (path_of ns +:+ "/") "/") with true
    by (symmetry; apply HasSuffix_spec; rewrite to_bytes_app; eauto).
  by rewrite bool_decide_eq_false_2.
Qed.

(** ** Properties *)

Section Properties.
Context {UL : UnicodeLower} {LZ : LocalZone} {JE : JsonErrors}.

(** The answer for a submission, by what the store says. *)
Definition state_response (got : error + SubmissionState) : http_response :=
  match got with
  | inl err => if errors_Is err ErrNotFound then writeJSONError 404 "submission not found"
               else writeJSONError 500 ("failed to get submission: " +:+ error_text err)
  | inr state => {| rp_Status := 200; rp_Header := json_header;
                    rp_Body := encode_body SubmissionState_codec state |}
  end.

Definition submission_path (id : string) : string := path_of (submission_names id).

Lemma TrimPrefix_submission id : TrimPrefix (submission_path id) "/api/v1/submissions/" = id.
Proof.
  change (submission_path id) with ("/api/v1/submissions/" +:+ id).
  rewrite <- (of_to_bytes (_ +:+ _)), to_bytes_app. apply TrimPrefix_app.
Qed.

Lemma getSubmission_ok id body :
  id <> "" -> TrimSpace id = id ->
  wp (getSubmission {| rq_Method := "GET"; rq_Path := submission_path id; rq_Body := body |})
    (fun tr o => exists got, tr = [Ev (GetCall id) got] /\
       o = match got with Returned got => Returned (state_response got) | Panicked msg => Panicked msg end) [].
Proof.
  intros Hne Ht. unfold getSubmission. cbn [rq_Method rq_Path].
  rewrite TrimPrefix_submission, Ht, (bool_decide_eq_false_2 (id = "")) by done.
  apply wp_bind, (wp_bind outcome_prog). intros got. apply wp_outcome_prog. cbn [app].
  destruct got as [[err|state]|msg]; cbn [after]; [|by eexists..].
  destruct (errors_Is err ErrNotFound) eqn:He; apply wp_ret; eexists; split; try done; cbn; by rewrite He.
Qed.

(** The path of a submission is served by [getSubmission], unless it is called
    "ws". *)
Lemma submission_path_ws id : slash ∉ to_bytes id -> HasSuffix (submission_path id) "/ws" = true -> id = "ws".
Proof.
  intros Hs. rewrite HasSuffix_spec. intros [k Hk].
  change (submission_path id) with ("/api/v1/submissions/" +:+ id) in Hk. rewrite to_bytes_app in Hk.
  change (to_bytes "/api/v1/submissions/") with (to_bytes "/api/v1/submissions" ++ [slash]) in Hk.
  change (to_bytes "/ws") with (slash :: to_bytes "ws") in Hk. rewrite <- app_assoc in Hk.
  apply to_bytes_inj. generalize dependent (to_bytes "/api/v1/submissions"). intros l Hk.
  destruct (app_eq_app _ _ _ _ Hk) as (m & [[-> Hm]|[-> Hm]]).
  - destruct m as [|c m]; [by injection Hm|]. injection Hm as <- Hm.
    assert (Hc : slash ∈ ["w"%char; "s"%char]) by (rewrite Hm; set_solver).
    exfalso. revert Hc. apply (bool_decide_unpack _). exact I.
  - destruct m as [|c m]; [by injection Hm|]. injection Hm as <- Hid. rewrite Hid in Hs. set_solver.
Qed.

Lemma corsMiddleware_next next r :
  rq_Method r <> "OPTIONS" -> corsMiddleware next r = resp ← next r; mret (add_cors <$> resp).
Proof. intros H. unfold corsMiddleware. by rewrite bool_decide_eq_false_2. Qed.

Lemma find_route_plain id rest method body :
  plain_name id -> Forall plain_name rest ->
  find_route {| rq_Method := method; rq_Path := path_of (submission_names id ++ rest); rq_Body := body |}
    = RSubmission.
Proof.
  intros Hid Hrest. unfold find_route. cbn [rq_Method rq_Path].
  rewrite (bool_decide_eq_true_2 (cleanPath _ = _)).
  2:{ apply cleanPath_path_of; [done|]. apply Forall_app. split; [by apply submission_names_plain|done]. }
  assert (H : match_path (path_of (submission_names id ++ rest)) = RSubmission).
  { unfold match_path.
    assert (Hp : HasPrefix (path_of (submission_names id ++ rest)) "/api/v1/submissions/" = true).
    { destruct rest as [|x rest].
      - change (path_of _) with ("/api/v1/submissions/" +:+ id). by rewrite HasPrefix_spec, to_bytes_app; eauto.
      - change (path_of _) with ("/api/v1/submissions/" +:+ String.concat "/" (id :: x :: rest)).
        rewrite HasPrefix_spec, to_bytes_app. eauto. }
    rewrite Hp, bool_decide_eq_false_2; [done|]. intros Heq. by rewrite Heq in Hp. }
  rewrite H. by case_bool_decide.
Qed.

(** C24: the URLs of a submission, for an ID that is a plain name without
    surrounding white space: the "ws_url" of the 202 response reaches the
    WebSocket handler, which takes the same ID from it; the submission's own
    path reaches the store with that ID, and the answer is the stored state,
    404 when the store says "not found" and 500 for its other errors, each
    with the CORS headers; only the ID "ws" has no such path. *)
Theorem submission_urls (id : string) (Hid : plain_name id) (Hspace : TrimSpace id = id)
    (cfg : ServerConfig) (rounds : nat) (body : string) :
  let ws := {| rq_Method := "GET"; rq_Path := ws_url id; rq_Body := body |} in
  let get := {| rq_Method := "GET"; rq_Path := "/api/v1/submissions/" +:+ id; rq_Body := body |} in
  ws_route (rq_Path ws) = Some id /\
  ServeHTTP cfg rounds ws = (resp ← HandleWebSocket rounds ws; mret (add_cors <$> resp)) /\
  (id <> "ws" ->
   wp (ServeHTTP cfg rounds get) (fun tr o => exists got, tr = [Ev (GetCall id) got] /\
     o = match got with
         | Returned got => Returned (Some (add_cors (state_response got)))
         | Panicked msg => Panicked msg
         end) []).
Proof.
  cbv zeta. split; [by apply ws_route_ws_url|]. unfold ServeHTTP. split.
  - rewrite corsMiddleware_next by done. unfold serve_mux.
    change (ws_url id) with (path_of (submission_names id ++ ["ws"])).
    rewrite find_route_plain by (done || plain_names). unfold handleSubmissionDetailOrWS. cbn [rq_Path].
    replace (HasSuffix _ "/ws") with true; [done|]. symmetry. apply HasSuffix_spec.
    change (path_of _) with (("/api/v1/submissions/" +:+ id) +:+ "/ws"). rewrite to_bytes_app. eauto.
  - intros Hws. rewrite corsMiddleware_next by done. unfold serve_mux.
    change ("/api/v1/submissions/" +:+ id) with (path_of (submission_names id ++ [])).
    rewrite find_route_plain by done. unfold handleSubmissionDetailOrWS. cbn [rq_Path].
    change (path_of (submission_names id ++ [])) with (submission_path id).
    destruct (HasSuffix (submission_path id) "/ws") eqn:Hsuf.
    { destruct Hws. apply submission_path_ws; [apply Hid|done]. }
    apply wp_bind. unfold answered. apply wp_bind.
    eapply wp_mono; [by apply getSubmission_ok; [apply Hid|]|].
    intros tr o (got & -> & ->). by destruct got as [got|msg]; eexists.
Qed.
(** C23: clients and server understand each other: a request value that JSON can
    carry, posted as Marshal writes it with anything after a newline behind
    it, is accepted with exactly its fields if it has code and a known
    language; and the bodies of the 202 response and of a stored state read
    back as the ID, status, URL and time that were sent, and as that state. *)
Theorem client_round_trip :
  (forall req text rest path h, cok SubmitRequest_codec req -> Marshal SubmitRequest_codec req = Some text ->
     TrimSpace (sr_Code req) <> "" -> Get init_registry (sr_Language req) = inr h ->
     validate {| rq_Method := "POST"; rq_Path := path; rq_Body := of_bytes (text ++ newline :: rest) |}
       = inr req) /\
  (forall id now text, let resp := {| sp_SubmissionID := id; sp_Status := StatusQueued;
       sp_WsURL := ws_url id; sp_EnqueuedAt := now |} in
     cok SubmitResponse_codec resp -> Marshal SubmitResponse_codec resp = Some text ->
     Unmarshal SubmitResponse_codec (to_bytes (rp_Body (accepted_response id now))) = Some resp) /\
  (forall state text, cok SubmissionState_codec state -> Marshal SubmissionState_codec state = Some text ->
     Unmarshal SubmissionState_codec (to_bytes (rp_Body (state_response (inr state)))) = Some state).
Proof.
  split_and!.
  - intros req text rest path h Hok Hm Hc Hg. unfold validate. cbn [rq_Method rq_Body].
    rewrite to_of_bytes, (Decode_Marshal SubmitRequest_codec req text (newline :: rest) SubmitRequest_laws);
      [|vm_compute; lia|done|done|cbn; set_solver].
    rewrite bool_decide_eq_true_2, bool_decide_eq_false_2 by done. cbn [negb]. by rewrite Hg.
  - intros id now text resp Hok Hm. cbn [accepted_response rp_Body]. unfold encode_body.
    fold resp. rewrite Hm, to_of_bytes.
    exact (Unmarshal_encoded _ _ _ SubmitResponse_laws ltac:(vm_compute; lia) Hok Hm).
  - intros state text Hok Hm. cbn [state_response rp_Body]. unfold encode_body. rewrite Hm, to_of_bytes.
    exact (Unmarshal_encoded _ _ _ SubmissionState_laws ltac:(vm_compute; lia) Hok Hm).
Qed.

(** Following redirects ends after one: a request whose path the mux has to
    clean is answered 301 with a rooted path and reaches no handler, and the
    same request for that path is not redirected again. *)
Theorem redirected_once (cfg : ServerConfig) (rounds : nat) (r : http_request) :
  match find_route r with
  | RRedirect path =>
      HasPrefix path "/" = true /\
      (forall path' body, find_route {| rq_Method := rq_Method r; rq_Path := path; rq_Body := body |}
         <> RRedirect path') /\
      (rq_Method r <> "OPTIONS" -> exists resp, ServeHTTP cfg rounds r = mret (Some resp) /\
         rp_Status resp = 301%Z /\ rp_Header resp !! "Location" = Some path)
  | _ => cleanPath (rq_Path r) = rq_Path r \/ rq_Method r = "CONNECT"
  end.
Proof.
  assert (Hm : forall p path, match_path p <> RRedirect path)
    by (intros p path; unfold match_path; by repeat case_match).
  unfold find_route at 1. case_bool_decide as Hc; [destruct (match_path _) eqn:Hp; auto; by apply Hm in Hp|].
  case_bool_decide as Hcl; [destruct (match_path _) eqn:Hp; auto; by apply Hm in Hp|]. split_and!.
  - destruct (cleanPath_forms (rq_Path r)) as [->|(ns & _ & _ & [->| ->])]; [done|..];
      unfold path_of; apply HasPrefix_spec; rewrite !to_bytes_app, <- ?app_assoc; eauto.
  - intros path' body. unfold find_route. cbn [rq_Method rq_Path].
    rewrite bool_decide_eq_false_2 by done. rewrite bool_decide_eq_true_2 by apply cleanPath_idemp. apply Hm.
  - intros Ho. eexists. unfold ServeHTTP. rewrite corsMiddleware_next by done. unfold serve_mux, find_route.
    rewrite (bool_decide_eq_false_2 (rq_Method r = "CONNECT")), (bool_decide_eq_false_2 (cleanPath _ = _)) by done.
    split; [reflexivity|]. split; [done|]. cbn [add_cors rp_Header Redirect].
    apply lookup_union_Some_l. destruct (_ || _); [by rewrite lookup_insert_eq|apply lookup_singleton_eq].
Qed.

End Properties.

Definition sample_server : ServerConfig := {| Addr := ""; MaxQueueDepth := 0 |}.

Lemma submission_urls_witness : ws_route (ws_url "sub-0a1b2c3d-4e5") = Some "sub-0a1b2c3d-4e5".
Proof.
  refine (proj1 (submission_urls (UL := fun r => r) (LZ := utc)
    (JE := {| marshal_error := ""; unmarshal_error := fun _ => "" |}) "sub-0a1b2c3d-4e5" _ _ sample_server 1 "")).
  - apply (bool_decide_unpack _). exact I.
  - reflexivity.
Defined.

Definition sample_request : SubmitRequest :=
  {| sr_Language := "python3"; sr_Code := "print('<1>')" +:+ nl; sr_TimeLimitMs := 2000; sr_MemoryLimitMB := 0;
     sr_CpuQuota := fconst 1 2; sr_PidsLimit := 0; sr_MaxOutputBytes := 0; sr_SandboxType := "dev_process";
     sr_TestCases := [{| tc_ID := "t1"; tc_Input := ""; tc_ExpectedOutput := "<1>"; tc_IsHidden := true |}] |}.

Definition no_table : UnicodeLower := fun r => r.
Definition no_errors : JsonErrors := {| marshal_error := ""; unmarshal_error _ := "" |}.

Definition sample_body : bytes := default [] (Marshal SubmitRequest_codec sample_request).

Lemma client_round_trip_witness :
  validate (UL := no_table) (JE := no_errors)
    {| rq_Method := "POST"; rq_Path := ""; rq_Body := of_bytes (sample_body ++ [newline]) |} = inr sample_request.
Proof.
  refine (proj1 (client_round_trip (UL := no_table) (LZ := utc) (JE := no_errors))
    sample_request sample_body [] "" _ _ _ _ _).
  - repeat refine (conj _ _). 14: (apply Forall_cons; split; [|by constructor]; repeat refine (conj _ _)).
    all: vm_compute; done || congruence.
  - vm_compute. reflexivity.
  - vm_compute. congruence.
  - vm_compute. reflexivity.
Defined.
