(* ===== verification/Standalone.v ===== *)
(** * The gateway in standalone mode (cmd/api/main.go)

    Without a Redis URL the server runs on the in-memory queue, bus and store.
    [standalone] is that process as an environment of the handlers: a service
    call is answered by the component, a connection accepts every write, and
    [w_script] says what the other goroutines do to the bus before each
    subscription and each round of a stream, and which of its ready cases the
    select then takes.  The theorems put the handlers and the components
    together. *)

From S2P Require Import Prelude GoStrings GoFloat Go OS Models Languages FilePath.
From S2P Require Import Json JsonString JsonNumber JsonTime Codec Chan Queue Events Store Wire Api WebSocket Routes.

(** The case a select takes: the event channel when it is ready and the ticker
    otherwise, the ticker, or the end of the session. *)
Inductive pick := Deliver | Beat | Quit.

(** The first element with a property is one only. *)
Lemma first_unique {A} (f : A -> bool) k1 x k2 l1 y l2 :
  k1 ++ x :: k2 = l1 ++ y :: l2 -> existsb f k1 = false -> existsb f l1 = false ->
  f x = true -> f y = true -> k1 = l1 /\ x = y.
Proof.
  revert l1. induction k1 as [|a k1 IH]; intros [|b l1]; cbn.
  - by intros [= <- _].
  - intros [= <- _] _ [H _]%orb_false_iff Hx _. congruence.
  - intros [= -> _] [H _]%orb_false_iff _ _ Hy. congruence.
  - intros [= -> Heq] [_ Hk]%orb_false_iff [_ Hl]%orb_false_iff Hx Hy.
    destruct (IH l1 Heq Hk Hl Hx Hy) as [-> ->]. done.
Qed.

Record world := {
  w_queue : MemoryQueue;
  w_bus : MemoryEventBus;
  w_store : MemoryStore;
  w_sub : nat;                      (* the channel of the session *)
  w_now : time;
  w_uuids : list string;
  w_script : list (list op * pick);
}.

(** The in-memory mode of [main]. *)
Definition standalone_start (now : time) (uuids : list string) (script : list (list op * pick)) : world :=
  {| w_queue := NewMemoryQueue 1000; w_bus := NewMemoryEventBus; w_store := NewMemoryStore; w_sub := 0;
     w_now := now; w_uuids := uuids; w_script := script |}.

Definition set_queue (q : MemoryQueue) (w : world) : world :=
  {| w_queue := q; w_bus := w_bus w; w_store := w_store w; w_sub := w_sub w; w_now := w_now w;
     w_uuids := w_uuids w; w_script := w_script w |}.
Definition set_bus (m : MemoryEventBus) (w : world) : world :=
  {| w_queue := w_queue w; w_bus := m; w_store := w_store w; w_sub := w_sub w; w_now := w_now w;
     w_uuids := w_uuids w; w_script := w_script w |}.
Definition set_store (s : MemoryStore) (w : world) : world :=
  {| w_queue := w_queue w; w_bus := w_bus w; w_store := s; w_sub := w_sub w; w_now := w_now w;
     w_uuids := w_uuids w; w_script := w_script w |}.
Definition set_sub (i : nat) (w : world) : world :=
  {| w_queue := w_queue w; w_bus := w_bus w; w_store := w_store w; w_sub := i; w_now := w_now w;
     w_uuids := w_uuids w; w_script := w_script w |}.
Definition set_uuids (us : list string) (w : world) : world :=
  {| w_queue := w_queue w; w_bus := w_bus w; w_store := w_store w; w_sub := w_sub w; w_now := w_now w;
     w_uuids := us; w_script := w_script w |}.
Definition set_script (s : list (list op * pick)) (w : world) : world :=
  {| w_queue := w_queue w; w_bus := w_bus w; w_store := w_store w; w_sub := w_sub w; w_now := w_now w;
     w_uuids := w_uuids w; w_script := s |}.

(** The other goroutines' turn on the bus. *)
Definition others (ops : list op) (m : MemoryEventBus) : MemoryEventBus :=
  match run_ops m ops with Returned (m', _) => m' | Panicked _ => m end.

Definition turn (w : world) : world * pick :=
  match w_script w with
  | [] => (w, Deliver)
  | (ops, p) :: script => (set_script script (set_bus (others ops (w_bus w)) w), p)
  end.

(** A whole [Enqueue] with a context that lives. *)
Definition enqueue_alone (now : time) (m : MemoryQueue) (job : SubmissionJob)
    : outcome (option error) * MemoryQueue :=
  match Enqueue_check m with
  | Some err => (Returned (Some err), m)
  | None => match Enqueue_send None now m job with
            | (m', o) :: _ => (o, m')
            | [] => (Returned None, m)
            end
  end.

(** The select of a stream. *)
Definition select_answer (w : world) : ws_input * world :=
  match turn w with
  | (w, Quit) => (CtxDone, w)
  | (w, Beat) => (Tick, w)
  | (w, Deliver) =>
      match bus_chans (w_bus w) !! w_sub w with
      | Some c =>
          match recv c with
          | Got e c' => (Event (Some e),
                         set_bus (with_chans (w_bus w) (<[w_sub w := c']> (bus_chans (w_bus w)))) w)
          | Drained => (Event None, w)
          | Blocked => (Tick, w)
          end
      | None => (Tick, w)
      end
  end.

Definition on_bus {A} (o : outcome MemoryEventBus) (a : A) (w : world) : outcome A * world :=
  match o with
  | Returned m => (Returned a, set_bus m w)
  | Panicked msg => (Panicked msg, w)
  end.

(** The text of the clock and the metrics page are the libraries'. *)
Section Standalone.
Context {LZ : LocalZone}.
Variables (now_text : string -> string) (metrics_page : http_response).

Definition standalone_answer (e : apiE) (w : world) : resp e * world :=
  match e return resp e * world with
  | QueueDepthCall => (Returned (inr (QueueDepth (w_queue w))), w)
  | EnqueueCall job => let (o, q) := enqueue_alone (w_now w) (w_queue w) job in (o, set_queue q w)
  | SaveCall st => let '(s, _, err) := memory_SaveState (w_now w) (w_store w) (Some st) in
                   (Returned err, set_store s w)
  | GetCall id => (Returned (memory_GetState (w_store w) id), w)
  | PublishCall id e => on_bus (Publish (w_now w) (w_bus w) id (Some e)) None w
  | SubscribeCall id => let (w, _) := turn w in
                        let (m, i) := Subscribe (w_bus w) id in
                        (Returned None, set_sub i (set_bus m w))
  | Unsubscribe => on_bus (cleanup (w_bus w) (default "" (bus_closures (w_bus w) !! w_sub w)) (w_sub w)) tt w
  | NewUUID => (default "" (head (w_uuids w)), set_uuids (tail (w_uuids w)) w)
  | ApiNow => (w_now w, w)
  | ApiNowFormat layout => (now_text layout, w)
  | MetricsHandler => (metrics_page, w)
  | Upgrade => (None, w)
  | WsSelect => select_answer w
  | WsWrite _ => (None, w)
  | StopTicker | CancelCtx | CloseConn => (tt, w)
  end.

Definition standalone : env apiE world := {| answer := standalone_answer |}.

(** ** A stream against the bus *)

(** What others do leaves the session's channel to the session. *)
Definition foreign (i : nat) (o : op) : Prop := keeps i o /\ o <> DoReceive i.

Definition ops_of (script : list (list op * pick)) : list op := script ≫= fst.

(** A round, or several: [used] is the part of the script played, [acc] what
    arrived in the channel meanwhile. *)
Record progress (id : string) (i : nat) (w : world) (got : list ExecutionEvent) (w' : world)
    (used : list (list op * pick)) : Prop := {
  pg_script : w_script w = used ++ w_script w';
  pg_attached : attached (w_bus w') id i;
  pg_sub : w_sub w' = w_sub w;
  pg_stream : exists acc, got ++ pending (w_bus w') i = pending (w_bus w) i ++ acc /\
    acc `sublist_of` published id (ops_of used) /\
    (length (pending (w_bus w) i) + length (published id (ops_of used)) <= 64 ->
     acc = published id (ops_of used));
}.

Lemma published_app id l1 l2 : published id (l1 ++ l2) = published id l1 ++ published id l2.
Proof. apply omap_app. Qed.

Lemma ops_of_app s1 s2 : ops_of (s1 ++ s2) = ops_of s1 ++ ops_of s2.
Proof. apply bind_app. Qed.

Lemma progress_trans id i w1 g1 w2 u1 g2 w3 u2 :
  progress id i w1 g1 w2 u1 -> progress id i w2 g2 w3 u2 -> progress id i w1 (g1 ++ g2) w3 (u1 ++ u2).
Proof.
  intros [H1 _ H3 (a1 & Ha1 & Hs1 & Hf1)] [G1 G2 G3 (a2 & Ha2 & Hs2 & Hf2)]. split; [|done|congruence|].
  - by rewrite H1, G1, app_assoc.
  - exists (a1 ++ a2). rewrite ops_of_app, published_app. split_and!.
    + by rewrite <- app_assoc, Ha2, app_assoc, Ha1, app_assoc.
    + by apply sublist_app.
    + rewrite length_app. intros Hl. rewrite Hf1 by lia. rewrite Hf2; [done|].
      apply (f_equal length) in Ha1. rewrite !length_app in Ha1. rewrite (Hf1 ltac:(lia)) in Ha1. lia.
Qed.

Lemma delivered_foreign i ops : forall m m' out,
  Forall (foreign i) ops -> run_ops m ops = Returned (m', out) -> delivered i out = [].
Proof.
  induction ops as [|o ops IH]; intros m m' out Hf; cbn; [by intros [= _ <-]|].
  apply Forall_cons in Hf as [[_ Ho] Hf]. destruct (exec m o) as [[m1 out1]|msg] eqn:He; [|done].
  destruct (run_ops m1 ops) as [[m2 out2]|msg] eqn:Hr; [|done]. intros [= <- <-].
  rewrite delivered_app, (IH m1 m2 out2 Hf Hr), app_nil_r.
  destruct o as [now id e|id|j|j|]; cbn in He; repeat (case_match; try done); simplify_eq; try done.
  unfold delivered. cbn. rewrite decide_False by congruence. done.
Qed.

(** The session attached to its channel, with a script that leaves it alone. *)
Definition attending (id : string) (i : nat) (w : world) : Prop :=
  w_sub w = i /\ attached (w_bus w) id i /\ Forall (foreign i) (ops_of (w_script w)).

Lemma turn_progress id i w :
  attending id i w -> progress id i w [] (turn w).1 (take 1 (w_script w)).
Proof.
  intros (Hi & Hat & Hf). unfold turn. destruct (w_script w) as [|[ops p] script] eqn:Hs.
  { cbn. split; try done. by exists []; rewrite app_nil_r. }
  cbn [ops_of mbind list_bind fst] in Hf. apply Forall_app in Hf as [Hf _].
  assert (Hk : Forall (keeps i) ops) by (eapply Forall_impl; [exact Hf|by intros o [? _]]).
  destruct (run_ops_attached id i ops (w_bus w) Hat Hk) as (m' & out & acc & Hr & Hat' & Hd & Hsub & Hall).
  rewrite (delivered_foreign i ops _ _ _ Hf Hr) in Hd. cbn [fst take]. unfold others. rewrite Hr.
  split; try done. exists acc. unfold ops_of. cbn. rewrite app_nil_r. by split_and!.
Qed.

Lemma select_progress id i w :
  attending id i w ->
  progress id i w (seen [Ev WsSelect (select_answer w).1]) (select_answer w).2 (take 1 (w_script w)) /\
  (select_answer w).1 <> Event None.
Proof.
  intros Ha. pose proof (turn_progress id i w Ha) as Hp. unfold select_answer.
  destruct (turn w) as [w1 [| |]]; cbn [fst snd] in *; [|by split..].
  pose proof (pg_sub _ _ _ _ _ _ Hp) as Hsub. destruct Ha as [Hi _].
  destruct (attached_chan _ _ _ (pg_attached _ _ _ _ _ _ Hp)) as (_ & c & Hc & Hopen & Hcap & Hwf).
  rewrite Hsub, Hi, Hc. unfold recv. rewrite Hopen.
  destruct (ch_buf c) as [|e l] eqn:Hb; [by split|]. split; [|done]. cbn [fst snd].
  rewrite <- (app_nil_r (take 1 _)). apply (progress_trans _ _ _ [] w1); [done|].
  assert (Hrecv : receive (w_bus w1) i = Some (e, with_chans (w_bus w1) (<[i:=with_buf c l]> (bus_chans (w_bus w1)))))
    by (unfold receive, recv; by rewrite Hc, Hb).
  destruct (receive_followed (w_bus w1) id i i (pg_attached _ _ _ _ _ _ Hp))
    as (m' & out & acc & He & Hat' & _).
  cbn in He. rewrite Hrecv in He. injection He as <- _.
  split; [done|done|done|]. exists []. split_and!; [|done|done].
  unfold pending. cbn. by rewrite lookup_insert_eq, Hc, Hb, app_nil_r.
Qed.

Lemma attending_progress id i w got w' used :
  attending id i w -> progress id i w got w' used -> attending id i w'.
Proof.
  intros (Hi & _ & Hf) Hp. split_and!; [|by eapply pg_attached|].
  - by rewrite (pg_sub _ _ _ _ _ _ Hp).
  - rewrite (pg_script _ _ _ _ _ _ Hp), ops_of_app in Hf. by apply Forall_app in Hf as [_ ?].
Qed.

(** One round of the loop in this process, where no write is refused. *)
Definition continues (i : ws_input) : bool :=
  match i with
  | Tick => true
  | Event (Some e) => negb (ends_stream e)
  | _ => false
  end.

Lemma loop_round rounds w :
  exists mid, seen mid = [] /\ refused mid = false /\
    run standalone (ws_loop (S rounds)) w =
      (let inp := (select_answer w).1 in let w1 := (select_answer w).2 in
       if continues inp then
         let '(tr, o, w') := run standalone (ws_loop rounds) w1 in (Ev WsSelect inp :: mid ++ tr, o, w')
       else (Ev WsSelect inp :: mid, Returned tt, w1)).
Proof.
  cbn -[select_answer Marshal is_final ends_stream]. destruct (select_answer w) as [[| | |[e|]] w1].
  - by exists [].
  - by exists [].
  - exists [Ev (WsWrite PingFrame) None]. split_and!; [done..|].
    cbn -[ends_stream]. by destruct (run standalone (ws_loop rounds) w1) as [[tr o] w'].
  - cbn [fst snd continues]. unfold ends_stream. destruct (Marshal ExecutionEvent_codec e) as [d|]; cbn [isSome].
    2:{ exists []. rewrite andb_false_r. cbn -[is_final]. split_and!; [done..|].
        by destruct (run standalone (ws_loop rounds) w1) as [[tr o] w']. }
    rewrite andb_true_r. destruct (is_final (ev_Status e)) eqn:Hf; cbn -[is_final]; rewrite ?Hf.
    + by exists [Ev (WsWrite (TextFrame d)) None; Ev (WsWrite (CloseFrame 1000 "Execution Completed")) None].
    + exists [Ev (WsWrite (TextFrame d)) None]. split_and!; [done..|].
      cbn. by destruct (run standalone (ws_loop rounds) w1) as [[tr o] w'].
  - by exists [].
Qed.

Lemma seen_select inp mid tr : seen mid = [] ->
  seen (Ev WsSelect inp :: mid ++ tr) = seen [Ev WsSelect inp] ++ seen tr.
Proof.
  intros Hm. change (Ev WsSelect inp :: mid ++ tr) with ([Ev WsSelect inp] ++ mid ++ tr).
  by rewrite !seen_app, Hm.
Qed.

Lemma loop_progress id i rounds : forall w,
  attending id i w ->
  let r := run standalone (ws_loop rounds) w in
  refused r.1.1 = false /\ exists used, progress id i w (seen r.1.1) r.2 used.
Proof.
  induction rounds as [|rounds IH]; intros w Ha; cbv zeta.
  { cbn. split; [done|]. exists []. split; [done|apply Ha|done|]. by exists []; rewrite app_nil_r. }
  destruct (select_progress id i w Ha) as [Hp _].
  destruct (loop_round rounds w) as (mid & Hm & Hr & ->). cbv zeta.
  destruct (select_answer w) as [inp w1]. cbn [fst snd] in *. destruct (continues inp).
  - destruct (IH w1 (attending_progress _ _ _ _ _ _ Ha Hp)) as (Hr' & used & Hp').
    destruct (run standalone (ws_loop rounds) w1) as [[tr o] w']. cbn [fst snd] in *.
    rewrite seen_select by done. split; [|eexists; by eapply progress_trans].
    change (Ev WsSelect inp :: mid ++ tr) with ([Ev WsSelect inp] ++ mid ++ tr).
    by rewrite !refused_app, Hr, Hr'.
  - cbn [fst snd]. rewrite <- (app_nil_r mid), seen_select, app_nil_r, app_nil_r by done.
    split; [done|]. eexists; exact Hp.
Qed.

(** ** Everything is delivered in the end *)

Definition delivering (script : list (list op * pick)) : Prop := Forall (fun e => e.2 = Deliver) script.

Lemma select_delivers id i w :
  attending id i w -> delivering (w_script w) ->
  ((select_answer w).1 = Tick \/ exists e, (select_answer w).1 = Event (Some e)) /\
  w_script (select_answer w).2 = tail (w_script w) /\
  (w_script w = [] -> pending (w_bus (select_answer w).2) i = tail (pending (w_bus w) i)).
Proof.
  intros Ha Hd. pose proof (turn_progress id i w Ha) as Hp. pose proof Ha as (Hi & Hat & _).
  assert (Ht : (turn w).2 = Deliver /\ w_script (turn w).1 = tail (w_script w) /\
    (w_script w = [] -> (turn w).1 = w)).
  { unfold turn. destruct (w_script w) as [|[ops p] script] eqn:Hs; [by cbn; rewrite Hs|].
    apply Forall_cons in Hd as [Hx _]. cbn in *. by subst. }
  unfold select_answer. destruct (turn w) as [w1 p]. cbn [fst snd] in *. destruct Ht as (-> & Hs & Hw).
  destruct (attached_chan _ _ _ (pg_attached _ _ _ _ _ _ Hp)) as (_ & c & Hc & Hopen & Hcap & Hwf).
  rewrite (pg_sub _ _ _ _ _ _ Hp), Hi, Hc. unfold recv. rewrite Hopen.
  destruct (ch_buf c) as [|e l] eqn:Hb; cbn [fst snd].
  - split_and!; [by left|done|]. intros H. rewrite (Hw H) in *. unfold pending. by rewrite Hc, Hb.
  - split_and!; [right; by exists e|done|]. intros H. rewrite (Hw H) in *. unfold pending. cbn.
    by rewrite lookup_insert_eq, Hc, Hb.
Qed.

Lemma pending_bound id i w : attending id i w -> length (pending (w_bus w) i) <= 64.
Proof.
  intros (_ & Hat & _). destruct (attached_chan _ _ _ Hat) as (_ & c & Hc & _ & Hcap & Hwf).
  unfold pending. rewrite Hc. unfold chan_wf in Hwf. lia.
Qed.

(** Enough rounds: one for each turn of the script, and one for each event the
    channel can hold. *)
Definition enough (rounds : nat) (i : nat) (w : world) : Prop :=
  length (w_script w) + 64 <= rounds \/ (w_script w = [] /\ length (pending (w_bus w) i) <= rounds).

Lemma loop_drains id i rounds : forall w,
  attending id i w -> delivering (w_script w) -> enough rounds i w ->
  let r := run standalone (ws_loop rounds) w in
  existsb ends_stream (seen r.1.1) = true \/ (w_script r.2 = [] /\ pending (w_bus r.2) i = []).
Proof.
  induction rounds as [|rounds IH]; intros w Ha Hd He; cbv zeta.
  { right. destruct He as [He|[Hs He]]; [lia|]. cbn. split; [done|]. apply nil_length_inv. lia. }
  destruct (select_progress id i w Ha) as [Hp _].
  destruct (select_delivers id i w Ha Hd) as (Hinp & Hscript & Htail).
  destruct (loop_round rounds w) as (mid & Hm & Hr & ->). cbv zeta.
  destruct (select_answer w) as [inp w1]. cbn [fst snd] in *. destruct (continues inp) eqn:Hc.
  - destruct (IH w1) as [Hx|Hx].
    + by eapply attending_progress.
    + rewrite Hscript. unfold delivering in *. destruct Hd; [constructor|assumption].
    + pose proof (pending_bound id i w Ha). destruct He as [He|[Hs He]].
      * destruct (w_script w) as [|x script] eqn:Hs; cbn in *.
        -- right. split; [done|]. rewrite Htail, length_tl by done. lia.
        -- left. rewrite Hscript. lia.
      * right. rewrite Hscript, Hs, Htail, length_tl by done. split; [done|]. lia.
    + left. destruct (run standalone (ws_loop rounds) w1) as [[tr o] w']. cbn [fst snd] in *.
      rewrite seen_select, existsb_app, Hx by done. apply orb_true_r.
    + right. by destruct (run standalone (ws_loop rounds) w1) as [[tr o] w'].
  - left. destruct Hinp as [->|[e ->]]; [done|]. cbn [continues] in Hc.
    apply negb_false_iff in Hc. cbn [fst snd].
    rewrite <- (app_nil_r mid), seen_select, existsb_app by done. cbn -[ends_stream]. by rewrite Hc.
Qed.

(** ** A whole session of an unfinished submission *)

(** The world in which the loop starts. *)
Definition subscribed (id : string) (w : world) : world :=
  let w := (turn w).1 in
  set_sub (Subscribe (w_bus w) id).2 (set_bus (Subscribe (w_bus w) id).1 w).

Lemma run_subscribe id w :
  run standalone (invoke (call (SubscribeCall id))) w =
    ([Ev (SubscribeCall id) (Returned None)], Returned None, subscribed id w).
Proof. unfold subscribed, turn. cbn -[others]. unfold turn. by destruct (w_script w) as [|[ops p] s]. Qed.

Lemma run_get id w :
  run standalone (invoke (call (GetCall id))) w =
    ([Ev (GetCall id) (Returned (memory_GetState (w_store w) id))],
     Returned (memory_GetState (w_store w) id), w).
Proof. reflexivity. Qed.

Lemma run_unsubscribe w :
  run standalone (invoke (call Unsubscribe)) w =
    ([Ev Unsubscribe (standalone_answer Unsubscribe w).1], (standalone_answer Unsubscribe w).1,
     (standalone_answer Unsubscribe w).2).
Proof. cbn -[standalone_answer]. by destruct (standalone_answer Unsubscribe w) as [[u|msg] w']. Qed.

Lemma session_run rounds id w :
  unfinished (memory_GetState (w_store w) id) ->
  let r := run standalone (ws_loop rounds) (subscribed id w) in
  let fin := standalone_answer Unsubscribe r.2 in
  run standalone (ws_session rounds id) w =
    ([Ev (GetCall id) (Returned (memory_GetState (w_store w) id)); Ev (SubscribeCall id) (Returned None)] ++
     r.1.1 ++ [Ev StopTicker tt; Ev Unsubscribe fin.1], fin.1, fin.2).
Proof.
  intros Hu r fin.
  assert (Hs : run standalone (ws_stream rounds id) w =
    (Ev (SubscribeCall id) (Returned None) :: r.1.1 ++ [Ev StopTicker tt; Ev Unsubscribe fin.1], fin.1, fin.2)).
  { unfold ws_stream. rewrite run_bind, run_subscribe, !run_defer. fold r.
    pose proof (run_wp standalone (ws_loop rounds) _ [] (subscribed id w) (ws_loop_ok rounds)) as [Ho _].
    fold r in Ho. subst fin. destruct r as [[tr o] w']. cbn [fst snd] in *. subst o.
    change (run standalone (call StopTicker) w') with ([Ev StopTicker tt], Returned tt, w').
    cbv iota beta. rewrite run_unsubscribe.
    destruct (standalone_answer Unsubscribe w') as [[[]|msg] w'']; cbn; by rewrite <- app_assoc. }
  unfold ws_session. rewrite run_bind, run_get. unfold unfinished in Hu.
  destruct (memory_GetState (w_store w) id) as [err|state]; [|rewrite (Hu state eq_refl)]; by rewrite Hs.
Qed.

(** When the session subscribes: an open bus, and a script that leaves the
    channel it gets alone. *)
Record subscribing (w : world) : Prop := {
  sg_ok : bus_ok (w_bus (turn w).1);
  sg_open : bus_closed (w_bus (turn w).1) = false;
  sg_foreign : Forall (foreign (bus_next (w_bus (turn w).1))) (ops_of (tail (w_script w)));
}.

Lemma subscribed_script id w : w_script (subscribed id w) = tail (w_script w).
Proof. unfold subscribed, turn. cbn. by destruct (w_script w) as [|[ops p] s] eqn:Hs. Qed.

Lemma subscribed_attending id w :
  subscribing w ->
  attending id (bus_next (w_bus (turn w).1)) (subscribed id w) /\
  pending (w_bus (subscribed id w)) (bus_next (w_bus (turn w).1)) = [].
Proof.
  intros [Hok Hopen Hf]. destruct (Subscribe_attached _ id Hok Hopen) as [Ha Hp].
  split; [split_and!; [done|done|by rewrite subscribed_script]|done].
Qed.

(** What the whole session does is what its loop does, and it leaves nothing
    behind. *)
Lemma session_facts rounds id w :
  unfinished (memory_GetState (w_store w) id) -> subscribing w ->
  let i := bus_next (w_bus (turn w).1) in
  let r := run standalone (ws_session rounds id) w in
  let l := run standalone (ws_loop rounds) (subscribed id w) in
  r.1.2 = Returned tt /\ sent r.1.1 = sent l.1.1 /\ seen r.1.1 = seen l.1.1 /\
  count_calls is_goodbye r.1.1 = count_calls is_goodbye l.1.1 /\
  streamed l.1.1 /\ refused l.1.1 = false /\
  (exists used, progress id i (subscribed id w) (seen l.1.1) l.2 used) /\
  bus_ok (w_bus r.2) /\ i ∉ targets (w_bus r.2) id.
Proof.
  intros Hu Hs i r l. destruct (subscribed_attending id w Hs) as [Ha Hp].
  destruct (loop_progress id i rounds _ Ha) as (Hr & used & Hpg). fold l in Hr, Hpg.
  pose proof (run_wp standalone (ws_loop rounds) _ [] (subscribed id w) (ws_loop_ok rounds)) as [_ Hst].
  cbn [app] in Hst. fold l in Hst.
  pose proof (pg_attached _ _ _ _ _ _ Hpg) as [Hok Ho Hc Hn].
  destruct (cleanup_ok _ _ _ Hok Hc Hn Ho) as (m' & Hcl & Hok' & Ho' & Hc' & Hs' & Hn' & _).
  assert (Hfin : standalone_answer Unsubscribe l.2 = (Returned tt, set_bus m' l.2)).
  { assert (Hi : w_sub l.2 = i) by (rewrite (pg_sub _ _ _ _ _ _ Hpg); reflexivity).
    unfold standalone_answer. rewrite Hi, Hc. change (default "" (Some id)) with id. by rewrite Hcl. }
  unfold r. rewrite session_run by done. fold l. rewrite Hfin. cbn [fst snd].
  split; [done|]. rewrite !sent_app, !seen_app, !count_calls_app. cbn [app].
  change (sent [Ev StopTicker tt; Ev Unsubscribe (Returned tt)]) with (@nil bytes).
  change (seen [Ev StopTicker tt; Ev Unsubscribe (Returned tt)]) with (@nil ExecutionEvent).
  split_and!; try done; try by rewrite app_nil_r.
  - by exists used.
  - unfold targets. cbn. rewrite Ho', Hs'. intros Hin.
    destruct (proj1 (unregister_lookup (w_bus l.2) id i id i)) as [_ Hne]; [|by apply Hne].
    destruct (unregister _ _ _ !! id) as [subs|] eqn:Hsub; [by exists subs|set_solver].
Qed.

(** A stream whose only final event is its last element. *)
Lemma streamed_final tr : streamed tr -> existsb ends_stream (seen tr) = true ->
  exists k e, seen tr = k ++ [e] /\ existsb ends_stream k = false /\ ends_stream e = true.
Proof.
  intros [_ Hlast _ _]. generalize (seen tr), Hlast. clear tr Hlast. intros l Hlast Hex.
  apply existsb_exists in Hex as (e & Hin & He). apply list_elem_of_In, list_elem_of_split in Hin as (k & t & ->).
  pose proof (Hlast k e t eq_refl He) as ->. exists k, e. split_and!; [done| |done].
  apply not_true_is_false. intros (e' & Hin' & He')%existsb_exists.
  apply list_elem_of_In, list_elem_of_split in Hin' as (k1 & k2 & ->).
  assert (H : k2 ++ [e] = []) by (apply (Hlast k1 e'); [by rewrite <- app_assoc|done]). by destruct k2.
Qed.

(** A session of an unfinished submission whose first final event is [e]. *)
Lemma session_complete (id : string) (rounds : nat) (w : world)
    (l1 : list ExecutionEvent) (e : ExecutionEvent) (l2 : list ExecutionEvent)
    (Hu : unfinished (memory_GetState (w_store w) id)) (Hs : subscribing w)
    (Hpub : published id (ops_of (tail (w_script w))) = l1 ++ e :: l2)
    (Hlen : length (l1 ++ e :: l2) <= 64)
    (Hl1 : existsb ends_stream l1 = false) (He : ends_stream e = true)
    (Hd : delivering (tail (w_script w))) (Hrounds : length (w_script w) + 64 <= rounds) :
  let r := run standalone (ws_session rounds id) w in
  r.1.2 = Returned tt /\
  sent r.1.1 = omap (Marshal ExecutionEvent_codec) (l1 ++ [e]) /\
  count_calls is_goodbye r.1.1 = 1 /\
  bus_ok (w_bus r.2) /\ bus_next (w_bus (turn w).1) ∉ targets (w_bus r.2) id.
Proof.
  destruct (subscribed_attending id w Hs) as [Ha Hp].
  cbv zeta. destruct (session_facts rounds id w Hu Hs)
    as (Ho & -> & _ & -> & Hst & Hr & (used & Hpg) & Hok & Ht).
  set (l := run standalone (ws_loop rounds) (subscribed id w)) in *.
  destruct (pg_stream _ _ _ _ _ _ Hpg) as (acc & Hacc & _ & Hall). rewrite Hp in Hacc, Hall. cbn [app length] in *.
  pose proof (pg_script _ _ _ _ _ _ Hpg) as Hsc. rewrite subscribed_script in Hsc.
  rewrite Hsc, ops_of_app, published_app in Hpub. rewrite <- Hpub, length_app in Hlen.
  rewrite Hall in Hacc by lia. rewrite <- Hacc, <- app_assoc in Hpub.
  assert (Hx : existsb ends_stream (seen l.1.1) = true).
  { destruct (loop_drains id _ rounds _ Ha) as [Hx|[Hx1 Hx2]]; [by rewrite subscribed_script| |done|].
    - left. rewrite subscribed_script, length_tl. lia.
    - fold l in Hx1, Hx2. rewrite Hx1, Hx2 in Hpub. cbn [app ops_of mbind list_bind published omap list_omap] in Hpub.
      rewrite app_nil_r in Hpub.
      rewrite Hpub, existsb_app. cbn [existsb]. by rewrite He, orb_true_r. }
  destruct (streamed_final _ Hst Hx) as (k & e' & Hk & Hk1 & He').
  rewrite Hk, <- app_assoc in Hpub. destruct (first_unique _ _ _ _ _ _ _ Hpub Hk1 Hl1 He' He) as [-> ->].
  rewrite (sd_sent _ Hst), (sd_goodbye _ Hst), Hx, Hr, Hk. done.
Qed.

(** ** Properties *)

(** C5: a client that connects while its submission is unfinished is served to
    the end, whatever else goes on: in the standalone process, where other
    goroutines publish, subscribe, cancel and receive between any two steps,
    it is sent the JSON of the events published for its submission from its
    subscription on, in order, up to and including the first final one, and
    then the farewell, provided at most 64 of them are published and the
    loop runs on; and its subscription is gone when the session ends. *)
Theorem standalone_stream_complete (id : string) (rounds : nat) (w : world)
    (l1 : list ExecutionEvent) (e : ExecutionEvent) (l2 : list ExecutionEvent)
    (Hu : unfinished (memory_GetState (w_store w) id)) (Hs : subscribing w)
    (Hpub : published id (ops_of (tail (w_script w))) = l1 ++ e :: l2)
    (Hlen : length (l1 ++ e :: l2) <= 64)
    (Hl1 : existsb ends_stream l1 = false) (He : ends_stream e = true)
    (Hd : delivering (tail (w_script w))) (Hrounds : length (w_script w) + 64 <= rounds) :
  let r := run standalone (ws_session rounds id) w in
  r.1.2 = Returned tt /\
  sent r.1.1 = omap (Marshal ExecutionEvent_codec) (l1 ++ [e]) /\
  count_calls is_goodbye r.1.1 = 1 /\
  bus_ok (w_bus r.2) /\ bus_next (w_bus (turn w).1) ∉ targets (w_bus r.2) id.
Proof.
  by apply (session_complete id rounds w l1 e l2).
Qed.

(** ** A submission *)

Section Submission.
Context {UL : UnicodeLower} {JE : JsonErrors}.

Lemma run_invoke {A} (p : prog apiE (outcome A)) w :
  run standalone (invoke p) w =
    let '(tr, o, w') := run standalone p w in
    (tr, match o with Returned a => a | Panicked msg => Panicked msg end, w').
Proof.
  unfold invoke. rewrite run_bind. destruct (run standalone p w) as [[tr [o|msg]] w']; [|done].
  rewrite run_outcome_prog. by rewrite app_nil_r.
Qed.

Definition short_id (w : world) : string := "sub-" +:+ of_bytes (take 12 (to_bytes (default "" (head (w_uuids w))))).

(** The process as it is when a submission has been taken. *)
Definition taken (req : SubmitRequest) (w : world) : world :=
  let id := short_id w in
  let now := w_now w in
  let w := set_uuids (tail (w_uuids w)) w in
  let w := set_store {| ms_states := <[id := set_updated now (initial_state id now req)]> (ms_states (w_store w)) |} w in
  let w := set_queue {| mq_ch := with_buf (mq_ch (w_queue w))
                          (buffered (w_queue w) ++ [normalize_job now (submitted_job id now req)]);
                        mq_closed := mq_closed (w_queue w) |} w in
  match Publish now (w_bus w) id (Some (queued_event id now)) with
  | Returned m => set_bus m w
  | Panicked _ => w
  end.

(** Room in an open queue. *)
Definition has_room (m : MemoryQueue) : Prop :=
  mq_ok m /\ mq_closed m = false /\ length (buffered m) < capacity m.

Lemma enqueue_alone_room now m job : has_room m ->
  enqueue_alone now m job = (Returned None,
    {| mq_ch := with_buf (mq_ch m) (buffered m ++ [normalize_job now job]); mq_closed := mq_closed m |}).
Proof.
  intros ([_ Hf] & Hc & Hl). unfold enqueue_alone, Enqueue_check, Enqueue_send, send_ready, send.
  rewrite Hc, Hf, Hc. cbn [orb]. by rewrite bool_decide_eq_true_2.
Qed.

(** The outcome and the world after a run, step by step. *)
Definition final {A} (r : list (event apiE) * outcome A * world) : outcome A * world := (r.1.2, r.2).

Lemma run_next {A B} (p : prog apiE A) (k : A -> prog apiE B) w tr a w' :
  run standalone p w = (tr, Returned a, w') ->
  final (run standalone (p ≫= k) w) = final (run standalone (k a) w').
Proof. intros H. rewrite run_bind, H. by destruct (run standalone (k a) w') as [[tr' o] w'']. Qed.

Lemma run_short_uuid w : 12 <= String.length (default "" (head (w_uuids w))) ->
  run standalone short_uuid w =
    ([Ev NewUUID (default "" (head (w_uuids w)))],
     Returned (of_bytes (take 12 (to_bytes (default "" (head (w_uuids w)))))), set_uuids (tail (w_uuids w)) w).
Proof.
  intros Hu. unfold short_uuid. rewrite run_bind. cbn -[String.length].
  by rewrite bool_decide_eq_false_2 by lia.
Qed.

Lemma run_now w : run standalone (call ApiNow) w = ([Ev ApiNow (w_now w)], Returned (w_now w), w).
Proof. reflexivity. Qed.

Lemma run_save st w :
  run standalone (invoke (call (SaveCall st))) w =
    ([Ev (SaveCall st) (Returned None)], Returned None,
     set_store {| ms_states := <[st_SubmissionID st := set_updated (w_now w) st]> (ms_states (w_store w)) |} w).
Proof. reflexivity. Qed.

Lemma run_publish id e m w : Publish (w_now w) (w_bus w) id (Some e) = Returned m ->
  run standalone (invoke (call (PublishCall id e))) w =
    ([Ev (PublishCall id e) (Returned None)], Returned None, set_bus m w).
Proof. intros H. rewrite run_invoke. cbn -[Publish]. by rewrite H. Qed.

Lemma run_enqueue job w : has_room (w_queue w) ->
  run standalone (invoke (call (EnqueueCall job))) w =
    ([Ev (EnqueueCall job) (Returned None)], Returned None,
     set_queue {| mq_ch := with_buf (mq_ch (w_queue w)) (buffered (w_queue w) ++ [normalize_job (w_now w) job]);
                  mq_closed := mq_closed (w_queue w) |} w).
Proof. intros Hr. rewrite run_invoke. cbn -[enqueue_alone]. by rewrite enqueue_alone_room. Qed.

Lemma run_enqueue_submission req w :
  12 <= String.length (default "" (head (w_uuids w))) -> has_room (w_queue w) -> bus_ok (w_bus w) ->
  final (run standalone (enqueue_submission req) w)
    = (Returned (accepted_response (short_id w) (w_now w)), taken req w).
Proof.
  intros Hu Hroom Hbus. unfold enqueue_submission.
  rewrite (run_next _ _ _ _ _ _ (run_short_uuid w Hu)).
  rewrite (run_next _ _ _ _ _ _ (run_now _)). fold (short_id w).
  rewrite (run_next _ _ _ _ _ _ (run_save _ _)). rewrite (run_next _ _ _ _ _ _ (run_enqueue _ (set_store _ (set_uuids _ w)) Hroom)).
  destruct (Publish_spec (w_now w) (w_bus w) (short_id w) (queued_event (short_id w) (w_now w)) Hbus)
    as (h & Hpub & _).
  rewrite (run_next _ _ _ _ _ _ (run_publish _ _ _ (set_queue _ (set_store _ (set_uuids _ w))) Hpub)). unfold taken. cbn [w_bus set_uuids set_store set_queue].
  by rewrite Hpub.
Qed.

Lemma run_getSubmission id body w :
  id <> "" -> TrimSpace id = id ->
  run standalone (getSubmission {| rq_Method := "GET"; rq_Path := submission_path id; rq_Body := body |}) w =
    ([Ev (GetCall id) (Returned (memory_GetState (w_store w) id))],
     Returned (state_response (memory_GetState (w_store w) id)), w).
Proof.
  intros Hne Ht. unfold getSubmission. cbn [rq_Method rq_Path].
  rewrite TrimPrefix_submission, Ht, (bool_decide_eq_false_2 (id = "")) by done.
  cbn [negb bool_decide]. rewrite bool_decide_eq_true_2 by done. cbn [negb]. rewrite run_bind, run_get.
  destruct (memory_GetState (w_store w) id) as [err|state]; cbn [state_response]; [by destruct (errors_Is err _)|done].
Qed.

Lemma taken_state req w :
  memory_GetState (w_store (taken req w)) (short_id w)
    = inr (set_updated (w_now w) (initial_state (short_id w) (w_now w) req)).
Proof.
  unfold taken, memory_GetState. destruct (Publish _ _ _ _); cbn; by rewrite lookup_insert_eq.
Qed.

(** A handler's program within [ServeHTTP]. *)
Lemma run_served cfg rounds r (p : prog apiE http_response) w tr resp w' :
  rq_Method r <> "OPTIONS" -> serve_mux (server_config cfg) rounds r = answered p ->
  run standalone p w = (tr, Returned resp, w') ->
  final (run standalone (ServeHTTP cfg rounds r) w) = (Returned (Some (add_cors resp)), w').
Proof.
  intros Hm Hs Hp. unfold ServeHTTP. rewrite corsMiddleware_next, Hs by done.
  assert (Ha : run standalone (answered p) w = (tr, Returned (Some resp), w')).
  { unfold answered. rewrite run_bind, Hp. cbn. by rewrite app_nil_r. }
  by rewrite (run_next _ _ _ _ _ _ Ha).
Qed.

(** C18: a submission in the standalone process, from the request to the answers:
    when the queue has room and is below its bound, a valid POST is answered
    202 with the ID made of the UUID's first twelve bytes; the job is then the
    last in the queue, with its defaults; and a GET of that ID is answered 200
    with the state the submission started with. *)
Theorem standalone_submit_then_get (cfg : ServerConfig) (rounds : nat) (r : http_request)
    (req : SubmitRequest) (w : world) (body : string)
    (Hpath : rq_Path r = "/api/v1/submissions") (Hreq : validate r = inr req)
    (Hu : 12 <= String.length (default "" (head (w_uuids w))))
    (Hroom : has_room (w_queue w)) (Hbus : bus_ok (w_bus w))
    (Hdepth : (QueueDepth (w_queue w) < MaxQueueDepth (server_config cfg))%Z)
    (Hid : plain_name (short_id w)) (Hspace : TrimSpace (short_id w) = short_id w) :
  let id := short_id w in
  let started := set_updated (w_now w) (initial_state id (w_now w) req) in
  let get := {| rq_Method := "GET"; rq_Path := "/api/v1/submissions/" +:+ id; rq_Body := body |} in
  final (run standalone (ServeHTTP cfg rounds r) w)
    = (Returned (Some (add_cors (accepted_response id (w_now w)))), taken req w) /\
  buffered (w_queue (taken req w))
    = buffered (w_queue w) ++ [normalize_job (w_now w) (submitted_job id (w_now w) req)] /\
  final (run standalone (ServeHTTP cfg rounds get) (taken req w))
    = (Returned (Some (add_cors (state_response (inr started)))), taken req w).
Proof.
  cbv zeta. assert (Hm : rq_Method r = "POST").
  { revert Hreq. unfold validate. by case_bool_decide. }
  split_and!.
  - destruct (run standalone (handleSubmissions (server_config cfg) r) w) as [[tr o] w'] eqn:Hrun.
    assert (Hh : (o, w') = (Returned (accepted_response (short_id w) (w_now w)), taken req w)).
    { rewrite <- run_enqueue_submission by done.
      change (o, w') with (final (tr, o, w')). rewrite <- Hrun. unfold handleSubmissions. rewrite Hreq.
      rewrite (run_next _ _ w [Ev QueueDepthCall (Returned (inr (QueueDepth (w_queue w))))]
        (inr (QueueDepth (w_queue w))) w) by done.
      by rewrite bool_decide_eq_false_2 by lia. }
    injection Hh as -> ->. eapply run_served; [by rewrite Hm| |exact Hrun].
    unfold serve_mux, find_route. rewrite Hpath, Hm. reflexivity.
  - unfold taken. cbn [w_bus set_uuids set_store set_queue]. by destruct (Publish _ _ _ _).
  - eapply run_served; [done| |].
    + unfold serve_mux. change ("/api/v1/submissions/" +:+ short_id w) with (path_of (submission_names (short_id w) ++ [])).
      rewrite find_route_plain by done. unfold handleSubmissionDetailOrWS. cbn [rq_Path].
      change (path_of (submission_names (short_id w) ++ [])) with (submission_path (short_id w)).
      destruct (HasSuffix (submission_path (short_id w)) "/ws") eqn:Hsuf; [|done].
      apply submission_path_ws in Hsuf; [done|apply Hid].
    + by rewrite run_getSubmission, taken_state by (done || apply Hid).
Qed.

End Submission.

End Standalone.

(** A session of "a": the worker publishes two events once it has subscribed,
    with an event for "b" and a look at the other end in between. *)
Definition stream_script : list (list op * pick) :=
  [([], Deliver); ([DoPublish 1 "a" (Some (sample_event StatusRunning)); DoSubscribe "b"], Deliver); ([], Deliver);
   ([DoPublish 2 "b" (Some (sample_event StatusFailed)); DoPublish 3 "a" (Some (sample_event StatusCompleted))],
    Deliver)].

Definition quiet_page : http_response := {| rp_Status := 200; rp_Header := ∅; rp_Body := "" |}.

Lemma standalone_stream_complete_witness :
  sent (run (standalone id quiet_page) (ws_session (LZ := utc) 68 "a")
          (standalone_start 1 [] stream_script)).1.1
  = omap (Marshal (ExecutionEvent_codec (H := utc)))
      [stamp 1 "a" (sample_event StatusRunning); stamp 3 "a" (sample_event StatusCompleted)].
Proof.
  refine (proj1 (proj2 (standalone_stream_complete (LZ := utc) id quiet_page "a" 68
    (standalone_start 1 [] stream_script) [stamp 1 "a" (sample_event StatusRunning)]
    (stamp 3 "a" (sample_event StatusCompleted)) [] _ _ _ _ _ _ _ _))).
  - by intros state [=].
  - split; [apply NewMemoryEventBus_ok|reflexivity|]. repeat constructor; discriminate.
  - reflexivity.
  - cbn. lia.
  - vm_compute. reflexivity.
  - vm_compute. reflexivity.
  - repeat constructor.
  - cbn. lia.
Defined.

(** The worker finishes between the session's look at the state and its
    subscription, and the client is never sent anything; one turn later, the
    same event reaches it, and the farewell. *)
Definition final_publication : op := DoPublish 3 "a" (Some (sample_event StatusCompleted)).

Definition racing (script : list (list op * pick)) : list bytes * nat :=
  let tr := (run (standalone id quiet_page) (ws_session (LZ := utc) 100 "a") (standalone_start 1 [] script)).1.1 in
  (sent tr, count_calls is_goodbye tr).

Example final_event_missed :
  racing [([final_publication], Deliver); ([], Deliver)] = ([], 0) /\
  racing [([], Deliver); ([final_publication], Deliver)]
  = ([default [] (Marshal (ExecutionEvent_codec (H := utc)) (stamp 3 "a" (sample_event StatusCompleted)))], 1).
Proof. vm_compute. done. Qed.

Definition sample_post : http_request :=
  {| rq_Method := "POST"; rq_Path := "/api/v1/submissions"; rq_Body := of_bytes (sample_body ++ [newline]) |}.

Definition sample_world : world := standalone_start 5 ["0a1b2c3d-4e5f-4607-8899-aabbccddeeff"] [].

Lemma standalone_submit_then_get_witness :
  buffered (w_queue (run (standalone id quiet_page)
      (ServeHTTP (UL := no_table) (LZ := utc) (JE := no_errors) sample_server 1 sample_post) sample_world).2)
  = [normalize_job 5 (submitted_job "sub-0a1b2c3d-4e5" 5 sample_request)].
Proof.
  assert (Hreq : validate (UL := no_table) (JE := no_errors) sample_post = inr sample_request)
    by (vm_compute; reflexivity).
  destruct (standalone_submit_then_get (LZ := utc) id quiet_page (UL := no_table) (JE := no_errors)
    sample_server 1 sample_post sample_request sample_world "" eq_refl Hreq) as (Hpost & Hq & _).
  - vm_compute. lia.
  - split_and!; [apply NewMemoryQueue_ok|reflexivity|vm_compute; lia].
  - apply NewMemoryEventBus_ok.
  - vm_compute. reflexivity.
  - apply (bool_decide_unpack _). vm_compute. exact I.
  - vm_compute. reflexivity.
  - apply (f_equal snd) in Hpost. cbn [final snd] in Hpost. rewrite Hpost, Hq. vm_compute. reflexivity.
Defined.
