(* ===== verification/Services.v ===== *)
(** * What a worker asks of the services around it

    The store and the event bus behind their interfaces, the metrics library,
    and the audit log.  A method of an interface may panic, so the answer of a
    call is an [outcome].  A program of the worker performs these effects and
    those of the host: [workE]. *)

From S2P Require Import Prelude GoStrings GoFloat Go OS Models Events Store.

Inductive svcE :=
| StoreSave (st : SubmissionState)
| BusPublish (submissionID : string) (event : ExecutionEvent)
| CounterInc (name : string) (labels : list string)
| HistogramObserve (name : string) (labels : list string) (value : float64)
| Hostname
| AuditPrintln (line : string)
| DebugStack.

(** A save answers with the update time it wrote through the pointer. *)
#[export] Instance svcE_effect : Effect svcE := fun e =>
  match e with
  | StoreSave _ => outcome (time * option error)
  | BusPublish _ _ => outcome (option error)
  | CounterInc _ _ => outcome unit
  | HistogramObserve _ _ _ => outcome unit
  | Hostname => (string * option error)%type
  | AuditPrintln _ => unit
  | DebugStack => string
  end.

Abbreviation workE := (osE + svcE)%type.

(** Calls of one side or the other. *)
Definition os (e : osE) : prog workE (resp e) := call (inl e : workE).
Definition svc (e : svcE) : prog workE (resp e) := call (inr e : workE).

(** A call that may panic in the callee. *)
Definition try_call {A} (p : prog workE (outcome A)) : prog workE A := p ≫= outcome_prog.

(** [_ = stateStore.SaveState(ctx, &st)]: the state after the call. *)
Definition save (st : SubmissionState) : prog workE SubmissionState :=
  '(updated, _) ← try_call (svc (StoreSave st));
  mret (set_updated updated st).

(** [_ = eventBus.Publish(ctx, id, &event)] *)
Definition publish (id : string) (event : ExecutionEvent) : prog workE unit :=
  _ ← try_call (svc (BusPublish id event));
  mret tt.

(** ** Observations *)

(** The events handed to the bus, the states handed to the store, in order. *)
Definition published_of (tr : list (event workE)) : list ExecutionEvent :=
  omap (fun ev => match ev_call ev with inr (BusPublish _ e) => Some e | _ => None end) tr.

Definition saved_of (tr : list (event workE)) : list SubmissionState :=
  omap (fun ev => match ev_call ev with inr (StoreSave st) => Some st | _ => None end) tr.

Definition panicked {A} (o : outcome A) : bool :=
  match o with Panicked _ => true | Returned _ => false end.

(** How many service calls panicked. *)
Definition panic_event (ev : event workE) : bool :=
  match ev_call ev as e return resp e -> bool with
  | inr (StoreSave _) | inr (BusPublish _ _) | inr (CounterInc _ _)
  | inr (HistogramObserve _ _ _) => fun r => panicked r
  | _ => fun _ => false
  end (ev_resp ev).

Definition panics (tr : list (event workE)) : nat :=
  sum_list_with (fun ev => if panic_event ev then 1 else 0) tr.

(** The host's side of a trace. *)
Definition host_events (tr : list (event workE)) : list (event osE) :=
  omap (fun ev : event workE =>
          match ev_call ev as e return resp e -> option (event osE) with
          | inl e => fun r => Some (Ev e r)
          | inr _ => fun _ => None
          end (ev_resp ev)) tr.

Lemma published_of_app t1 t2 : published_of (t1 ++ t2) = published_of t1 ++ published_of t2.
Proof. apply omap_app. Qed.

Lemma saved_of_app t1 t2 : saved_of (t1 ++ t2) = saved_of t1 ++ saved_of t2.
Proof. apply omap_app. Qed.

Lemma host_events_app t1 t2 : host_events (t1 ++ t2) = host_events t1 ++ host_events t2.
Proof. apply omap_app. Qed.

Lemma panics_app t1 t2 : panics (t1 ++ t2) = panics t1 + panics t2.
Proof. apply sum_list_with_app. Qed.

#[export] Hint Rewrite published_of_app saved_of_app host_events_app panics_app : go.

(** Host programs neither publish nor save, and call no service. *)
Lemma lifted_quiet (tr : list (event osE)) :
  published_of (lift_event <$> tr) = [] /\ saved_of (lift_event <$> tr) = [] /\
  host_events (lift_event <$> tr) = tr /\ panics (lift_event <$> tr) = 0.
Proof.
  induction tr as [|[e r] tr (IH1 & IH2 & IH3 & IH4)]; [by repeat split|].
  split_and!; [exact IH1|exact IH2| |exact IH4].
  change (Ev e r :: host_events (lift_event <$> tr) = Ev e r :: tr). by rewrite IH3.
Qed.

(** ** Programs that panic only when a service does

    [steady tr o]: with the trace [tr] the program ended in [o], normally if no
    service call panicked and by the panic of its only panicking call
    otherwise, and it made no temporary directory and removed nothing. *)
Definition steady {A} (tr : list (event workE)) (o : outcome A) : Prop :=
  panics tr = (if panicked o then 1 else 0) /\ no_temp (host_events tr) /\ no_remove (host_events tr).

Lemma steady_app {A B} t1 t2 (a : A) (o : outcome B) :
  steady t1 (Returned a) -> steady t2 o -> steady (t1 ++ t2) o.
Proof.
  intros (H1 & H2 & H3) (G1 & G2 & G3). unfold steady. autorewrite with go.
  split_and!; [by rewrite H1, G1|by apply no_temp_app|by apply no_remove_app].
Qed.

Lemma steady_panic {A B} t msg : steady t (Panicked msg : outcome A) -> steady t (Panicked msg : outcome B).
Proof. done. Qed.

(** An event up to its timestamp. *)
Definition untimed (e : ExecutionEvent) : ExecutionEvent :=
  {| ev_SubmissionID := ev_SubmissionID e; ev_Status := ev_Status e; ev_Timestamp := 0;
     ev_CurrentTestCase := ev_CurrentTestCase e; ev_TotalTestCases := ev_TotalTestCases e;
     ev_Verdict := ev_Verdict e; ev_TestCaseResult := ev_TestCaseResult e;
     ev_Compilation := ev_Compilation e; ev_StdoutChunk := ev_StdoutChunk e;
     ev_StderrChunk := ev_StderrChunk e; ev_WallTimeMs := ev_WallTimeMs e;
     ev_CpuTimeMs := ev_CpuTimeMs e; ev_PeakMemoryMB := ev_PeakMemoryMB e;
     ev_ErrorDetails := ev_ErrorDetails e |}.

(** [told tr pubs sts]: published these events, up to their timestamps, and
    saved these states, in these orders and nothing else. *)
Definition told (tr : list (event workE)) (pubs : list ExecutionEvent)
    (sts : list SubmissionState) : Prop :=
  untimed <$> published_of tr = pubs /\ saved_of tr = sts.

Lemma told_app t1 t2 p1 p2 s1 s2 :
  told t1 p1 s1 -> told t2 p2 s2 -> told (t1 ++ t2) (p1 ++ p2) (s1 ++ s2).
Proof. intros [<- <-] [<- <-]. split; autorewrite with go; by rewrite ?fmap_app. Qed.

(** [steady] of a written-out trace. *)
Ltac steady := split; [done|split; [no_temp|harmless]].

(** A specification of a part of the worker: steady, and [R] of the traces of
    its normal ends. *)
Definition sound {A} (p : prog workE A) (R : list (event workE) -> A -> Prop) : Prop :=
  wp p (fun tr o => steady tr o /\ forall a, o = Returned a -> R tr a) [].

Lemma sound_mono {A} (p : prog workE A) (R R' : list (event workE) -> A -> Prop) :
  sound p R -> (forall tr a, R tr a -> R' tr a) -> sound p R'.
Proof. intros Hp HR. eapply wp_mono; [exact Hp|]. intros tr o [? ?]. split; eauto. Qed.

Lemma sound_ret {A} (a : A) (R : list (event workE) -> A -> Prop) :
  R [] a -> sound (mret a) R.
Proof. intros H. apply wp_ret. split; [by repeat constructor|]. by intros ? [= <-]. Qed.

Lemma sound_bind {A B} (p : prog workE A) (k : A -> prog workE B) R R' :
  sound p R ->
  (forall tr a, R tr a -> sound (k a) (fun tr' b => R' (tr ++ tr') b)) ->
  sound (p ≫= k) R'.
Proof.
  intros Hp Hk. unfold sound in *. apply (wp_bind k p). eapply wp_mono; [exact Hp|].
  intros tr [a|msg] [Hs HR]; cbn.
  - eapply wp_use; [by apply (Hk tr), HR|]. intros s o [Hs' HR']. split; [by eapply steady_app|done].
  - by split.
Qed.

Lemma sound_lift {A} (p : prog osE A) (Q : list (event osE) -> A -> Prop) :
  wp p (fun tr o => exists a, o = Returned a /\ Q tr a) [] ->
  wp p (fun tr _ => no_temp tr) [] -> wp p (fun tr _ => no_remove tr) [] ->
  sound (lift p) (fun tr a => told tr [] [] /\ Q (host_events tr) a).
Proof.
  intros Hp Ht Hk. unfold sound. apply wp_lift_nil. cbn [app].
  eapply wp_mono; [apply wp_conj; [exact Hp|apply wp_conj; [exact Ht|exact Hk]]|].
  intros tr o [(a & -> & HQ) [Hn Hkept]]. destruct (lifted_quiet tr) as (H1 & H2 & H3 & H4).
  split; [unfold steady; rewrite H3; by split_and!|]. intros ? [= <-]. rewrite H3.
  split; [|done]. split; [by rewrite H1|done].
Qed.

Lemma sound_now : sound (os TimeNow) (fun tr _ => told tr [] []).
Proof. intros r. split; [steady|done]. Qed.

Lemma sound_publish id e :
  sound (publish id e) (fun tr _ => told tr [untimed e] []).
Proof. intros [r|m]; (split; [steady|done]). Qed.

Lemma sound_save st :
  sound (save st) (fun tr st' => told tr [] [st] /\ exists t, st' = set_updated t st).
Proof.
  intros [[t r]|m]; (split; [steady|]); [|done].
  intros ? [= <-]. split; [done|by exists t].
Qed.

Lemma told_nil : told [] [] [].
Proof. done. Qed.

Lemma told_eq tr p1 p2 s1 s2 : told tr p1 s1 -> p1 = p2 -> s1 = s2 -> told tr p2 s2.
Proof. by intros ? <- <-. Qed.

(** Sequencing by the specification of the first part, and the reports of a
    whole sequence from those of its parts. *)
Ltac sound_step H := eapply sound_bind; [apply H|intros; cbv beta in *].
Ltac told :=
  cbv beta in *;
  repeat match goal with H : _ /\ _ |- _ => destruct H end;
  eapply told_eq; [repeat (eapply told_app; [eassumption|]); first [eassumption|apply told_nil]|..];
  cbn [app]; rewrite ?app_nil_r; try reflexivity.

(** A host program inside a worker's, by its specification. *)
Lemma wp_lift_use {A} (p : prog osE A) Q (Q' : list (event workE) -> outcome A -> Prop) tr :
  wp p Q [] -> (forall s o, Q s o -> Q' (tr ++ (lift_event <$> s)) o) -> wp (lift p) Q' tr.
Proof. intros Hp HQ. apply wp_lift_nil. eapply wp_mono; [exact Hp|]. auto. Qed.

Lemma host_events_lifted tr : host_events (lift_event <$> tr) = tr.
Proof. apply lifted_quiet. Qed.

Lemma panics_lifted tr : panics (lift_event <$> tr) = 0.
Proof. apply lifted_quiet. Qed.

Lemma told_lifted (tr : list (event osE)) : told (lift_event <$> tr) [] [].
Proof. destruct (lifted_quiet tr) as (H1 & H2 & _). split; [by rewrite H1|done]. Qed.

Lemma told_lift_app_l (s : list (event osE)) tr pubs sts :
  told tr pubs sts -> told ((lift_event <$> s) ++ tr) pubs sts.
Proof. intros H. apply (told_app _ _ [] pubs [] sts (told_lifted s) H). Qed.

Lemma told_lift_app_r (s : list (event osE)) tr pubs sts :
  told tr pubs sts -> told (tr ++ (lift_event <$> s)) pubs sts.
Proof.
  intros H. eapply told_eq; [apply (told_app _ _ _ _ _ _ H (told_lifted s))|by rewrite app_nil_r..].
Qed.

#[export] Hint Rewrite host_events_lifted panics_lifted : go.
#[export] Hint Resolve told_lift_app_l told_lift_app_r : go.
