(* ===== verification/Metrics.v ===== *)
(** * Metrics (pkg/metrics/prometheus.go)

    The collectors as they are declared, the list [init] registers, and the
    recording functions, which choose the labels and the units of what is
    recorded.  Registering, counting and serving the metrics page are the
    Prometheus library's: [CounterInc] and [HistogramObserve] stand for
    [WithLabelValues] with [Inc] or [Observe]. *)

From S2P Require Import Prelude GoStrings GoFloat Go OS Models Json JsonString Events Store Services.

Inductive collector_kind := Counter | Gauge | Histogram (Buckets : list float64).

Record collector := {
  col_Kind : collector_kind;
  col_Namespace : string;
  col_Name : string;
  col_Help : string;
  col_Labels : list string;
}.

(** [prometheus.BuildFQName] without a subsystem. *)
Definition fq_name (c : collector) : string := col_Namespace c +:+ "_" +:+ col_Name c.

Definition SubmissionsTotal : collector :=
  {| col_Kind := Counter; col_Namespace := "speedcode"; col_Name := "submissions_total";
     col_Help := "Total number of code submissions processed by the execution engine.";
     col_Labels := ["language"; "verdict"; "sandbox_backend"] |}.

Definition QueueDepthGauge : collector :=
  {| col_Kind := Gauge; col_Namespace := "speedcode"; col_Name := "queue_depth";
     col_Help := "Current count of submissions waiting in the task queue."; col_Labels := [] |}.

(** 0.01, 0.025, 0.05, 0.1, 0.25, 0.5, 1, 2, 5 and 10 seconds. *)
Definition second_buckets : list float64 :=
  [fconst 1 100; fconst 25 1000; fconst 5 100; fconst 1 10; fconst 25 100; fconst 5 10;
   of_Z 1; of_Z 2; of_Z 5; of_Z 10].

Definition ExecutionDuration : collector :=
  {| col_Kind := Histogram second_buckets; col_Namespace := "speedcode";
     col_Name := "execution_duration_seconds"; col_Help := "Wall-clock execution duration in seconds.";
     col_Labels := ["language"; "verdict"] |}.

Definition CPUTimeDuration : collector :=
  {| col_Kind := Histogram second_buckets; col_Namespace := "speedcode"; col_Name := "cpu_time_seconds";
     col_Help := "Total CPU user and kernel execution duration in seconds.";
     col_Labels := ["language"; "verdict"] |}.

Definition PeakMemoryBytes : collector :=
  {| col_Kind := Histogram (of_Z <$> [1048576; 4194304; 16777216; 67108864; 134217728; 268435456; 536870912])%Z;
     col_Namespace := "speedcode"; col_Name := "peak_memory_bytes";
     col_Help := "Peak physical RAM memory consumed in bytes."; col_Labels := ["language"] |}.

Definition SecurityViolationsTotal : collector :=
  {| col_Kind := Counter; col_Namespace := "speedcode"; col_Name := "security_violations_total";
     col_Help := "Count of security boundary breaches, blocked syscalls, and resource terminations.";
     col_Labels := ["violation_type"] |}.

Definition ActiveWorkers : collector :=
  {| col_Kind := Gauge; col_Namespace := "speedcode"; col_Name := "active_workers";
     col_Help := "Number of worker threads currently processing code submissions."; col_Labels := [] |}.

(** What [init] registers. *)
Definition registered : list collector :=
  [SubmissionsTotal; QueueDepthGauge; ExecutionDuration; CPUTimeDuration; PeakMemoryBytes;
   SecurityViolationsTotal; ActiveWorkers].

Definition inc (c : collector) (labels : list string) : prog workE unit :=
  try_call (svc (CounterInc (fq_name c) labels)).

Definition observe_value (c : collector) (labels : list string) (v : float64) : prog workE unit :=
  try_call (svc (HistogramObserve (fq_name c) labels v)).

Definition RecordSubmissionMetrics (language verdict sandbox : string)
    (wallTimeMs cpuTimeMs peakMemoryMB : float64) : prog workE unit :=
  _ ← inc SubmissionsTotal [language; verdict; sandbox];
  _ ← observe_value ExecutionDuration [language; verdict] (wallTimeMs / of_Z 1000)%float;
  _ ← observe_value CPUTimeDuration [language; verdict] (cpuTimeMs / of_Z 1000)%float;
  observe_value PeakMemoryBytes [language] (peakMemoryMB * of_Z 1024 * of_Z 1024)%float.

Definition RecordViolation (violationType : string) : prog workE unit :=
  inc SecurityViolationsTotal [violationType].

(** ** The collectors are well formed

    What the library demands of a collector, and of the values given for its
    labels: a name of letters, digits, "_" and ":" that does not start with a
    digit, label names without ":", not starting with "__" and not the "le" of
    histograms, increasing buckets; as many values as labels, in UTF-8. *)

Definition name_byte (colon : bool) (c : Ascii.ascii) : bool :=
  between 97 c 122 || between 65 c 90 || bool_decide (c = "_"%char) || (colon && bool_decide (c = ":"%char)).

Definition name_ok (colon : bool) (s : string) : bool :=
  match to_bytes s with
  | c :: l => name_byte colon c && forallb (fun c => name_byte colon c || is_digit c) l
  | [] => false
  end.

Fixpoint increasing (l : list float64) : bool :=
  match l with
  | a :: (b :: _) as l => flt a b && increasing l
  | _ => true
  end.

Definition collector_ok (c : collector) : bool :=
  name_ok true (fq_name c) &&
  forallb (fun l => name_ok false l && negb (HasPrefix l "__") && negb (bool_decide (l = "le"))) (col_Labels c) &&
  bool_decide (NoDup (col_Labels c)) &&
  match col_Kind c with Histogram buckets => increasing buckets | _ => true end.

(** A call that records in a registered collector of its kind. *)
Definition records (name : string) (labels : list string) (is_kind : collector_kind -> bool) : Prop :=
  exists c, c ∈ registered /\ fq_name c = name /\ is_kind (col_Kind c) = true /\
    length labels = length (col_Labels c) /\ Forall utf8_valid labels.

Definition well_labelled (ev : event workE) : Prop :=
  match ev_call ev with
  | inr (CounterInc name labels) =>
      records name labels (fun k => match k with Counter => true | _ => false end)
  | inr (HistogramObserve name labels _) =>
      records name labels (fun k => match k with Histogram _ => true | _ => false end)
  | _ => False
  end.

(** ** Recording says nothing on the bus or to the store *)

Lemma sound_inc name labels : sound (inc name labels) (fun tr _ => told tr [] []).
Proof. intros [r|m]; (split; [steady|done]). Qed.

Lemma sound_observe name labels v :
  sound (observe_value name labels v) (fun tr _ => told tr [] []).
Proof. intros [r|m]; (split; [steady|done]). Qed.

Lemma sound_metrics language verdict sandbox wall cpu peak :
  sound (RecordSubmissionMetrics language verdict sandbox wall cpu peak)
    (fun tr _ => told tr [] []).
Proof.
  unfold RecordSubmissionMetrics. sound_step sound_inc. sound_step sound_observe.
  sound_step sound_observe. eapply sound_mono; [apply sound_observe|]. intros. told.
Qed.

(** ** Properties *)

Lemma inc_labelled c labels :
  c ∈ registered -> col_Kind c = Counter -> length labels = length (col_Labels c) ->
  Forall utf8_valid labels -> wp (inc c labels) (fun tr _ => Forall well_labelled tr) [].
Proof.
  intros Hin Hk Hn Hu r. apply wp_outcome_prog. apply Forall_singleton. exists c.
  split_and!; [done..|by rewrite Hk|done|done].
Qed.

Lemma observe_labelled c b labels v :
  c ∈ registered -> col_Kind c = Histogram b -> length labels = length (col_Labels c) ->
  Forall utf8_valid labels -> wp (observe_value c labels v) (fun tr _ => Forall well_labelled tr) [].
Proof.
  intros Hin Hk Hn Hu r. apply wp_outcome_prog. apply Forall_singleton. exists c.
  split_and!; [done..|by rewrite Hk|done|done].
Qed.

Lemma labelled_bind {A B} (p : prog workE A) (k : A -> prog workE B) :
  wp p (fun tr _ => Forall well_labelled tr) [] ->
  (forall a, wp (k a) (fun tr _ => Forall well_labelled tr) []) ->
  wp (p ≫= k) (fun tr _ => Forall well_labelled tr) [].
Proof.
  intros Hp Hk. apply (wp_bind k p). eapply wp_mono; [exact Hp|].
  intros tr [a|msg] Ht; cbn [after]; [|done].
  eapply wp_use; [apply Hk|]. intros tr' o Ht'. by apply Forall_app.
Qed.

(** A recording with literal labels. *)
Ltac labelled lem :=
  eapply lem; [unfold registered; set_solver|reflexivity|reflexivity|by repeat constructor].

(** C37: metrics cannot take a worker down by their own fault: the collectors
    [init] registers have distinct names and are well formed, and every
    recording goes to a registered collector of its kind with a value for each
    of its labels, in UTF-8 when the language, verdict and backend are, so
    that none of the library's checks fails. *)
Theorem metrics_well_formed :
  NoDup (fq_name <$> registered) /\
  Forall (fun c => collector_ok c = true) registered /\
  (forall language verdict sandbox wall cpu peak,
     Forall utf8_valid [language; verdict; sandbox] ->
     wp (RecordSubmissionMetrics language verdict sandbox wall cpu peak)
        (fun tr _ => Forall well_labelled tr) []) /\
  (forall violationType, utf8_valid violationType ->
     wp (RecordViolation violationType) (fun tr _ => Forall well_labelled tr) []).
Proof.
  split_and!.
  - apply (bool_decide_unpack _). vm_compute. exact I.
  - repeat constructor.
  - intros l v s wall cpu peak [Hl [Hv [Hs _]%Forall_cons]%Forall_cons]%Forall_cons.
    unfold RecordSubmissionMetrics. apply labelled_bind; [labelled inc_labelled|intros _].
    do 2 (apply labelled_bind; [labelled observe_labelled|intros _]). labelled observe_labelled.
  - intros v Hv. labelled inc_labelled.
Qed.

Lemma metrics_well_formed_witness :
  wp (RecordSubmissionMetrics "python3" VerdictAccepted "docker" f0 f0 f0)
     (fun tr _ => Forall well_labelled tr) [].
Proof.
  apply (proj1 (proj2 (proj2 metrics_well_formed))). repeat constructor.
Defined.
