(* ===== verification/Security.v ===== *)
(** * Security audit and the seccomp profile (pkg/security)

    [LogViolation] builds an audit record and prints its JSON;
    [DefaultSeccompProfile] is the profile as data, with the action it gives to
    a system call, and [read_document] what a container runtime finds in the
    file it is written to. *)

From S2P Require Import Prelude GoStrings GoFloat Go OS Models Json JsonString JsonNumber JsonTime Codec JsonIndent.
From S2P Require Import Events Store Services.

(** ** audit.go *)

Definition ViolationSyscallBlocked : string := "SECCOMP_SYSCALL_BLOCKED".
Definition ViolationNetworkAttempt : string := "NETWORK_SOCKET_DENIED".
Definition ViolationMemoryOOM : string := "MEMORY_OOM_KILLED".
Definition ViolationForkBomb : string := "PID_EXHAUSTION_FORK_BOMB".
Definition ViolationUnauthorizedFile : string := "UNAUTHORIZED_FILE_ACCESS".
Definition ViolationTimeoutExceeded : string := "WALL_CLOCK_TIMEOUT".

Record AuditEvent := {
  au_Timestamp : time;
  au_SubmissionID : string;
  au_ViolationType : string;
  au_Language : string;
  au_SandboxBackend : string;
  au_Details : string;
  au_ClientIP : string;
  au_HostName : string;
}.

(** The fields and tags of AuditEvent; its time is in UTC. *)
Definition AuditEvent_fields : struct _ :=
  SCons "timestamp" false (time_codec (H := utc)) $ SCons "submission_id" false string_codec $
  SCons "violation_type" false string_codec $ SCons "language" false string_codec $
  SCons "sandbox_backend" false string_codec $ SCons "details" false string_codec $
  SCons "client_ip" true string_codec $ SCons "hostname" false string_codec $ SNil.

Definition unpack_AuditEvent (x : AuditEvent) :=
  (au_Timestamp x, (au_SubmissionID x, (au_ViolationType x, (au_Language x, (au_SandboxBackend x,
  (au_Details x, (au_ClientIP x, (au_HostName x, tt)))))))).

Definition pack_AuditEvent b : AuditEvent :=
  let '(v1, (v2, (v3, (v4, (v5, (v6, (v7, (v8, tt)))))))) := b in
  {| au_Timestamp := v1; au_SubmissionID := v2; au_ViolationType := v3; au_Language := v4;
     au_SandboxBackend := v5; au_Details := v6; au_ClientIP := v7; au_HostName := v8 |}.

(** Only its encoder is used by the program. *)
Definition AuditEvent_codec : codec AuditEvent :=
  struct_codec AuditEvent_fields unpack_AuditEvent pack_AuditEvent.

(** The logger's prefix. *)
Definition audit_prefix : string := "[SECURITY AUDIT] ".

Definition LogViolation (submissionID lang sandbox vType details : string) : prog workE unit :=
  '(hostname, _) ← svc Hostname;
  now ← os TimeNow;
  let event := {| au_Timestamp := now; au_SubmissionID := submissionID;
                  au_ViolationType := vType; au_Language := lang;
                  au_SandboxBackend := sandbox; au_Details := details;
                  au_ClientIP := ""; au_HostName := hostname |} in
  match Marshal AuditEvent_codec event with
  | Some data => svc (AuditPrintln (audit_prefix +:+ of_bytes data))
  | None => mret tt
  end.

Lemma sound_LogViolation submissionID lang sandbox vType details :
  sound (LogViolation submissionID lang sandbox vType details) (fun tr _ => told tr [] []).
Proof.
  intros [hostname e] now. cbn -[Marshal AuditEvent_codec].
  destruct (Marshal AuditEvent_codec _) as [data|]; [intros r|]; (split; [steady|done]).
Qed.

(** ** seccomp.go *)

Record Arg := { arg_Index : Z; arg_Value : Z; arg_ValueTwo : Z; arg_Op : string }.
Record SyscallRule := { rule_Names : list string; rule_Action : string; rule_Args : list Arg }.
Record SeccompProfile := {
  DefaultAction : string;
  Architectures : list string;
  Syscalls : list SyscallRule;
}.

Definition DefaultSeccompProfile : SeccompProfile :=
  {| DefaultAction := "SCMP_ACT_ERRNO";
     Architectures := ["SCMP_ARCH_X86_64"; "SCMP_ARCH_X86"; "SCMP_ARCH_AARCH64"];
     Syscalls := [
       {| rule_Names := [
         "read"; "write"; "open"; "openat"; "close"; "fstat"; "stat"; "lstat"; "lseek";
         "mmap"; "mprotect"; "munmap"; "brk"; "rt_sigaction"; "rt_sigprocmask";
         "rt_sigreturn"; "ioctl"; "pread64"; "pwrite64"; "readv"; "writev"; "access";
         "faccessat"; "faccessat2"; "pipe"; "pipe2"; "select"; "pselect6"; "poll"; "ppoll";
         "nanosleep"; "clock_nanosleep"; "clock_gettime"; "clock_getres"; "gettimeofday";
         "getpid"; "getppid"; "gettid"; "getuid"; "getgid"; "geteuid"; "getegid"; "exit";
         "exit_group"; "futex"; "sched_yield"; "sched_getaffinity"; "arch_prctl";
         "set_tid_address"; "set_robust_list"; "get_robust_list"; "rseq"; "prlimit64";
         "getrandom"; "sysinfo"; "uname"; "getcwd"; "readlink"; "readlinkat"; "fcntl";
         "dup"; "dup2"; "dup3"; "sigaltstack"; "epoll_create"; "epoll_create1";
         "epoll_ctl"; "epoll_wait"; "epoll_pwait"; "eventfd"; "eventfd2"; "clone";
         "clone3"; "wait4"; "waitid"; "execve"];
          rule_Action := "SCMP_ACT_ALLOW"; rule_Args := [] |};
       {| rule_Names := [
         "ptrace"; "reboot"; "kexec_load"; "kexec_file_load"; "bpf"; "setns"; "unshare";
         "mount"; "umount"; "umount2"; "pivot_root"; "chroot"; "syslog"; "init_module";
         "finit_module"; "delete_module"; "iopl"; "ioperm"; "swapon"; "swapoff"];
          rule_Action := "SCMP_ACT_KILL_PROCESS"; rule_Args := [] |};
       {| rule_Names := [
         "socket"; "bind"; "connect"; "listen"; "accept"; "accept4"; "sendto"; "recvfrom";
         "sendmsg"; "recvmsg"; "shutdown"; "getsockopt"; "setsockopt"];
          rule_Action := "SCMP_ACT_ERRNO"; rule_Args := [] |}] |}.

(** The action a profile gives to a system call: that of the first rule that
    names it, otherwise the default. *)
Fixpoint action_of_rules (rules : list SyscallRule) (default name : string) : string :=
  match rules with
  | [] => default
  | r :: rules => if bool_decide (name ∈ rule_Names r) then rule_Action r
                  else action_of_rules rules default name
  end.

Definition action_of (p : SeccompProfile) (name : string) : string :=
  action_of_rules (Syscalls p) (DefaultAction p) name.

Definition all_names (p : SeccompProfile) : list string := Syscalls p ≫= rule_Names.

(** The fields and tags of Arg (seccomp.go). *)
Definition Arg_fields : struct _ :=
  SCons "index" false int_codec $ SCons "value" false uint_codec $
  SCons "valueTwo" true uint_codec $ SCons "op" false string_codec $ SNil.

Definition unpack_Arg (x : Arg) :=
  (arg_Index x, (arg_Value x, (arg_ValueTwo x, (arg_Op x, tt)))).

Definition pack_Arg b : Arg :=
  let '(v1, (v2, (v3, (v4, tt)))) := b in
  {| arg_Index := v1; arg_Value := v2; arg_ValueTwo := v3; arg_Op := v4 |}.

(** Go's encoder and decoder for the type; the program only encodes. *)
Definition Arg_codec : codec Arg :=
  struct_codec Arg_fields unpack_Arg pack_Arg.

(** The fields and tags of SyscallRule (seccomp.go). *)
Definition SyscallRule_fields : struct _ :=
  SCons "names" false (list_codec string_codec) $ SCons "action" false string_codec $
  SCons "args" true (list_codec Arg_codec) $ SNil.

Definition unpack_SyscallRule (x : SyscallRule) :=
  (rule_Names x, (rule_Action x, (rule_Args x, tt))).

Definition pack_SyscallRule b : SyscallRule :=
  let '(v1, (v2, (v3, tt))) := b in
  {| rule_Names := v1; rule_Action := v2; rule_Args := v3 |}.

Definition SyscallRule_codec : codec SyscallRule :=
  struct_codec SyscallRule_fields unpack_SyscallRule pack_SyscallRule.

(** The fields and tags of SeccompProfile (seccomp.go). *)
Definition SeccompProfile_fields : struct _ :=
  SCons "defaultAction" false string_codec $
  SCons "architectures" false (list_codec string_codec) $
  SCons "syscalls" false (list_codec SyscallRule_codec) $ SNil.

Definition unpack_SeccompProfile (x : SeccompProfile) :=
  (DefaultAction x, (Architectures x, (Syscalls x, tt))).

Definition pack_SeccompProfile b : SeccompProfile :=
  let '(v1, (v2, (v3, tt))) := b in
  {| DefaultAction := v1; Architectures := v2; Syscalls := v3 |}.

Definition SeccompProfile_codec : codec SeccompProfile :=
  struct_codec SeccompProfile_fields unpack_SeccompProfile pack_SeccompProfile.

(** 0644 *)
Definition profile_perm : Z := 420.

Definition WriteProfileToFile `{JsonErrors} (path : string) : prog osE (option error) :=
  match MarshalIndent SeccompProfile_codec DefaultSeccompProfile with
  | None => mret (Some (OtherError marshal_error))
  | Some data => call (WriteFile path (of_bytes data) profile_perm)
  end.

(** ** The profile as a document

    What a container runtime finds in the file, read from the JSON by the names
    of the seccomp format, without the types above. *)

Definition json_text (j : json) : option string :=
  match j with JStr raw => unquote raw | _ => None end.

Definition json_texts (j : json) : option (list string) :=
  match j with JArr l => mapM json_text l | _ => None end.

(** The value of a member, when its name occurs once. *)
Definition json_member (name : string) (j : json) : option json :=
  match j with
  | JObj fs => match filter (fun kv => kv.1 = to_bytes name) fs with [(_, v)] => Some v | _ => None end
  | _ => None
  end.

Definition document_rule (j : json) : option (list string * string) :=
  (json_member "names" j ≫= json_texts) ≫= fun names =>
  (json_member "action" j ≫= json_text) ≫= fun action => Some (names, action).

Record document := {
  doc_default : string;
  doc_architectures : list string;
  doc_rules : list (list string * string);
}.

Definition read_document (text : bytes) : option document :=
  parse text ≫= fun j =>
  (json_member "defaultAction" j ≫= json_text) ≫= fun d =>
  (json_member "architectures" j ≫= json_texts) ≫= fun archs =>
  (json_member "syscalls" j ≫= (fun j => match j with JArr l => mapM document_rule l | _ => None end)) ≫= fun rules =>
  Some {| doc_default := d; doc_architectures := archs; doc_rules := rules |}.

(** The action for a system call: that of the first rule that names it. *)
Definition document_action (d : document) (name : string) : string :=
  match filter (fun r => name ∈ r.1) (doc_rules d) with
  | r :: _ => r.2
  | [] => doc_default d
  end.

(** The document of a profile without argument filters. *)
Definition document_of (p : SeccompProfile) : document :=
  {| doc_default := DefaultAction p; doc_architectures := Architectures p;
     doc_rules := (fun r => (rule_Names r, rule_Action r)) <$> Syscalls p |}.

Lemma document_action_of p name : document_action (document_of p) name = action_of p name.
Proof.
  unfold document_action, action_of. cbn [document_of doc_rules doc_default].
  induction (Syscalls p) as [|r rules IH]; [done|]. cbn [fmap list_fmap action_of_rules].
  rewrite filter_cons. cbn [fst]. case_decide; case_bool_decide; done.
Qed.

Definition socket_calls : list string :=
  ["socket"; "bind"; "connect"; "listen"; "accept"; "accept4"; "sendto"; "recvfrom";
   "sendmsg"; "recvmsg"; "shutdown"; "getsockopt"; "setsockopt"].

Definition host_calls : list string :=
  ["ptrace"; "reboot"; "kexec_load"; "kexec_file_load"; "bpf"; "setns"; "unshare"; "mount"; "umount";
   "umount2"; "pivot_root"; "chroot"; "syslog"; "init_module"; "finit_module"; "delete_module"; "iopl";
   "ioperm"; "swapon"; "swapoff"].

(** The default profile is a consistent allow list: no system call is named
    twice, so the order of the rules does not matter; a call is allowed only
    when the allow rule names it, everything unknown is refused with an error,
    the host-level operations kill the process and every socket operation is
    refused. *)
Lemma profile_default_deny (name : string) :
  NoDup (all_names DefaultSeccompProfile) /\
  (action_of DefaultSeccompProfile name = "SCMP_ACT_ALLOW" <->
   exists r, r ∈ Syscalls DefaultSeccompProfile /\ rule_Action r = "SCMP_ACT_ALLOW" /\
             name ∈ rule_Names r) /\
  (name ∉ all_names DefaultSeccompProfile ->
   action_of DefaultSeccompProfile name = "SCMP_ACT_ERRNO") /\
  (name ∈ host_calls ->
   action_of DefaultSeccompProfile name = "SCMP_ACT_KILL_PROCESS") /\
  (name ∈ socket_calls ->
   action_of DefaultSeccompProfile name = "SCMP_ACT_ERRNO").
Proof.
  split_and!.
  - apply (bool_decide_unpack _). vm_compute. exact I.
  - unfold action_of, DefaultSeccompProfile. cbn [Syscalls DefaultAction action_of_rules rule_Names
      rule_Action]. split.
    + repeat case_bool_decide; try done. intros _. eexists. split; [left|]. by split.
    + intros (r & Hr & Ha & Hn). rewrite !elem_of_cons in Hr.
      destruct Hr as [->|[->|[->|Hr]]]; [|done..|by apply elem_of_nil in Hr].
      by rewrite bool_decide_eq_true_2.
  - intros Hn. unfold all_names, DefaultSeccompProfile in Hn. cbn [Syscalls mbind list_bind rule_Names]
      in Hn. rewrite !elem_of_app in Hn.
    unfold action_of, DefaultSeccompProfile. cbn [Syscalls DefaultAction action_of_rules rule_Names
      rule_Action]. rewrite !bool_decide_eq_false_2 by tauto. done.
  - revert name. apply Forall_forall. repeat constructor.
  - revert name. apply Forall_forall. repeat constructor.
Qed.

(** ** Properties *)

(** C39: what WriteProfileToFile leaves for a container runtime.  The profile is
    written once, to the given path and with mode 0644, and the write's error
    is the function's.  In the document, read by the member names of the
    seccomp format, the three architectures are listed, no system call is named
    twice, the host-level calls (ptrace, mount, bpf, ...) kill the process, the
    socket calls are refused with an error, whatever no rule names is refused
    with an error, and what is allowed is named by a rule that allows it and is
    neither of the two kinds. *)
Theorem WriteProfileToFile_denies `{JsonErrors} (path : string) :
  wp (WriteProfileToFile path) (fun tr o => exists data err doc,
    tr = [Ev (WriteFile path data 420) err] /\ o = Returned err /\
    read_document (to_bytes data) = Some doc /\
    doc_architectures doc = ["SCMP_ARCH_X86_64"; "SCMP_ARCH_X86"; "SCMP_ARCH_AARCH64"] /\
    NoDup (doc_rules doc ≫= fst) /\
    forall name,
      (name ∈ host_calls -> document_action doc name = "SCMP_ACT_KILL_PROCESS") /\
      (name ∈ socket_calls -> document_action doc name = "SCMP_ACT_ERRNO") /\
      (name ∉ (doc_rules doc ≫= fst) -> document_action doc name = "SCMP_ACT_ERRNO") /\
      (document_action doc name = "SCMP_ACT_ALLOW" ->
       name ∉ host_calls ++ socket_calls /\
       exists names, (names, "SCMP_ACT_ALLOW") ∈ doc_rules doc /\ name ∈ names)) [].
Proof.
  assert (Hm : exists data, MarshalIndent SeccompProfile_codec DefaultSeccompProfile = Some data /\
    read_document data = Some (document_of DefaultSeccompProfile)).
  { exists (default [] (MarshalIndent SeccompProfile_codec DefaultSeccompProfile)).
    split; vm_compute; reflexivity. }
  destruct Hm as (data & Hm & Hu). unfold WriteProfileToFile. rewrite Hm. intros err.
  exists (of_bytes data), err, (document_of DefaultSeccompProfile). rewrite to_of_bytes.
  split_and!; [done..| |].
  { apply (bool_decide_unpack _). vm_compute. exact I. }
  intros name. rewrite document_action_of.
  destruct (profile_default_deny name) as (_ & Hallow & Hother & Hhost & Hsock).
  split_and!; [done|done|exact Hother|]. intros Ha. split.
  - intros [Hin|Hin]%elem_of_app; [rewrite Hhost in Ha by done|rewrite Hsock in Ha by done]; done.
  - apply Hallow in Ha as (r & Hr & Hact & Hn). exists (rule_Names r). split; [|done].
    apply list_elem_of_fmap. exists r. by rewrite Hact.
Qed.
