(* ===== verification/Worker.v ===== *)
(** * Processing one submission (pkg/worker/worker.go)

    [ProcessJob] runs a submission through the phases of a backend, one
    execution per test case, announces its progress on the event bus, records
    metrics and saves the state; a deferred recovery turns any panic into a
    failed submission.  It is a program of the host and of the services, and
    its properties hold whatever they answer. *)

From S2P Require Import Prelude GoStrings GoFloat Go OS Models Languages FilePath Watchdog Sandbox.
From S2P Require Import NativeSandbox DockerSandbox DevSandbox Select Engine Queue Events.
From S2P Require Import Store Services Metrics Security.

(** The fields of an event that the worker sets. *)
Definition event_with (id : string) (status : EventStatus) (now : time) (current total : Z)
    (verdict : Verdict) (tcr : option TestCaseResult) (comp : option CompilationResult)
    (wall cpu peak : float64) (details : string) : ExecutionEvent :=
  {| ev_SubmissionID := id; ev_Status := status; ev_Timestamp := now;
     ev_CurrentTestCase := current; ev_TotalTestCases := total; ev_Verdict := verdict;
     ev_TestCaseResult := tcr; ev_Compilation := comp; ev_StdoutChunk := "";
     ev_StderrChunk := ""; ev_WallTimeMs := wall; ev_CpuTimeMs := cpu; ev_PeakMemoryMB := peak;
     ev_ErrorDetails := details |}.

(** ** failSubmission *)

Definition failed_state (id lang : string) (total : Z) (verdict : Verdict) (errDetails : string)
    (comp : option CompilationResult) (now : time) : SubmissionState :=
  {| st_SubmissionID := id; st_Status := StatusFailed; st_Verdict := verdict;
     st_Language := lang; st_TotalTestCases := total; st_PassedTestCases := 0; st_Results := [];
     st_Compilation := comp; st_PeakMemoryMB := f0; st_TotalCpuTimeMs := f0;
     st_TotalWallTimeMs := f0; st_ErrorDetails := errDetails; st_CreatedAt := now;
     st_UpdatedAt := now; st_CompletedAt := Some now |}.

Definition failed_event (id : string) (verdict : Verdict) (errDetails : string)
    (comp : option CompilationResult) (now : time) : ExecutionEvent :=
  event_with id StatusFailed now 0 0 verdict None comp f0 f0 f0 errDetails.

Definition failSubmission (id lang : string) (total : Z) (verdict : Verdict)
    (errDetails : string) (comp : option CompilationResult) : prog workE (option error) :=
  now ← os TimeNow;
  _ ← save (failed_state id lang total verdict errDetails comp now);
  _ ← RecordSubmissionMetrics lang verdict "unknown" f0 f0 f0;
  _ ← (if bool_decide (verdict = VerdictCompilationError)
       then RecordViolation "COMPILATION_FAILURE"
       else RecordViolation ViolationSyscallBlocked);
  _ ← publish id (failed_event id verdict errDetails comp now);
  mret None.

(** ** The recovery of a panic *)

Definition panic_state (id lang : string) (total : Z) (errDetails : string) (now : time)
    : SubmissionState :=
  {| st_SubmissionID := id; st_Status := StatusFailed; st_Verdict := VerdictSystemError;
     st_Language := lang; st_TotalTestCases := total; st_PassedTestCases := 0; st_Results := [];
     st_Compilation := None; st_PeakMemoryMB := f0; st_TotalCpuTimeMs := f0;
     st_TotalWallTimeMs := f0; st_ErrorDetails := errDetails; st_CreatedAt := zero_time;
     st_UpdatedAt := now; st_CompletedAt := None |}.

Definition on_panic (id lang : string) (total : Z) (r : string) : prog workE (option error) :=
  stack ← svc DebugStack;
  let errDetails := "panic recovered in worker: " +:+ r +:+ nl +:+ stack in
  now ← os TimeNow;
  _ ← save (panic_state id lang total errDetails now);
  now ← os TimeNow;
  _ ← publish id (failed_event id VerdictSystemError errDetails None now);
  mret (Some (Errorf ("worker panic: " +:+ r))).

(** ** The evaluation of the test cases *)

(** The variables of the loop. *)
Record loop := {
  lp_Results : list TestCaseResult;
  lp_Verdict : Verdict;
  lp_PeakMemoryMB : float64;
  lp_WallTimeMs : float64;
  lp_CpuTimeMs : float64;
  lp_Passed : Z;
}.

Definition loop_init : loop :=
  {| lp_Results := []; lp_Verdict := VerdictAccepted; lp_PeakMemoryMB := f0;
     lp_WallTimeMs := f0; lp_CpuTimeMs := f0; lp_Passed := 0 |}.

(** [sCtx.Request.Stdin = tc.Input; sCtx.Request.ExpectedOutput = ...] *)
Definition with_case (sCtx : SandboxContext) (tc : TestCase) : SandboxContext :=
  let r := sc_Request sCtx in
  {| sc_ID := sc_ID sCtx;
     sc_Request := {| ID := ID r; Language := Language r; Code := Code r;
                      Stdin := tc_Input tc; ExpectedOutput := tc_ExpectedOutput tc;
                      TimeLimitMs := TimeLimitMs r; MemoryLimitMB := MemoryLimitMB r;
                      CpuQuota := CpuQuota r; PidsLimit := PidsLimit r;
                      MaxOutputBytes := MaxOutputBytes r; SandboxType := SandboxType r |};
     sc_Language := sc_Language sCtx; sc_WorkingDir := sc_WorkingDir sCtx;
     sc_SourcePath := sc_SourcePath sCtx; sc_BinaryPath := sc_BinaryPath sCtx;
     sc_CgroupPath := sc_CgroupPath sCtx; sc_CreatedAt := sc_CreatedAt sCtx |}.

Definition result_item (i : nat) (tc : TestCase) (tcRes : ExecutionResult) : TestCaseResult :=
  let hide := tc_IsHidden tc && negb (bool_decide (res_Verdict tcRes = VerdictAccepted)) in
  {| tr_TestCaseID := tc_ID tc;
     tr_Index := Z.of_nat i + 1;
     tr_Verdict := res_Verdict tcRes;
     tr_ExitCode := res_ExitCode tcRes;
     tr_Stdout := if hide then "[Hidden Testcase]" else res_Stdout tcRes;
     tr_Stderr := if hide then "[Hidden Testcase]" else res_Stderr tcRes;
     tr_WallTimeMs := res_WallTimeMs tcRes;
     tr_CpuTimeMs := res_CpuTimeMs tcRes;
     tr_PeakMemoryMB := res_PeakMemoryMB tcRes;
     tr_OOMKilled := res_OOMKilled tcRes |}.

(** What one execution does to the variables of the loop. *)
Definition loop_step (i : nat) (tc : TestCase) (s : loop) (tcRes : ExecutionResult) : loop :=
  {| lp_Results := lp_Results s ++ [result_item i tc tcRes];
     lp_Verdict :=
       if bool_decide (res_Verdict tcRes = VerdictAccepted) then lp_Verdict s
       else if bool_decide (lp_Verdict s = VerdictAccepted) then res_Verdict tcRes
       else lp_Verdict s;
     lp_PeakMemoryMB :=
       if flt (lp_PeakMemoryMB s) (res_PeakMemoryMB tcRes) then res_PeakMemoryMB tcRes
       else lp_PeakMemoryMB s;
     lp_WallTimeMs := (lp_WallTimeMs s + res_WallTimeMs tcRes)%float;
     lp_CpuTimeMs := (lp_CpuTimeMs s + res_CpuTimeMs tcRes)%float;
     lp_Passed := if bool_decide (res_Verdict tcRes = VerdictAccepted) then lp_Passed s + 1
                  else lp_Passed s |}.

Definition start_event (id : string) (i : nat) (total : Z) (now : time) : ExecutionEvent :=
  event_with id StatusTestCaseStart now (Z.of_nat i + 1) total "" None None f0 f0 f0 "".

Definition outcome_event (id : string) (i : nat) (tc : TestCase) (total : Z)
    (tcRes : ExecutionResult) (now : time) : ExecutionEvent :=
  let item := result_item i tc tcRes in
  if bool_decide (res_Verdict tcRes = VerdictAccepted) then
    event_with id StatusTestCasePassed now (Z.of_nat i + 1) total "" (Some item) None
      (res_WallTimeMs tcRes) f0 (res_PeakMemoryMB tcRes) ""
  else
    event_with id StatusTestCaseFailed now (Z.of_nat i + 1) total (res_Verdict tcRes) (Some item)
      None (res_WallTimeMs tcRes) f0 (res_PeakMemoryMB tcRes) "".

Definition run_case (sb : Sandbox) (sCtx : SandboxContext) (id : string) (total : Z) (s : loop)
    (itc : nat * TestCase) : prog workE loop :=
  let '(i, tc) := itc in
  now ← os TimeNow;
  _ ← publish id (start_event id i total now);
  '(tcRes, execErr) ← lift (sb_Execute sb (with_case sCtx tc));
  tcRes ← (match execErr with
           | Some err =>
               now ← os TimeNow;
               mret (failure id VerdictSystemError None (error_text err) (sb_Name sb) now)
           | None => deref tcRes
           end);
  now ← os TimeNow;
  _ ← publish id (outcome_event id i tc total tcRes now);
  mret (loop_step i tc s tcRes).

(** ** The whole job *)

Definition default_case : TestCase :=
  {| tc_ID := "tc-default"; tc_Input := ""; tc_ExpectedOutput := ""; tc_IsHidden := false |}.

Definition job_cases (job : SubmissionJob) : list TestCase :=
  match j_TestCases job with [] => [default_case] | tcs => tcs end.

Definition job_request (job : SubmissionJob) : ExecutionRequest :=
  {| ID := j_SubmissionID job; Language := j_Language job; Code := j_Code job;
     Stdin := ""; ExpectedOutput := ""; TimeLimitMs := j_TimeLimitMs job;
     MemoryLimitMB := j_MemoryLimitMB job; CpuQuota := j_CpuQuota job;
     PidsLimit := j_PidsLimit job; MaxOutputBytes := j_MaxOutputBytes job;
     SandboxType := j_SandboxType job |}.

Definition running_state (job : SubmissionJob) (total : Z) (comp : option CompilationResult)
    (now : time) : SubmissionState :=
  {| st_SubmissionID := j_SubmissionID job; st_Status := StatusRunning;
     st_Verdict := VerdictAccepted; st_Language := j_Language job; st_TotalTestCases := total;
     st_PassedTestCases := 0; st_Results := []; st_Compilation := comp; st_PeakMemoryMB := f0;
     st_TotalCpuTimeMs := f0; st_TotalWallTimeMs := f0; st_ErrorDetails := "";
     st_CreatedAt := j_EnqueuedAt job; st_UpdatedAt := now; st_CompletedAt := None |}.

Definition completed_state (s : SubmissionState) (l : loop) (now : time) : SubmissionState :=
  {| st_SubmissionID := st_SubmissionID s; st_Status := StatusCompleted;
     st_Verdict := lp_Verdict l; st_Language := st_Language s;
     st_TotalTestCases := st_TotalTestCases s; st_PassedTestCases := lp_Passed l;
     st_Results := lp_Results l; st_Compilation := st_Compilation s;
     st_PeakMemoryMB := lp_PeakMemoryMB l; st_TotalCpuTimeMs := lp_CpuTimeMs l;
     st_TotalWallTimeMs := lp_WallTimeMs l; st_ErrorDetails := st_ErrorDetails s;
     st_CreatedAt := st_CreatedAt s; st_UpdatedAt := st_UpdatedAt s;
     st_CompletedAt := Some now |}.

Definition completed_event (id : string) (total : Z) (comp : option CompilationResult) (l : loop)
    (now : time) : ExecutionEvent :=
  event_with id StatusCompleted now total total (lp_Verdict l) None comp (lp_WallTimeMs l)
    (lp_CpuTimeMs l) (lp_PeakMemoryMB l) "".

(** The audit of a submission that broke a resource limit. *)
Definition audit (job : SubmissionJob) (backend : string) (l : loop) : prog workE unit :=
  if bool_decide (lp_Verdict l = VerdictMemoryLimitExceeded) then
    _ ← LogViolation (j_SubmissionID job) (j_Language job) backend ViolationMemoryOOM
          ("Memory limit exceeded: " +:+ Sprintf_2f (lp_PeakMemoryMB l) +:+ "MB > "
           +:+ Itoa (j_MemoryLimitMB job) +:+ "MB");
    RecordViolation ViolationMemoryOOM
  else if bool_decide (lp_Verdict l = VerdictTimeLimitExceeded) then
    _ ← LogViolation (j_SubmissionID job) (j_Language job) backend ViolationTimeoutExceeded
          ("Time limit exceeded: " +:+ Sprintf_2f (lp_WallTimeMs l) +:+ "ms > "
           +:+ Itoa (j_TimeLimitMs job) +:+ "ms");
    RecordViolation ViolationTimeoutExceeded
  else mret tt.

(** Phases 5 and 6. *)
Definition evaluate (sb : Sandbox) (sCtx : SandboxContext) (job : SubmissionJob)
    (compResult : option CompilationResult) : prog workE (option error) :=
  let id := j_SubmissionID job in
  let tcs := job_cases job in
  let total := len tcs in
  now ← os TimeNow;
  _ ← publish id (event_with id StatusRunning now 0 total "" None compResult f0 f0 f0 "");
  now ← os TimeNow;
  currentState ← save (running_state job total compResult now);
  l ← foldM (run_case sb sCtx id total) loop_init (zip (seq 0 (length tcs)) tcs);
  now ← os TimeNow;
  _ ← save (completed_state currentState l now);
  _ ← RecordSubmissionMetrics (j_Language job) (lp_Verdict l) (sb_Name sb) (lp_WallTimeMs l)
        (lp_CpuTimeMs l) (lp_PeakMemoryMB l);
  _ ← audit job (sb_Name sb) l;
  _ ← publish id (completed_event id total compResult l now);
  mret None.

(** Phases 4 to 6, which the deferred cleanup follows. *)
Definition compile_and_evaluate (sb : Sandbox) (sCtx : SandboxContext) (lang : LanguageHandler)
    (job : SubmissionJob) : prog workE (option error) :=
  let id := j_SubmissionID job in
  let fail := failSubmission id (j_Language job) (len (job_cases job)) VerdictCompilationError in
  if NeedsCompilation lang then
    now ← os TimeNow;
    _ ← publish id (event_with id StatusCompiling now 0 0 "" None None f0 f0 f0 "");
    '(compResult, err) ← lift (sb_Compile sb sCtx);
    match err, compResult with
    | Some err, _ => fail (error_text err) compResult
    | None, Some c =>
        if negb (comp_Success c) then fail (comp_Stderr c) compResult
        else evaluate sb sCtx job compResult
    | None, None => evaluate sb sCtx job compResult
    end
  else evaluate sb sCtx job None.

Section Process.
Context {UL : UnicodeLower} {OSName : Platform}.

Definition process (job : SubmissionJob) : prog workE (option error) :=
  let id := j_SubmissionID job in
  let fail details :=
    failSubmission id (j_Language job) (len (job_cases job)) VerdictSystemError details None in
  match Get init_registry (j_Language job) with
  | inl err => fail (error_text err)
  | inr lang =>
  sb ← lift (SelectSandbox (j_SandboxType job));
  match (sb : error + Sandbox) with
  | inl err => fail (error_text err)
  | inr sb =>
  execReq ← lift (Normalize (job_request job));
  sCtx ← lift (sb_Prepare sb execReq lang);
  match sCtx with
  | inl err => fail ("sandbox prepare failed: " +:+ error_text err)
  | inr sCtx =>
      defer (_ ← lift (sb_Cleanup sb sCtx); mret tt) (compile_and_evaluate sb sCtx lang job)
  end end end.

Definition ProcessJob (job : option SubmissionJob) : prog workE (option error) :=
  match job with
  | None => mret None
  | Some job =>
      recover (on_panic (j_SubmissionID job) (j_Language job) (len (job_cases job))) (process job)
  end.

End Process.

(** ** The parts, against the contract of the backend *)

Lemma sound_failSubmission id lang total verdict details comp :
  sound (failSubmission id lang total verdict details comp) (fun tr r => r = None /\
    exists now, told tr [failed_event id verdict details comp 0]
                        [failed_state id lang total verdict details comp now]).
Proof.
  unfold failSubmission. eapply sound_bind; [apply sound_now|]. intros tr0 now H0.
  sound_step sound_save. sound_step sound_metrics.
  eapply sound_bind with (R := fun tr _ => told tr [] []).
  { case_bool_decide; apply sound_inc. }
  intros. sound_step sound_publish. apply sound_ret. split; [done|]. exists now. told.
Qed.

Section Backend.
Context (sb : Sandbox) {Spec : SandboxSpec sb}.

(** A result of a test case: what the backend says of a run of the program on
    the case's input and expected output, with that run in the trace of the
    case, or a failure of the backend. *)
Definition case_ok (sCtx : SandboxContext) (tc : TestCase) (r : ExecutionResult)
    (tr : list (event osE)) : Prop :=
  (result_ok (sb_Name sb) (with_case sCtx tc) r /\ exists c,
     program_ran (sc_Language sCtx) (sc_WorkingDir sCtx) (tc_Input tc) c tr /\
     output_of (sc_Request sCtx) c r) \/
  res_Verdict r = VerdictSystemError.

Lemma case_ok_app sCtx tc r t1 tr t2 : case_ok sCtx tc r tr -> case_ok sCtx tc r (t1 ++ tr ++ t2).
Proof.
  intros [[Hr (c & Hrun & Hout)]|Hs]; [left|by right]. split; [done|]. exists c. split; [|done].
  by apply runs_to_end_app_r, runs_to_end_app_l.
Qed.

(** The verdict, results and totals of a list of results, and the events that
    announce them. *)
Fixpoint judge_from (i : nat) (s : loop) (tcs : list TestCase) (rs : list ExecutionResult) : loop :=
  match tcs, rs with
  | tc :: tcs, r :: rs => judge_from (S i) (loop_step i tc s r) tcs rs
  | _, _ => s
  end.

Fixpoint case_events (id : string) (total : Z) (i : nat) (tcs : list TestCase)
    (rs : list ExecutionResult) : list ExecutionEvent :=
  match tcs, rs with
  | tc :: tcs, r :: rs =>
      start_event id i total 0 :: outcome_event id i tc total r 0
        :: case_events id total (S i) tcs rs
  | _, _ => []
  end.

Lemma execute_returns sCtx :
  placed sCtx ->
  wp (sb_Execute sb sCtx) (fun tr o => exists r, o = Returned r /\
    match r with
    | (_, Some err) => True
    | (Some res, None) => result_ok (sb_Name sb) sCtx res /\ exists c,
        program_ran (sc_Language sCtx) (sc_WorkingDir sCtx) (Stdin (sc_Request sCtx)) c tr /\
        output_of (sc_Request sCtx) c res
    | (None, None) => False
    end) [].
Proof.
  intros Hpl. eapply wp_mono; [apply wp_conj; [apply spec_execute|apply spec_execute_ran]|].
  intros tr o [[(res & -> & Hr)|(err & ->)] Hl]; eexists; (split; [done|]); [|done].
  split; [done|by apply (Hl res)].
Qed.

Lemma untimed_outcome id i tc total r now :
  untimed (outcome_event id i tc total r now) = outcome_event id i tc total r 0.
Proof. unfold outcome_event. by case_bool_decide. Qed.

Lemma sound_run_case sCtx id total s i tc :
  placed sCtx ->
  sound (run_case sb sCtx id total s (i, tc)) (fun tr s' => exists r,
    s' = loop_step i tc s r /\ case_ok sCtx tc r (host_events tr) /\
    told tr [start_event id i total 0; outcome_event id i tc total r 0] []).
Proof.
  intros Hpl. unfold run_case. sound_step sound_now. sound_step sound_publish.
  eapply sound_bind; [apply sound_lift; [by apply execute_returns|apply spec_execute_temp|apply spec_execute_kept]|].
  intros tr2 [res err] [H2 Hres]; cbv beta in *.
  eapply sound_bind with (R := fun tr r => told tr [] [] /\ case_ok sCtx tc r (host_events tr2)).
  - destruct err as [err|], res as [res|]; try done.
    1, 2: sound_step sound_now; apply sound_ret; split; [told|by right].
    apply (sound_ret res). split; [done|by left].
  - intros tr3 r [H3 Hr]. cbv beta in *. sound_step sound_now. sound_step sound_publish.
    apply sound_ret. exists r. split; [done|]. split.
    + autorewrite with go. rewrite (app_assoc (host_events tr)). by apply case_ok_app.
    + told. by rewrite untimed_outcome.
Qed.

(** The cases one after the other, each with the part of the trace it owns. *)
Lemma sound_cases sCtx id total tcs : placed sCtx -> forall i s,
  sound (foldM (run_case sb sCtx id total) s (zip (seq i (length tcs)) tcs)) (fun tr s' =>
    exists rs runs, s' = judge_from i s tcs rs /\ host_events tr = concat runs /\
      Forall3 (case_ok sCtx) tcs rs runs /\ told tr (case_events id total i tcs rs) []).
Proof.
  intros Hpl. induction tcs as [|tc tcs IH]; intros i s; cbn [foldM zip seq length].
  { apply (sound_ret s). exists [], []. split_and!; [done..|constructor|done]. }
  eapply sound_bind; [by apply sound_run_case|]. intros tr s' (r & -> & Hr & H0).
  eapply sound_mono; [apply IH|]. intros tr' s'' (rs & runs & -> & Hc & Hrs & H1). cbv beta in *.
  exists (r :: rs), (host_events tr :: runs). split_and!; [done| |by constructor|told].
  rewrite host_events_app, Hc. done.
Qed.

Definition running_event (id : string) (total : Z) (comp : option CompilationResult)
    : ExecutionEvent :=
  event_with id StatusRunning 0 0 total "" None comp f0 f0 f0 "".

Definition compiling_event (id : string) : ExecutionEvent :=
  event_with id StatusCompiling 0 0 0 "" None None f0 f0 f0 "".

(** Everything that is published and saved when the test cases were run with
    these results, after a compilation or without one. *)
Definition evaluated (job : SubmissionJob) (comp : option CompilationResult)
    (rs : list ExecutionResult) (tr : list (event workE)) : Prop :=
  let id := j_SubmissionID job in
  let total := len (job_cases job) in
  let l := judge_from 0 loop_init (job_cases job) rs in
  exists t0 t1 t2, told tr
    ((if comp then [compiling_event id] else [])
       ++ running_event id total comp :: case_events id total 0 (job_cases job) rs
       ++ [completed_event id total comp l 0])
    [running_state job total comp t0;
     completed_state (set_updated t1 (running_state job total comp t0)) l t2].

(** Everything that is published and saved when the submission failed before. *)
Definition failed (job : SubmissionJob) (pre : list ExecutionEvent) (verdict : Verdict)
    (details : string) (comp : option CompilationResult) (tr : list (event workE)) : Prop :=
  exists now, told tr
    (pre ++ [failed_event (j_SubmissionID job) verdict details comp 0])
    [failed_state (j_SubmissionID job) (j_Language job) (len (job_cases job)) verdict details
       comp now].

Lemma sound_audit job backend l : sound (audit job backend l) (fun tr _ => told tr [] []).
Proof.
  unfold audit. repeat case_bool_decide; [..|by apply sound_ret].
  all: sound_step sound_LogViolation; eapply sound_mono; [apply sound_inc|]; intros; told.
Qed.

Lemma sound_evaluate sCtx job comp :
  placed sCtx ->
  sound (evaluate sb sCtx job comp) (fun tr r => r = None /\
    exists rs tb runs te, host_events tr = tb ++ concat runs ++ te /\
      Forall3 (case_ok sCtx) (job_cases job) rs runs /\
      forall tr0, told tr0 (if comp then [compiling_event (j_SubmissionID job)] else []) [] ->
        evaluated job comp rs (tr0 ++ tr)).
Proof.
  intros Hpl. unfold evaluate. sound_step sound_now. sound_step sound_publish.
  eapply sound_bind; [apply sound_now|]. intros tr2 t0 H2. cbv beta in H2.
  eapply sound_bind; [apply sound_save|]. intros tr3 st (H3 & t1 & ->).
  eapply sound_bind; [by apply sound_cases|]. intros tr4 l (rs & runs & -> & Hr & Hrs & H4).
  eapply sound_bind; [apply sound_now|]. intros tr5 t2 H5. cbv beta in H5.
  sound_step sound_save. sound_step sound_metrics. sound_step sound_audit.
  sound_step sound_publish. apply sound_ret. split; [done|]. autorewrite with go. rewrite Hr.
  eexists rs, (host_events tr ++ host_events tr0 ++ host_events tr2 ++ host_events tr3), runs, _.
  split_and!; [by rewrite <- !app_assoc|done|]. intros trc Hc. exists t0, t1, t2. told.
Qed.

Lemma compile_returns sCtx :
  placed sCtx ->
  wp (sb_Compile sb sCtx) (fun tr o => exists r, o = Returned r /\
    match r with
    | (c, None) => exists c', c = Some c' /\ comp_Success c' = bool_decide (comp_ExitCode c' = 0%Z) /\
        (NeedsCompilation (sc_Language sCtx) = true ->
         compiler_ran (sc_Language sCtx) (sc_WorkingDir sCtx) (comp_ExitCode c') tr)
    | (_, Some _) => True
    end) [].
Proof.
  intros Hpl. eapply wp_mono; [apply spec_compile|]. intros tr o (_ & c & err & -> & H1 & H2).
  eexists; split; [done|]. destruct err; [done|].
  destruct (H1 eq_refl) as [c' ->]. exists c'. destruct (H2 c' eq_refl). auto.
Qed.

Lemma compile_kept sCtx : wp (sb_Compile sb sCtx) (fun tr _ => no_remove tr) [].
Proof. eapply wp_mono; [apply spec_compile|]. by intros tr o [? _]. Qed.

(** What the host did in phases 4 to 6: after a compilation without errors, if
    there is one, the cases in their order. *)
Definition cases_done (sCtx : SandboxContext) (job : SubmissionJob) (rs : list ExecutionResult)
    (tw : list (event osE)) : Prop :=
  exists tc runs te, tw = tc ++ concat runs ++ te /\
    (NeedsCompilation (sc_Language sCtx) = true ->
     compiler_ran (sc_Language sCtx) (sc_WorkingDir sCtx) 0 tc) /\
    Forall3 (case_ok sCtx) (job_cases job) rs runs.

(** The two ways phases 4 to 6 end; [tw] is the host's part of their trace. *)
Definition phases_report (sCtx : SandboxContext) (job : SubmissionJob) (tw : list (event osE))
    (tr : list (event workE)) : Prop :=
  (NeedsCompilation (sc_Language sCtx) = true /\ exists details comp,
     failed job [compiling_event (j_SubmissionID job)] VerdictCompilationError details comp tr) \/
  (exists comp rs, cases_done sCtx job rs tw /\ evaluated job comp rs tr /\
     if NeedsCompilation (sc_Language sCtx)
     then exists c, comp = Some c /\ comp_Success c = true /\ comp_ExitCode c = 0%Z
     else comp = None).

Lemma sound_uncompiled sCtx job :
  placed sCtx -> NeedsCompilation (sc_Language sCtx) = false ->
  sound (evaluate sb sCtx job None) (fun tr r => r = None /\
    phases_report sCtx job (host_events tr) tr).
Proof.
  intros Hpl Hl. eapply sound_mono; [by apply sound_evaluate|].
  intros tr r (-> & rs & tb & runs & te & Hh & Hrs & He). split; [done|]. right. exists None, rs. rewrite Hl.
  split_and!; [|by apply (He [])|done]. exists tb, runs, te. split_and!; [done| |done]. congruence.
Qed.

Lemma sound_compile_and_evaluate sCtx job :
  placed sCtx ->
  sound (compile_and_evaluate sb sCtx (sc_Language sCtx) job) (fun tr r => r = None /\
    phases_report sCtx job (host_events tr) tr).
Proof.
  intros Hpl. unfold compile_and_evaluate. destruct (NeedsCompilation (sc_Language sCtx)) eqn:Hl;
    [|by apply sound_uncompiled].
  sound_step sound_now. sound_step sound_publish.
  eapply sound_bind; [apply sound_lift; [by apply compile_returns|apply spec_compile_temp|apply compile_kept]|].
  intros tr2 [comp err] [H2 Hc]; cbv beta in *. unfold phases_report. rewrite Hl in *.
  assert (Hfail : forall details, sound
    (failSubmission (j_SubmissionID job) (j_Language job) (len (job_cases job))
       VerdictCompilationError details comp)
    (fun tr' r => r = None /\ failed job [compiling_event (j_SubmissionID job)]
       VerdictCompilationError details comp (tr ++ tr0 ++ tr2 ++ tr'))).
  { intros details. eapply sound_mono; [apply sound_failSubmission|].
    intros tr3 r [-> (now & H3)]. split; [done|]. exists now. told. }
  destruct err as [err|].
  { eapply sound_mono; [apply Hfail|]. intros tr3 r [-> Hf]. eauto 6. }
  destruct Hc as (c & -> & Hs & Hcr). destruct (comp_Success c) eqn:Hok; cbn [negb].
  - eapply sound_mono; [by apply sound_evaluate|]. intros tr3 r (-> & rs & tb & runs & te & Hh & Hrs & He).
    split; [done|]. right. exists (Some c), rs. symmetry in Hs. apply bool_decide_eq_true in Hs.
    split_and!; [|rewrite !app_assoc; apply He; rewrite <- !app_assoc; told|by exists c].
    exists (host_events (tr ++ tr0 ++ tr2) ++ tb), runs, te. autorewrite with go. rewrite Hh.
    split_and!; [by rewrite <- !app_assoc| |done]. intros _. specialize (Hcr eq_refl). rewrite Hs in Hcr.
    destruct Hcr as (k & Hk & Hrun). exists k. split; [done|].
    by apply runs_to_end_app_l, runs_to_end_app_r, runs_to_end_app_r.
  - eapply sound_mono; [apply Hfail|]. intros tr3 r [-> Hf]. eauto 6.
Qed.

End Backend.

Lemma phases_report_around sb sCtx job tw s1 tr s2 :
  phases_report sb sCtx job tw tr ->
  phases_report sb sCtx job tw ((lift_event <$> s1) ++ tr ++ (lift_event <$> s2)).
Proof.
  intros [(Hl & d & c & now & H)|(c & rs & Hrs & (t0 & t1 & t2 & H) & Hc)].
  - left. split; [done|]. exists d, c, now. auto with go.
  - right. exists c, rs. split_and!; [done| |done]. exists t0, t1, t2. auto with go.
Qed.

Section Process.
Context {UL : UnicodeLower} {OSName : Platform}.

(** How a job that was processed without a panic is reported: it failed before
    a workspace was set up, or that was done in [tp], the work in it is [tw],
    and [t2] is the deferred cleanup. *)
Definition report (job : SubmissionJob) (tr : list (event workE)) : Prop :=
  (exists details, failed job [] VerdictSystemError details None tr) \/
  (exists lang sb sCtx tp tw t2,
    host_events tr = tp ++ tw ++ t2 /\
    Get init_registry (j_Language job) = inr lang /\
    normal_form (job_request job) (sc_Request sCtx) /\
    prepared (sc_Request sCtx) lang sCtx tp /\ no_remove tw /\
    phases_report sb sCtx job tw tr /\
    removes (sc_WorkingDir sCtx) t2 /\ idle t2).

(** Every temporary directory that was made was removed. *)
Definition temps_removed (tr : list (event workE)) : Prop :=
  forall d, made_temp d (host_events tr) -> removes d (host_events tr).

Definition processed (job : SubmissionJob) (tr : list (event workE))
    (o : outcome (option error)) : Prop :=
  panics tr = (if panicked o then 1 else 0) /\ temps_removed tr /\
  forall r, o = Returned r -> r = None /\ report job tr.

Lemma no_temp_removed tr : no_temp (host_events tr) -> temps_removed tr.
Proof. intros H d Hd. by apply no_temp_made in Hd. Qed.

(** A failure before the workspace exists: after host work that left no
    temporary directory behind. *)
Lemma fail_processed job details s :
  (forall d, made_temp d s -> removes d s) ->
  wp (failSubmission (j_SubmissionID job) (j_Language job) (len (job_cases job))
        VerdictSystemError details None) (processed job) (lift_event <$> s).
Proof.
  intros Hs. eapply wp_use; [apply sound_failSubmission|].
  intros tr o [(Hp & Ht & _) HR]. unfold processed, temps_removed. autorewrite with go.
  split_and!; [done| |].
  - intros d. rewrite made_temp_app, removes_app. intros [Hd|Hd]; [auto|by apply no_temp_made in Hd].
  - intros r ->. destruct (HR r eq_refl) as [-> (now & H)]. split; [done|]. left.
    exists details. exists now. auto with go.
Qed.

(** The prepared job: its phases and the deferred cleanup, after the host work
    [tp] that set up the workspace. *)
Lemma prepared_processed job lang sb `{!SandboxSpec sb} sCtx tp :
  Get init_registry (j_Language job) = inr lang ->
  normal_form (job_request job) (sc_Request sCtx) -> prepared (sc_Request sCtx) lang sCtx tp ->
  (forall d, made_temp d tp -> d = sc_WorkingDir sCtx) ->
  wp (defer (_ ← lift (sb_Cleanup sb sCtx); mret tt) (compile_and_evaluate sb sCtx lang job))
     (processed job) (lift_event <$> tp).
Proof.
  intros Hg Hn Hp Ht. wp_step. pose proof (sound_compile_and_evaluate sb sCtx job (pr_placed _ _ _ _ Hp)) as Hs.
  rewrite (pr_language _ _ _ _ Hp) in Hs. eapply wp_use; [exact Hs|]. intros tr o [(Hpan & Hnt & Hk) HR].
  wp_step. eapply wp_lift_use; [apply wp_conj; [apply spec_cleanup|apply spec_cleanup_temp]|].
  intros s3 ? [([? ->] & Hrm & Hi) Hs3]. do 4 wp_step.
  unfold processed, temps_removed. autorewrite with go. split_and!.
  - rewrite Hpan. by destruct o.
  - intros d. rewrite !made_temp_app, !removes_app.
    intros [[Hd|Hd]|Hd]; [|by apply no_temp_made in Hd..]. rewrite (Ht d Hd). auto.
  - intros r ->. destruct (HR r eq_refl) as [-> Hrep]. split; [done|]. right.
    exists lang, sb, sCtx, tp, (host_events tr), s3. autorewrite with go. rewrite <- !app_assoc.
    split_and!; try done. by apply phases_report_around.
Qed.

Lemma process_ok job : wp (process job) (processed job) [].
Proof.
  unfold process. destruct (Get init_registry (j_Language job)) as [err|lang] eqn:Hg.
  { apply (fail_processed job _ []). intros d Hd. by apply Exists_nil in Hd. }
  wp_step. eapply wp_lift_use; [apply wp_conj; [apply SelectSandbox_ok|apply every_wp, SelectSandbox_kept]|].
  intros s0 ? [[Hs0 (rs & -> & Hsel)] Hk0]. wp_step. cbn [app].
  destruct rs as [err|sb]; [apply fail_processed; intros d Hd; by apply no_temp_made in Hd|].
  destruct Hsel as [Spec _]. wp_step.
  eapply wp_lift_use; [apply wp_conj; [apply Normalize_ok|apply every_wp, Normalize_kept]|].
  intros s1 ? [[Hs1 (req & -> & Hn)] Hk1]. wp_step. wp_step.
  eapply wp_lift_use; [apply wp_conj; [apply spec_prepare|apply spec_prepare_temp]|].
  intros s2 ? [(_ & [err|sCtx] & -> & Hp) Ht]; wp_step; rewrite <- !fmap_app.
  { apply fail_processed. intros d. rewrite !made_temp_app, !removes_app.
    intros [[Hd|Hd]|Hd]; [by apply no_temp_made in Hd..|auto]. }
  specialize (Hp sCtx eq_refl). pose proof (pr_request _ _ _ _ Hp) as Hreq. rewrite <- Hreq in Hn, Hp.
  apply prepared_processed; [done..| |].
  - apply prepared_app; [by apply no_remove_app|done].
  - intros d. rewrite !made_temp_app. intros [[Hd|Hd]|Hd]; [by apply no_temp_made in Hd..|auto].
Qed.

Lemma sound_on_panic id lang total r :
  sound (on_panic id lang total r) (fun tr res => res = Some (Errorf ("worker panic: " +:+ r)) /\
    exists stack now,
      let details := "panic recovered in worker: " +:+ r +:+ nl +:+ stack in
      told tr [failed_event id VerdictSystemError details None 0]
              [panic_state id lang total details now]).
Proof.
  unfold on_panic. eapply sound_bind with (R := fun tr (_ : string) => told tr [] []).
  { intros stack. split; [steady|done]. }
  intros tr0 stack H0. eapply sound_bind; [apply sound_now|]. intros tr1 now H1. cbv beta in H1.
  sound_step sound_save. sound_step sound_now. sound_step sound_publish. apply sound_ret.
  split; [done|]. exists stack, now. cbv zeta. told.
Qed.

(** What the recovery leaves after the events [tr1] of the panicking body. *)
Definition recovered (job : SubmissionJob) (msg : string) (tr1 tr2 : list (event workE)) : Prop :=
  exists stack now,
    let details := "panic recovered in worker: " +:+ msg +:+ nl +:+ stack in
    told tr2 [failed_event (j_SubmissionID job) VerdictSystemError details None 0]
             [panic_state (j_SubmissionID job) (j_Language job) (len (job_cases job)) details now].

Lemma ProcessJob_ok job :
  wp (ProcessJob (Some job)) (fun tr o => temps_removed tr /\
    ((panics tr = 0 /\ o = Returned None /\ report job tr) \/
     (exists tr1 tr2 msg, tr = tr1 ++ tr2 /\ panics tr = 1 /\
        o = Returned (Some (Errorf ("worker panic: " +:+ msg))) /\ recovered job msg tr1 tr2) \/
     (panics tr = 2 /\ exists msg, o = Panicked msg))) [].
Proof.
  unfold ProcessJob. wp_step. eapply wp_mono; [apply process_ok|].
  intros tr [r|msg] (Hp & Ht & HR).
  { destruct (HR r eq_refl) as [-> Hrep]. auto. }
  eapply wp_use; [apply sound_on_panic|]. intros tr2 o [(Hp2 & Ht2 & _) HR2].
  unfold temps_removed. autorewrite with go. rewrite Hp, Hp2. cbn [panicked]. split.
  - intros d. rewrite made_temp_app, removes_app. intros [Hd|Hd]; [auto|by apply no_temp_made in Hd].
  - right. destruct o as [res|msg2]; cbn [panicked]; [left|right; eauto].
    destruct (HR2 res eq_refl) as [-> Hrec]. exists tr, tr2, msg. auto.
Qed.

End Process.

(** ** The judgement of a list of results *)

Definition accepted (r : ExecutionResult) : Prop := res_Verdict r = VerdictAccepted.

#[export] Instance accepted_dec r : Decision (accepted r).
Proof. unfold accepted. apply _. Defined.

(** The reference verdict: that of the first result that is not accepted. *)
Definition first_failure (rs : list ExecutionResult) : Verdict :=
  match filter (fun r => ~ accepted r) rs with
  | r :: _ => res_Verdict r
  | [] => VerdictAccepted
  end.

Lemma judge_Verdict rs : forall tcs i s,
  length tcs = length rs ->
  lp_Verdict (judge_from i s tcs rs)
  = if decide (lp_Verdict s = VerdictAccepted) then first_failure rs else lp_Verdict s.
Proof.
  unfold first_failure.
  induction rs as [|r rs IH]; intros [|tc tcs] i s Hl; try done; cbn [judge_from].
  - cbn. by case_decide.
  - rewrite IH by (cbn in Hl; lia). cbn [loop_step lp_Verdict lp_Passed]. rewrite filter_cons. unfold accepted.
    repeat (case_bool_decide || case_decide); try done; try congruence; tauto.
Qed.

Lemma judge_Passed rs : forall tcs i s,
  length tcs = length rs ->
  lp_Passed (judge_from i s tcs rs) = (lp_Passed s + len (filter accepted rs))%Z.
Proof.
  unfold len.
  induction rs as [|r rs IH]; intros [|tc tcs] i s Hl; try done; cbn [judge_from]; [cbn; lia|].
  rewrite IH by (cbn in Hl; lia). cbn [loop_step lp_Verdict lp_Passed]. rewrite filter_cons. unfold accepted.
  case_bool_decide; case_decide; try done; cbn; lia.
Qed.

Lemma judge_Peak rs : forall tcs i s,
  length tcs = length rs ->
  lp_PeakMemoryMB (judge_from i s tcs rs)
  = fold_left fmax_step (res_PeakMemoryMB <$> rs) (lp_PeakMemoryMB s).
Proof.
  induction rs as [|r rs IH]; intros [|tc tcs] i s Hl; try done. cbn.
  by rewrite IH by (cbn in Hl; lia).
Qed.

Lemma judge_Results rs : forall tcs i s,
  length tcs = length rs ->
  lp_Results (judge_from i s tcs rs)
  = lp_Results s ++ zip_with (fun itc r => result_item itc.1 itc.2 r)
                             (zip (seq i (length tcs)) tcs) rs.
Proof.
  induction rs as [|r rs IH]; intros [|tc tcs] i s Hl; try done; cbn; [by rewrite app_nil_r|].
  rewrite IH by (cbn in Hl; lia). cbn. by rewrite <- app_assoc.
Qed.

Lemma len_filter_all rs :
  len (filter accepted rs) = len rs <-> Forall accepted rs.
Proof.
  unfold len. split.
  - induction rs as [|r rs IH]; [done|]. rewrite filter_cons. pose proof (length_filter accepted rs).
    case_decide; cbn; intros Hl; [|lia]. constructor; [done|]. apply IH. lia.
  - intros H. by rewrite filter_keeps_all.
Qed.

Lemma first_failure_accepted rs :
  first_failure rs = VerdictAccepted <-> Forall accepted rs.
Proof.
  unfold first_failure. induction rs as [|r rs IH]; [done|]. rewrite filter_cons, Forall_cons, <- IH.
  unfold accepted. case_decide; tauto.
Qed.

(** ** Properties *)

(** C15: the judgement of a submission from the results of its test cases, in one
    left-to-right pass, is the reference one: the verdict of the first result
    that is not accepted, ACCEPTED exactly when all test cases passed, the
    exact number of passed ones, one item per test case in order and with its
    1-based index, and a peak memory that no test case exceeds and that one of
    them (or 0) attains. *)
Theorem judge_spec (tcs : list TestCase) (rs : list ExecutionResult)
    (Hlen : length tcs = length rs) :
  let l := judge_from 0 loop_init tcs rs in
  lp_Verdict l = first_failure rs /\
  lp_Passed l = len (filter accepted rs) /\
  (lp_Verdict l = VerdictAccepted <-> lp_Passed l = len tcs) /\
  length (lp_Results l) = length tcs /\
  (forall i tc r, tcs !! i = Some tc -> rs !! i = Some r ->
     lp_Results l !! i = Some (result_item i tc r)) /\
  (forall r, r ∈ rs -> flt (lp_PeakMemoryMB l) (res_PeakMemoryMB r) = false) /\
  (lp_PeakMemoryMB l = f0 \/ exists r, r ∈ rs /\ lp_PeakMemoryMB l = res_PeakMemoryMB r).
Proof.
  cbv zeta. rewrite judge_Verdict, judge_Passed, judge_Peak, judge_Results by done. cbn [loop_init
    lp_Verdict lp_Passed lp_PeakMemoryMB lp_Results app].
  rewrite decide_True by done. split_and!; [done|lia| | | | |].
  - rewrite first_failure_accepted, <- len_filter_all. unfold len. rewrite Hlen. lia.
  - rewrite length_zip_with, length_zip, length_seq. lia.
  - intros i tc r Htc Hr. apply lookup_zip_with_Some. exists (i, tc), r. split_and!; [done| |done].
    apply lookup_zip_with_Some. exists i, tc. split_and!; [done| |done].
    apply lookup_seq. split; [done|]. by apply lookup_lt_Some in Htc.
  - intros r Hr. apply fmax_fold_bound; [done|]. by apply list_elem_of_fmap_2.
  - destruct (fmax_fold_in (res_PeakMemoryMB <$> rs) f0) as [->|Hin]; [by left|right].
    apply list_elem_of_fmap in Hin as (r & -> & ?). eauto.
Qed.

Definition terminal (e : ExecutionEvent) : Prop :=
  ev_Status e = StatusCompleted \/ ev_Status e = StatusFailed.

(** What an observer sees of an event: its status and its test case. *)
Definition mark (e : ExecutionEvent) : string * Z := (ev_Status e, ev_CurrentTestCase e).

(** The marks of the test cases from the [i]-th on. *)
Fixpoint case_marks (i : nat) (rs : list ExecutionResult) : list (string * Z) :=
  match rs with
  | [] => []
  | r :: rs =>
      (StatusTestCaseStart, (Z.of_nat i + 1)%Z)
        :: (if decide (accepted r) then StatusTestCasePassed else StatusTestCaseFailed,
            (Z.of_nat i + 1)%Z) :: case_marks (S i) rs
  end.

Lemma case_events_marks id total rs : forall tcs i,
  length tcs = length rs -> mark <$> case_events id total i tcs rs = case_marks i rs.
Proof.
  induction rs as [|r rs IH]; intros [|tc tcs] i Hl; try done. cbn [case_events case_marks fmap list_fmap].
  rewrite IH by (cbn in Hl; lia). unfold outcome_event, accepted.
  case_bool_decide; case_decide; done.
Qed.

Lemma case_events_running id total rs : forall tcs i,
  Forall (fun e => ~ terminal e) (case_events id total i tcs rs).
Proof.
  induction rs as [|r rs IH]; intros [|tc tcs] i; cbn [case_events]; try by constructor.
  constructor; [by intros [?|?]|]. constructor; [|apply IH].
  unfold outcome_event. by case_bool_decide; intros [?|?].
Qed.

Lemma evaluated_told job comp rs tr :
  evaluated job comp rs tr ->
  exists pre e st0 st, untimed <$> published_of tr = pre ++ [e] /\ saved_of tr = [st0; st] /\
    Forall (fun e => ~ terminal e) pre /\
    e = completed_event (j_SubmissionID job) (len (job_cases job)) comp
          (judge_from 0 loop_init (job_cases job) rs) 0 /\
    st_SubmissionID st = j_SubmissionID job /\ st_Status st = StatusCompleted /\
    st_Verdict st = lp_Verdict (judge_from 0 loop_init (job_cases job) rs) /\
    st_PassedTestCases st = lp_Passed (judge_from 0 loop_init (job_cases job) rs) /\
    st_TotalTestCases st = len (job_cases job) /\
    st_Results st = lp_Results (judge_from 0 loop_init (job_cases job) rs).
Proof.
  intros (t0 & t1 & t2 & Hp & Hs). rewrite app_comm_cons, app_assoc in Hp.
  eexists _, _, _, _. split; [exact Hp|]. split; [exact Hs|]. split_and!; try done.
  apply Forall_app. split; [destruct comp; repeat constructor; by intros [?|?]|].
  constructor; [by intros [?|?]|apply case_events_running].
Qed.

Lemma case_events_length id total rs : forall tcs i,
  length (case_events id total i tcs rs) <= 2 * length tcs.
Proof.
  induction rs as [|r rs IH]; intros [|tc tcs] i; cbn; try lia. specialize (IH tcs (S i)). lia.
Qed.

(** What a job leaves on the bus and in the store when nothing panics. *)
Record summary (job : SubmissionJob) (tr : list (event workE)) (pre : list ExecutionEvent)
    (e : ExecutionEvent) (sts : list SubmissionState) (st : SubmissionState) : Prop := {
  su_published : untimed <$> published_of tr = pre ++ [e];
  su_saved : saved_of tr = sts ++ [st];
  su_pre : Forall (fun e => ~ terminal e) pre;
  su_final : terminal e;
  su_Status : st_Status st = ev_Status e;
  su_Verdict : st_Verdict st = ev_Verdict e;
  su_event_ID : ev_SubmissionID e = j_SubmissionID job;
  su_state_IDs : Forall (fun st => st_SubmissionID st = j_SubmissionID job) (sts ++ [st]);
  su_length : length pre <= 2 * length (job_cases job) + 2;
}.

Lemma report_summary `{UnicodeLower} `{Platform} job tr :
  report job tr -> exists pre e sts st, summary job tr pre e sts st.
Proof.
  intros [(d & now & Hp & Hs)|(lang & sb & sCtx & tp & tw & t2' & _ & _ & _ & _ & _ & Hr & _)].
  { eexists [], _, [], _. split; [exact Hp|exact Hs|done|by right|done..|by repeat constructor|cbn; lia]. }
  destruct Hr as [(_ & d & c & now & Hp & Hs)|(c & rs & _ & (t0 & t1 & t2 & Hp & Hs) & _)].
  - eexists [_], _, [], _. split; [exact Hp|exact Hs| |by right|done..|by repeat constructor|cbn; lia].
    repeat constructor. by intros [?|?].
  - rewrite app_comm_cons, app_assoc in Hp. eexists _, _, [_], _.
    split; [exact Hp|exact Hs| |by left|done..|by repeat constructor|].
    + apply Forall_app. split; [destruct c; repeat constructor; by intros [?|?]|].
      constructor; [by intros [?|?]|apply case_events_running].
    + rewrite length_app. cbn [length].
      pose proof (case_events_length (j_SubmissionID job) (len (job_cases job)) rs (job_cases job) 0).
      destruct c; cbn [length]; lia.
Qed.

(** ** The items of a completed submission *)

Definition items (i : nat) (tcs : list TestCase) (rs : list ExecutionResult)
    : list TestCaseResult :=
  zip_with (fun itc r => result_item itc.1 itc.2 r) (zip (seq i (length tcs)) tcs) rs.

Definition passed (item : TestCaseResult) : Prop := tr_Verdict item = VerdictAccepted.

#[export] Instance passed_dec item : Decision (passed item).
Proof. unfold passed. apply _. Defined.

Lemma items_labels rs : forall tcs i,
  length tcs = length rs ->
  tr_TestCaseID <$> items i tcs rs = tc_ID <$> tcs /\
  tr_Index <$> items i tcs rs = (fun i => Z.of_nat i + 1)%Z <$> seq i (length tcs) /\
  length (items i tcs rs) = length tcs.
Proof.
  unfold items. induction rs as [|r rs IH]; intros [|tc tcs] i Hl; try done.
  destruct (IH tcs (S i)) as (H1 & H2 & H3); [cbn in Hl; lia|].
  cbn [length seq zip zip_with fmap list_fmap]. split_and!; by f_equal.
Qed.

Lemma items_counts rs : forall tcs i,
  length tcs = length rs ->
  len (filter passed (items i tcs rs)) = len (filter accepted rs) /\
  first_failure rs = match filter (fun item => ~ passed item) (items i tcs rs) with
                     | [] => VerdictAccepted
                     | item :: _ => tr_Verdict item
                     end.
Proof.
  unfold items, first_failure, len. induction rs as [|r rs IH]; intros [|tc tcs] i Hl; try done.
  destruct (IH tcs (S i)) as (H1 & H2); [cbn in Hl; lia|].
  cbn [length seq zip zip_with]. rewrite !filter_cons. cbn [fst snd] in *.
  unfold passed at 1 3, accepted at 1 3. cbn [result_item tr_Verdict].
  repeat case_decide; try done; try tauto; cbn [length]. split; [lia|done].
Qed.

Lemma items_elem rs item : forall tcs i,
  length tcs = length rs -> item ∈ items i tcs rs ->
  exists r, r ∈ rs /\ tr_PeakMemoryMB item = res_PeakMemoryMB r.
Proof.
  unfold items. induction rs as [|r rs IH]; intros [|tc tcs] i Hl; try done; cbn;
    [by intros ?%elem_of_nil..|]. intros [->|Hin]%elem_of_cons.
  - exists r. split; [left|done].
  - destruct (IH tcs (S i) ltac:(cbn in Hl; lia) Hin) as (r' & ? & ?).
    exists r'. split; [by right|done].
Qed.

Lemma items_Forall3 {A} (P : TestCase -> TestCaseResult -> A -> Prop) tcs rs (l : list A) :
  length tcs = length rs -> length tcs = length l ->
  (forall i tc r x, tcs !! i = Some tc -> rs !! i = Some r -> l !! i = Some x ->
     P tc (result_item i tc r) x) ->
  Forall3 P tcs (items 0 tcs rs) l.
Proof.
  unfold items. intros Hr Hl HP.
  enough (Hg : forall n, (forall i tc r x, tcs !! i = Some tc -> rs !! i = Some r -> l !! i = Some x ->
      P tc (result_item (n + i) tc r) x) ->
    Forall3 P tcs (zip_with (fun itc r => result_item itc.1 itc.2 r) (zip (seq n (length tcs)) tcs) rs) l)
    by (by apply (Hg 0)).
  clear HP. revert rs l Hr Hl. induction tcs as [|tc tcs IH]; intros [|r rs] [|x l] Hr Hl n HP; try done;
    [constructor|]. cbn. constructor.
  - specialize (HP 0 tc r x eq_refl eq_refl eq_refl). by rewrite Nat.add_0_r in HP.
  - apply IH; [cbn in *; lia..|]. intros i tc' r' x' H1 H2 H3. rewrite Nat.add_succ_comm. by apply HP.
Qed.

Section Claims.
Context {UL : UnicodeLower} {OSName : Platform}.

(** The report behind a state saved as COMPLETED. *)
Lemma completed_report job tr o st :
  ((panics tr = 0 /\ o = Returned None /\ report job tr) \/
   (exists tr1 tr2 msg, tr = tr1 ++ tr2 /\ panics tr = 1 /\
      o = Returned (Some (Errorf ("worker panic: " +:+ msg))) /\ recovered job msg tr1 tr2) \/
   (panics tr = 2 /\ exists msg, o = Panicked msg)) ->
  o = Returned None -> last (saved_of tr) = Some st -> st_Status st = StatusCompleted ->
  exists lang sb sCtx tp tw t2 rs,
    host_events tr = tp ++ tw ++ t2 /\
    Get init_registry (j_Language job) = inr lang /\
    normal_form (job_request job) (sc_Request sCtx) /\
    prepared (sc_Request sCtx) lang sCtx tp /\ no_remove tw /\
    cases_done sb sCtx job rs tw /\
    removes (sc_WorkingDir sCtx) t2 /\ idle t2 /\
    st_TotalTestCases st = len (job_cases job) /\
    let l := judge_from 0 loop_init (job_cases job) rs in
    st_PassedTestCases st = lp_Passed l /\ st_Results st = lp_Results l /\
    st_Verdict st = lp_Verdict l /\ st_PeakMemoryMB st = lp_PeakMemoryMB l.
Proof.
  intros [(_ & _ & Hr)|[(tr1 & tr2 & m & -> & _ & -> & _)|(_ & m & ->)]] Ho Hlast Hst; [|done..].
  destruct Hr as [(d & now & _ & Hs)|(lang & sb & sCtx & tp & tw & t2 & Hh & Hg & Hn & Hp & Hk & Hr & Hrm)].
  { rewrite Hs in Hlast. by injection Hlast as <-. }
  destruct Hr as [(_ & d & c & now & _ & Hs)|(c & rs & Hrs & (u0 & u1 & u2 & _ & Hs) & _)].
  { rewrite Hs in Hlast. by injection Hlast as <-. }
  rewrite Hs in Hlast. injection Hlast as <-. destruct Hrm. by exists lang, sb, sCtx, tp, tw, t2, rs.
Qed.

Lemma cases_done_length sb sCtx job rs tw :
  cases_done sb sCtx job rs tw -> length (job_cases job) = length rs.
Proof. intros (tc & runs & te & _ & _ & H). exact (Forall3_length_lm _ _ _ _ H). Qed.

(** The item of an accepted test case. *)
Lemma accepted_case sb sCtx job lang i tc r run :
  sc_Language sCtx = lang -> normal_form (job_request job) (sc_Request sCtx) ->
  accepted r -> case_ok sb sCtx tc r run ->
  exists c, program_ran lang (sc_WorkingDir sCtx) (tc_Input tc) c run /\
    tr_Stdout (result_item i tc r) = BoundedBuffer.String (captured (sc_Request sCtx) (c_stdout c)) /\
    tr_Stderr (result_item i tc r) = BoundedBuffer.String (captured (sc_Request sCtx) (c_stderr c)) /\
    tr_Verdict (result_item i tc r) = VerdictAccepted /\ tr_ExitCode (result_item i tc r) = 0%Z /\
    flt (of_Z (clamp_limit DefaultTimeLimitMs MaxAllowedTimeLimitMs (j_TimeLimitMs job)))
        (tr_WallTimeMs (result_item i tc r)) = false /\
    (tc_ExpectedOutput tc = "" \/
     output_matches (tr_Stdout (result_item i tc r)) (tc_ExpectedOutput tc) = true).
Proof.
  intros <- (_ & Heq & _) Hacc [[Hro (c & Hrun & Ho1 & Ho2)]|Hse]; [|by rewrite Hacc in Hse].
  destruct (ro_accepted _ _ _ Hro Hacc) as (? & Hwall & _ & ?). cbn in Hwall. rewrite Heq in Hwall.
  exists c. unfold result_item. rewrite bool_decide_eq_true_2, andb_false_r by done. by split_and!.
Qed.

(** C11: a worker survives whatever its backends, store, bus and metrics do:
    processing a job ends normally when no service call panicked, and with a
    "worker panic" error when one did; only a second panic, in the recovery
    itself, escapes.  In all these cases every temporary workspace that was
    made has been removed. *)
Theorem ProcessJob_total (job : SubmissionJob) :
  wp (ProcessJob (Some job)) (fun tr o => temps_removed tr /\
    (panics tr = 0 -> o = Returned None) /\
    (panics tr = 1 -> exists msg, o = Returned (Some (Errorf ("worker panic: " +:+ msg)))) /\
    (panics tr <= 2) /\ (forall msg, o = Panicked msg -> panics tr = 2)) [].
Proof.
  eapply wp_mono; [apply ProcessJob_ok|].
  intros tr o [Ht [(Hp & -> & _)|[(tr1 & tr2 & m & _ & Hp & -> & _)|(Hp & m & ->)]]];
    rewrite Hp; (split; [done|]); split_and!; try done; try lia; eauto.
Qed.

(** C7: a job that is processed always ends with a terminal event: the last event
    published is COMPLETED or FAILED, and the last state saved has the same
    submission, status and verdict, so the stream and the store agree; and
    without a panic there is no terminal event before it. *)
Theorem ProcessJob_terminal (job : SubmissionJob) :
  wp (ProcessJob (Some job)) (fun tr o => forall r, o = Returned r ->
    exists pre e sts st, untimed <$> published_of tr = pre ++ [e] /\ saved_of tr = sts ++ [st] /\
      terminal e /\ st_Status st = ev_Status e /\ st_Verdict st = ev_Verdict e /\
      ev_SubmissionID e = j_SubmissionID job /\ st_SubmissionID st = j_SubmissionID job /\
      (r = None -> Forall (fun e => ~ terminal e) pre)) [].
Proof.
  eapply wp_mono; [apply ProcessJob_ok|].
  intros tr o [_ [(_ & -> & Hr)|[(tr1 & tr2 & m & -> & _ & -> & Hrec)|(_ & m & ->)]]]; [..|done].
  - intros ? [= <-]. destruct (report_summary _ _ Hr) as (pre & e & sts & st & []).
    exists pre, e, sts, st. apply Forall_app in su_state_IDs0 as [_ [Hid _]%Forall_cons]. split_and!; done.
  - intros ? [= <-]. destruct Hrec as (stack & now & Hp & Hs).
    rewrite published_of_app, saved_of_app, fmap_app. rewrite Hp, Hs.
    eexists _, _, _, _. split_and!; [done|done|by right|done..].
Qed.

(** C8: without a panic the events of a submission follow the protocol: a lone
    FAILED, or COMPILING and FAILED, or - after COMPILING for a compiled
    language - RUNNING, then for each test case in order its start and its
    outcome, under its own 1-based number, and then COMPLETED. *)
Theorem ProcessJob_protocol (job : SubmissionJob) :
  wp (ProcessJob (Some job)) (fun tr o => o = Returned None ->
    let marks := mark <$> (untimed <$> published_of tr) in
    marks = [(StatusFailed, 0%Z)] \/
    marks = [(StatusCompiling, 0%Z); (StatusFailed, 0%Z)] \/
    exists lang rs, Get init_registry (j_Language job) = inr lang /\
      length rs = length (job_cases job) /\
      marks = (if NeedsCompilation lang then [(StatusCompiling, 0%Z)] else [])
                ++ (StatusRunning, 0%Z) :: case_marks 0 rs
                ++ [(StatusCompleted, len (job_cases job))]) [].
Proof.
  eapply wp_mono; [apply ProcessJob_ok|].
  intros tr o [_ [(_ & -> & Hr)|[(tr1 & tr2 & m & -> & _ & -> & Hrec)|(_ & m & ->)]]]; [|done..].
  intros _. cbv zeta.
  destruct Hr as [(d & now & -> & _)|(lang & sb & sCtx & tp & tw & t2' & _ & Hg & _ & Hp & _ & Hr & _)];
    [by left|right]. unfold phases_report in Hr. rewrite (pr_language _ _ _ _ Hp) in Hr.
  destruct Hr as [(_ & d & c & now & -> & _)|(c & rs & Hrs & (t0 & t1 & t2 & -> & _) & Hc)];
    [by left|right].
  apply cases_done_length in Hrs. exists lang, rs. split_and!; [done|done|].
  rewrite fmap_app. cbn [fmap list_fmap]. rewrite fmap_app, case_events_marks by done.
  destruct (NeedsCompilation lang); [by destruct Hc as (c' & -> & _)|by rewrite Hc].
Qed.

(** C3: a submission that ends COMPLETED is saved with a consistent summary of its
    test cases: one result per test case, in order, under the test case's ID
    and 1-based number; the verdict of the first result that is not accepted,
    and ACCEPTED exactly when all of them are; the exact count of accepted
    ones; and a peak memory that no result exceeds. *)
Theorem ProcessJob_summary (job : SubmissionJob) :
  wp (ProcessJob (Some job)) (fun tr o => forall st,
    o = Returned None -> last (saved_of tr) = Some st -> st_Status st = StatusCompleted ->
    tr_TestCaseID <$> st_Results st = tc_ID <$> job_cases job /\
    tr_Index <$> st_Results st = (fun i => Z.of_nat i + 1)%Z <$> seq 0 (length (job_cases job)) /\
    st_TotalTestCases st = len (st_Results st) /\
    st_PassedTestCases st = len (filter passed (st_Results st)) /\
    st_Verdict st = match filter (fun item => ~ passed item) (st_Results st) with
                    | [] => VerdictAccepted
                    | item :: _ => tr_Verdict item
                    end /\
    Forall (fun item => flt (st_PeakMemoryMB st) (tr_PeakMemoryMB item) = false) (st_Results st))
    [].
Proof.
  eapply wp_mono; [apply ProcessJob_ok|]. intros tr o [_ Hok] st -> Hlast Hst.
  destruct (completed_report _ _ _ _ Hok eq_refl Hlast Hst)
    as (lang & sb & sCtx & tp & tw & t2 & rs & _ & _ & _ & _ & _ & Hrs%cases_done_length & _ & _ & -> & -> & -> & -> & ->).
  rewrite judge_Verdict, judge_Passed, judge_Peak, judge_Results by done.
  cbn [loop_init lp_Verdict lp_Passed lp_PeakMemoryMB lp_Results app]. rewrite decide_True by done.
  fold (items 0 (job_cases job) rs).
  destruct (items_labels rs (job_cases job) 0 Hrs) as (H1 & H2 & H3).
  destruct (items_counts rs (job_cases job) 0 Hrs) as (H4 & H5).
  split_and!; [done|done|unfold len; by rewrite H3|by rewrite H4|done|].
  apply Forall_forall. intros item (r & Hr & ->)%items_elem; [|done].
  apply fmax_fold_bound; [done|]. by apply list_elem_of_fmap_2.
Qed.

(** C2: a submission that ends COMPLETED and ACCEPTED deserves it.  In this order
    and with nothing removed meanwhile: its code was written, unchanged, as the
    source file of a workspace; for C++ the compiler was run on that file, to
    the workspace's binary, and ended with exit code 0; and for each test case,
    one after the other, the program of that workspace was run with the command
    line of its language on that test case's input.  The saved result of each
    test case reports what its own run printed, cut at the cap of the
    submission's normalized request, with exit code 0, a wall time within the
    (clamped) limit and, whenever an output was expected, that output up to
    trailing line ends.  After that the workspace is removed and no process is
    started any more. *)
Theorem ProcessJob_accepted_sound (job : SubmissionJob) :
  wp (ProcessJob (Some job)) (fun tr o => forall st,
    o = Returned None -> last (saved_of tr) = Some st ->
    st_Status st = StatusCompleted -> st_Verdict st = VerdictAccepted ->
    exists lang dir req tp tc runs te t2,
      host_events tr = tp ++ tc ++ concat runs ++ te ++ t2 /\
      Get init_registry (j_Language job) = inr lang /\ normal_form (job_request job) req /\
      made_dir dir tp /\ wrote (Join [dir; SourceFilename lang]) (j_Code job) tp /\
      (NeedsCompilation lang = true -> compiler_ran lang dir 0 tc) /\
      Forall3 (fun tc item run => exists c,
        program_ran lang dir (tc_Input tc) c run /\
        tr_Stdout item = BoundedBuffer.String (captured req (c_stdout c)) /\
        tr_Stderr item = BoundedBuffer.String (captured req (c_stderr c)) /\
        tr_Verdict item = VerdictAccepted /\ tr_ExitCode item = 0%Z /\
        flt (of_Z (clamp_limit DefaultTimeLimitMs MaxAllowedTimeLimitMs (j_TimeLimitMs job)))
            (tr_WallTimeMs item) = false /\
        (tc_ExpectedOutput tc = "" \/ output_matches (tr_Stdout item) (tc_ExpectedOutput tc) = true))
        (job_cases job) (st_Results st) runs /\
      no_remove (tp ++ tc ++ concat runs ++ te) /\ removes dir t2 /\ idle t2) [].
Proof.
  eapply wp_mono; [apply ProcessJob_ok|]. intros tr o [_ Hok] st -> Hlast Hst Hv.
  destruct (completed_report _ _ _ _ Hok eq_refl Hlast Hst)
    as (lang & sb & sCtx & tp & tw & t2 & rs & Hh & Hg & Hn & Hp & Hk & Hd & Hrm & Hi & _ & _ & -> & Hv' & _).
  pose proof (cases_done_length _ _ _ _ _ Hd) as Hlen.
  rewrite Hv', judge_Verdict, decide_True, first_failure_accepted in Hv by done.
  rewrite judge_Results by done. cbn [loop_init lp_Results app].
  fold (items 0 (job_cases job) rs). destruct Hd as (tc & runs & te & -> & Hc & Hrs).
  destruct Hp as [_ _ Hl _ Hkp Hdir Hsrc]. rewrite Hl in Hc. pose proof Hn as (_ & Heq & _).
  exists lang, (sc_WorkingDir sCtx), (sc_Request sCtx), tp, tc, runs, te, t2.
  split_and!; try done; [by rewrite Hh, <- !app_assoc|by rewrite Heq in Hsrc| |by apply no_remove_app].
  apply items_Forall3; [done|by rewrite (Forall3_length_lr _ _ _ _ Hrs)|]. intros i tc' r run Htc Hr Hrun.
  apply (accepted_case sb sCtx); [done|done|by eapply Forall_lookup_1|by eapply Forall3_lookup_lmr].
Qed.

End Claims.

(** C36: what is reported of a hidden test case that was not accepted - its result
    item and the event that carries it - does not depend on anything the
    program printed; an accepted one shows the program's output as any other
    does. *)
Theorem hidden_case_reveals_nothing (id : string) (i : nat) (tc : TestCase) (total : Z)
    (r r' : ExecutionResult) (now : time)
    (Hhidden : tc_IsHidden tc = true)
    (Hverdict : res_Verdict r' = res_Verdict r) (Hexit : res_ExitCode r' = res_ExitCode r)
    (Hwall : res_WallTimeMs r' = res_WallTimeMs r) (Hcpu : res_CpuTimeMs r' = res_CpuTimeMs r)
    (Hmem : res_PeakMemoryMB r' = res_PeakMemoryMB r) (Hoom : res_OOMKilled r' = res_OOMKilled r) :
  (res_Verdict r <> VerdictAccepted ->
   result_item i tc r' = result_item i tc r /\
   outcome_event id i tc total r' now = outcome_event id i tc total r now /\
   tr_Stdout (result_item i tc r) = "[Hidden Testcase]") /\
  (res_Verdict r = VerdictAccepted -> tr_Stdout (result_item i tc r) = res_Stdout r).
Proof.
  unfold outcome_event, result_item. rewrite Hhidden, Hverdict, Hexit, Hwall, Hcpu, Hmem, Hoom.
  split; intros Hv; case_bool_decide; done.
Qed.

Definition printed (out : string) : ExecutionResult :=
  {| res_ID := "sub-1"; res_Verdict := VerdictWrongAnswer; res_ExitCode := 0; res_Stdout := out;
     res_Stderr := ""; res_WallTimeMs := f0; res_CpuTimeMs := f0; res_PeakMemoryKB := 0;
     res_PeakMemoryMB := f0; res_OOMKilled := false; res_Compilation := None;
     res_ErrorDetails := ""; res_SandboxBackend := "dev_process"; res_ExecutedAt := 0 |}.

Definition hidden_case : TestCase :=
  {| tc_ID := "t1"; tc_Input := "1"; tc_ExpectedOutput := "2"; tc_IsHidden := true |}.

Lemma hidden_case_reveals_nothing_witness :
  result_item 0 hidden_case (printed "secret") = result_item 0 hidden_case (printed "").
Proof.
  refine (proj1 (proj1 (hidden_case_reveals_nothing "sub-1" 0 hidden_case 1 (printed "")
    (printed "secret") 0 eq_refl eq_refl eq_refl eq_refl eq_refl eq_refl eq_refl) _)).
  discriminate.
Defined.

Lemma judge_spec_witness :
  lp_Passed (judge_from 0 loop_init [hidden_case; default_case] [printed "x"; printed "y"]) = 0%Z.
Proof.
  exact (proj1 (proj2 (judge_spec [hidden_case; default_case] [printed "x"; printed "y"] eq_refl))).
Defined.

(** A healthy host around services that answer without complaint, and the
    statuses of a two-test Python job on it. *)
Definition healthy_services : env workE Z :=
  {| answer e s := match e return resp e * Z with
                   | inl e => answer healthy_host e s
                   | inr (StoreSave _) => (Returned (s, None), s)
                   | inr (BusPublish _ _) => (Returned None, s)
                   | inr (CounterInc _ _) => (Returned tt, s)
                   | inr (HistogramObserve _ _ _) => (Returned tt, s)
                   | inr Hostname => (("host", None), s)
                   | inr (AuditPrintln _) => (tt, s)
                   | inr DebugStack => ("", s)
                   end |}.

Definition two_tests : SubmissionJob :=
  {| j_SubmissionID := "sub-7"; j_Language := "py"; j_Code := "print(1)"; j_TimeLimitMs := 1000;
     j_MemoryLimitMB := 64; j_CpuQuota := of_Z 1; j_PidsLimit := 8; j_MaxOutputBytes := 100;
     j_SandboxType := "auto";
     j_TestCases := [{| tc_ID := "a"; tc_Input := ""; tc_ExpectedOutput := "1"; tc_IsHidden := false |};
                     {| tc_ID := "b"; tc_Input := ""; tc_ExpectedOutput := "2"; tc_IsHidden := true |}];
     j_EnqueuedAt := 1 |}.

Example ProcessJob_runs :
  let '(tr, o, _) := run healthy_services
    (@ProcessJob ascii_only "linux" (Some two_tests)) 0%Z in
  o = Returned None /\
  ev_Status <$> published_of tr =
    ["RUNNING"; "TESTCASE_START"; "TESTCASE_PASSED"; "TESTCASE_START"; "TESTCASE_FAILED";
     "COMPLETED"] /\
  st_Verdict <$> saved_of tr = ["ACCEPTED"; "WRONG_ANSWER"] /\
  (fun st => tr_Stdout <$> st_Results st) <$> saved_of tr
    = [[]; [of_bytes [Ascii.ascii_of_nat 49; newline]; "[Hidden Testcase]"]].
Proof. vm_compute. done. Qed.
