(* ===== verification/Pool.v ===== *)
(** * The worker pool (pkg/worker/pool.go)

    The pool's fields and its goroutines as a transition system: the callers of
    [Start] and [Stop] and the worker loops take steps in any order, and the
    queue answers a [Dequeue] as it likes.  The goroutines of a pool never crash
    as long as [ProcessJob] returns, which Worker.v shows; here it returns. *)

From S2P Require Import Prelude GoStrings GoFloat Go OS Models Queue.

Record PoolConfig := { Concurrency : Z; PollTimeout : Z; WorkerID : string }.

(** The defaults of [NewWorkerPool]. *)
Definition pool_config (cfg : PoolConfig) : PoolConfig :=
  {| Concurrency := if bool_decide (Concurrency cfg <= 0)%Z then 4%Z else Concurrency cfg;
     PollTimeout := if bool_decide (PollTimeout cfg <= 0)%Z then (2 * Second)%Z
                    else PollTimeout cfg;
     WorkerID := if bool_decide (WorkerID cfg = "") then "worker-daemon" else WorkerID cfg |}.

(** Where a worker goroutine is in its loop. *)
Inductive worker :=
| AtSelect
| Dequeuing
| Sleeping
| Counting (job : SubmissionJob)  (* between the two counters *)
| Processing (job : SubmissionJob)
| Exited.

(** The fields of the pool, its goroutines, the calls of [Start] that still have
    workers to launch, the calls of [Stop] that wait, and the context. *)
Record pool := {
  p_cfg : PoolConfig;
  p_stopped : bool;        (* stopCh is closed *)
  p_wg : Z;
  p_activeJobs : Z;
  p_totalJobs : Z;
  p_running : bool;
  p_locked : bool;         (* mu was left locked by a panic *)
  p_workers : list worker;
  p_starting : list nat;
  p_stopping : nat;
  p_cancelled : bool;      (* ctx is done *)
}.

Definition NewWorkerPool (cfg : PoolConfig) : pool :=
  {| p_cfg := pool_config cfg; p_stopped := false; p_wg := 0; p_activeJobs := 0;
     p_totalJobs := 0; p_running := false; p_locked := false; p_workers := []; p_starting := []; p_stopping := 0;
     p_cancelled := false |}.

(** Updates of the fields a step touches. *)
Definition set_workers (p : pool) (ws : list worker) : pool :=
  {| p_cfg := p_cfg p; p_stopped := p_stopped p; p_wg := p_wg p; p_activeJobs := p_activeJobs p;
     p_totalJobs := p_totalJobs p; p_running := p_running p; p_locked := p_locked p; p_workers := ws;
     p_starting := p_starting p; p_stopping := p_stopping p; p_cancelled := p_cancelled p |}.

Definition add_counters (p : pool) (wg active total : Z) : pool :=
  {| p_cfg := p_cfg p; p_stopped := p_stopped p; p_wg := p_wg p + wg;
     p_activeJobs := p_activeJobs p + active; p_totalJobs := p_totalJobs p + total;
     p_running := p_running p; p_locked := p_locked p; p_workers := p_workers p;
     p_starting := p_starting p; p_stopping := p_stopping p; p_cancelled := p_cancelled p |}.

Definition set_control (p : pool) (stopped running : bool) (starting : list nat) (stopping : nat)
    : pool :=
  {| p_cfg := p_cfg p; p_stopped := stopped; p_wg := p_wg p; p_activeJobs := p_activeJobs p;
     p_totalJobs := p_totalJobs p; p_running := running; p_locked := p_locked p; p_workers := p_workers p;
     p_starting := starting; p_stopping := stopping; p_cancelled := p_cancelled p |}.

Definition lock_forever (p : pool) : pool :=
  {| p_cfg := p_cfg p; p_stopped := p_stopped p; p_wg := p_wg p; p_activeJobs := p_activeJobs p;
     p_totalJobs := p_totalJobs p; p_running := p_running p; p_locked := true;
     p_workers := p_workers p; p_starting := p_starting p; p_stopping := p_stopping p;
     p_cancelled := p_cancelled p |}.

Definition cancel (p : pool) : pool :=
  {| p_cfg := p_cfg p; p_stopped := p_stopped p; p_wg := p_wg p; p_activeJobs := p_activeJobs p;
     p_totalJobs := p_totalJobs p; p_running := p_running p; p_locked := p_locked p; p_workers := p_workers p;
     p_starting := p_starting p; p_stopping := p_stopping p; p_cancelled := true |}.

(** ** The worker loop *)

(** What a worker sees: nothing, the answer of its [Dequeue], the end of its
    job or of its sleep. *)
Inductive input :=
| Tick
| DequeueErr (err : error)
| DequeueJob (job : SubmissionJob)
| JobDone.

(** One step of [workerLoop]: the next place and the change of the counters
    wg, active and total.  The select has two exits and a default. *)
Definition worker_step (stopped cancelled : bool) (w : worker) (i : input)
    : option (worker * (Z * Z * Z)) :=
  match w, i with
  | AtSelect, Tick =>
      if stopped || cancelled then Some (Exited, (-1, 0, 0)%Z) else Some (Dequeuing, (0, 0, 0)%Z)
  | Dequeuing, DequeueErr err =>
      if errors_Is err ErrQueueEmpty then Some (AtSelect, (0, 0, 0)%Z)
      else if errors_Is err ErrQueueClosed || cancelled then Some (Exited, (-1, 0, 0)%Z)
      else Some (Sleeping, (0, 0, 0)%Z)
  | Dequeuing, DequeueJob job => Some (Counting job, (0, 1, 0)%Z)
  | Sleeping, Tick => Some (AtSelect, (0, 0, 0)%Z)
  | Counting job, Tick => Some (Processing job, (0, 0, 1)%Z)
  | Processing _, JobDone => Some (AtSelect, (0, -1, 0)%Z)
  | _, _ => None
  end.

Inductive plabel :=
| PStart (launched : bool)
| PSpawn
| PWorker (i : nat) (inp : input)
| PStop (closing : bool)
| PStopped
| PStopPanic
| PCancel.

Inductive pstep : pool -> plabel -> pool -> Prop :=
| pstep_start_again p :
    p_locked p = false -> p_running p = true -> pstep p (PStart false) p
| pstep_start p :
    p_locked p = false -> p_running p = false ->
    pstep p (PStart true)
      (set_control p (p_stopped p) true (Z.to_nat (Concurrency (p_cfg p)) :: p_starting p)
         (p_stopping p))
| pstep_spawn p l1 n l2 :
    p_starting p = l1 ++ S n :: l2 ->
    pstep p PSpawn
      (set_workers (add_counters (set_control p (p_stopped p) (p_running p) (l1 ++ n :: l2)
         (p_stopping p)) 1 0 0) (p_workers p ++ [AtSelect]))
| pstep_worker p i inp w w' wg act tot :
    p_workers p !! i = Some w ->
    worker_step (p_stopped p) (p_cancelled p) w inp = Some (w', (wg, act, tot)) ->
    pstep p (PWorker i inp) (set_workers (add_counters p wg act tot) (<[i := w']> (p_workers p)))
| pstep_stop_idle p :
    p_locked p = false -> p_running p = false -> pstep p (PStop false) p
| pstep_stop p :
    p_locked p = false -> p_running p = true -> p_stopped p = false ->
    pstep p (PStop true) (set_control p true false (p_starting p) (S (p_stopping p)))
| pstep_stop_panic p :
    (* close of the channel a former Stop has closed, with the lock held *)
    p_locked p = false -> p_running p = true -> p_stopped p = true ->
    pstep p PStopPanic (lock_forever (set_control p true false (p_starting p) (p_stopping p)))
| pstep_stopped p n :
    p_stopping p = S n -> p_wg p = 0%Z ->
    pstep p PStopped (set_control p (p_stopped p) (p_running p) (p_starting p) n)
| pstep_cancel p : pstep p PCancel (cancel p).

Inductive psteps : pool -> list plabel -> pool -> Prop :=
| psteps_refl p : psteps p [] p
| psteps_snoc p ls p' l p'' : psteps p ls p' -> pstep p' l p'' -> psteps p (ls ++ [l]) p''.

Definition ActiveJobs (p : pool) : Z := p_activeJobs p.
Definition TotalProcessed (p : pool) : Z := p_totalJobs p.

(** ** Counting workers *)

Definition live (w : worker) : Z := match w with Exited => 0 | _ => 1 end.
Definition busy (w : worker) : Z := match w with Counting _ | Processing _ => 1 | _ => 0 end.
Definition uncounted (w : worker) : Z := match w with Counting _ => 1 | _ => 0 end.
Definition fetching (w : worker) : Z := match w with Dequeuing => 1 | _ => 0 end.

Definition zsum (f : worker -> Z) (ws : list worker) : Z := foldr (fun w n => f w + n)%Z 0%Z ws.

(** The jobs handed to the workers, and the jobs they finished. *)
Definition taken (ls : list plabel) : list SubmissionJob :=
  omap (fun l => match l with PWorker _ (DequeueJob j) => Some j | _ => None end) ls.
Definition finished (ls : list plabel) : Z :=
  foldr (fun l n => match l with PWorker _ JobDone => 1 + n | _ => n end)%Z 0%Z ls.

Lemma zsum_cons f w ws : zsum f (w :: ws) = (f w + zsum f ws)%Z.
Proof. done. Qed.

Lemma zsum_app f l1 l2 : zsum f (l1 ++ l2) = (zsum f l1 + zsum f l2)%Z.
Proof. induction l1 as [|w l1 IH]; [done|]. rewrite <- app_comm_cons, !zsum_cons. lia. Qed.

Lemma zsum_insert f ws i w w' :
  ws !! i = Some w -> zsum f (<[i := w']> ws) = (zsum f ws - f w + f w')%Z.
Proof.
  revert i. induction ws as [|x ws IH]; intros [|i] H; try done.
  - injection H as ->. cbn. lia.
  - change (<[S i:=w']> (x :: ws)) with (x :: <[i:=w']> ws).
    rewrite !zsum_cons, (IH i H). lia.
Qed.

Lemma zsum_nonneg f ws : (forall w, (0 <= f w)%Z) -> (0 <= zsum f ws)%Z.
Proof. intros H. induction ws as [|w ws IH]; [done|]. rewrite !zsum_cons. specialize (H w). lia. Qed.

Lemma zsum_le f g ws : (forall w, (f w <= g w)%Z) -> (zsum f ws <= zsum g ws)%Z.
Proof. intros H. induction ws as [|w ws IH]; [done|]. rewrite !zsum_cons. specialize (H w). lia. Qed.

(** ** The invariant *)

(** The counters say what the workers are doing and what was done. *)
Record pool_ok (p : pool) (ls : list plabel) : Prop := {
  po_wg : p_wg p = zsum live (p_workers p);
  po_active : p_activeJobs p = zsum busy (p_workers p);
  po_total : (p_totalJobs p + zsum uncounted (p_workers p))%Z = len (taken ls);
  po_finished : len (taken ls) = (finished ls + zsum busy (p_workers p))%Z;
}.

Lemma taken_app l1 l2 : taken (l1 ++ l2) = taken l1 ++ taken l2.
Proof. apply omap_app. Qed.

Lemma finished_cons l ls : finished (l :: ls) = (finished [l] + finished ls)%Z.
Proof. unfold finished. cbn [foldr]. repeat case_match; lia. Qed.

Lemma finished_snoc ls l : finished (ls ++ [l]) = (finished ls + finished [l])%Z.
Proof.
  induction ls as [|x ls IH]; [done|]. rewrite <- app_comm_cons, finished_cons, IH.
  rewrite (finished_cons x ls). lia.
Qed.

Lemma psteps_total cfg ls p : psteps (NewWorkerPool cfg) ls p -> (0 <= p_totalJobs p)%Z.
Proof.
  intros Hs. remember (NewWorkerPool cfg) as p0. induction Hs as [|p0 ls p1 l p2 _ IH Hstep]; subst;
    [done|]. specialize (IH eq_refl). destruct Hstep as [| | |p i inp w w' wg act tot _ Hw| | | | |];
    try done; [cbn; lia|]. cbn.
  destruct w, inp; cbn in Hw; try done; repeat case_match; simplify_eq; lia.
Qed.

(** How one step of a worker moves the counts. *)
Lemma worker_step_counts st ca w inp w' wg act tot :
  worker_step st ca w inp = Some (w', (wg, act, tot)) ->
  wg = (live w' - live w)%Z /\ act = (busy w' - busy w)%Z /\
  (tot + uncounted w' - uncounted w)%Z = len (taken [PWorker 0 inp]) /\
  len (taken [PWorker 0 inp]) = (finished [PWorker 0 inp] + busy w' - busy w)%Z /\
  (st = true -> (len (taken [PWorker 0 inp]) + fetching w' <= fetching w)%Z).
Proof.
  destruct w, inp as [|err|j|]; cbn; try done; repeat case_match; intros [= <- <- <- <-];
    simplify_eq; cbn; unfold len; cbn; split_and!; try lia; try done;
    intros; subst; cbn in *; try done; lia.
Qed.

Lemma taken_worker i inp : taken [PWorker i inp] = taken [PWorker 0 inp].
Proof. done. Qed.

Ltac pool_simpl :=
  cbn [set_workers add_counters set_control cancel lock_forever p_wg p_activeJobs p_totalJobs
       p_workers p_stopped].

Lemma pstep_ok p ls l p' : pool_ok p ls -> pstep p l p' -> pool_ok p' (ls ++ [l]).
Proof.
  intros [H1 H2 H3 H4] Hs.
  assert (Hquiet : forall wg act tot q, taken [l] = [] -> finished [l] = 0%Z ->
    p_workers q = p_workers p -> p_wg q = p_wg p -> p_activeJobs q = p_activeJobs p ->
    p_totalJobs q = p_totalJobs p -> (wg, act, tot) = (0, 0, 0)%Z -> pool_ok q (ls ++ [l])).
  { intros ??? q Ht Hf Hw ? ? ? _. split; rewrite ?taken_app, ?finished_snoc, ?Ht, ?Hf, ?app_nil_r, ?Hw; lia. }
  destruct Hs as [p _ Hr|p _ Hr|p l1 n l2 Hst|p i inp w w' wg act tot Hw Hstep|p _ Hr|p _ Hr Hst|p _ Hr Hst
    |p n Hst Hwg|p]; try (by eapply (Hquiet 0 0 0)%Z).
  - assert (Ht : taken [PSpawn] = []) by done. assert (Hf : finished [PSpawn] = 0%Z) by done.
    assert (Hone : forall f, zsum f [AtSelect] = (f AtSelect + 0)%Z) by done.
    split; pool_simpl; rewrite ?taken_app, ?finished_snoc, ?Ht, ?Hf, ?app_nil_r, ?zsum_app, ?Hone;
      cbn [live busy uncounted]; lia.
  - apply worker_step_counts in Hstep as (-> & -> & Ht & Hf & _).
    assert (Hfi : finished [PWorker i inp] = finished [PWorker 0 inp]) by done.
    split; pool_simpl; rewrite ?taken_app, ?finished_snoc, ?len_app, ?(zsum_insert _ _ _ _ _ Hw),
      ?(taken_worker i), ?Hfi; lia.
Qed.

Lemma psteps_ok cfg ls p : psteps (NewWorkerPool cfg) ls p -> pool_ok p ls.
Proof.
  intros Hs. remember (NewWorkerPool cfg) as p0. induction Hs; subst; [done|].
  eapply pstep_ok; eauto.
Qed.

Lemma zsum_zero_exited ws : zsum live ws = 0%Z -> Forall (fun w => w = Exited) ws.
Proof.
  induction ws as [|w ws IH]; [by constructor|]. rewrite zsum_cons. intros H.
  pose proof (zsum_nonneg live ws ltac:(by intros [])). constructor; [|apply IH];
    destruct w; cbn in *; try done; lia.
Qed.

Lemma zsum_exited f ws : f Exited = 0%Z -> Forall (fun w => w = Exited) ws -> zsum f ws = 0%Z.
Proof. intros Hf. induction 1 as [|w ws -> _ IH]; [done|]. rewrite zsum_cons. lia. Qed.

(** A stopped pool stays stopped and only finishes the fetches under way. *)
Lemma psteps_stopped p ls p' :
  p_stopped p = true -> psteps p ls p' ->
  p_stopped p' = true /\
  (len (taken ls) + zsum fetching (p_workers p') <= zsum fetching (p_workers p))%Z.
Proof.
  intros Hst Hs. induction Hs as [p|p ls p1 l p2 _ IH Hstep]; [split; [done|]; by rewrite Z.add_0_l|].
  destruct (IH Hst) as [Hst1 Hle]. rewrite taken_app, len_app.
  destruct Hstep as [|p1|p1 l1 n l2|p1 i inp w w' wg act tot Hw Hws|p1|p1|p1|p1|p1]; pool_simpl;
    try (split; [done|]; match goal with |- context [len (taken [?l])] =>
           change (len (taken [l])) with 0%Z end; lia).
  - split; [done|]. rewrite zsum_app. change (zsum fetching [AtSelect]) with 0%Z.
    change (len (taken [PSpawn])) with 0%Z. lia.
  - apply worker_step_counts in Hws as (_ & _ & _ & _ & Hf). specialize (Hf Hst1).
    split; [done|]. rewrite (zsum_insert _ _ _ _ _ Hw).
    change (taken [PWorker i inp]) with (taken [PWorker 0 inp]). lia.
Qed.

Lemma zsum_one ws : zsum (fun _ => 1%Z) ws = len ws.
Proof. unfold len. induction ws as [|w ws IH]; [done|]. rewrite zsum_cons. cbn [length]. lia. Qed.

(** ** Properties *)

(** C33: whatever the interleaving of starts, stops and workers, the counters are
    right: the active jobs are those taken from the queue and not finished, at
    most one per live worker, and none of the counts is ever negative; and
    when a [Stop] returns, every worker launched so far has exited, no job is
    active, and every job taken has been finished and counted. *)
Theorem pool_graceful_stop (cfg : PoolConfig) (ls : list plabel) (p : pool)
    (Hs : psteps (NewWorkerPool cfg) ls p) :
  ActiveJobs p = (len (taken ls) - finished ls)%Z /\
  (0 <= ActiveJobs p <= p_wg p)%Z /\ (p_wg p <= len (p_workers p))%Z /\
  (0 <= TotalProcessed p <= len (taken ls))%Z /\
  (forall p', pstep p PStopped p' ->
     Forall (fun w => w = Exited) (p_workers p') /\ ActiveJobs p' = 0%Z /\
     finished ls = len (taken ls) /\ TotalProcessed p' = len (taken ls)).
Proof.
  destruct (psteps_ok _ _ _ Hs) as [H1 H2 H3 H4]. unfold ActiveJobs, TotalProcessed.
  pose proof (zsum_nonneg busy (p_workers p) ltac:(by intros [])).
  pose proof (zsum_nonneg uncounted (p_workers p) ltac:(by intros [])).
  pose proof (zsum_le busy live (p_workers p) ltac:(by intros [])).
  pose proof (zsum_le live (fun _ => 1%Z) (p_workers p) ltac:(by intros [])) as Hle.
  pose proof (zsum_one (p_workers p)).
  pose proof (psteps_total cfg ls p Hs).
  split_and!; try lia. intros p' Hst. inversion Hst as [| | | | | | |q n Hn Hwg|]; subst. cbn.
  assert (Hex : Forall (fun w => w = Exited) (p_workers p)) by (apply zsum_zero_exited; lia).
  pose proof (zsum_exited busy _ eq_refl Hex). pose proof (zsum_exited uncounted _ eq_refl Hex).
  split_and!; [done|lia..].
Qed.

Lemma psteps_cons p l p' ls p'' : pstep p l p' -> psteps p' ls p'' -> psteps p (l :: ls) p''.
Proof.
  intros H Hs. induction Hs as [q|q ls q1 l' q2 _ IH Hstep].
  - apply (psteps_snoc p [] p l q); [constructor|done].
  - rewrite app_comm_cons. eapply psteps_snoc; [by apply IH|done].
Qed.

Definition one_worker : PoolConfig := {| Concurrency := 1; PollTimeout := 0; WorkerID := "" |}.

(** One worker takes one job, and the pool is stopped while it runs. *)
Definition sample_trace : list plabel :=
  [PStart true; PSpawn; PWorker 0 Tick; PWorker 0 (DequeueJob (sample_job "a")); PWorker 0 Tick;
   PStop true; PWorker 0 JobDone; PWorker 0 Tick].

Lemma sample_trace_runs :
  exists p, psteps (NewWorkerPool one_worker) sample_trace p /\ exists p', pstep p PStopped p'.
Proof.
  eexists. split.
  - unfold sample_trace.
    eapply psteps_cons; [by apply pstep_start|].
    eapply psteps_cons; [by apply (pstep_spawn _ [] 0 [])|].
    do 3 (eapply psteps_cons; [by eapply pstep_worker|]).
    eapply psteps_cons; [by apply pstep_stop|].
    do 2 (eapply psteps_cons; [by eapply pstep_worker|]).
    apply psteps_refl.
  - eexists. by eapply (pstep_stopped _ 0).
Qed.

Lemma pool_graceful_stop_witness :
  exists p p', pstep p PStopped p' /\ ActiveJobs p' = 0%Z /\ TotalProcessed p' = 1%Z.
Proof.
  destruct sample_trace_runs as (p & Hs & p' & Hst). exists p, p'.
  destruct (pool_graceful_stop one_worker sample_trace p Hs) as (_ & _ & _ & _ & H).
  destruct (H p' Hst) as (_ & H1 & _ & H2). exact (conj Hst (conj H1 H2)).
Defined.

(** C34: once a [Stop] has closed the channel, each worker takes at most the one
    job it was already waiting for, so the work left is bounded by the number
    of workers; and the pool cannot be used again: workers launched by a later
    [Start] exit without taking any job, and the [Stop] after it always
    panics, with the pool's lock held. *)
Theorem pool_stop_is_final (p : pool) (ls : list plabel) (p' : pool)
    (Hstopped : p_stopped p = true) (Hs : psteps p ls p') :
  (len (taken ls) <= zsum fetching (p_workers p) <= len (p_workers p))%Z /\
  (Forall (fun w => w = Exited) (p_workers p) -> taken ls = []) /\
  (forall q, ~ pstep p' (PStop true) q) /\
  (p_locked p' = false -> p_running p' = true -> exists q, pstep p' PStopPanic q) /\
  (p_locked p' = false -> p_running p' = false ->
     exists q r, pstep p' (PStart true) q /\ pstep q PStopPanic r).
Proof.
  destruct (psteps_stopped p ls p' Hstopped Hs) as [Hst Hle].
  pose proof (zsum_nonneg fetching (p_workers p') ltac:(by intros [])).
  pose proof (zsum_le fetching (fun _ => 1%Z) (p_workers p) ltac:(by intros [])).
  assert (zsum (fun _ => 1%Z) (p_workers p) = len (p_workers p)) by apply zsum_one.
  split_and!; [lia|lia| | | |].
  - intros Hex. pose proof (zsum_exited fetching _ eq_refl Hex).
    destruct (taken ls); [done|]. unfold len in *. cbn in *. lia.
  - intros q Hq. inversion Hq. congruence.
  - intros Hl Hr. eexists. by apply pstep_stop_panic.
  - intros Hl Hr. eexists _, _. split; [by apply pstep_start|]. by apply pstep_stop_panic.
Qed.

Lemma pool_stop_is_final_witness :
  exists q r, pstep (set_control (NewWorkerPool one_worker) true false [] 0) (PStart true) q /\
    pstep q PStopPanic r.
Proof.
  destruct (pool_stop_is_final (set_control (NewWorkerPool one_worker) true false [] 0) [] _
    eq_refl (psteps_refl _)) as (_ & _ & _ & _ & H).
  exact (H eq_refl eq_refl).
Defined.

(** ** Stopping ends *)

(** The steps that are not calls of [Start], [Stop] or [cancel] from outside. *)
Definition internal (l : plabel) : Prop :=
  match l with PSpawn | PWorker _ _ | PStopped => True | _ => False end.

(** How many steps a worker of a stopped pool may still take. *)
Definition steps_left (w : worker) : Z :=
  match w with
  | Exited => 0
  | AtSelect => 1
  | Processing _ | Sleeping => 2
  | Counting _ => 3
  | Dequeuing => 4
  end.

Definition to_launch (p : pool) : Z := Z.of_nat (sum_list (p_starting p)).

(** A worker still to launch takes its launch and one step. *)
Definition remaining (p : pool) : Z :=
  zsum steps_left (p_workers p) + 2 * to_launch p + Z.of_nat (p_stopping p).

Lemma worker_step_left ca w inp w' d :
  worker_step true ca w inp = Some (w', d) -> (steps_left w' < steps_left w)%Z.
Proof. destruct w, inp; cbn; try done; repeat case_match; intros [= <- <-]; done. Qed.

Lemma sum_list_app l1 l2 : sum_list (l1 ++ l2) = sum_list l1 + sum_list l2.
Proof. apply sum_list_with_app. Qed.

Lemma pstep_remaining p l p' :
  p_stopped p = true -> internal l -> pstep p l p' -> (remaining p' < remaining p)%Z.
Proof.
  intros Hst Hl Hs. unfold remaining, to_launch.
  destruct Hs as [p|p|p l1 n l2 Hsp|p i inp w w' wg act tot Hw Hws|p|p|p|p n Hn|p]; try done; pool_simpl;
    cbn [p_starting p_stopping set_workers add_counters set_control].
  - rewrite Hsp, zsum_app, !sum_list_app. change (zsum steps_left [AtSelect]) with 1%Z.
    change (sum_list (S n :: l2)) with (S n + sum_list l2). change (sum_list (n :: l2)) with (n + sum_list l2). lia.
  - rewrite Hst in Hws. apply worker_step_left in Hws. rewrite (zsum_insert _ _ _ _ _ Hw). lia.
  - lia.
Qed.

Lemma psteps_remaining p ls p' :
  p_stopped p = true -> Forall internal ls -> psteps p ls p' ->
  p_stopped p' = true /\ (len ls + remaining p' <= remaining p)%Z.
Proof.
  intros Hst Hi Hs. induction Hs as [p|p ls p1 l p2 Hs IH Hstep]; [split; [done|]; by rewrite Z.add_0_l|].
  apply Forall_app in Hi as [Hi Hl]. apply Forall_cons in Hl as [Hl _]. destruct (IH Hst Hi) as [H1 H2].
  pose proof (pstep_remaining p1 l p2 H1 Hl Hstep). split; [|rewrite len_app; change (len [l]) with 1%Z; lia].
  apply (psteps_stopped p1 [l] p2 H1). apply (psteps_snoc p1 [] p1 l p2); [constructor|done].
Qed.

Lemma steps_left_nonneg w : (0 <= steps_left w)%Z.
Proof. by destruct w. Qed.

Lemma remaining_nonneg p : (0 <= remaining p)%Z.
Proof. unfold remaining, to_launch. pose proof (zsum_nonneg steps_left (p_workers p) steps_left_nonneg). lia. Qed.

(** A worker that has not exited can move, once its call has returned. *)
Lemma worker_can_step st ca w : w <> Exited -> exists inp r, worker_step st ca w inp = Some r.
Proof.
  destruct w; [| | | | |done]; intros _.
  - exists Tick. cbn. destruct (st || ca); by eexists.
  - exists (DequeueErr (Sentinel ErrQueueEmpty)). by eexists.
  - exists Tick. by eexists.
  - exists Tick. by eexists.
  - exists JobDone. by eexists.
Qed.

Lemma not_exited ws : Forall (fun w => w = Exited) ws \/ exists i w, ws !! i = Some w /\ w <> Exited.
Proof.
  induction ws as [|w ws [IH|(i & x & Hi & Hx)]]; [by left| |right; by exists (S i), x].
  destruct w; [right; by exists 0; eexists..|]. left. by constructor.
Qed.

Lemma zero_or_split l : sum_list l = 0 \/ exists l1 n l2, l = l1 ++ S n :: l2.
Proof.
  induction l as [|[|n] l [IH|(l1 & m & l2 & ->)]]; [by left| | | |].
  - by left.
  - right. by exists (0 :: l1), m, l2.
  - right. by exists [], n, l.
  - right. by exists (S n :: l1), m, l2.
Qed.

Lemma psteps_app p ls1 p1 ls2 p2 : psteps p ls1 p1 -> psteps p1 ls2 p2 -> psteps p (ls1 ++ ls2) p2.
Proof.
  intros H1 H2. induction H2 as [q|q ls q1 l q2 _ IH Hstep]; [by rewrite app_nil_r|].
  rewrite app_assoc. eapply psteps_snoc; [by apply IH|done].
Qed.

(** C20: stopping ends.  In a reachable pool whose channel is closed, every run of
    launches, worker steps and returns of [Stop] is bounded by what is left
    to do, at most four steps for each worker, two for each one still to be
    launched and one for each waiting [Stop]; and as long as the queue and the
    jobs answer there is a next step until all workers have exited, none is
    left to launch and every [Stop] has returned. *)
Theorem pool_stop_terminates (cfg : PoolConfig) (ls0 : list plabel) (p : pool)
    (Hreach : psteps (NewWorkerPool cfg) ls0 p) (Hst : p_stopped p = true)
    (ls : list plabel) (p' : pool) (Hint : Forall internal ls) (Hs : psteps p ls p') :
  (len ls <= 4 * len (p_workers p) + 2 * to_launch p + Z.of_nat (p_stopping p))%Z /\
  ((exists l q, internal l /\ pstep p' l q) \/
   (Forall (fun w => w = Exited) (p_workers p') /\ to_launch p' = 0%Z /\ p_stopping p' = 0)).
Proof.
  destruct (psteps_remaining p ls p' Hst Hint Hs) as [_ Hlen].
  pose proof (remaining_nonneg p') as H0. split.
  - pose proof (zsum_le steps_left (fun _ => 4%Z) (p_workers p) ltac:(by intros [])).
    assert (H4 : forall ws, zsum (fun _ => 4%Z) ws = (4 * len ws)%Z).
    { induction ws as [|w ws IH]; [done|]. rewrite zsum_cons, IH. unfold len. cbn [length]. lia. }
    rewrite H4 in *. unfold remaining in Hlen at 2. lia.
  - destruct (not_exited (p_workers p')) as [Hex|(i & w & Hi & Hw)].
    2:{ left. destruct (worker_can_step (p_stopped p') (p_cancelled p') w Hw) as (inp & [w' [[wg act] tot]] & Hws).
        eexists (PWorker i inp), _. split; [done|]. by eapply pstep_worker. }
    destruct (zero_or_split (p_starting p')) as [Hz|(l1 & n & l2 & Hsp)].
    2:{ left. eexists PSpawn, _. split; [done|]. by eapply pstep_spawn. }
    destruct (p_stopping p') as [|n] eqn:Hn; [right; unfold to_launch; by rewrite Hz|].
    left. eexists PStopped, _. split; [done|]. eapply pstep_stopped; [done|].
    assert (Hok : exists ls', psteps (NewWorkerPool cfg) ls' p') by (eexists; by eapply psteps_app).
    destruct Hok as [ls' Hok]. rewrite (po_wg _ _ (psteps_ok _ _ _ Hok)). by apply zsum_exited.
Qed.

(** The pool of the sample, stopped while its worker runs a job. *)
Lemma stopping_sample :
  exists p p', psteps (NewWorkerPool one_worker) (take 6 sample_trace) p /\
    psteps p [PWorker 0 JobDone; PWorker 0 Tick; PStopped] p' /\ p_stopped p = true /\
    Forall (fun w => w = Exited) (p_workers p').
Proof.
  eexists _, _. split; [|split].
  - unfold sample_trace. cbn [take].
    eapply psteps_cons; [by apply pstep_start|].
    eapply psteps_cons; [by apply (pstep_spawn _ [] 0 [])|].
    do 3 (eapply psteps_cons; [by eapply pstep_worker|]).
    eapply psteps_cons; [by apply pstep_stop|]. apply psteps_refl.
  - do 2 (eapply psteps_cons; [by eapply pstep_worker|]).
    eapply psteps_cons; [by eapply (pstep_stopped _ 0)|]. apply psteps_refl.
  - split; [done|]. by constructor.
Qed.

Lemma pool_stop_terminates_witness :
  exists p p', psteps p [PWorker 0 JobDone; PWorker 0 Tick; PStopped] p' /\
    (3 <= 4 * len (p_workers p) + 2 * to_launch p + Z.of_nat (p_stopping p))%Z /\
    Forall (fun w => w = Exited) (p_workers p').
Proof.
  destruct stopping_sample as (p & p' & Hreach & Hs & Hst & Hex). exists p, p'.
  destruct (pool_stop_terminates one_worker _ p Hreach Hst [PWorker 0 JobDone; PWorker 0 Tick; PStopped]
    p' ltac:(by repeat constructor) Hs) as [Hlen _].
  exact (conj Hs (conj Hlen Hex)).
Defined.
