(* ===== verification/Processing.v ===== *)
(** * A submission from the queue to its client

    [working] is the worker's side of the standalone process: the services of
    [ProcessJob] are the in-memory store and bus, any host runs the programs.
    What a job does to the bus is a list of publications, the same a session of
    its client (Standalone.v) sees as the work of another goroutine; so the two
    sides meet in one theorem. *)

From S2P Require Import Prelude GoStrings GoFloat Go OS Models Languages FilePath.
From S2P Require Import Json JsonString JsonNumber JsonTime Codec Chan Queue Events Store Wire Api WebSocket.
From S2P Require Import Standalone Services Metrics Security Sandbox Select Worker.

(** ** The publications of a job are its own *)

Definition addressed (id : string) (e : workE) : Prop :=
  match e with inr (BusPublish id' ev) => id' = id /\ ev_SubmissionID ev = id | _ => True end.

Lemma every_publish id e : ev_SubmissionID e = id -> every (addressed id) (publish id e).
Proof. intros He. unfold publish, try_call, svc. every_run. done. Qed.

Lemma every_save id st : every (addressed id) (save st).
Proof. unfold save, try_call, svc. every_run. Qed.

Lemma every_metrics id lang verdict sandbox wall cpu peak :
  every (addressed id) (RecordSubmissionMetrics lang verdict sandbox wall cpu peak).
Proof. unfold RecordSubmissionMetrics, inc, observe_value, try_call, svc. every_run. Qed.

Lemma every_violation id v : every (addressed id) (RecordViolation v).
Proof. unfold RecordViolation, inc, try_call, svc. every_run. Qed.

Lemma every_audit id job backend l : every (addressed id) (audit job backend l).
Proof.
  unfold audit, LogViolation, svc, os. every_run. all: try apply every_violation. all: every_run.
Qed.

(** The parts of a job, by the parts they are made of. *)
Ltac job_calls :=
  every_run;
  try first [by apply every_publish|apply every_save|apply every_metrics|apply every_violation|apply every_audit].

Lemma every_fail id lang total verdict details comp :
  every (addressed id) (failSubmission id lang total verdict details comp).
Proof. unfold failSubmission, os. job_calls. Qed.

Lemma every_run_case sb sCtx id total s itc : every (addressed id) (run_case sb sCtx id total s itc).
Proof.
  destruct itc as [i tc]. unfold run_case, os. job_calls.
  apply every_publish. unfold outcome_event. by case_bool_decide.
Qed.

Lemma every_evaluate sb sCtx job comp : every (addressed (j_SubmissionID job)) (evaluate sb sCtx job comp).
Proof. unfold evaluate, os. job_calls. apply every_foldM. intros. apply every_run_case. Qed.

Lemma every_compile sb sCtx lang job :
  every (addressed (j_SubmissionID job)) (compile_and_evaluate sb sCtx lang job).
Proof.
  unfold compile_and_evaluate, os. job_calls. all: first [apply every_fail|apply every_evaluate].
Qed.

Lemma every_ProcessJob `{UnicodeLower} `{Platform} job :
  every (addressed (j_SubmissionID job)) (ProcessJob (Some job)).
Proof.
  unfold ProcessJob. apply every_recover.
  { intros m. unfold on_panic, os, svc. job_calls. }
  unfold process. job_calls. all: first [apply every_fail|apply every_compile].
Qed.

(** ** The worker on the in-memory services *)

Record site (H : Type) := {
  si_store : MemoryStore;
  si_bus : MemoryEventBus;
  si_ops : list op;                 (* what has been done to the bus *)
  si_host : H;
}.
Arguments si_store {H} _.
Arguments si_bus {H} _.
Arguments si_ops {H} _.
Arguments si_host {H} _.

Section Processing.
Context {H : Type} (host : env osE H) (clock : H -> time) (hostname : string * option error).

Definition work_answer (e : workE) (w : site H) : resp e * site H :=
  let now := clock (si_host w) in
  match e return resp e * site H with
  | inl e => let (r, h) := answer host e (si_host w) in
             (r, {| si_store := si_store w; si_bus := si_bus w; si_ops := si_ops w; si_host := h |})
  | inr (StoreSave st) =>
      let '(s, _, err) := memory_SaveState now (si_store w) (Some st) in
      (Returned (now, err), {| si_store := s; si_bus := si_bus w; si_ops := si_ops w; si_host := si_host w |})
  | inr (BusPublish id e) =>
      match Publish now (si_bus w) id (Some e) with
      | Returned m => (Returned None,
                       {| si_store := si_store w; si_bus := m;
                          si_ops := si_ops w ++ [DoPublish now id (Some e)]; si_host := si_host w |})
      | Panicked msg => (Panicked msg, w)
      end
  | inr (CounterInc _ _) => (Returned tt, w)
  | inr (HistogramObserve _ _ _) => (Returned tt, w)
  | inr Hostname => (hostname, w)
  | inr (AuditPrintln _) => (tt, w)
  | inr DebugStack => ("", w)
  end.

Definition working : env workE (site H) := {| answer := work_answer |}.

(** What a stretch of work did: no service panicked, the bus went through these
    publications for the submission, and the store through these saves. *)
Record worked (id : string) (w : site H) (tr : list (event workE)) (w' : site H)
    (ops : list op) (ws : list (time * SubmissionState)) : Prop := {
  wk_panics : panics tr = 0;
  wk_ops : si_ops w' = si_ops w ++ ops;
  wk_bus : run_ops (si_bus w) ops = Returned (si_bus w', []);
  wk_ok : bus_ok (si_bus w');
  wk_published : untimed <$> published id ops = untimed <$> published_of tr;
  wk_store : save_all (si_store w) ws = Some (si_store w');
  wk_saved : snd <$> ws = saved_of tr;
}.

Lemma save_all_app (s : MemoryStore) ws1 ws2 :
  save_all s (ws1 ++ ws2) = save_all s ws1 ≫= fun s' => save_all s' ws2.
Proof.
  revert s. induction ws1 as [|[now st] ws1 IH]; intros s; [done|]. cbn. apply IH.
Qed.

Lemma run_ops_quiet m ops1 ops2 m1 :
  run_ops m ops1 = Returned (m1, []) -> run_ops m (ops1 ++ ops2) = run_ops m1 ops2.
Proof.
  revert m. induction ops1 as [|o ops1 IH]; intros m; cbn [run_ops app]; [by intros [= ->]|].
  destruct (exec m o) as [[m' out]|]; [|done]. destruct (run_ops m' ops1) as [[m2 out2]|] eqn:Hr; [|done].
  intros [= -> [-> ->]%app_nil]. rewrite (IH _ Hr). by destruct (run_ops m1 ops2) as [[]|].
Qed.

Lemma worked_nil id w : bus_ok (si_bus w) -> worked id w [] w [] [].
Proof. intros Hok. split; try done. by rewrite app_nil_r. Qed.

Lemma worked_app id w t1 w1 o1 s1 t2 w2 o2 s2 :
  worked id w t1 w1 o1 s1 -> worked id w1 t2 w2 o2 s2 -> worked id w (t1 ++ t2) w2 (o1 ++ o2) (s1 ++ s2).
Proof.
  intros [P1 O1 B1 K1 U1 S1 V1] [P2 O2 B2 K2 U2 S2 V2]. split.
  - by rewrite panics_app, P1, P2.
  - by rewrite O2, O1, app_assoc.
  - by rewrite (run_ops_quiet _ _ _ _ B1).
  - done.
  - by rewrite published_of_app, published_app, !fmap_app, U1, U2.
  - by rewrite save_all_app, S1.
  - by rewrite saved_of_app, fmap_app, V1, V2.
Qed.

Lemma answer_worked id e w :
  addressed id e -> bus_ok (si_bus w) ->
  exists ops ws, worked id w [Ev e (work_answer e w).1] (work_answer e w).2 ops ws.
Proof.
  intros Ha Hok. destruct e as [e|[st|id' ev|name labels|name labels v| |ev|]].
  4-8: exists [], []; split; try done; cbn; by rewrite app_nil_r.
  - exists [], []. cbn. destruct (answer host e (si_host w)) as [r h]. cbn.
    split; try done. cbn. by rewrite app_nil_r.
  - exists [], [(clock (si_host w), st)]. split; try done. cbn. by rewrite app_nil_r.
  - destruct Ha as [-> Hid]. destruct (Publish_spec (clock (si_host w)) (si_bus w) id ev Hok) as (h & Hp & Hok' & _).
    exists [DoPublish (clock (si_host w)) id (Some ev)], []. unfold work_answer. rewrite Hp.
    split; try done.
    + cbn [run_ops exec fst snd]. by rewrite Hp.
    + unfold published, published_of. cbn [omap list_omap ev_call]. rewrite decide_True by done.
      cbn [fmap list_fmap]. f_equal. by destruct ev; cbn in *; subst.
Qed.

Lemma run_worked id {A} (p : prog workE A) : every (addressed id) p -> forall w, bus_ok (si_bus w) ->
  exists ops ws, worked id w (run working p w).1.1 (run working p w).2 ops ws.
Proof.
  induction p as [a|m|e k IH]; intros Hp w Hok; cbn in *; [by exists [], []; apply worked_nil..|].
  destruct Hp as [He Hk]. destruct (answer_worked id e w He Hok) as (o1 & s1 & W1).
  destruct (work_answer e w) as [r w1]. cbn [fst snd] in *.
  destruct (IH r (Hk r) w1 (wk_ok _ _ _ _ _ _ W1)) as (o2 & s2 & W2).
  destruct (run working (k r) w1) as [[tr o] w2]. cbn [fst snd] in *.
  exists (o1 ++ o2), (s1 ++ s2). apply (worked_app id w [Ev e r] w1 o1 s1 tr w2 o2 s2 W1 W2).
Qed.

(** A job on the in-memory services always ends by itself. *)
Lemma working_summary `{UnicodeLower} `{Platform} job w :
  bus_ok (si_bus w) ->
  let r := run working (ProcessJob (Some job)) w in
  r.1.2 = Returned None /\
  exists ops ws pre e sts st, worked (j_SubmissionID job) w r.1.1 r.2 ops ws /\ summary job r.1.1 pre e sts st.
Proof.
  intros Hok r. destruct (run_worked _ _ (every_ProcessJob job) w Hok) as (ops & ws & W). fold r in W.
  pose proof (run_wp working _ _ [] w (ProcessJob_ok job)) as [_ Hr]. cbn [app] in Hr. fold r in Hr.
  pose proof (wk_panics _ _ _ _ _ _ W) as Hp.
  destruct Hr as [(_ & Ho & Hrep)|[(t1 & t2 & msg & _ & Hp' & _)|(Hp' & _)]]; [|congruence..].
  split; [done|]. destruct (report_summary _ _ Hrep) as (pre & e & sts & st & Hs). by exists ops, ws, pre, e, sts, st.
Qed.

Lemma last_saved_other id ws :
  Forall (fun st => st_SubmissionID st <> id) (snd <$> ws) -> last_saved id ws = None.
Proof.
  induction ws as [|[now st] ws IH]; [done|]. cbn [fmap list_fmap]. intros [Hne Hws]%Forall_cons.
  cbn. by rewrite IH, decide_False.
Qed.

Lemma last_saved_snoc id ws now st :
  st_SubmissionID st = id -> last_saved id (ws ++ [(now, st)]) = Some (set_updated now st).
Proof.
  intros Hid. induction ws as [|[t s] ws IH]; cbn; [by rewrite decide_True|]. by rewrite IH.
Qed.

(** Events that agree up to their timestamps agree on their ends. *)
Lemma untimed_split l pre e :
  untimed <$> l = pre ++ [e] ->
  exists pre' e', l = pre' ++ [e'] /\ untimed <$> pre' = pre /\ untimed e' = e.
Proof.
  intros (pre' & l2 & -> & Hl & ->)%fmap_app_inv. destruct l2 as [|e' [|? ?]]; try done.
  injection Hl as ->. by exists pre', e'.
Qed.

Lemma not_terminal_running pre :
  Forall (fun e => ~ terminal e) (untimed <$> pre) -> Forall (fun e => is_final (ev_Status e) = false) pre.
Proof.
  rewrite Forall_fmap. intros Hp. eapply Forall_impl; [exact Hp|]. intros e Hn. unfold is_final.
  apply orb_false_iff. split; apply bool_decide_eq_false_2; intros Hs; apply Hn; [by left|by right].
Qed.

Lemma terminal_final e : terminal (untimed e) -> is_final (ev_Status e) = true.
Proof. intros [Hs|Hs]; cbn in Hs; unfold is_final; by rewrite Hs. Qed.

(** A session that starts when the submission is finished. *)
Lemma finished_session `{LocalZone} now_text metrics_page rounds id (s : world) st :
  memory_GetState (w_store s) id = inr st -> is_final (st_Status st) = true ->
  sent (run (standalone now_text metrics_page) (ws_session rounds id) s).1.1
    = [encoded ExecutionEvent_codec (final_event (w_now s) st)].
Proof.
  intros Hg Hf. unfold ws_session. rewrite run_bind, run_get, Hg. cbv beta iota zeta.
  by rewrite Hf.
Qed.

Section Served.
Context `{UnicodeLower} `{Platform} `{LocalZone} (now_text : string -> string) (metrics_page : http_response).

(** C1: a submission in the standalone process, from its job to its clients,
    whatever the host does.  Processing its job returns normally and makes a
    list of publications on the bus, in which one final event comes last, and
    leaves the submission's state in the store with that event's status and
    verdict, and all other states alone.  A client that subscribed before and
    sees these publications is sent all of them and then the farewell, if the
    job has at most 30 test cases, so that the 64 events a subscriber can wait
    for hold them all; a client that comes later is sent the final state. *)
Theorem submission_served (job : SubmissionJob) (w : site H) (Hbus : bus_ok (si_bus w)) :
  let id := j_SubmissionID job in
  let r := run working (ProcessJob (Some job)) w in
  r.1.2 = Returned None /\
  exists ops pre e st,
    si_ops r.2 = si_ops w ++ ops /\ run_ops (si_bus w) ops = Returned (si_bus r.2, []) /\
    published id ops = pre ++ [e] /\ is_final (ev_Status e) = true /\
    Forall (fun e => is_final (ev_Status e) = false) pre /\
    memory_GetState (si_store r.2) id = inr st /\ st_Status st = ev_Status e /\ st_Verdict st = ev_Verdict e /\
    (forall id', id' <> id -> memory_GetState (si_store r.2) id' = memory_GetState (si_store w) id') /\
    (forall s rounds, length (job_cases job) <= 30 -> is_Some (Marshal ExecutionEvent_codec e) ->
       unfinished (memory_GetState (w_store s) id) -> subscribing s -> delivering (tail (w_script s)) ->
       published id (ops_of (tail (w_script s))) = published id ops -> length (w_script s) + 64 <= rounds ->
       let c := run (standalone now_text metrics_page) (ws_session rounds id) s in
       c.1.2 = Returned tt /\ sent c.1.1 = omap (Marshal ExecutionEvent_codec) (pre ++ [e]) /\
       count_calls is_goodbye c.1.1 = 1) /\
    (forall s rounds, w_store s = si_store r.2 ->
       sent (run (standalone now_text metrics_page) (ws_session rounds id) s).1.1
         = [encoded ExecutionEvent_codec (final_event (w_now s) st)]).
Proof.
  intros id r. destruct (working_summary job w Hbus) as [Ho (ops & ws & pre0 & e0 & sts & st0 & W & S)].
  fold r in Ho, W, S. split; [done|]. destruct W as [_ Wo Wb _ Wp Ws Wv], S as [Sp Ss Spre Sfin Sst Sve _ Sid Slen].
  rewrite Sp in Wp. destruct (untimed_split _ _ _ Wp) as (pre & e & Hpub & <- & <-).
  rewrite Ss in Wv. apply fmap_app_inv in Wv as (ws1 & ws2 & -> & Hw2 & ->).
  destruct ws2 as [|[now st1] [|? ?]]; try done. injection Hw2 as ->.
  apply Forall_app in Sid as [Hsid [Hid _]%Forall_cons]. cbn [snd] in *.
  pose proof (fun id' => save_all_get id' _ _ _ (Forall_true _ _ (fun _ => I)) Ws) as Hget. cbn [GetState] in Hget.
  assert (Hst : memory_GetState (si_store r.2) id = inr (set_updated now st1)).
  { specialize (Hget id). by rewrite last_saved_snoc in Hget. }
  pose proof (terminal_final e Sfin) as Hfin. pose proof (not_terminal_running pre Spre) as Hrun.
  exists ops, pre, e, (set_updated now st1). split_and!; try done.
  - intros id' Hne. specialize (Hget id'). rewrite last_saved_other in Hget; [done|].
    rewrite fmap_app. apply Forall_app. split; [|constructor; [|done]; cbn; rewrite Hid; by intros <-].
    eapply Forall_impl; [exact Hsid|]. intros st' ->. by intros <-.
  - intros s rounds Hn He Hu Hs Hd Hp Hr. rewrite length_fmap in Slen.
    destruct (session_complete now_text metrics_page id rounds s pre e []) as (Hc1 & Hc2 & Hc3 & _); try done.
    + by rewrite Hp.
    + rewrite length_app. cbn [length]. lia.
    + apply not_true_is_false. intros (e' & Hin & He')%existsb_exists.
      apply list_elem_of_In in Hin. rewrite Forall_forall in Hrun. unfold ends_stream in He'. by rewrite (Hrun e' Hin) in He'.
    + unfold ends_stream. rewrite Hfin. by destruct He as [? ->].
  - intros s rounds Hs. apply finished_session; [by rewrite Hs|].
    cbn. change (st_Status st1 = ev_Status (untimed e)) in Sst. rewrite Sst. done.
Qed.

End Served.

End Processing.

(** The two-test job of Worker.v on a healthy host, and a client that was there
    before: it is told of every step and bid farewell. *)
Definition fresh_site : site Z :=
  {| si_store := NewMemoryStore; si_bus := NewMemoryEventBus; si_ops := []; si_host := 0%Z |}.

Definition done_site : site Z :=
  (run (working Engine.healthy_host id ("host", None))
     (@ProcessJob ascii_only "linux" (Some two_tests)) fresh_site).2.

Definition early_client : world :=
  standalone_start 1 [] [([], Deliver); (si_ops done_site, Deliver)].

Definition is_publish (o : op) : bool := match o with DoPublish _ _ _ => true | _ => false end.

Lemma publications_foreign i ops : forallb is_publish ops = true -> Forall (foreign i) ops.
Proof.
  intros Hp. apply Forall_forall. intros o Hin. apply list_elem_of_In in Hin.
  pose proof (proj1 (forallb_forall _ _) Hp o Hin) as Ho. by destruct o.
Qed.

Definition has_json (l : list ExecutionEvent) : bool :=
  forallb (fun e => isSome (Marshal (ExecutionEvent_codec (H := utc)) e)) l.

Lemma isSome_true {A} (o : option A) : isSome o = true -> is_Some o.
Proof. destruct o as [a|]; [by exists a|done]. Qed.

Lemma last_has_json l pre e :
  has_json l = true -> l = pre ++ [e] -> is_Some (Marshal (ExecutionEvent_codec (H := utc)) e).
Proof.
  intros Hl ->. apply isSome_true. refine (proj1 (forallb_forall _ _) Hl e _).
  apply list_elem_of_In. set_solver.
Qed.

Lemma submission_served_witness :
  count_calls is_goodbye
    (run (standalone id quiet_page) (ws_session (LZ := utc) 66 (j_SubmissionID two_tests)) early_client).1.1 = 1.
Proof.
  destruct (@submission_served Z Engine.healthy_host id ("host", None) ascii_only "linux" utc id quiet_page
    two_tests fresh_site NewMemoryEventBus_ok)
    as [_ (ops & pre & e & st & Ho & _ & Hp & _ & _ & _ & _ & _ & _ & Hc & _)].
  assert (Heq : ops = si_ops done_site) by (symmetry; exact Ho).
  assert (Hm : has_json (published (j_SubmissionID two_tests) ops) = true)
    by (rewrite Heq; vm_compute; reflexivity).
  apply (Hc early_client 66).
  - vm_compute. lia.
  - exact (last_has_json _ pre e Hm Hp).
  - by intros state [=].
  - split; [apply NewMemoryEventBus_ok|reflexivity|]. apply publications_foreign. vm_compute. reflexivity.
  - by constructor.
  - rewrite Heq. apply (f_equal (published (j_SubmissionID two_tests))), app_nil_r.
  - vm_compute. lia.
Defined.
