(* ===== verification/Mains.v ===== *)
(** * The daemons (cmd/api/main.go, cmd/worker/main.go)

    Each [main] chooses its services by the Redis URL, starts what serves them,
    waits for a signal and shuts down.  A program of [mainE] is the order of
    these actions; parsing the URL, the connection and the signals are the
    libraries' and the host's.  [log.Fatalf] ends the process without running
    what was deferred: it is the result [FatalExit].  [AwaitSignal] answers
    with what [ListenAndServe] returned in the server's goroutine, if it did
    before the signal came. *)

From S2P Require Import Prelude GoStrings GoFloat Go OS Models Json JsonString JsonNumber JsonTime Codec.
From S2P Require Import Queue Events Store Wire Redis Api Pool.

Inductive services := InMemory (capacity : Z) | OnRedis (queueKey : string) (ttl : Z).

Inductive mainE :=
| ParseURL (url : string)
| Ping
| Hostname
| UUID
| StartPool (cfg : PoolConfig)
| StartServer (cfg : ServerConfig)
| AwaitSignal
| ShutdownServer
| CloseQueue (s : services)
| CloseBus (s : services)
| CloseStore (s : services)
| StopPool
| Cancel.

#[export] Instance mainE_effect : Effect mainE := fun e =>
  match e with
  | ParseURL _ | Ping | AwaitSignal | ShutdownServer => option error
  | Hostname | UUID => string
  | StartPool _ | StartServer _ | CloseQueue _ | CloseBus _ | CloseStore _ | StopPool | Cancel => unit
  end.




(** ** cmd/api *)







(** ** cmd/worker *)




(** ** Properties *)







